(* ===== verification/_CoqProject ===== *)
-Q . S2P
Prelude.v
Arch.v
Fmt.v
MmuConfig.v
FrameTypes.v
Layout.v
Uart.v
Sync.v
WeakMem.v
WeakOnce.v
WeakStatics.v
Buddy.v
BuddyInv.v
BuddyGeom.v
BuddyWf.v
BuddySteps.v
BuddyCore.v
BuddyFree.v
BuddyRange.v
BuddyCanon.v
BuddyProps.v
BuddyAddr.v
BuddyTypes.v
KaniBuddy.v
Bootmem.v
BootmemProps.v
KaniBootmem.v
Boot.v
PageTable.v
PageTableProps.v
Frame.v
KernelMap.v
KernelMapProps.v
Mmu.v
BootStub.v
Slab.v
SlabInv.v
KaniMm.v
SlabProps.v
Exceptions.v
Bytes.v
MemMap.v
MemMapProps.v
HeapMem.v
HeapMemProps.v
Percpu.v
Smp.v
SmpProps.v
Locks.v
WeakLocks.v
WeakProgress.v
KernelOps.v
KernelCalls.v
KernelWeak.v
KaniArch.v
Report.v
SysReg.v
Kmain.v
KmainProps.v
KmainSwitch.v
Secondary.v
