(* ===== verification/Prelude.v ===== *)
(** * Preon: a verification library for the kernel's core

    Preon is an AArch64 kernel in Rust.  This library models the parts of
    [src/kernel/] that carry its logic, proves what makes each of them correct,
    and is built in the order of [_CoqProject].  This first file is the header of
    the library and its shared prelude.

    ** The program and its parts

    The boot stub ([core/asm/boot.s]) clears memory, builds trampoline tables and
    enters [kmain] ([core/main.rs]).  [kmain] sets up the per-CPU areas
    ([arch/percpu.rs]), builds the kernel's address space ([mm/kernel_map.rs]) with
    the page-table walker ([mm/page_table.rs]), whose frames come from a bump pool
    ([mm/frame.rs]), and switches to it ([mm/mmu.rs]); it builds a boot-time interval
    allocator from the device tree ([mm/bootmem.rs]), places the page descriptors and
    hands all unreserved RAM to the buddy allocator ([mm/buddy.rs]), which from then on
    feeds the page source and the slab heap ([mm/slab.rs]); it starts the other CPUs
    through the firmware ([cpu/smp.rs], [cpu/psci.rs], [cpu/asm/secondary.s]) and
    reclaims the trampoline.  Locks and one-shot cells ([builtin/sync.rs]) guard the
    statics; exceptions enter by the vectors of [asm/ventry.s] into
    [exceptions/handlers.rs] and print to the UART ([builtin/uart.rs]), as a panic
    does ([exceptions/panic.rs]).

    ** How code becomes definitions

    - Machine integers are [Z] with the machine's range written out: [uadd],
      [usub], [umul] and the shifts panic in a profile with overflow checks and
      wrap otherwise.  The class [Profile] carries that choice, [release] and
      [release_dev] are the two profiles of [Cargo.toml], and theorems without a
      named profile hold in both.
    - Fallible code returns [outcome]: [Ok v] or [Panic r], where [r] says which
      assertion, index, [unwrap] or arithmetic step stopped it.  A Rust [Result]
      or [Option] is a value under [Ok].  A theorem that an operation "returns"
      is [op = Ok _]: it rules out every panic and exhaustion of fuel.
    - Stateful code is explicit state passing in that monad ([let!]); bounded
      loops are [while], [loop] or [foldM] of a step function, and a slice index is
      [idx] / [set_idx], which panic out of range.
    - What runs concurrently is an [Inductive] step relation with its reachable
      states ([Sync]); what a client may do in any order is one too (the heap of
      [SlabProps], the allocator of [BuddyProps]).
    - A definition has the name of its Rust item, [Type_method] for a method.

    ** The files

    - [Prelude]: outcomes, profiles, machine arithmetic, arrays, loops, tactics.
    - [Arch], [MmuConfig]: [arch/mm.rs], [arch/reg.rs], [arch/exceptions.rs];
      [mm/types.rs], [mm/attrs.rs], [mm/tcr.rs].
    - [FrameTypes], [Layout]: [mm/types.rs] and [mm/layout.rs].
    - [Fmt]: the text of log lines, as the format specifiers make it, and a reader that
      gets numbers back.
    - [Uart]: [builtin/mmio.rs], [builtin/uart.rs]; the class [PL011] is what the
      device's manual promises, and the writer is proved against it.
    - [Sync]: [builtin/sync.rs], one atomic access at a time.  [WeakMem]: an atomic cell
      under [core::sync::atomic]'s orderings, where stale values can be read and unordered
      accesses to ordinary memory race; [WeakOnce]: [Once] on it; [WeakStatics]: the
      page pool's counter and the word of online CPUs on it.
    - [Buddy]: [mm/buddy.rs] as it runs.  [BuddyInv] (the intrusive lists),
      [BuddyGeom] (geometry of blocks), [BuddyWf] (the invariant), [BuddySteps],
      [BuddyCore], [BuddyFree], [BuddyRange], [BuddyCanon] carry its proofs;
      [BuddyProps] has its contract, with the abstract allocator [AbsState] and
      the refinement; [BuddyAddr] restates it in physical addresses for clients;
      [BuddyTypes] shows that its fields stay in their declared widths.
    - [Bootmem], [BootmemProps]: [mm/bootmem.rs] and its contract.
    - [Boot]: [mm/ram.rs] and the hand-off functions of [core/main.rs].
    - [PageTable], [PageTableProps]: [mm/page_table.rs]; the hardware's walk; the
      class [FrameSource], the contract the walker needs from its frame allocator.
    - [Frame]: [mm/frame.rs]; its instance of [FrameSource].
    - [KernelMap], [KernelMapProps]: [mm/kernel_map.rs] and the theorems about
      [map] and [build], with the page source of [Frame] in the witnesses.
    - [Slab], [SlabInv], [SlabProps]: [mm/slab.rs], its invariant, its contract.
    - [Bytes]: memory as bytes, little-endian accesses, and the [repr(C)] layout of the
      structs that assembly and raw pointers reach into.  [MemMap]: [mm/buddy.rs] once more,
      as loads and stores of the fields of the descriptors in the mem-map;
      [MemMapProps] relates it to [Buddy] step by step.  [HeapMem], [HeapMemProps]: the
      heap, [init_buddy] and their clients on one memory of bytes, related to [Slab].
    - [Mmu]: [mm/mmu.rs] on one CPU's registers, table walker and TLB, with walks and
      fills at any moment.
    - [BootStub]: [core/asm/boot.s]: the entry, the clearing loops, the trampoline.
    - [Percpu], [Smp], [SmpProps]: [arch/percpu.rs], [cpu/types.rs],
      [cpu/psci.rs], [cpu/smp.rs]; a secondary CPU is the registers it ends up with, its
      translation registers among them.
    - [Locks]: CPUs whose calls take several [SpinLock]s, any number of them at once,
      one access at a time, and the specification where a call happens as a whole.
      [KernelOps]: the operations that take [ALLOCATOR], [BUDDY] or [UART], with their
      [lock()] calls; [KernelCalls]: what holds when CPUs call them concurrently.
      [WeakLocks]: the machine of [Locks] on weak memory, and that it is no weaker;
      [WeakProgress]: that it gets no less far;
      [KernelWeak]: the kernel's calls on it.
    - [Exceptions]: the vectors' save and restore, and the handlers.  [Report]: the
      text they print, and [exceptions/panic.rs].  [SysReg]: the macros of
      [arch/lib.rs] as events of interaction trees, and the code that reads and writes
      system registers through them, down to the loop in which it parks.
    - [Kmain]: [core/main.rs] as one function over the statics, memory and registers;
      where it uses the device tree, the blob is read through the tables in force.
      [KmainProps] discharges each step's precondition from what the steps before it
      guarantee: [board_ok] is what a board must provide, [booted] what holds at the
      end.  [KmainSwitch] is the change of address space, [Secondary] the code of
      [cpu/asm/secondary.s] on the tables that [kmain] built.
    - [KaniBuddy], [KaniBootmem], [KaniMm], [KaniArch]: the proof harnesses that the
      source carries under [cfg(kani)], each as a function of its arbitrary inputs with
      its assumptions, proved for every input they admit.

    ** What the theorems show

    - The whole boot: [kernel_boots] runs from the stub's first instruction to the last
      log line and says for which stated reasons it may panic, and otherwise what the
      whole address space, the allocators, the heap and the CPUs are; no byte that the
      address space depends on is managed by an allocator, nor the device tree, nor the
      page descriptors, nor of the image anything but the reclaimed trampoline; and the
      console has been sent exactly the boot's lines.  The board must keep the device
      tree in the gigabyte of RAM that the trampoline maps.  [duo_boots] runs the model on
      a board with two CPUs.
    - Address spaces: [trampoline_maps] (what the stub maps, of all 2^64 addresses),
      [switches_keep_kernel] (no kernel access is disturbed while the roots change),
      [disable_ttbr0_safe], [secondary_lands] (a started CPU arrives on the same map),
      [secondary_root_freed] (and keeps the low half, whose tables are then given away).
    - Buddy: [serve_refines_spec] (every call implements the abstract step),
      [reachable_never_overlaps] (no history of calls hands a frame out twice, and the
      counter counts the free frames), and each operation's behaviour on each branch;
      freeing an allocation gives back the same frames, grants and counter, and the same
      blocks when nothing was left unmerged ([free_undoes_alloc]); refusal means that
      no free block is large enough ([alloc_refuses_only_when_full]).
    - Boot memory: reservation, allocation and the hole walk are exact, the span is the
      hull of the RAM regions ([ram_span_tight]); the hand-off frees exactly the unreserved frames; trampoline reclaim frees
      exactly its pages.
    - Page tables: [map] installs the requested translation and no other, or
      panics when a block lies above the target's level; the built kernel map
      translates every RAM byte, the image and the console.
    - Heap: objects live at once never overlap, in every reachable state; each branch of
      [alloc] and [dealloc] has its exact effect on lists, memory and the page allocator.
    - Bytes: the descriptors as structs in RAM that held anything are the list of records
      that [Buddy] works on, so all that is proved of it holds of the bytes
      ([memmap_refines_spec]); descriptors, links and clients' data share one memory, and
      no allocator ever stores into a range that a client holds ([heap_on_bytes]).
    - Concurrency: whatever the CPUs call at once, and however the accesses interleave,
      the calls are those of some order of whole calls, lines on the console are whole
      ([kernel_calls_atomic]), on weak memory too, where the acquire and release that the
      code asks for rule out every data race ([kernel_race_free]); memory held by
      different CPUs is apart ([concurrent_heap_sound], [weak_heap_sound]), nobody
      deadlocks ([weak_never_deadlocks]) and the calls that cannot panic all
      return ([weak_calls_complete]: all but [alloc_page], with its [expect], and
      [reclaim_trampoline]).
    - SMP: every CPU brought up has an index, a per-CPU area, a control block and
      a stack of its own, and is seen online.
    - Sync: mutual exclusion, atomic sections, single initialisation, under every
      interleaving and, for what is published, every stale read ([once_publishes]); what a
      CPU did before it came online is known to who sees it online ([online_publishes]).
    - Exceptions and console: the interrupted context is restored, exceptions are
      classified, what is printed reaches the device and can be read back, and every
      handler and the panic handler print their report and park ([stops_after_report]).
    - Types: no operation of the buddy allocator leaves the widths its fields are
      declared with, consistent or not ([buddy_types_preserved]).
    - Harnesses: every assertion of the source's own proof harnesses, for every input
      their assumptions admit and with their loops followed to the end.
    - Limits: theorems that state where the code's behaviour differs from its
      intent (the online bitmap, alignment of page-sized requests, alignment of
      the per-CPU areas, the low half of the address space after [disable_ttbr0] and
      on the secondary CPUs).

    ** Bounds and fuel

    Loops carry a fuel that the code's own bound justifies: 11 orders for the
    buddy's split and merge loops, the number of frames for [free_range], the
    array lengths of the boot allocator, three descents for the page-table walk,
    the number of pages or blocks in a region for the mapping loops.  Every theorem about such a loop
    says that it ends with [Ok], so none depends on the fuel running out.  Waiting
    loops ([wait_for], the UART's poll) have no bound in the code; their theorems
    say that some fuel, given by the other side's progress, suffices.

    ** Not modelled

    - Barriers and cache maintenance, other than their part in table walks and the
      addresses cleaned.
    - In [WeakMem] a CPU's own accesses happen in the order of its code; the language
      allows more only to relaxed accesses, of which the pool's counter is the only one
      that CPUs share.  The fence before [cpu_on], and memory that the firmware or a
      device reads, are outside it.
    - The [fdt] crate and [core::panic::PanicInfo]: they are arguments.
    - In the machine of [KernelCalls], [BUDDY] is up, and a CPU's stores into memory that
      it holds, the zeroing of a granted page among them, are no steps: they touch
      nothing behind a lock.  [reclaim_trampoline] gives away memory that no call has
      granted, so [concurrent_heap_sound] and [weak_heap_sound] speak of histories
      without it; the other theorems there include it.
    - [Kmain] and the machines of [Locks] keep the descriptors as the list that
      [MemMapProps] shows them to be; the stores of the page-table walker are aligned words,
      and the boot data of a CPU is a record, whose offsets [layouts_agree] compares with
      the assembly's.
    - User-space, tools, build scripts, and the driver crate's stubs. *)

From Stdlib Require Export ZArith Lia Bool.
From stdpp Require Export base list gmap fin_maps functions numbers.

#[export] Set Default Goal Selector "!".
Open Scope Z_scope.

(* ------------------------------------------------------------------------- *)
(** ** Outcomes: the values of fallible code *)

(** Why execution stopped.  [Undefined] is undefined behaviour reached through
    [unsafe]; [OutOfFuel] is an artefact of bounded loops, proved unreachable
    wherever a loop is modelled. *)
Inductive panic_reason :=
  | ArithOverflow | IndexOutOfBounds | DebugAssert | AssertFailed
  | UnwrapNone | ExplicitPanic | DataAbort | Undefined | OutOfFuel.

#[export] Instance panic_reason_eq_dec : EqDecision panic_reason.
Proof. solve_decision. Defined.

Inductive outcome (A : Type) :=
  | Ok (a : A)
  | Panic (r : panic_reason).
Arguments Ok {A} a.
Arguments Panic {A} r.

#[export] Instance outcome_eq_dec {A} `{EqDecision A} : EqDecision (outcome A).
Proof. solve_decision. Defined.

Definition obind {A B} (m : outcome A) (k : A -> outcome B) : outcome B :=
  match m with Ok a => k a | Panic r => Panic r end.

Declare Scope outcome_scope.
Delimit Scope outcome_scope with outcome.
Notation "'let!' x := m 'in' k" := (obind m (fun x => k))
  (at level 10, x binder, m at level 100, k at level 200,
   format "'[v' 'let!'  x  :=  m  'in' '/' k ']'") : outcome_scope.
Notation "'let!' ' p := m 'in' k" := (obind m (fun p => k))
  (at level 10, p pattern, m at level 100, k at level 200) : outcome_scope.
Open Scope outcome_scope.

Lemma obind_Ok {A B} (a : A) (k : A -> outcome B) : obind (Ok a) k = k a.
Proof. reflexivity. Qed.

Lemma obind_Ok_inv {A B} (m : outcome A) (k : A -> outcome B) b :
  obind m k = Ok b -> exists a, m = Ok a /\ k a = Ok b.
Proof. destruct m; simpl; [eauto | discriminate]. Qed.

(** [Option::unwrap] / [expect]. *)
Definition unwrap {A} (o : option A) : outcome A :=
  match o with Some a => Ok a | None => Panic UnwrapNone end.

(** [assert!]. *)
Definition assert_ (b : bool) : outcome unit :=
  if b then Ok tt else Panic AssertFailed.

(** [kani::assume]: an execution where [b] fails is discarded. *)
Definition assume (b : bool) (k : outcome unit) : outcome unit := if b then k else Ok tt.
Notation "'assume!' b 'in' k" := (assume b k)
  (at level 10, b at level 99, k at level 200, format "'[v' 'assume!'  b  'in' '/' k ']'") : outcome_scope.

(** [assert!(e == v)]. *)
Definition assert_eq {A} `{EqDecision A} (e : outcome A) (v : A) : outcome unit :=
  let! x := e in assert_ (bool_decide (x = v)).

Lemma assert_true b : b = true -> assert_ b = Ok tt.
Proof. by intros ->. Qed.

Lemma assert_eq_ok {A} `{EqDecision A} (v : A) : assert_eq (Ok v) v = Ok tt.
Proof. unfold assert_eq. cbn. by rewrite bool_decide_true. Qed.

Lemma assume_ok b k : (b = true -> k = Ok tt) -> assume b k = Ok tt.
Proof. destruct b; cbn; auto. Qed.

(** Split the assumptions of a harness into hypotheses. *)
Ltac assumptions :=
  repeat (apply assume_ok; intros ?);
  repeat match goal with
  | H : _ && _ = true |- _ => apply andb_true_iff in H as [? ?]
  | H : negb _ = true |- _ => apply negb_true_iff in H
  | H : (_ <? _) = true |- _ => apply Z.ltb_lt in H
  | H : (_ <=? _) = true |- _ => apply Z.leb_le in H
  | H : (_ =? _) = true |- _ => apply Z.eqb_eq in H
  end.

(** A property of every input in a finite range is decided by running through it. *)
Lemma range_forallb (Q : Z -> Prop) `{forall x, Decision (Q x)} lo hi :
  forallb (fun x => bool_decide (Q x)) (seqZ lo (hi - lo)) = true <-> forall x, lo <= x < hi -> Q x.
Proof.
  rewrite forallb_forall. setoid_rewrite <-list_elem_of_In. setoid_rewrite elem_of_seqZ.
  setoid_rewrite bool_decide_eq_true. split; intros HQ x Hx; apply HQ; lia.
Qed.

#[export] Instance range_dec (Q : Z -> Prop) `{forall x, Decision (Q x)} lo hi :
  Decision (forall x, lo <= x < hi -> Q x).
Proof.
  refine (cast_if (decide (forallb (fun x => bool_decide (Q x)) (seqZ lo (hi - lo)) = true)));
    by rewrite <-range_forallb.
Defined.

(** Prove a decidable goal by evaluating its decision. *)
Ltac run_decision :=
  match goal with |- ?Q => refine (@bool_decide_unpack Q _ _) end; vm_compute; exact I.

(** The build profile: [checked] holds of a profile with [debug-assertions]
    and [overflow-checks] (the workspace's [release-dev]), and not of plain
    [release], where debug assertions vanish and arithmetic wraps. *)
Class Profile := checked : bool.

Definition release : Profile := false.
Definition release_dev : Profile := true.

Section profile.
Context {P : Profile}.

(** [debug_assert!]. *)
Definition debug_assert (b : bool) : outcome unit :=
  if checked && negb b then Panic DebugAssert else Ok tt.

(** *** Unsigned machine integers of width [w], held as [Z] *)

(** The values of a [w]-bit unsigned type. *)
Definition unsigned (w x : Z) : Prop := 0 <= x < 2 ^ w.

Definition wrap (w x : Z) : Z := x mod 2 ^ w.

(** Overflow panics in a checked profile and wraps otherwise. *)
Definition arith (w x : Z) : outcome Z :=
  if (0 <=? x) && (x <? 2 ^ w) then Ok x
  else if checked then Panic ArithOverflow else Ok (wrap w x).

Definition uadd (w a b : Z) : outcome Z := arith w (a + b).
Definition usub (w a b : Z) : outcome Z := arith w (a - b).
Definition umul (w a b : Z) : outcome Z := arith w (a * b).

(** [a << s]: only the shift amount is checked; bits leave at the top. *)
Definition ushl (w a s : Z) : outcome Z :=
  if s <? w then Ok (wrap w (Z.shiftl a s))
  else if checked then Panic ArithOverflow
  else Ok (wrap w (Z.shiftl a (s mod w))).

(** [a % b] and [a / b] panic on a zero divisor in every profile. *)
Definition urem (a b : Z) : outcome Z :=
  if b =? 0 then Panic ArithOverflow else Ok (a mod b).
Definition udiv (a b : Z) : outcome Z :=
  if b =? 0 then Panic ArithOverflow else Ok (a / b).

Lemma debug_assert_true b : b = true -> debug_assert b = Ok tt.
Proof. intros ->. unfold debug_assert. by rewrite andb_false_r. Qed.

Lemma arith_ok w x : 0 <= x < 2 ^ w -> arith w x = Ok x.
Proof.
  intros [H1 H2]. unfold arith.
  apply Z.leb_le in H1. apply Z.ltb_lt in H2. by rewrite H1, H2.
Qed.
Lemma uadd_ok w a b : 0 <= a + b < 2 ^ w -> uadd w a b = Ok (a + b).
Proof. apply arith_ok. Qed.
Lemma usub_ok w a b : 0 <= a - b < 2 ^ w -> usub w a b = Ok (a - b).
Proof. apply arith_ok. Qed.
Lemma umul_ok w a b : 0 <= a * b < 2 ^ w -> umul w a b = Ok (a * b).
Proof. apply arith_ok. Qed.

Lemma ushl_one_ok w s : 0 <= s < w -> ushl w 1 s = Ok (2 ^ s).
Proof.
  intros [H1 H2]. unfold ushl. destruct (Z.ltb_spec s w); [|lia].
  rewrite Z.shiftl_1_l. unfold wrap. rewrite Z.mod_small; [done|].
  split; [apply Z.pow_nonneg; lia | apply Z.pow_lt_mono_r; lia].
Qed.

(** A result of checked arithmetic is always in range, whatever happened. *)
Lemma arith_range w x y : 0 <= w -> arith w x = Ok y -> 0 <= y < 2 ^ w.
Proof.
  intros Hw. unfold arith, wrap. destruct (_ && _) eqn:E.
  - intros [= <-]. apply andb_true_iff in E as [?%Z.leb_le ?%Z.ltb_lt]. lia.
  - destruct checked; intros [= <-]. apply Z.mod_pos_bound. lia.
Qed.
End profile.

(** [as u8] / [as u32] truncation. *)
Definition as_u8 (x : Z) : Z := wrap 8 x.
Definition as_u32 (x : Z) : Z := wrap 32 x.

Lemma wrap_small w x : 0 <= x < 2 ^ w -> wrap w x = x.
Proof. apply Z.mod_small. Qed.
Lemma as_u8_small x : 0 <= x < 2 ^ 8 -> as_u8 x = x.
Proof. apply wrap_small. Qed.
Lemma as_u32_small x : 0 <= x < 2 ^ 32 -> as_u32 x = x.
Proof. apply wrap_small. Qed.

(** [usize::div_ceil] (no overflow: the quotient is at most the dividend). *)
Definition div_ceil (a b : Z) : Z := if a mod b =? 0 then a / b else a / b + 1.

Lemma div_ceil_spec a b : 0 < b -> a <= div_ceil a b * b < a + b.
Proof.
  intros Hb. unfold div_ceil. pose proof (Z.div_mod a b).
  pose proof (Z.mod_pos_bound a b Hb).
  destruct (Z.eqb_spec (a mod b) 0); nia.
Qed.

Lemma div_ceil_sub a b : 0 < b -> div_ceil (a - b) b = div_ceil a b - 1.
Proof.
  intros Hb. unfold div_ceil. replace (a - b) with (a + (-1) * b) by lia.
  rewrite Z.mod_add, Z.div_add by lia. destruct (_ =? _); lia.
Qed.

Lemma div_ceil_mono a a' b : 0 < b -> a <= a' -> div_ceil a b <= div_ceil a' b.
Proof.
  intros Hb Ha. pose proof (div_ceil_spec a b Hb). pose proof (div_ceil_spec a' b Hb). nia.
Qed.

Lemma div_ceil_nonneg a b : 0 < b -> 0 <= a -> 0 <= div_ceil a b.
Proof. intros ? ?. pose proof (div_ceil_spec a b). nia. Qed.

(** [x.trailing_zeros()] of a [w]-bit integer. *)
Fixpoint pos_ctz (p : positive) : Z :=
  match p with xO q => 1 + pos_ctz q | _ => 0 end.
Definition trailing_zeros (w x : Z) : Z :=
  match x with Zpos p => pos_ctz p | _ => w end.

(** [x.leading_zeros()] of a [w]-bit integer. *)
Definition leading_zeros (w x : Z) : Z :=
  if x =? 0 then w else w - 1 - Z.log2 x.

Lemma pos_ctz_nonneg p : 0 <= pos_ctz p.
Proof. induction p; cbn [pos_ctz]; lia. Qed.

Lemma pos_ctz_divide p : (2 ^ pos_ctz p | Zpos p).
Proof.
  induction p as [p IH|p IH|]; cbn [pos_ctz]; [apply Z.divide_1_l| |apply Z.divide_1_l].
  rewrite Z.pow_add_r by (auto using pos_ctz_nonneg; lia).
  rewrite (Pos2Z.inj_xO p). by apply Z.mul_divide_mono_l.
Qed.

(** No larger power of two divides. *)
Lemma pos_ctz_largest p o : 0 <= o -> (2 ^ o | Zpos p) -> o <= pos_ctz p.
Proof.
  revert o. induction p as [p IH|p IH|]; cbn [pos_ctz]; intros o Ho Hd.
  - destruct (decide (o = 0)) as [->|]; [lia|]. exfalso. destruct Hd as [m Hm].
    replace o with (o - 1 + 1) in Hm by lia. rewrite Z.pow_add_r in Hm by lia.
    rewrite (Pos2Z.inj_xI p) in Hm. lia.
  - destruct (decide (o = 0)) as [->|]; [pose proof (pos_ctz_nonneg p); lia|].
    enough (o - 1 <= pos_ctz p) by lia. apply IH; [lia|]. destruct Hd as [m Hm]. exists m.
    replace o with (o - 1 + 1) in Hm by lia. rewrite Z.pow_add_r in Hm by lia.
    rewrite (Pos2Z.inj_xO p) in Hm. lia.
  - destruct (decide (o = 0)) as [->|]; [lia|]. apply Z.divide_pos_le in Hd; [|lia].
    assert (2 ^ 1 <= 2 ^ o) by (apply Z.pow_le_mono_r; lia). lia.
Qed.

Lemma trailing_zeros_largest w x o : 0 < x -> 0 <= o -> (2 ^ o | x) -> o <= trailing_zeros w x.
Proof. destruct x; simpl; intros; [lia|by apply pos_ctz_largest|lia]. Qed.

Lemma trailing_zeros_nonneg w x : 0 <= w -> 0 <= trailing_zeros w x.
Proof. destruct x; simpl; auto using pos_ctz_nonneg. Qed.

Lemma trailing_zeros_pow2 w k : 0 <= k -> trailing_zeros w (2 ^ k) = k.
Proof.
  intros Hk. pose proof (Z.pow_pos_nonneg 2 k ltac:(lia) Hk) as Hpos.
  apply Z.le_antisymm; [|apply trailing_zeros_largest; [done..|reflexivity]].
  destruct (2 ^ k) as [|p|p] eqn:E; [lia| |lia]. simpl.
  assert (2 ^ pos_ctz p <= 2 ^ k) as Hle; [|by apply Z.pow_le_mono_r_iff in Hle; [|lia..]].
  rewrite E. apply Z.divide_pos_le; [lia|apply pos_ctz_divide].
Qed.

Lemma trailing_zeros_divide w x : 0 <= x -> (2 ^ trailing_zeros w x | x).
Proof.
  destruct x; simpl; intros; [apply Z.divide_0_r | apply pos_ctz_divide | lia].
Qed.

(** [usize::next_power_of_two]: overflow panics in a checked profile, and is zero
    otherwise. *)
Definition next_power_of_two {P : Profile} (x : Z) : outcome Z :=
  let p := 2 ^ Z.log2_up x in
  if p <? 2 ^ 64 then Ok p else if checked then Panic ArithOverflow else Ok 0.

(* ------------------------------------------------------------------------- *)
(** ** Slices indexed by machine integers *)

Section slices.
Context {A : Type}.
Implicit Types (l : list A) (i j : Z).

Definition getz l i : option A := if 0 <=? i then l !! Z.to_nat i else None.
Definition setz l i (x : A) : list A := if 0 <=? i then <[Z.to_nat i := x]> l else l.

(** [l[i]] and [l[i] = x]: out of bounds panics in every profile. *)
Definition idx l i : outcome A :=
  match getz l i with Some x => Ok x | None => Panic IndexOutOfBounds end.
Definition set_idx l i (x : A) : outcome (list A) :=
  match getz l i with Some _ => Ok (setz l i x) | None => Panic IndexOutOfBounds end.

Definition lenz l : Z := Z.of_nat (length l).

Lemma getz_Some_range l i x : getz l i = Some x -> 0 <= i < lenz l.
Proof.
  unfold getz, lenz. destruct (Z.leb_spec 0 i); [|done].
  intros ?%lookup_lt_Some. lia.
Qed.
Lemma getz_is_Some l i : 0 <= i < lenz l -> exists x, getz l i = Some x.
Proof.
  unfold getz, lenz. intros [H1 H2]. destruct (Z.leb_spec 0 i); [|lia].
  apply lookup_lt_is_Some_2. lia.
Qed.
Lemma length_setz l i x : length (setz l i x) = length l.
Proof. unfold setz. destruct (0 <=? i); [apply length_insert | done]. Qed.
Lemma lenz_setz l i x : lenz (setz l i x) = lenz l.
Proof. unfold lenz. by rewrite length_setz. Qed.
Lemma getz_setz_eq l i x : 0 <= i < lenz l -> getz (setz l i x) i = Some x.
Proof.
  unfold getz, setz, lenz. intros [H1 H2]. destruct (Z.leb_spec 0 i); [|lia].
  apply list_lookup_insert_eq. lia.
Qed.
Lemma getz_setz_ne l i j x : i <> j -> getz (setz l i x) j = getz l j.
Proof.
  unfold getz, setz. intros Hne.
  destruct (Z.leb_spec 0 i); destruct (Z.leb_spec 0 j); try done.
  apply list_lookup_insert_ne. lia.
Qed.
Lemma setz_setz l i x y : setz (setz l i x) i y = setz l i y.
Proof. unfold setz. destruct (0 <=? i); [apply list_insert_insert_eq|done]. Qed.
Lemma setz_getz l i x : getz l i = Some x -> setz l i x = l.
Proof. unfold getz, setz. destruct (0 <=? i); [apply list_insert_id|done]. Qed.
Lemma idx_ok l i x : getz l i = Some x -> idx l i = Ok x.
Proof. unfold idx. by intros ->. Qed.
Lemma idx_Ok_inv l i x : idx l i = Ok x -> getz l i = Some x.
Proof. unfold idx. destruct (getz l i); congruence. Qed.
Lemma set_idx_ok l i x : 0 <= i < lenz l -> set_idx l i x = Ok (setz l i x).
Proof. intros [y Hy]%getz_is_Some. unfold set_idx. by rewrite Hy. Qed.
Lemma getz_replicate n (x : A) i :
  getz (replicate n x) i = if (0 <=? i) && (i <? Z.of_nat n) then Some x else None.
Proof.
  unfold getz. destruct (Z.leb_spec 0 i); [|done]. simpl.
  destruct (Z.ltb_spec i (Z.of_nat n)).
  - apply lookup_replicate_2. lia.
  - apply lookup_replicate_None. lia.
Qed.
Lemma getz_map {B} (f : B -> A) (l : list B) i :
  getz (map f l) i = f <$> (if 0 <=? i then l !! Z.to_nat i else None).
Proof.
  unfold getz. destruct (0 <=? i); [|done]. apply (list_lookup_fmap f l).
Qed.
End slices.

(* ------------------------------------------------------------------------- *)
(** ** Loops *)

(** [while cond { body }] with fuel. *)
Fixpoint while {S} (fuel : nat) (cond : S -> bool) (body : S -> outcome S) (s : S) : outcome S :=
  if cond s then
    match fuel with
    | O => Panic OutOfFuel
    | Datatypes.S n => let! s' := body s in while n cond body s'
    end
  else Ok s.

(** A loop whose body says whether to go on ([inl]) or to leave ([inr]). *)
Fixpoint loop {S R} (fuel : nat) (body : S -> outcome (S + R)) (s : S) : outcome R :=
  match fuel with
  | O => Panic OutOfFuel
  | Datatypes.S n =>
      let! r := body s in
      match r with inl s' => loop n body s' | inr r => Ok r end
  end.

(** [for x in l { s = f(s, x) }]. *)
Fixpoint foldM {A S} (f : S -> A -> outcome S) (l : list A) (s : S) : outcome S :=
  match l with
  | [] => Ok s
  | x :: l => let! s := f s x in foldM f l s
  end.

(** Total correctness of [while]: an invariant and a decreasing measure give a
    result, whatever fuel exceeds the measure. *)
Lemma while_rule {S} (I : S -> Prop) (mu : S -> Z) cond body :
  (forall s, I s -> cond s = true ->
     exists s', body s = Ok s' /\ I s' /\ 0 <= mu s' < mu s) ->
  forall fuel s, I s -> mu s <= Z.of_nat fuel ->
  exists s', while fuel cond body s = Ok s' /\ I s' /\ cond s' = false.
Proof.
  intros Hstep. induction fuel as [|n IH]; intros s HI Hmu; simpl.
  - destruct (cond s) eqn:Hc; [|eauto].
    destruct (Hstep s HI Hc) as (? & _ & _ & ?). lia.
  - destruct (cond s) eqn:Hc; [|eauto].
    destruct (Hstep s HI Hc) as (s' & -> & HI' & ?). simpl. apply IH; [done|lia].
Qed.

(** A loop that never leaves by its condition stops where its body panics. *)
Lemma while_panics {S} (I : S -> Prop) (mu : S -> Z) cond body r :
  (forall s, I s -> cond s = true /\ 1 <= mu s /\
     (body s = Panic r \/ exists s', body s = Ok s' /\ I s' /\ mu s' < mu s)) ->
  forall fuel s, I s -> mu s <= Z.of_nat fuel -> while fuel cond body s = Panic r.
Proof.
  intros Hstep. induction fuel as [|n IH]; intros s HI Hmu; simpl;
    destruct (Hstep s HI) as (-> & ? & Hor); [lia|].
  destruct Hor as [->|(s' & -> & HI' & ?)]; simpl; [done|]. apply IH; [done|lia].
Qed.

Lemma loop_rule {S R} (I : S -> Prop) (Q : R -> Prop) (mu : S -> Z) body :
  (forall s, I s -> 0 <= mu s /\
     ((exists s', body s = Ok (inl s') /\ I s' /\ mu s' < mu s) \/
      (exists r, body s = Ok (inr r) /\ Q r))) ->
  forall fuel s, I s -> mu s < Z.of_nat fuel ->
  exists r, loop fuel body s = Ok r /\ Q r.
Proof.
  intros Hstep. induction fuel as [|n IH]; intros s HI Hmu; simpl.
  all: destruct (Hstep s HI) as (? & [(s' & Hb & HI' & ?)|(r & Hb & HQ)]); [|try lia].
  - lia.
  - rewrite Hb. simpl. apply IH; [done|lia].
  - rewrite Hb. simpl. eauto.
Qed.

(* ------------------------------------------------------------------------- *)
(** ** Bit fields as arithmetic *)

(** A shifted field below which another value fits is combined by addition. *)
Lemma lor_disjoint_add n a b : 0 <= n -> 0 <= b < 2 ^ n -> Z.lor (a * 2 ^ n) b = a * 2 ^ n + b.
Proof.
  intros Hn Hb. rewrite <- Z.shiftl_mul_pow2 by done.
  rewrite <- Z.add_lor_land, Z.add_comm.
  replace (Z.land (Z.shiftl a n) b) with 0; [lia|].
  symmetry. apply Z.bits_inj'. intros i Hi.
  rewrite Z.land_spec, Z.bits_0, Z.shiftl_spec by done.
  destruct (Z.ltb_spec i n).
  - by rewrite Z.testbit_neg_r by lia.
  - rewrite (Z.mod_small b (2 ^ n)) || rewrite <- (Z.mod_small b (2 ^ n)) by done.
    rewrite Z.mod_pow2_bits_high by lia. apply andb_false_r.
Qed.

Lemma land_mask_mod n m x : 0 <= n -> m = Z.ones n -> Z.land x m = x mod 2 ^ n.
Proof. intros ? ->. by apply Z.land_ones. Qed.

(** Field extraction [(x >> s) & mask]. *)
Lemma field_extract s n m x :
  0 <= s -> 0 <= n -> m = Z.ones n ->
  Z.land (Z.shiftr x s) m = (x / 2 ^ s) mod 2 ^ n.
Proof. intros. rewrite Z.shiftr_div_pow2 by done. by apply land_mask_mod. Qed.

(** Close a linear goal over constant divisions and remainders. *)
Ltac divmod := Z.div_mod_to_equations; lia.

(** [x << s] on a [u64] with a constant amount below 64: bits leave at the top. *)
Definition shl64 (x s : Z) : Z := wrap 64 (Z.shiftl x s).

(** The field of [n] bits at position [s]. *)
Definition bits (x s n : Z) : Z := Z.land (Z.shiftr x s) (Z.ones n).

Lemma shl64_small x s : 0 <= s -> 0 <= x -> x < 2 ^ (64 - s) -> s <= 64 -> shl64 x s = Z.shiftl x s.
Proof.
  intros Hs H0 Hx H64. unfold shl64. apply wrap_small. rewrite Z.shiftl_mul_pow2 by done.
  replace 64 with ((64 - s) + s) by lia. rewrite Z.pow_add_r by lia.
  assert (0 < 2 ^ s) by lia. nia.
Qed.

Lemma bits_lor a b s n : bits (Z.lor a b) s n = Z.lor (bits a s n) (bits b s n).
Proof. unfold bits. by rewrite Z.shiftr_lor, Z.land_lor_distr_l. Qed.

Lemma bits_eq x s n : 0 <= s -> 0 <= n -> bits x s n = (x / 2 ^ s) mod 2 ^ n.
Proof. intros. by apply field_extract. Qed.

Lemma bits_shl_same x s n : 0 <= s -> 0 <= n -> 0 <= x -> x < 2 ^ n -> bits (Z.shiftl x s) s n = x.
Proof.
  intros. unfold bits. rewrite Z.shiftr_shiftl_l, Z.sub_diag, Z.shiftl_0_r by lia.
  rewrite Z.land_ones by done. by apply Z.mod_small.
Qed.

Lemma bits_shl_below x t s n : 0 <= t -> t <= s -> 0 <= n -> 0 <= x -> x < 2 ^ (s - t) ->
  bits (Z.shiftl x t) s n = 0.
Proof.
  intros. rewrite bits_eq by lia. rewrite Z.shiftl_mul_pow2 by done.
  rewrite Z.div_small; [by rewrite Z.mod_0_l by lia|].
  replace s with ((s - t) + t) by lia. rewrite Z.pow_add_r by lia.
  assert (0 < 2 ^ t) by lia. nia.
Qed.

Lemma bits_shl_above x t s n : 0 <= s -> 0 <= n -> s + n <= t -> bits (Z.shiftl x t) s n = 0.
Proof.
  intros. rewrite bits_eq by lia. rewrite Z.shiftl_mul_pow2 by lia.
  replace t with (n + (t - s - n) + s) by lia. rewrite Z.pow_add_r by lia.
  rewrite Z.mul_assoc, Z.div_mul by lia.
  rewrite Z.pow_add_r by lia. rewrite (Z.mul_comm (2 ^ n)), Z.mul_assoc.
  apply Z.mod_mul. lia.
Qed.

Lemma bits_const_0 s n : bits 0 s n = 0.
Proof. unfold bits. by rewrite Z.shiftr_0_l. Qed.

Create Rewrite HintDb bitfield.
#[export] Hint Rewrite bits_lor bits_const_0 Z.lor_0_l Z.lor_0_r : bitfield.
#[export] Hint Rewrite bits_shl_same bits_shl_below bits_shl_above using (cbn; lia) : bitfield.
#[export] Hint Rewrite shl64_small using (cbn; lia) : bitfield.
