(* ===== verification/Arch.v ===== *)
(** * kernel/arch: addresses, translation levels, system-register decoders

    Models [kernel/arch/mm.rs] (translation levels), [kernel/arch/reg.rs]
    ([Spsr], [Esr], [Dfsc]) and [kernel/arch/exceptions.rs] ([FaultStatus],
    [ExceptionClass]).  [PhysAddr], [VirtAddr] and the register newtypes are
    transparent wrappers of a 64-bit integer and are held as [Z]; their [new] /
    [as_u64] / [raw] conversions are identities on a 64-bit target. *)

From S2P Require Import Prelude.
From Stdlib Require Import String.
Open Scope string_scope.
Open Scope Z_scope.

(** [PhysAddr(usize)] and [VirtAddr(usize)]: the values a newtype can hold. *)
Definition PhysAddr_ok (pa : Z) : Prop := 0 <= pa < 2 ^ 64.
Definition VirtAddr_ok (va : Z) : Prop := 0 <= va < 2 ^ 64.

(* ------------------------------------------------------------------------- *)
(** ** Translation levels *)

Inductive Level := L0 | L1 | L2 | L3.

#[export] Instance Level_eq_dec : EqDecision Level.
Proof. solve_decision. Defined.

Definition Level_index_shift (l : Level) : Z :=
  match l with L0 => 39 | L1 => 30 | L2 => 21 | L3 => 12 end.

Definition Level_supports_block (l : Level) : bool :=
  match l with L1 | L2 => true | _ => false end.

Definition Level_index_in (l : Level) (va : Z) : Z :=
  Z.land (Z.shiftr va (Level_index_shift l)) 0x1FF.

Definition Level_next_level (l : Level) : outcome Level :=
  match l with
  | L0 => Ok L1 | L1 => Ok L2 | L2 => Ok L3
  | L3 => Panic ExplicitPanic
  end.

Definition Level_from_index (n : Z) : outcome Level :=
  match Z.land n 3 with
  | 0 => Ok L0 | 1 => Ok L1 | 2 => Ok L2 | 3 => Ok L3
  | _ => Panic ExplicitPanic
  end.

(* ------------------------------------------------------------------------- *)
(** ** Saved program status *)

Inductive SpsrMode :=
  | El0t | El1t | El1h | El2t | El2h | El3t | El3h
  | AArch32 (bits : Z) | UnknownMode (bits : Z).

Definition SpsrMode_from_bits (bits : Z) : SpsrMode :=
  match bits with
  | 0x00 => El0t
  | 0x04 => El1t
  | 0x05 => El1h
  | 0x08 => El2t
  | 0x09 => El2h
  | 0x0C => El3t
  | 0x0D => El3h
  | b => if negb (Z.land b 0x10 =? 0) then AArch32 b else UnknownMode b
  end.

Definition Spsr_mode_bits (spsr : Z) : Z := as_u8 (Z.land spsr 0x1F).
Definition Spsr_mode (spsr : Z) : SpsrMode := SpsrMode_from_bits (Spsr_mode_bits spsr).

(* ------------------------------------------------------------------------- *)
(** ** Fault status *)

Inductive FaultStatus :=
  | AddressSize (level : Level)
  | Translation (level : Level)
  | AccessFlag (level : Level)
  | Permission (level : Level)
  | Alignment
  | OtherFault (code : Z).

Definition FaultStatus_description (f : FaultStatus) : string :=
  match f with
  | AddressSize _ => "Address size fault"
  | Translation _ => "Translation fault"
  | AccessFlag _ => "Access flag fault"
  | Permission _ => "Permission fault"
  | Alignment => "Alignment fault"
  | OtherFault _ => "Other / External fault"
  end.

Definition FaultStatus_from_dfsc (dfsc : Z) : outcome FaultStatus :=
  if (0 <=? dfsc) && (dfsc <=? 0x0F) then
    let! level := Level_from_index (Z.land dfsc 3) in
    match Z.shiftr dfsc 2 with
    | 0 => Ok (AddressSize level)
    | 1 => Ok (Translation level)
    | 2 => Ok (AccessFlag level)
    | 3 => Ok (Permission level)
    | _ => Panic ExplicitPanic
    end
  else if dfsc =? 0x21 then Ok Alignment
  else Ok (OtherFault dfsc).

Definition FaultStatus_level (f : FaultStatus) : option Level :=
  match f with
  | AddressSize level | Translation level | AccessFlag level | Permission level => Some level
  | Alignment | OtherFault _ => None
  end.

(* ------------------------------------------------------------------------- *)
(** ** Exception classes *)

Inductive ExceptionClass :=
  | UnknownReason | TrappedFp | SvcAArch64 | InstrAbortLowerEl | InstrAbortSameEl
  | PcAlignment | DataAbortLowerEl | DataAbortSameEl | SpAlignment | TrappedWfi
  | Brk | OtherClass (ec : Z).

Definition ExceptionClass_from_ec (ec : Z) : ExceptionClass :=
  match ec with
  | 0x00 => UnknownReason
  | 0x07 => TrappedFp
  | 0x15 => SvcAArch64
  | 0x20 => InstrAbortLowerEl
  | 0x21 => InstrAbortSameEl
  | 0x22 => PcAlignment
  | 0x24 => DataAbortLowerEl
  | 0x25 => DataAbortSameEl
  | 0x26 => SpAlignment
  | 0x2F => TrappedWfi
  | 0x3C => Brk
  | other => OtherClass other
  end.

Definition ExceptionClass_description (c : ExceptionClass) : string :=
  match c with
  | UnknownReason => "Unknown reason (e.g. udf instruction)"
  | TrappedFp => "Trapped FP/SIMD/SVE access"
  | SvcAArch64 => "SVC system call from AArch64"
  | InstrAbortLowerEl => "Instruction abort from lower EL"
  | InstrAbortSameEl => "Instruction abort from same EL"
  | PcAlignment => "PC alignment fault"
  | DataAbortLowerEl => "Data abort from lower EL"
  | DataAbortSameEl => "Data abort from same EL"
  | SpAlignment => "SP alignment fault"
  | TrappedWfi => "Trapped WFI/WFE"
  | Brk => "Software breakpoint (brk)"
  | OtherClass _ => "Other / unhandled exception class"
  end.

(* ------------------------------------------------------------------------- *)
(** ** Exception syndrome register *)

Definition Esr_ec_raw (esr : Z) : Z := as_u8 (Z.land (Z.shiftr esr 26) 0x3F).
Definition Esr_class (esr : Z) : ExceptionClass := ExceptionClass_from_ec (Esr_ec_raw esr).
Definition Esr_il (esr : Z) : bool := negb (Z.land (Z.shiftr esr 25) 1 =? 0).
Definition Esr_iss (esr : Z) : Z := as_u32 (Z.land esr 0x01FFFFFF).
Definition Esr_dfsc (esr : Z) : Z := as_u8 (Z.land esr 0x3F).
Definition Esr_fault_status (esr : Z) : outcome FaultStatus :=
  FaultStatus_from_dfsc (Esr_dfsc esr).
Definition Esr_is_write (esr : Z) : bool := negb (Z.land (Z.shiftr esr 6) 1 =? 0).
Definition Esr_far_valid (esr : Z) : bool := Z.land (Z.shiftr esr 10) 1 =? 0.
Definition ExceptionClass_from_esr (esr : Z) : ExceptionClass := Esr_class esr.

(* ------------------------------------------------------------------------- *)
(** ** Decoder lemmas *)

Lemma Level_index_in_eq l va :
  Level_index_in l va = (va / 2 ^ Level_index_shift l) mod 2 ^ 9.
Proof. unfold Level_index_in. apply field_extract; [destruct l; simpl; lia| lia | done]. Qed.

Lemma Level_index_in_range l va : 0 <= Level_index_in l va < 512.
Proof. rewrite Level_index_in_eq. apply (Z.mod_pos_bound _ 512). lia. Qed.

Lemma Level_from_index_total n : exists l, Level_from_index n = Ok l.
Proof.
  unfold Level_from_index. rewrite (land_mask_mod 2 3) by done.
  pose proof (Z.mod_pos_bound n 4 ltac:(lia)) as H. change (2 ^ 2) with 4.
  destruct (decide (n mod 4 = 0)) as [->|]; [eauto|].
  destruct (decide (n mod 4 = 1)) as [->|]; [eauto|].
  destruct (decide (n mod 4 = 2)) as [->|]; [eauto|].
  assert (n mod 4 = 3) as -> by lia. eauto.
Qed.

Lemma Esr_ec_raw_eq esr : Esr_ec_raw esr = (esr / 2 ^ 26) mod 2 ^ 6.
Proof.
  unfold Esr_ec_raw. rewrite (field_extract 26 6) by done.
  apply as_u8_small. pose proof (Z.mod_pos_bound (esr / 2 ^ 26) (2 ^ 6)). lia.
Qed.

Lemma Esr_iss_eq esr : Esr_iss esr = esr mod 2 ^ 25.
Proof.
  unfold Esr_iss. rewrite (land_mask_mod 25) by done.
  apply as_u32_small. pose proof (Z.mod_pos_bound esr (2 ^ 25)). lia.
Qed.

Lemma Esr_dfsc_eq esr : Esr_dfsc esr = esr mod 2 ^ 6.
Proof.
  unfold Esr_dfsc. rewrite (land_mask_mod 6) by done.
  apply as_u8_small. pose proof (Z.mod_pos_bound esr (2 ^ 6)). lia.
Qed.

Lemma bit_extract s x : 0 <= s -> negb (Z.land (Z.shiftr x s) 1 =? 0) = Z.testbit x s.
Proof.
  intros Hs. rewrite (field_extract s 1) by done.
  pose proof (Z.testbit_spec' x s Hs) as E. change (2 ^ 1) with 2. rewrite <- E.
  by destruct (Z.testbit x s).
Qed.

Lemma Esr_il_eq esr : Esr_il esr = Z.testbit esr 25.
Proof. by apply bit_extract. Qed.

(* ------------------------------------------------------------------------- *)
(** ** Properties *)

(** The [EC], [IL] and [ISS] accessors of an [Esr] tile the low word of
    [ESR_EL1]: reassembled, they give bits [31:0] back, for every register value. *)
Theorem Esr_fields_tile_low_word esr :
  0 <= Esr_ec_raw esr < 64 /\ 0 <= Esr_iss esr < 2 ^ 25 /\
  Z.lor (Z.lor (Z.shiftl (Esr_ec_raw esr) 26) (Z.shiftl (Z.b2z (Esr_il esr)) 25)) (Esr_iss esr)
  = Z.land esr 0xFFFFFFFF.
Proof.
  rewrite Esr_ec_raw_eq, Esr_iss_eq, Esr_il_eq, (Z.testbit_spec' esr 25) by done.
  rewrite (land_mask_mod 32) by done. rewrite !Z.shiftl_mul_pow2 by done.
  split; [apply Z.mod_pos_bound; lia|]. split; [apply Z.mod_pos_bound; lia|].
  rewrite <- Z.lor_assoc, (lor_disjoint_add 25) by (try split; divmod).
  rewrite (lor_disjoint_add 26) by (try split; divmod). divmod.
Qed.

(** Re-encoding of a decoded fault status, the inverse the decoder is judged by. *)
Definition Level_code (l : Level) : Z :=
  match l with L0 => 0 | L1 => 1 | L2 => 2 | L3 => 3 end.
Definition FaultStatus_code (f : FaultStatus) : Z :=
  match f with
  | AddressSize l => 0 + Level_code l
  | Translation l => 4 + Level_code l
  | AccessFlag l => 8 + Level_code l
  | Permission l => 12 + Level_code l
  | Alignment => 0x21
  | OtherFault c => c
  end.

Lemma FaultStatus_from_dfsc_low d :
  0 <= d < 16 -> exists f, FaultStatus_from_dfsc d = Ok f /\ FaultStatus_code f = d /\
                           is_Some (FaultStatus_level f).
Proof.
  intros H. assert (d ∈ seqZ 0 16) as Hin by (apply elem_of_seqZ; lia). clear H; revert d Hin.
  apply list.Forall_forall. vm_compute seqZ.
  repeat (constructor; [by eexists; split_and!; [reflexivity|reflexivity|eexists]|]).
  constructor.
Qed.

(** [FaultStatus::from_dfsc] is total and lossless: no code panics, re-encoding
    gives the code back, and a level is reported for exactly the four levelled
    classes. *)
Lemma fault_status_total d :
  0 <= d ->
  exists f, FaultStatus_from_dfsc d = Ok f /\ FaultStatus_code f = d /\
            (is_Some (FaultStatus_level f) <-> d < 16).
Proof.
  intros Hd. destruct (Z.ltb_spec d 16) as [H|H].
  - destruct (FaultStatus_from_dfsc_low d) as (f & ? & ? & ?); [lia|]. exists f. tauto.
  - unfold FaultStatus_from_dfsc.
    destruct (Z.leb_spec d 0x0F) as [?|?]; [lia|]. rewrite andb_false_r.
    destruct (Z.eqb_spec d 0x21) as [->|]; eexists; split_and!; try reflexivity.
    all: split; [intros [? [=]] | lia].
Qed.

(** The 9-bit indices of the four translation levels tile bits [47:12] of
    every virtual address, with no gap and no overlap, and each is a valid
    index of a 512-entry table. *)
Theorem Level_indices_tile_va va :
  (forall l, 0 <= Level_index_in l va < 512) /\
  Z.lor (Z.lor (Z.lor (Z.shiftl (Level_index_in L0 va) 27) (Z.shiftl (Level_index_in L1 va) 18))
               (Z.shiftl (Level_index_in L2 va) 9)) (Level_index_in L3 va)
  = Z.land (Z.shiftr va 12) 0xFFFFFFFFF.
Proof.
  split; [intros; apply Level_index_in_range|].
  rewrite (field_extract 12 36) by done. rewrite !Level_index_in_eq. cbn [Level_index_shift].
  rewrite !Z.shiftl_mul_pow2 by done.
  set (i0 := (va / 2 ^ 39) mod 2 ^ 9). set (i1 := (va / 2 ^ 30) mod 2 ^ 9).
  set (i2 := (va / 2 ^ 21) mod 2 ^ 9). set (i3 := (va / 2 ^ 12) mod 2 ^ 9).
  assert (forall x, 0 <= x mod 2 ^ 9 < 2 ^ 9) as B by (intros; apply Z.mod_pos_bound; lia).
  pose proof (B (va / 2 ^ 30)). pose proof (B (va / 2 ^ 21)). pose proof (B (va / 2 ^ 12)).
  fold i1 in H. fold i2 in H0. fold i3 in H1.
  rewrite (lor_disjoint_add 27) by lia.
  replace (i0 * 2 ^ 27 + i1 * 2 ^ 18) with ((i0 * 2 ^ 9 + i1) * 2 ^ 18) by lia.
  rewrite (lor_disjoint_add 18) by lia.
  replace ((i0 * 2 ^ 9 + i1) * 2 ^ 18 + i2 * 2 ^ 9)
    with (((i0 * 2 ^ 9 + i1) * 2 ^ 9 + i2) * 2 ^ 9) by lia.
  rewrite (lor_disjoint_add 9) by lia. subst i0 i1 i2 i3. clear. divmod.
Qed.
