(* ===== verification/Fmt.v ===== *)
(** * The text of log lines: [core::fmt] as the kernel uses it

    The format specifiers of the kernel's [kernel_log!] and [kernel_log_raw!] calls as
    functions to strings, the derived [Debug] names they print, and a reader that gets
    a number back from a printed register. *)

From Stdlib Require Import Ascii.
From stdpp Require Import strings pretty.
From S2P Require Import Prelude Arch.
Open Scope string_scope.
Open Scope Z_scope.

(* ------------------------------------------------------------------------- *)
(** ** Numbers *)

Definition hex_digit (d : Z) : ascii := ascii_of_nat (Z.to_nat (if d <? 10 then 48 + d else 87 + d)).

(** The digits of [n] before [s]; a [u64] has at most sixteen. *)
Fixpoint hex_go (fuel : nat) (n : Z) (s : string) : string :=
  let s := String (hex_digit (n mod 16)) s in
  match fuel with
  | O => s
  | S fuel => if n <? 16 then s else hex_go fuel (n / 16) s
  end.

(** [{:x}] *)
Definition lower_hex (n : Z) : string := hex_go 15 n "".
(** [{:#x}]; also [{:p}] of a pointer. *)
Definition hex_alt (n : Z) : string := "0x" +:+ lower_hex n.

Fixpoint repeat_char (c : ascii) (n : nat) : string :=
  match n with O => "" | S n => String c (repeat_char c n) end.

(** [{:#0w$x}]: zeros after the prefix up to the width. *)
Definition hex_padded (w : nat) (n : Z) : string :=
  let digits := lower_hex n in
  "0x" +:+ (repeat_char "0" (w - 2 - String.length digits) +:+ digits).

(** [{}] of an integer, and [{:<w$}]. *)
Definition decimal (n : Z) : string := pretty n.
Definition left_justified (w : nat) (s : string) : string := s +:+ repeat_char " " (w - String.length s).

(** [{}] of a [bool]. *)
Definition fmt_bool (b : bool) : string := if b then "true" else "false".

(* ------------------------------------------------------------------------- *)
(** ** The derived [Debug] names *)

Definition Level_debug (l : Level) : string :=
  match l with L0 => "L0" | L1 => "L1" | L2 => "L2" | L3 => "L3" end.

Definition option_debug {A} (f : A -> string) (o : option A) : string :=
  match o with Some a => "Some(" +:+ f a +:+ ")" | None => "None" end.

Definition SpsrMode_debug (m : SpsrMode) : string :=
  match m with
  | El0t => "El0t" | El1t => "El1t" | El1h => "El1h" | El2t => "El2t" | El2h => "El2h"
  | El3t => "El3t" | El3h => "El3h"
  | AArch32 b => "AArch32(" +:+ decimal b +:+ ")"
  | UnknownMode b => "Unknown(" +:+ decimal b +:+ ")"
  end.

Definition ExceptionClass_debug (c : ExceptionClass) : string :=
  match c with
  | UnknownReason => "Unknown" | TrappedFp => "TrappedFp" | SvcAArch64 => "SvcAArch64"
  | InstrAbortLowerEl => "InstrAbortLowerEl" | InstrAbortSameEl => "InstrAbortSameEl"
  | PcAlignment => "PcAlignment" | DataAbortLowerEl => "DataAbortLowerEl"
  | DataAbortSameEl => "DataAbortSameEl" | SpAlignment => "SpAlignment"
  | TrappedWfi => "TrappedWfi" | Brk => "Brk"
  | OtherClass ec => "Other(" +:+ decimal ec +:+ ")"
  end.

(* ------------------------------------------------------------------------- *)
(** ** Lines and bytes *)

Definition bytes_of (s : string) : list Z := (fun c => Z.of_nat (nat_of_ascii c)) <$> String.list_ascii_of_string s.

(** [writeln!]: each line, then a newline. *)
Definition log_bytes (lines : list string) : list Z := lines ≫= fun l => (bytes_of l ++ [10])%list.

(* ------------------------------------------------------------------------- *)
(** ** Reading a register back *)

Definition digit_value (c : ascii) : option Z :=
  let n := Z.of_nat (nat_of_ascii c) in
  if (48 <=? n) && (n <=? 57) then Some (n - 48)
  else if (97 <=? n) && (n <=? 102) then Some (n - 87)
  else None.

Fixpoint parse_from (v : Z) (s : string) : option Z :=
  match s with
  | EmptyString => Some v
  | String c s => match digit_value c with Some d => parse_from (v * 16 + d) s | None => None end
  end.

Definition parse_0x (s : string) : option Z :=
  match s with String "0" (String "x" s) => parse_from 0 s | _ => None end.

(** Eighteen characters behind a label. *)
Definition register_field (label line : string) : option Z :=
  parse_0x (String.substring (String.length label) 18 line).

(** The first line with this label. *)
Fixpoint read_register (label : string) (lines : list string) : option Z :=
  match lines with
  | [] => None
  | l :: lines => if String.prefix label l then register_field label l else read_register label lines
  end.

Lemma digit_value_hex d : 0 <= d < 16 -> digit_value (hex_digit d) = Some d.
Proof. revert d. apply (range_forallb (fun d => digit_value (hex_digit d) = Some d)). by vm_compute. Qed.

Lemma parse_hex_go fuel : forall n s, 0 <= n < 16 ^ (Z.of_nat fuel + 1) ->
  parse_from 0 (hex_go fuel n s) = parse_from n s.
Proof.
  assert (forall v n s, 0 <= n -> parse_from v (String (hex_digit (n mod 16)) s) = parse_from (v * 16 + n mod 16) s) as Hd.
  { intros v n s Hn. cbn [parse_from]. by rewrite digit_value_hex by divmod. }
  induction fuel as [|fuel IH]; intros n s Hn; cbn [hex_go].
  - rewrite Hd by lia. f_equal. divmod.
  - destruct (Z.ltb_spec n 16).
    + rewrite Hd by lia. f_equal. divmod.
    + rewrite IH.
      * rewrite Hd by lia. f_equal. divmod.
      * replace (Z.of_nat (S fuel) + 1) with (Z.succ (Z.of_nat fuel + 1)) in Hn by lia.
        rewrite Z.pow_succ_r in Hn by lia. split; [divmod|]. apply Z.div_lt_upper_bound; lia.
Qed.

Lemma length_hex_go fuel : forall n s, (String.length (hex_go fuel n s) <= fuel + 1 + String.length s)%nat.
Proof.
  induction fuel as [|fuel IH]; intros n s; cbn [hex_go]; [cbn; lia|].
  destruct (_ <? _); [cbn; lia|]. etrans; [apply IH|]. cbn. lia.
Qed.

Lemma string_length_app s t : String.length (s +:+ t) = (String.length s + String.length t)%nat.
Proof. induction s as [|c s IH]; [done|]. exact (f_equal S IH). Qed.

Lemma length_repeat_char c n : String.length (repeat_char c n) = n.
Proof. induction n; cbn; congruence. Qed.

Lemma parse_zeros n s : parse_from 0 (repeat_char "0" n +:+ s) = parse_from 0 s.
Proof. induction n as [|n IH]; cbn; done. Qed.

Lemma length_hex_padded n : String.length (hex_padded 18 n) = 18%nat.
Proof.
  unfold hex_padded. cbv zeta. rewrite !string_length_app, length_repeat_char. pose proof (length_hex_go 15 n "") as H.
  fold (lower_hex n) in H. cbn in *. lia.
Qed.

(** What the specifier prints is read back, whatever the width. *)
Lemma parse_hex_padded w n : 0 <= n < 2 ^ 64 -> parse_0x (hex_padded w n) = Some n.
Proof. intros Hn. exact (eq_trans (parse_zeros _ _) (parse_hex_go 15 n "" Hn)). Qed.

Lemma substring_app_exact s t u : String.substring (String.length s) (String.length t) (s +:+ t +:+ u) = t.
Proof.
  induction s as [|c s IH]; [|exact IH]. induction t as [|c t IH]; [by destruct u|]. exact (f_equal (String c) IH).
Qed.

(** A register line, whatever follows the number. *)
Lemma register_field_ok label n rest :
  0 <= n < 2 ^ 64 -> register_field label (label +:+ hex_padded 18 n +:+ rest) = Some n.
Proof.
  intros Hn. pose proof (substring_app_exact label (hex_padded 18 n) rest) as E.
  rewrite length_hex_padded in E. unfold register_field. rewrite E. by apply parse_hex_padded.
Qed.

Lemma string_app_nil_r s : s +:+ "" = s.
Proof. induction s as [|c s IH]; [done|]. exact (f_equal (String c) IH). Qed.

(** The line may end with the number. *)
Lemma register_field_last label n :
  0 <= n < 2 ^ 64 -> register_field label (label +:+ hex_padded 18 n) = Some n.
Proof. intros Hn. rewrite <- (string_app_nil_r (hex_padded 18 n)). by apply register_field_ok. Qed.

Lemma prefix_app label s : String.prefix label (label +:+ s) = true.
Proof.
  induction label as [|c label IH]; [by destruct s|]. change (String.prefix (String c label) (String c label +:+ s)) with (if ascii_dec c c then String.prefix label (label +:+ s) else false).
  by destruct (ascii_dec c c).
Qed.

(** Labels of one length do not hide each other. *)
Lemma prefix_other label label' s :
  String.length label = String.length label' -> label <> label' -> String.prefix label (label' +:+ s) = false.
Proof.
  revert label'. induction label as [|c label IH]; intros [|c' label'] Hl Hne; cbn in Hl; try done.
  change (String.prefix (String c label) (String c' label' +:+ s)) with (if ascii_dec c c' then String.prefix label (label' +:+ s) else false).
  destruct (ascii_dec c c') as [->|]; [|done]. apply IH; congruence.
Qed.

Lemma read_here label l lines :
  String.prefix label l = true -> read_register label (l :: lines) = register_field label l.
Proof. intros E. cbn [read_register]. by rewrite E. Qed.

Lemma read_there label l lines :
  String.prefix label l = false -> read_register label (l :: lines) = read_register label lines.
Proof. intros E. cbn [read_register]. by rewrite E. Qed.
