(* ===== verification/MmuConfig.v ===== *)
(** * kernel/mm: MMU control encodings

    Models the encodings of [kernel/mm/types.rs] ([Shareability],
    [Cacheability], [Granule], [PhysAddrSize], [VirtAddrSize]), the memory
    attribute slots of [kernel/mm/attrs.rs] and the translation-control value
    of [kernel/mm/tcr.rs].  [tcr_install_value] and [MAIR_VALUE] are the
    words that the [install] routines of [SysReg] write. *)

From S2P Require Import Prelude.

Inductive Shareability := NonShareable | OuterShareable | InnerShareable.

Definition Shareability_bits (s : Shareability) : Z :=
  match s with NonShareable => 0 | OuterShareable => 2 | InnerShareable => 3 end.

Inductive Cacheability :=
  | NonCacheable | WriteBackReadWriteAlloc | WriteThroughReadAlloc | WriteBackReadAlloc.

Definition Cacheability_bits (c : Cacheability) : Z :=
  match c with
  | NonCacheable => 0
  | WriteBackReadWriteAlloc => 1
  | WriteThroughReadAlloc => 2
  | WriteBackReadAlloc => 3
  end.

Inductive Granule := G_4KB | G_16KB | G_64KB.

Definition Granule_to_tg0_bits (g : Granule) : Z :=
  match g with G_4KB => 0 | G_16KB => 2 | G_64KB => 1 end.

Definition Granule_to_tg1_bits (g : Granule) : Z :=
  match g with G_4KB => 2 | G_16KB => 1 | G_64KB => 3 end.

Inductive PhysAddrSize := PA_32BIT | PA_36BIT | PA_40BIT | PA_42BIT | PA_44BIT | PA_48BIT | PA_52BIT.

Definition PhysAddrSize_bits (p : PhysAddrSize) : Z :=
  match p with
  | PA_32BIT => 0 | PA_36BIT => 1 | PA_40BIT => 2 | PA_42BIT => 3
  | PA_44BIT => 4 | PA_48BIT => 5 | PA_52BIT => 6
  end.

(** [VirtAddrSize(u8)], held as the number of bits. *)
Definition VirtAddrSize_from_va_bits (va_bits : Z) : outcome Z :=
  let! _ := assert_ ((25 <=? va_bits) && (va_bits <=? 48)) in
  Ok va_bits.

Definition VirtAddrSize_tsz_bits (va_size : Z) : Z := 64 - va_size.

(* ------------------------------------------------------------------------- *)
(** ** Memory attributes ([MAIR_EL1]) *)

Inductive MemoryAttr := Normal | NormalNonCacheable | DeviceNGNRNE | DeviceNGNRE.

Definition MemoryAttr_index (a : MemoryAttr) : Z :=
  match a with Normal => 0 | NormalNonCacheable => 1 | DeviceNGNRNE => 2 | DeviceNGNRE => 3 end.

Definition mair_slot (a : MemoryAttr) (encoding : Z) : Z := shl64 encoding (MemoryAttr_index a * 8).

Definition MAIR_VALUE : Z :=
  Z.lor (Z.lor (Z.lor (mair_slot Normal 0xFF) (mair_slot NormalNonCacheable 0x44))
               (mair_slot DeviceNGNRNE 0x00)) (mair_slot DeviceNGNRE 0x04).

(* ------------------------------------------------------------------------- *)
(** ** Translation control ([TCR_EL1]) *)

Record TtbrConfig := {
  va_size : Z;
  granule : Granule;
  inner_cache : Cacheability;
  outer_cache : Cacheability;
  shareability : Shareability;
  tbi : bool;
}.

Record TcrConfig := {
  ttbr0 : TtbrConfig;
  ttbr1 : option TtbrConfig;
  ips : PhysAddrSize;
  asid_from_ttbr1 : bool;
}.

Definition A1_SHIFT := 22.
Definition TBI0_SHIFT := 37.
Definition TBI1_SHIFT := 38.
Definition T0SZ_SHIFT := 0.
Definition IRGN0_SHIFT := 8.
Definition ORGN0_SHIFT := 10.
Definition SH0_SHIFT := 12.
Definition TG0_SHIFT := 14.
Definition T1SZ_SHIFT := 16.
Definition EPD1_SHIFT := 23.
Definition IRGN1_SHIFT := 24.
Definition ORGN1_SHIFT := 26.
Definition SH1_SHIFT := 28.
Definition TG1_SHIFT := 30.
Definition IPS_SHIFT := 32.

Notation "a .| b" := (Z.lor a b) (at level 50, left associativity) : Z_scope.

Definition TcrConfig_build (c : TcrConfig) : outcome Z :=
  let t0 := ttbr0 c in
  let ttbr0_bits :=
    shl64 (VirtAddrSize_tsz_bits (va_size t0)) T0SZ_SHIFT
    .| shl64 (Cacheability_bits (inner_cache t0)) IRGN0_SHIFT
    .| shl64 (Cacheability_bits (outer_cache t0)) ORGN0_SHIFT
    .| shl64 (Shareability_bits (shareability t0)) SH0_SHIFT
    .| shl64 (Granule_to_tg0_bits (granule t0)) TG0_SHIFT
    .| shl64 (Z.b2z (tbi t0)) TBI0_SHIFT in
  let! ttbr1_bits :=
    match ttbr1 c with
    | Some t1 =>
        Ok (shl64 (VirtAddrSize_tsz_bits (va_size t1)) T1SZ_SHIFT
            .| shl64 (Cacheability_bits (inner_cache t1)) IRGN1_SHIFT
            .| shl64 (Cacheability_bits (outer_cache t1)) ORGN1_SHIFT
            .| shl64 (Shareability_bits (shareability t1)) SH1_SHIFT
            .| shl64 (Granule_to_tg1_bits (granule t1)) TG1_SHIFT
            .| shl64 (Z.b2z (tbi t1)) TBI1_SHIFT)
    | None =>
        let! _ := assert_ (negb (asid_from_ttbr1 c)) in
        Ok (shl64 1 EPD1_SHIFT)
    end in
  let common_bits :=
    shl64 (Z.b2z (asid_from_ttbr1 c)) A1_SHIFT .| shl64 (PhysAddrSize_bits (ips c)) IPS_SHIFT in
  Ok (ttbr0_bits .| ttbr1_bits .| common_bits).

(** The word [tcr::install] writes to [TCR_EL1]. *)
Definition tcr_install_value : outcome Z :=
  let! v0 := VirtAddrSize_from_va_bits 48 in
  let! v1 := VirtAddrSize_from_va_bits 48 in
  TcrConfig_build
    {| ttbr0 := {| va_size := v0; granule := G_4KB;
                   inner_cache := WriteBackReadWriteAlloc;
                   outer_cache := WriteBackReadWriteAlloc;
                   shareability := InnerShareable; tbi := true |};
       ttbr1 := Some {| va_size := v1; granule := G_4KB;
                        inner_cache := WriteBackReadWriteAlloc;
                        outer_cache := WriteBackReadWriteAlloc;
                        shareability := InnerShareable; tbi := false |};
       ips := PA_48BIT;
       asid_from_ttbr1 := true |}.

(* ------------------------------------------------------------------------- *)
(** ** Properties *)

Definition TtbrConfig_ok (t : TtbrConfig) : Prop := 25 <= va_size t <= 48.

Lemma Cacheability_bits_range c : 0 <= Cacheability_bits c < 4.
Proof. destruct c; cbn; lia. Qed.
Lemma Shareability_bits_range s : 0 <= Shareability_bits s < 4.
Proof. destruct s; cbn; lia. Qed.
Lemma Granule_to_tg0_bits_range g : 0 <= Granule_to_tg0_bits g < 4.
Proof. destruct g; cbn; lia. Qed.
Lemma Granule_to_tg1_bits_range g : 0 <= Granule_to_tg1_bits g < 4.
Proof. destruct g; cbn; lia. Qed.
Lemma PhysAddrSize_bits_range p : 0 <= PhysAddrSize_bits p < 8.
Proof. destruct p; cbn; lia. Qed.
Lemma b2z_range b : 0 <= Z.b2z b < 2.
Proof. destruct b; cbn; lia. Qed.
Lemma VirtAddrSize_tsz_bits_range t :
  TtbrConfig_ok t -> 16 <= VirtAddrSize_tsz_bits (va_size t) <= 39.
Proof. unfold TtbrConfig_ok, VirtAddrSize_tsz_bits. lia. Qed.

(** Bring the range of every encoded field into the context. *)
Ltac field_ranges :=
  repeat match goal with
  | |- context [Cacheability_bits ?c] =>
      let v := fresh "f" in pose proof (Cacheability_bits_range c); set (v := Cacheability_bits c) in *; clearbody v
  | |- context [Shareability_bits ?c] =>
      let v := fresh "f" in pose proof (Shareability_bits_range c); set (v := Shareability_bits c) in *; clearbody v
  | |- context [Granule_to_tg0_bits ?c] =>
      let v := fresh "f" in pose proof (Granule_to_tg0_bits_range c); set (v := Granule_to_tg0_bits c) in *; clearbody v
  | |- context [Granule_to_tg1_bits ?c] =>
      let v := fresh "f" in pose proof (Granule_to_tg1_bits_range c); set (v := Granule_to_tg1_bits c) in *; clearbody v
  | |- context [PhysAddrSize_bits ?c] =>
      let v := fresh "f" in pose proof (PhysAddrSize_bits_range c); set (v := PhysAddrSize_bits c) in *; clearbody v
  | |- context [Z.b2z ?c] =>
      let v := fresh "f" in pose proof (b2z_range c); set (v := Z.b2z c) in *; clearbody v
  | H : TtbrConfig_ok ?t |- context [VirtAddrSize_tsz_bits (va_size ?t)] =>
      let v := fresh "f" in pose proof (VirtAddrSize_tsz_bits_range t H);
      set (v := VirtAddrSize_tsz_bits (va_size t)) in *; clearbody v
  end.

(** The fields of a [TCR_EL1] value never interfere: every field of a
    configuration with both halves enabled can be read back from the built word
    at its architectural position, for all configurations the types allow. *)
Theorem TcrConfig_build_fields c t1 :
  TtbrConfig_ok (ttbr0 c) -> ttbr1 c = Some t1 -> TtbrConfig_ok t1 ->
  exists v, TcrConfig_build c = Ok v /\
    bits v 0 6 = VirtAddrSize_tsz_bits (va_size (ttbr0 c)) /\
    bits v 7 1 = 0 /\
    bits v 8 2 = Cacheability_bits (inner_cache (ttbr0 c)) /\
    bits v 10 2 = Cacheability_bits (outer_cache (ttbr0 c)) /\
    bits v 12 2 = Shareability_bits (shareability (ttbr0 c)) /\
    bits v 14 2 = Granule_to_tg0_bits (granule (ttbr0 c)) /\
    bits v 16 6 = VirtAddrSize_tsz_bits (va_size t1) /\
    bits v 22 1 = Z.b2z (asid_from_ttbr1 c) /\
    bits v 23 1 = 0 /\
    bits v 24 2 = Cacheability_bits (inner_cache t1) /\
    bits v 26 2 = Cacheability_bits (outer_cache t1) /\
    bits v 28 2 = Shareability_bits (shareability t1) /\
    bits v 30 2 = Granule_to_tg1_bits (granule t1) /\
    bits v 32 3 = PhysAddrSize_bits (ips c) /\
    bits v 37 1 = Z.b2z (tbi (ttbr0 c)) /\
    bits v 38 1 = Z.b2z (tbi t1).
Proof.
  intros H0 Ht1 H1. unfold TcrConfig_build. rewrite Ht1. cbn [obind].
  eexists. split; [reflexivity|].
  unfold A1_SHIFT, TBI0_SHIFT, TBI1_SHIFT, T0SZ_SHIFT, IRGN0_SHIFT, ORGN0_SHIFT, SH0_SHIFT,
    TG0_SHIFT, T1SZ_SHIFT, IRGN1_SHIFT, ORGN1_SHIFT, SH1_SHIFT, TG1_SHIFT, IPS_SHIFT.
  field_ranges. autorewrite with bitfield. split_and!; reflexivity.
Qed.

Definition example_tcr : TcrConfig :=
  let t := {| va_size := 39; granule := G_64KB; inner_cache := WriteBackReadAlloc;
              outer_cache := NonCacheable; shareability := OuterShareable; tbi := true |} in
  {| ttbr0 := t; ttbr1 := Some t; ips := PA_40BIT; asid_from_ttbr1 := false |}.

Lemma TcrConfig_build_fields_witness :
  exists v, TcrConfig_build example_tcr = Ok v /\ bits v 16 6 = 25 /\ bits v 30 2 = 3.
Proof.
  destruct (TcrConfig_build_fields example_tcr (ttbr0 example_tcr)) as (v & Hv & Hf).
  - unfold TtbrConfig_ok. cbn. lia.
  - reflexivity.
  - unfold TtbrConfig_ok. cbn. lia.
  - exists v. split; [exact Hv|]. split; apply Hf.
Defined.

(** With TTBR1 disabled the builder refuses an ASID taken from it, and
    otherwise sets [EPD1] and leaves every other TTBR1 field zero. *)
Theorem TcrConfig_build_ttbr1_disabled c :
  TtbrConfig_ok (ttbr0 c) -> ttbr1 c = None ->
  if asid_from_ttbr1 c then TcrConfig_build c = Panic AssertFailed
  else exists v, TcrConfig_build c = Ok v /\ bits v 23 1 = 1 /\ bits v 16 7 = 0 /\
                 bits v 24 8 = 0 /\ bits v 38 1 = 0 /\
                 bits v 0 6 = VirtAddrSize_tsz_bits (va_size (ttbr0 c)).
Proof.
  intros H0 Ht1. unfold TcrConfig_build. rewrite Ht1.
  destruct (asid_from_ttbr1 c); [reflexivity|].
  cbn [obind assert_ negb]. eexists. split; [reflexivity|].
  unfold A1_SHIFT, TBI0_SHIFT, EPD1_SHIFT, T0SZ_SHIFT, IRGN0_SHIFT, ORGN0_SHIFT, SH0_SHIFT,
    TG0_SHIFT, IPS_SHIFT.
  change (Z.b2z false) with 0. change (shl64 0 22) with 0.
  field_ranges. autorewrite with bitfield. split_and!; reflexivity.
Qed.

(** The words the kernel programs are the ones the boot stub programs
    ([boot.s] loads [0x0000_0025_B550_3510] and [0x0000_0000_0400_44FF]), so the
    trampoline and the runtime tables agree on attribute slots and geometry. *)
Theorem mmu_words_match_boot_stub :
  tcr_install_value = Ok 0x25B5503510 /\ MAIR_VALUE = 0x040044FF.
Proof. split; reflexivity. Qed.
