(* ===== verification/FrameTypes.v ===== *)
(** * kernel/mm/types.rs: physical-allocator value types

    [Pfn(u32)], [FrameCount(usize)] and [Order(u8)] are transparent newtypes held
    as [Z]; [new], [raw] and [index] (a widening cast) are identities.  The
    predicates say which values the newtypes can hold. *)

From S2P Require Import Prelude.

Definition Pfn_ok (p : Z) : Prop := 0 <= p < 2 ^ 32.
Definition FrameCount_ok (n : Z) : Prop := 0 <= n < 2 ^ 64.
Definition Order_ok (o : Z) : Prop := 0 <= o < 2 ^ 8.

Definition FrameCount_add_assign {P : Profile} (self rhs : Z) : outcome Z := uadd 64 self rhs.
Definition FrameCount_sub_assign {P : Profile} (self rhs : Z) : outcome Z := usub 64 self rhs.
