(* ===== verification/Layout.v ===== *)
(** * kernel/mm/layout.rs: the kernel address space

    The linear map, the image region and the device region, and the physical /
    virtual conversions between them.  Addresses are 64-bit values held as [Z];
    additions and subtractions are the machine's. *)

From S2P Require Import Prelude.

Definition KERNEL_LINEAR_BASE : Z := 0xFFFF800000000000.
Definition KERNEL_IMAGE_BASE : Z := 0xFFFFFFFF80000000.
Definition KERNEL_DEVICE_BASE : Z := 0xFFFFC00000000000.
Definition PHYS_LOAD_BASE : Z := 0x40080000.
Definition IMAGE_PA_BASE : Z := 0x40000000.
Definition IMAGE_TEXT_PA : Z := 0x40100000.

(** [frame::PAGE_SIZE], used throughout [kernel/mm]. *)
Definition PAGE_SIZE : Z := 4096.

Section layout.
Context {P : Profile}.

Definition image_va_base : Z := KERNEL_IMAGE_BASE.

Definition pa_to_linear_va (pa : Z) : outcome Z :=
  let! _ := debug_assert (pa <? KERNEL_LINEAR_BASE) in
  uadd 64 pa KERNEL_LINEAR_BASE.

Definition linear_va_to_pa (va : Z) : outcome Z :=
  let! _ := debug_assert ((KERNEL_LINEAR_BASE <=? va) && (va <? KERNEL_DEVICE_BASE)) in
  usub 64 va KERNEL_LINEAR_BASE.

Definition image_va_to_pa (va : Z) : outcome Z :=
  let! _ := debug_assert (image_va_base <=? va) in
  let! off := usub 64 va image_va_base in
  uadd 64 off IMAGE_PA_BASE.

Definition pa_to_device_va (pa : Z) : outcome Z :=
  let! _ := debug_assert (pa <? KERNEL_DEVICE_BASE) in
  uadd 64 pa KERNEL_DEVICE_BASE.
End layout.

(** The span of the linear window. *)
Definition LINEAR_SPAN : Z := KERNEL_DEVICE_BASE - KERNEL_LINEAR_BASE.

Ltac unfold_layout :=
  unfold image_va_base, LINEAR_SPAN, KERNEL_LINEAR_BASE, KERNEL_IMAGE_BASE, KERNEL_DEVICE_BASE,
    PHYS_LOAD_BASE, IMAGE_PA_BASE, IMAGE_TEXT_PA, PAGE_SIZE in *.

(* ------------------------------------------------------------------------- *)
(** ** Conversion lemmas *)

Section layout_lemmas.
Context {P : Profile}.

Lemma pa_to_linear_va_ok pa :
  0 <= pa < LINEAR_SPAN -> pa_to_linear_va pa = Ok (pa + KERNEL_LINEAR_BASE).
Proof.
  intros H. unfold pa_to_linear_va.
  rewrite debug_assert_true by (unfold_layout; lia). cbn [obind].
  apply uadd_ok. unfold_layout. lia.
Qed.

Lemma linear_va_to_pa_ok va :
  KERNEL_LINEAR_BASE <= va < KERNEL_DEVICE_BASE ->
  linear_va_to_pa va = Ok (va - KERNEL_LINEAR_BASE).
Proof.
  intros H. unfold linear_va_to_pa.
  rewrite debug_assert_true by (unfold_layout; lia). cbn [obind].
  apply usub_ok. unfold_layout. lia.
Qed.

Lemma image_va_to_pa_ok va :
  KERNEL_IMAGE_BASE <= va < 2 ^ 64 ->
  image_va_to_pa va = Ok (va - KERNEL_IMAGE_BASE + IMAGE_PA_BASE).
Proof.
  intros H. unfold image_va_to_pa.
  rewrite debug_assert_true by (unfold_layout; lia). cbn [obind].
  rewrite usub_ok by (unfold_layout; lia). cbn [obind].
  apply uadd_ok. unfold_layout. lia.
Qed.

Lemma pa_to_device_va_ok pa :
  0 <= pa < KERNEL_IMAGE_BASE - KERNEL_DEVICE_BASE ->
  pa_to_device_va pa = Ok (pa + KERNEL_DEVICE_BASE).
Proof.
  intros H. unfold pa_to_device_va.
  rewrite debug_assert_true by (unfold_layout; lia). cbn [obind].
  apply uadd_ok. unfold_layout. lia.
Qed.

(** The linear map is a bijection between physical addresses below the
    window's span and the linear window, in either build profile: no overflow,
    no failed assertion, and the two conversions invert each other. *)
Theorem linear_map_round_trip :
  (forall pa, 0 <= pa < LINEAR_SPAN ->
     exists va, pa_to_linear_va pa = Ok va /\
                KERNEL_LINEAR_BASE <= va < KERNEL_DEVICE_BASE /\ linear_va_to_pa va = Ok pa) /\
  (forall va, KERNEL_LINEAR_BASE <= va < KERNEL_DEVICE_BASE ->
     exists pa, linear_va_to_pa va = Ok pa /\ 0 <= pa < LINEAR_SPAN /\ pa_to_linear_va pa = Ok va).
Proof.
  split; intros x Hx.
  - exists (x + KERNEL_LINEAR_BASE). rewrite pa_to_linear_va_ok by done.
    split; [done|]. split; [unfold_layout; lia|].
    rewrite linear_va_to_pa_ok by (unfold_layout; lia). f_equal. lia.
  - exists (x - KERNEL_LINEAR_BASE). rewrite linear_va_to_pa_ok by done.
    split; [done|]. split; [unfold_layout; lia|].
    rewrite pa_to_linear_va_ok by (unfold_layout; lia). f_equal. lia.
Qed.

(** The three windows never alias: an address produced by the linear map, by
    the device map (for MMIO below one 512 GiB slot) and an image address are
    pairwise distinct, and image addresses never underflow their physical base. *)
Theorem windows_disjoint pa dev img lin_va dev_va img_pa :
  0 <= pa < LINEAR_SPAN -> 0 <= dev < 2 ^ 39 -> KERNEL_IMAGE_BASE <= img < 2 ^ 64 ->
  pa_to_linear_va pa = Ok lin_va -> pa_to_device_va dev = Ok dev_va ->
  image_va_to_pa img = Ok img_pa ->
  lin_va < dev_va < img /\ IMAGE_PA_BASE <= img_pa.
Proof.
  intros Hpa Hdev Himg. rewrite pa_to_linear_va_ok by done.
  rewrite pa_to_device_va_ok by (unfold_layout; lia). rewrite image_va_to_pa_ok by done.
  intros [= <-] [= <-] [= <-]. unfold_layout. lia.
Qed.
End layout_lemmas.

Lemma linear_map_round_trip_witness :
  exists va, pa_to_linear_va (P := release_dev) 0x40080000 = Ok va /\
    linear_va_to_pa (P := release_dev) va = Ok 0x40080000.
Proof.
  destruct (proj1 (linear_map_round_trip (P := release_dev)) 0x40080000
              ltac:(unfold_layout; lia)) as (va & H1 & _ & H2).
  exists va. split; [exact H1 | exact H2].
Defined.

Lemma windows_disjoint_witness :
  0xFFFF800040000000 < 0xFFFFC00009000000 < 0xFFFFFFFF80100000 /\ IMAGE_PA_BASE <= IMAGE_TEXT_PA.
Proof.
  apply (windows_disjoint (P := release_dev) 0x40000000 0x09000000 0xFFFFFFFF80100000).
  all: try reflexivity; unfold_layout; lia.
Defined.
