(* ===== verification/Uart.v ===== *)
(** * kernel/builtin/mmio.rs and uart.rs: typed registers and the console

    A register is an address with an access mode; reading or writing it is one
    transaction on a bus the model does not own ([bus_read], [bus_write] over the
    device's state).  The console's writer polls the flag register and then writes
    the data register; the class [PL011] is what its reference manual promises. *)

From S2P Require Import Prelude.

(* ------------------------------------------------------------------------- *)
(** ** Typed registers *)

Inductive Mode := ReadOnly | WriteOnly | ReadWrite.

(** The traits a mode has. *)
Class Readable (m : Mode) : Prop := readable : m <> WriteOnly.
Class Writable (m : Mode) : Prop := writable : m <> ReadOnly.
#[export] Instance Readable_ReadOnly : Readable ReadOnly.
Proof. discriminate. Qed.
#[export] Instance Readable_ReadWrite : Readable ReadWrite.
Proof. discriminate. Qed.
#[export] Instance Writable_WriteOnly : Writable WriteOnly.
Proof. discriminate. Qed.
#[export] Instance Writable_ReadWrite : Writable ReadWrite.
Proof. discriminate. Qed.

Record Reg (m : Mode) := Reg_new { Reg_addr : Z }.
Arguments Reg_new {m} Reg_addr.
Arguments Reg_addr {m} r.

Section bus.
Context {D : Type} (bus_read : Z -> D -> Z * D) (bus_write : Z -> Z -> D -> D).

Definition Reg_read {m} `{Readable m} (r : Reg m) (d : D) : Z * D := bus_read (Reg_addr r) d.
Definition Reg_write {m} `{Writable m} (r : Reg m) (v : Z) (d : D) : D := bus_write (Reg_addr r) v d.
End bus.

(* ------------------------------------------------------------------------- *)
(** ** The PL011's registers and flags *)

Definition UART_BASE : Z := 0xFFFFC00009000000.
Definition UART_PA : Z := 0x09000000.

Definition UART_DR : Reg ReadWrite := Reg_new UART_BASE.
Definition UART_RSR : Reg ReadWrite := Reg_new (UART_BASE + 0x004).
Definition UART_FR : Reg ReadOnly := Reg_new (UART_BASE + 0x018).
Definition UART_ILPR : Reg ReadWrite := Reg_new (UART_BASE + 0x020).
Definition UART_IBRD : Reg ReadWrite := Reg_new (UART_BASE + 0x024).
Definition UART_FBRD : Reg ReadWrite := Reg_new (UART_BASE + 0x028).
Definition UART_LCRH : Reg ReadWrite := Reg_new (UART_BASE + 0x02C).
Definition UART_CR : Reg ReadWrite := Reg_new (UART_BASE + 0x030).
Definition UART_IFLS : Reg ReadWrite := Reg_new (UART_BASE + 0x034).
Definition UART_IMSC : Reg ReadWrite := Reg_new (UART_BASE + 0x038).
Definition UART_RIS : Reg ReadOnly := Reg_new (UART_BASE + 0x03C).
Definition UART_MIS : Reg ReadOnly := Reg_new (UART_BASE + 0x040).
Definition UART_ICR : Reg WriteOnly := Reg_new (UART_BASE + 0x044).
Definition UART_DMACR : Reg ReadWrite := Reg_new (UART_BASE + 0x048).

(** The register map, in the source's order. *)
Definition uart_registers : list Z :=
  [Reg_addr UART_DR; Reg_addr UART_RSR; Reg_addr UART_FR; Reg_addr UART_ILPR; Reg_addr UART_IBRD;
   Reg_addr UART_FBRD; Reg_addr UART_LCRH; Reg_addr UART_CR; Reg_addr UART_IFLS; Reg_addr UART_IMSC;
   Reg_addr UART_RIS; Reg_addr UART_MIS; Reg_addr UART_ICR; Reg_addr UART_DMACR].

(** [bitflags_u32!]: [contains], [bitor], [bitand] of every flag type. *)
Definition flags_contains (self other : Z) : bool := Z.land self other =? other.
Definition flags_bitor (self rhs : Z) : Z := Z.lor self rhs.
Definition flags_bitand (self rhs : Z) : Z := Z.land self rhs.

(** [FrFlags], from [CTS] up to [RI]. *)
Definition FrFlags : list Z := (fun n => Z.shiftl 1 n) <$> [0; 1; 2; 3; 4; 5; 6; 7; 8].
Definition FrFlags_TXFF : Z := Z.shiftl 1 5.
(** [LcrhFlags]: [BRK], [PEN], [EPS], [STP2], [FEN], [SPS], and the word lengths. *)
Definition LcrhFlags : list Z := (fun n => Z.shiftl 1 n) <$> [0; 1; 2; 3; 4; 7].
Definition LcrhFlags_WLEN : list Z := (fun n => Z.shiftl n 5) <$> [0; 1; 2; 3].
(** [CrFlags]: [UARTEN], [SIREN], [SIRLP], then [LBE] up to [CTSEN]. *)
Definition CrFlags : list Z := (fun n => Z.shiftl 1 n) <$> [0; 1; 2; 7; 8; 9; 10; 11; 12; 13; 14; 15].
(** [InterruptFlags], from [RIM] up to [OE]. *)
Definition InterruptFlags : list Z := (fun n => Z.shiftl 1 n) <$> [0; 1; 2; 3; 4; 5; 6; 7; 8; 9; 10].

(* ------------------------------------------------------------------------- *)
(** ** The writers *)

Section uart.
Context {D : Type} (bus_read : Z -> D -> Z * D) (bus_write : Z -> Z -> D -> D).

(** One poll of [while UART_FR.read().contains(TXFF) {}]. *)
Definition poll_step (d : D) : outcome (D + D) :=
  let '(fr, d) := Reg_read bus_read UART_FR d in
  if flags_contains fr FrFlags_TXFF then Ok (inl d) else Ok (inr d).

Definition UartRaw_write_byte (fuel : nat) (d : D) (b : Z) : outcome D :=
  let! d := loop fuel poll_step d in
  Ok (Reg_write bus_write UART_DR b d).

(** [write_str] of [UartRaw]; [UartDriver]'s delegates to it. *)
Definition UartRaw_write_str (fuel : nat) (s : list Z) (d : D) : outcome D :=
  foldM (UartRaw_write_byte fuel) s d.
Definition UartDriver_write_str (fuel : nat) (s : list Z) (d : D) : outcome D :=
  UartRaw_write_str fuel s d.

(** The PL011 (DDI 0183): [TXFF] reads as set while the transmit FIFO is full, the
    FIFO drains in at most [patience] polls, a byte written while there is room is
    queued behind the earlier ones, and polling loses nothing. *)
Class PL011 := {
  sent : D -> list Z;
  polls_left : D -> nat;
  patience : nat;
  pl_bounded d : (polls_left d <= patience)%nat;
  pl_poll d :
    sent (bus_read (Reg_addr UART_FR) d).2 = sent d /\
    if flags_contains (bus_read (Reg_addr UART_FR) d).1 FrFlags_TXFF
    then (polls_left (bus_read (Reg_addr UART_FR) d).2 < polls_left d)%nat
    else polls_left (bus_read (Reg_addr UART_FR) d).2 = 0%nat;
  pl_write d b : polls_left d = 0%nat -> sent (bus_write (Reg_addr UART_DR) b d) = sent d ++ [b];
}.

Lemma poll_ok `{PL011} fuel d :
  (polls_left d < fuel)%nat ->
  exists d', loop fuel poll_step d = Ok d' /\ sent d' = sent d /\ polls_left d' = 0%nat.
Proof.
  intros Hf.
  destruct (loop_rule (fun s => sent s = sent d) (fun r => sent r = sent d /\ polls_left r = 0%nat)
    (fun s => Z.of_nat (polls_left s)) poll_step) with (fuel := fuel) (s := d) as (r & ? & ? & ?); [|done|lia|eauto].
  intros s Hs. split; [lia|]. unfold poll_step, Reg_read. destruct (pl_poll s) as [Hsent Hp].
  destruct (bus_read _ s) as [fr s']. cbn [fst snd] in *.
  destruct (flags_contains fr FrFlags_TXFF); [left|right]; exists s'; (split; [done|]).
  - split; [congruence|lia].
  - split; [congruence|done].
Qed.

Lemma write_byte_ok `{PL011} fuel d b :
  (patience < fuel)%nat -> exists d', UartRaw_write_byte fuel d b = Ok d' /\ sent d' = sent d ++ [b].
Proof.
  intros Hf. unfold UartRaw_write_byte. pose proof (pl_bounded d).
  destruct (poll_ok fuel d) as (d' & -> & Hs & Hp); [lia|]. cbn [obind].
  eexists. split; [done|]. unfold Reg_write. by rewrite pl_write, Hs.
Qed.
End uart.
Arguments sent {D bus_read bus_write PL011}.
Arguments patience {D} bus_read bus_write {PL011}.

(** A UART with its FIFO disabled: the bytes sent, and whether the one-byte holding
    register is still occupied at the next poll. *)
Definition toy_read (a : Z) (d : list Z * bool) : Z * (list Z * bool) :=
  if a =? Reg_addr UART_FR then (if d.2 then FrFlags_TXFF else 0, (d.1, false)) else (0, d).
Definition toy_write (a v : Z) (d : list Z * bool) : list Z * bool :=
  if a =? Reg_addr UART_DR then (if d.2 then d else (d.1 ++ [v], true)) else d.

#[export] Program Instance toy_pl011 : PL011 toy_read toy_write :=
  {| sent := fst; polls_left d := if d.2 then 1%nat else 0%nat; patience := 1%nat |}.
Next Obligation. intros [l []]; simpl; lia. Qed.
Next Obligation. intros [l []]; simpl; (split; [done|]); vm_compute; lia. Qed.
Next Obligation. by intros [l []] b. Qed.

(* ------------------------------------------------------------------------- *)
(** ** Properties *)

Lemma write_str_ok {D} bus_read bus_write `{PL011 D bus_read bus_write} fuel s d :
  (patience bus_read bus_write < fuel)%nat ->
  exists d', UartRaw_write_str bus_read bus_write fuel s d = Ok d' /\ sent d' = sent d ++ s.
Proof.
  intros Hf. unfold UartRaw_write_str. revert d.
  induction s as [|b s IH]; intros d; simpl.
  - exists d. by rewrite app_nil_r.
  - destruct (write_byte_ok bus_read bus_write fuel d b Hf) as (d1 & -> & Hs). cbn [obind].
    destruct (IH d1) as (d' & -> & Hs'). exists d'. split; [done|]. by rewrite Hs', Hs, <- app_assoc.
Qed.

(** The console loses nothing.  Against any UART that keeps its manual's
    promises, [write_str] returns, and has sent exactly the string's bytes, in order,
    after what was sent before. *)
Theorem uart_write_str_delivers {D} bus_read bus_write `{PL011 D bus_read bus_write} fuel s d :
  (patience bus_read bus_write < fuel)%nat ->
  exists d', UartDriver_write_str bus_read bus_write fuel s d = Ok d' /\ sent d' = sent d ++ s.
Proof. apply write_str_ok. Qed.

Lemma uart_write_str_delivers_witness :
  exists d', UartDriver_write_str toy_read toy_write 2 [72; 105; 10] ([], true) = Ok d' /\
             sent d' = [72; 105; 10].
Proof.
  destruct (uart_write_str_delivers toy_read toy_write 2 [72; 105; 10] ([], true)) as (d' & E & Hs);
    [unfold patience, toy_pl011; lia|].
  exists d'. split; [exact E|]. rewrite Hs. reflexivity.
Defined.

(** The register map: fourteen distinct word-aligned registers inside the one page
    the kernel maps for the console. *)
Lemma uart_registers_fit :
  NoDup uart_registers /\
  Forall (fun a => (4 | a) /\ UART_BASE <= a < UART_BASE + 4096) uart_registers.
Proof.
  split; [by apply (bool_decide_unpack _); vm_compute|].
  repeat constructor; try (vm_compute; congruence).
  all: match goal with |- (4 | ?a) => exists (a / 4); reflexivity end.
Qed.
