(* ===== verification/Sync.v ===== *)
(** * kernel/builtin/sync.rs: the spin-lock and the single-initialisation cell

    Each primitive is a shared record and one function per atomic access of the
    code; a CPU's place in the code is its phase, and the step relations interleave
    the CPUs in any order, one atomic access at a time.  That the
    orderings the code asks for (acquire on taking, release on giving) are enough to take
    the accesses as one interleaved sequence is proved in [WeakLocks], and what they give
    [Once] in [WeakOnce]. *)

From stdpp Require Import relations.
From S2P Require Import Prelude.

(** A CPU. *)
Notation cpu := Z.

(* ------------------------------------------------------------------------- *)
(** ** SpinLock *)

Record SpinLock (T : Type) := mkSpinLock { locked : bool; data : T }.
Arguments mkSpinLock {T} locked data.
Arguments locked {T} s.
Arguments data {T} s.

Section spin_lock.
Context {T : Type}.
Implicit Types s : SpinLock T.

Definition SpinLock_new (d : T) : SpinLock T := mkSpinLock false d.

(** [self.locked.swap(true, Acquire)]: the old value, and the lock. *)
Definition SpinLock_swap s : bool * SpinLock T := (locked s, mkSpinLock true (data s)).

(** What a guard's holder does through [DerefMut]. *)
Definition SpinLockGuard_deref_mut s (f : T -> T) : SpinLock T := mkSpinLock (locked s) (f (data s)).

(** [SpinLockGuard::drop] *)
Definition SpinLockGuard_drop s : SpinLock T := mkSpinLock false (data s).

(** Where a CPU is: elsewhere, in [lock]'s loop, or with the guard. *)
Inductive lock_phase := Away | Spinning | Guarded.

#[export] Instance lock_phase_eq_dec : EqDecision lock_phase.
Proof. solve_decision. Defined.

Record LockState := mkLockState { lk : SpinLock T; at_ : cpu -> lock_phase }.

Definition lock_initial (d : T) : LockState := mkLockState (SpinLock_new d) (fun _ => Away).

Inductive lock_event :=
  | Acquired (c : cpu)
  | Accessed (c : cpu) (f : T -> T)
  | Released (c : cpu).

(** One atomic access; turns of the loop that fail leave no event. *)
Inductive lock_step : LockState -> option lock_event -> LockState -> Prop :=
  | lock_call l ph c :
      ph c = Away -> lock_step (mkLockState l ph) None (mkLockState l (<[c := Spinning]> ph))
  | lock_spin l ph c l' :
      ph c = Spinning -> SpinLock_swap l = (true, l') ->
      lock_step (mkLockState l ph) None (mkLockState l' ph)
  | lock_take l ph c l' :
      ph c = Spinning -> SpinLock_swap l = (false, l') ->
      lock_step (mkLockState l ph) (Some (Acquired c)) (mkLockState l' (<[c := Guarded]> ph))
  | lock_use l ph c f :
      ph c = Guarded ->
      lock_step (mkLockState l ph) (Some (Accessed c f)) (mkLockState (SpinLockGuard_deref_mut l f) ph)
  | lock_drop l ph c :
      ph c = Guarded ->
      lock_step (mkLockState l ph) (Some (Released c))
        (mkLockState (SpinLockGuard_drop l) (<[c := Away]> ph)).

(** Runs from a fresh lock, with the events in order. *)
Inductive lock_run (d : T) : list lock_event -> LockState -> Prop :=
  | run_start : lock_run d [] (lock_initial d)
  | run_step tr (s : LockState) e (s' : LockState) : lock_run d tr s -> lock_step s e s' -> lock_run d (tr ++ option_list e) s'.

(** The guards that may be alive: [h] holds the lock, and nobody else. *)
Record lock_inv (s : LockState) (h : option cpu) : Prop := {
  li_locked : locked (lk s) = bool_decide (is_Some h);
  li_holder : forall c, at_ s c = Guarded <-> h = Some c;
}.

(** A trace of whole critical sections, the last one possibly still open:
    [h] is who is inside at the start, the result who is inside at the end. *)
Fixpoint sections (h : option cpu) (tr : list lock_event) : option (option cpu) :=
  match tr, h with
  | [], _ => Some h
  | Acquired c :: tr, None => sections (Some c) tr
  | Accessed c _ :: tr, Some c' => if decide (c = c') then sections (Some c') tr else None
  | Released c :: tr, Some c' => if decide (c = c') then sections None tr else None
  | _, _ => None
  end.

(** The data after a trace's accesses, one after the other. *)
Definition replay (d : T) (tr : list lock_event) : T :=
  foldl (fun d e => match e with Accessed _ f => f d | _ => d end) d tr.

Lemma sections_app h tr tr' :
  sections h (tr ++ tr') = match sections h tr with Some h' => sections h' tr' | None => None end.
Proof.
  revert h. induction tr as [|[c|c f|c] tr IH]; intros [c'|]; simpl; try done; try apply IH.
  all: destruct (decide _); [apply IH|done].
Qed.

(** Who holds the lock after the step, and the step's trace. *)
Lemma lock_step_ok (s : LockState) h e (s' : LockState) :
  lock_inv s h -> lock_step s e s' ->
  exists h', lock_inv s' h' /\ sections h (option_list e) = Some h' /\
             data (lk s') = replay (data (lk s)) (option_list e).
Proof.
  intros [Hl Hh] Hs. destruct Hs as [l ph c Hc|l ph c l' Hc E|l ph c l' Hc E|l ph c f Hc|l ph c Hc];
    cbn [lk at_] in *.
  - exists h. split_and!; [|done..]. split; [done|]. intros c'. cbn [at_]. rewrite <- Hh.
    destruct (decide (c = c')) as [<-|]; [|by rewrite fn_lookup_insert_ne].
    rewrite fn_lookup_insert. split; congruence.
  - injection E as E <-. exists h. split_and!; [|done..]. split; cbn [lk locked at_]; [|done]. congruence.
  - injection E as E <-. rewrite E in Hl. destruct h as [c'|]; [done|]. exists (Some c).
    split_and!; [|done..]. split; [done|]. intros c'. cbn [at_].
    destruct (decide (c = c')) as [<-|]; [by rewrite fn_lookup_insert|]. rewrite fn_lookup_insert_ne by done.
    rewrite Hh. split; congruence.
  - apply Hh in Hc as ->. exists (Some c). simpl. rewrite decide_True by done. by split_and!.
  - pose proof (proj1 (Hh c) Hc) as ->. exists None. simpl. rewrite decide_True by done.
    split_and!; [|done..]. split; [done|]. intros c'. cbn [at_].
    destruct (decide (c = c')) as [<-|]; [by rewrite fn_lookup_insert|]. rewrite fn_lookup_insert_ne by done.
    rewrite Hh. split; congruence.
Qed.

Lemma lock_run_ok d tr (s : LockState) :
  lock_run d tr s -> exists h, lock_inv s h /\ sections None tr = Some h /\ data (lk s) = replay d tr.
Proof.
  induction 1 as [|tr s e s' _ (h & I & Htr & Hd) Hs].
  - exists None. split_and!; [|done..]. split; [done|]. intros c. cbn. split; congruence.
  - destruct (lock_step_ok _ _ _ _ I Hs) as (h' & I' & Htr' & Hd'). exists h'. split; [done|].
    rewrite sections_app, Htr. split; [done|]. unfold replay in *. by rewrite foldl_app, <- Hd.
Qed.
End spin_lock.
Arguments LockState T : clear implicits.
Arguments lock_event T : clear implicits.

(** The lock excludes.  In every state any interleaving can reach: at most one
    CPU has the guard, the flag is up exactly when one does, and when none does the
    next turn of any spinning CPU takes it. *)
Theorem spinlock_excludes {T} (d : T) tr s :
  lock_run d tr s ->
  (forall c c', at_ s c = Guarded -> at_ s c' = Guarded -> c = c') /\
  (locked (lk s) = true <-> exists c, at_ s c = Guarded) /\
  (forall c, (forall c', at_ s c' <> Guarded) -> at_ s c = Spinning ->
     exists s', lock_step s (Some (Acquired c)) s' /\ at_ s' c = Guarded).
Proof.
  intros (h & [Hl Hh] & _)%lock_run_ok. split_and!.
  - intros c c' H1%Hh H2%Hh. congruence.
  - rewrite Hl, bool_decide_eq_true. split; intros [c Hc]; exists c; by apply Hh.
  - intros c Hn Hc. assert (locked (lk s) = false) as Hf.
    { rewrite Hl. apply bool_decide_eq_false. intros [c' ->]. by apply (Hn c'), Hh. }
    destruct s as [l ph]. cbn [lk at_] in *. eexists. split.
    + apply lock_take; [done|]. unfold SpinLock_swap. by rewrite Hf.
    + cbn [at_]. by rewrite fn_lookup_insert.
Qed.

(** C23: critical sections are atomic.  Every run's trace is a sequence of whole
    sections (taking, that CPU's accesses only, giving back), the last possibly
    open, and the data is what those accesses give when run one after the other. *)
Theorem spinlock_sections_atomic {T} (d : T) tr s :
  lock_run d tr s ->
  exists h, sections None tr = Some h /\ data (lk s) = replay d tr /\
            forall c, at_ s c = Guarded <-> h = Some c.
Proof. intros (h & [_ Hh] & Htr & Hd)%lock_run_ok. by exists h. Qed.

(** Two CPUs adding to a counter; CPU 1 spins while CPU 0 is inside. *)
Lemma demo_lock_run :
  exists s, lock_run 0 [Acquired 0; Accessed 0 (fun x => x + 5); Released 0; Acquired 1;
                        Accessed 1 (fun x => 2 * x)] s.
Proof.
  pose proof (run_start 0) as H.
  pose proof (run_step _ _ _ _ _ H (lock_call _ _ 0 eq_refl)) as H0.
  pose proof (run_step _ _ _ _ _ H0 (lock_take (mkSpinLock false 0) _ 0 _ eq_refl eq_refl)) as H1.
  pose proof (run_step _ _ _ _ _ H1 (lock_use _ _ 0 (fun x => x + 5) eq_refl)) as H2.
  pose proof (run_step _ _ _ _ _ H2 (lock_call _ _ 1 eq_refl)) as H3.
  pose proof (run_step _ _ _ _ _ H3 (lock_spin (mkSpinLock true 5) _ 1 _ eq_refl eq_refl)) as H4.
  pose proof (run_step _ _ _ _ _ H4 (lock_drop _ _ 0 eq_refl)) as H5.
  pose proof (run_step _ _ _ _ _ H5 (lock_take (mkSpinLock false 5) _ 1 _ eq_refl eq_refl)) as H6.
  pose proof (run_step _ _ _ _ _ H6 (lock_use _ _ 1 (fun x => 2 * x) eq_refl)) as H7.
  eexists. exact H7.
Qed.

Lemma spinlock_excludes_witness :
  exists tr (s : LockState Z), lock_run 0 tr s /\ length tr = 5%nat /\
    (locked (lk s) = true <-> exists c, at_ s c = Guarded).
Proof.
  destruct demo_lock_run as [s Hs]. eexists _, s. split; [exact Hs|]. split; [reflexivity|].
  apply (spinlock_excludes _ _ _ Hs).
Defined.

Lemma spinlock_sections_atomic_witness :
  exists tr (s : LockState Z), lock_run 0 tr s /\ data (lk s) = 10.
Proof.
  destruct demo_lock_run as [s Hs]. eexists _, s. split; [exact Hs|].
  destruct (spinlock_sections_atomic _ _ _ Hs) as (h & _ & Hd & _). rewrite Hd. reflexivity.
Defined.

(* ------------------------------------------------------------------------- *)
(** ** Once *)

Definition UNINIT : Z := 0.
Definition RUNNING : Z := 1.
Definition READY : Z := 2.

(** [value] is [None] while the memory is uninitialised. *)
Record Once (T : Type) := mkOnce { state : Z; value : option T }.
Arguments mkOnce {T} state value.
Arguments state {T} o.
Arguments value {T} o.

Section once.
Context {T : Type}.
Implicit Types o : Once T.

Definition Once_new : Once T := mkOnce UNINIT None.

(** [compare_exchange(UNINIT, RUNNING)]: whether it succeeded, and the cell. *)
Definition Once_compare_exchange o : bool * Once T :=
  if state o =? UNINIT then (true, mkOnce RUNNING (value o)) else (false, o).

(** The two stores of [call_once]'s first branch. *)
Definition Once_write o (v : T) : Once T := mkOnce (state o) (Some v).
Definition Once_publish o : Once T := mkOnce READY (value o).

(** [assume_init_ref]: undefined behaviour before the value is written. *)
Definition Once_assume_init_ref o : outcome T :=
  match value o with Some v => Ok v | None => Panic Undefined end.

Definition Once_get o : outcome (option T) :=
  if state o =? READY then
    let! v := Once_assume_init_ref o in Ok (Some v)
  else Ok None.

(** Where a CPU is: outside, in [call_once]'s first branch (before, between and
    after the closure and the value's store), in its waiting loop, or at its last
    line. *)
Inductive once_phase :=
  | Outside | Initialising | Computed (v : T) | Written | Waiting | Returning.

Record OnceState := mkOnceState { cell : Once T; ph_ : cpu -> once_phase }.

Definition once_initial : OnceState := mkOnceState Once_new (fun _ => Outside).

Inductive once_event :=
  | InitRan (c : cpu) (v : T)
  | Returned (c : cpu) (r : outcome T)
  | Got (c : cpu) (r : outcome (option T)).

Inductive once_step : OnceState -> option once_event -> OnceState -> Prop :=
  | once_win o ph c o' :
      ph c = Outside -> Once_compare_exchange o = (true, o') ->
      once_step (mkOnceState o ph) None (mkOnceState o' (<[c := Initialising]> ph))
  | once_lose o ph c o' :
      ph c = Outside -> Once_compare_exchange o = (false, o') ->
      once_step (mkOnceState o ph) None (mkOnceState o' (<[c := Waiting]> ph))
  | once_init o ph c v :
      ph c = Initialising ->
      once_step (mkOnceState o ph) (Some (InitRan c v)) (mkOnceState o (<[c := Computed v]> ph))
  | once_write o ph c v :
      ph c = Computed v ->
      once_step (mkOnceState o ph) None (mkOnceState (Once_write o v) (<[c := Written]> ph))
  | once_publish o ph c :
      ph c = Written ->
      once_step (mkOnceState o ph) None (mkOnceState (Once_publish o) (<[c := Returning]> ph))
  | once_spin o ph c :
      ph c = Waiting -> state o <> READY -> once_step (mkOnceState o ph) None (mkOnceState o ph)
  | once_ready o ph c :
      ph c = Waiting -> state o = READY ->
      once_step (mkOnceState o ph) None (mkOnceState o (<[c := Returning]> ph))
  | once_return o ph c :
      ph c = Returning ->
      once_step (mkOnceState o ph) (Some (Returned c (Once_assume_init_ref o)))
        (mkOnceState o (<[c := Outside]> ph))
  | once_get o ph c :
      ph c = Outside ->
      once_step (mkOnceState o ph) (Some (Got c (Once_get o))) (mkOnceState o ph).

Inductive once_run : list once_event -> OnceState -> Prop :=
  | once_start : once_run [] once_initial
  | once_more tr (s : OnceState) e (s' : OnceState) :
      once_run tr s -> once_step s e s' -> once_run (tr ++ option_list e) s'.

(** The values the closures that ran gave. *)
Definition inits (tr : list once_event) : list T :=
  omap (fun e => match e with InitRan _ v => Some v | _ => None end) tr.

(** The initialising CPU's place agrees with what was computed and stored. *)
Definition owner_ok (p : once_phase) (iv vl : option T) : Prop :=
  match p with
  | Initialising => iv = None /\ vl = None
  | Computed v => iv = Some v /\ vl = None
  | Written => is_Some iv /\ vl = iv
  | _ => False
  end.

(** The state's value against the CPUs' places; [iv] is what the closure gave. *)
Inductive once_inv (s : OnceState) (iv : option T) : Prop :=
  | inv_uninit :
      cell s = Once_new -> iv = None -> (forall c, ph_ s c = Outside) -> once_inv s iv
  | inv_running w :
      state (cell s) = RUNNING -> owner_ok (ph_ s w) iv (value (cell s)) ->
      (forall c, c <> w -> ph_ s c = Outside \/ ph_ s c = Waiting) -> once_inv s iv
  | inv_ready v :
      cell s = mkOnce READY (Some v) -> iv = Some v ->
      (forall c, ph_ s c = Outside \/ ph_ s c = Waiting \/ ph_ s c = Returning) -> once_inv s iv.

(** What an event may report, given the value [iv] initialised so far. *)
Definition event_ok (iv : option T) (e : once_event) : Prop :=
  match e with
  | InitRan _ v => iv = Some v
  | Returned _ r => exists v, iv = Some v /\ r = Ok v
  | Got _ r => r = Ok None \/ exists v, iv = Some v /\ r = Ok (Some v)
  end.

(** The value, once it can be seen, is seen. *)
Definition visible (e : once_event) : Prop :=
  match e with Returned _ _ => True | Got _ r => r <> Ok None | InitRan _ _ => False end.

Lemma event_ok_grow iv v e : (iv = None \/ iv = Some v) -> event_ok iv e -> event_ok (Some v) e.
Proof. destruct e; simpl; [destruct 1; congruence|naive_solver..]. Qed.

(** The three states are distinct. *)
Ltac once_states := exfalso; unfold UNINIT, RUNNING, READY in *; simplify_eq/=; congruence.

(** What a step does to the initialised value and what it may report. *)
Record once_effect (s : OnceState) (iv : option T) (e : option once_event) (s' : OnceState)
    (iv' : option T) : Prop := {
  oe_inv : once_inv s' iv';
  oe_inits : option_list iv' = option_list iv ++ inits (option_list e);
  oe_keep : iv = None \/ iv' = iv;
  oe_event : forall x, e = Some x -> event_ok iv' x /\ (visible x -> state (cell s') = READY);
  oe_ready : state (cell s) = READY -> state (cell s') = READY;
}.

(** A step that reports nothing and computes nothing. *)
Lemma once_quiet s s' iv :
  once_inv s' iv -> (state (cell s) = READY -> state (cell s') = READY) -> once_effect s iv None s' iv.
Proof.
  intros I Hr. split; [done| |by right|done|done]. simpl. by rewrite app_nil_r.
Qed.

(** The initialising CPU moves on, and the others stay where they were. *)
Lemma inv_owner_moves ph w p o iv :
  state o = RUNNING -> owner_ok p iv (value o) ->
  (forall c, c <> w -> ph c = Outside \/ ph c = Waiting) -> once_inv (mkOnceState o (<[w := p]> ph)) iv.
Proof.
  intros Ho Hp Hc. apply (inv_running _ _ w); cbn [cell ph_]; [done|by rewrite fn_lookup_insert|].
  intros c Hne. rewrite fn_lookup_insert_ne by done. by apply Hc.
Qed.

(** A CPU that is not initialising moves between the places it may be at. *)
Lemma inv_other_moves o ph c p iv :
  once_inv (mkOnceState o ph) iv -> state o <> UNINIT ->
  (ph c = Outside \/ ph c = Waiting \/ ph c = Returning) ->
  (p = Outside \/ p = Waiting \/ (p = Returning /\ state o = READY)) ->
  once_inv (mkOnceState o (<[c := p]> ph)) iv.
Proof.
  intros [Ho _ _|w Ho Hp Hc|v Ho Hv Hc] Hn Hold Hnew; cbn [cell ph_] in *.
  - by rewrite Ho in Hn.
  - rewrite Ho in Hnew. assert (c <> w) as Hcw.
    { intros ->. destruct (ph w); simpl in Hp; naive_solver. }
    apply (inv_running _ _ w); cbn [cell ph_]; [done|by rewrite fn_lookup_insert_ne|].
    intros c' Hne. destruct (decide (c = c')) as [<-|]; [rewrite fn_lookup_insert|rewrite fn_lookup_insert_ne by done; by apply Hc].
    destruct Hnew as [->|[->|[_ [=]]]]; tauto.
  - apply (inv_ready _ _ v); [done..|]. intros c'. cbn [ph_].
    destruct (decide (c = c')) as [<-|]; [rewrite fn_lookup_insert; tauto|by rewrite fn_lookup_insert_ne].
Qed.

(** Who is initialising is the owner. *)
Lemma inv_owner o ph c iv :
  once_inv (mkOnceState o ph) iv -> ph c <> Outside -> ph c <> Waiting -> ph c <> Returning ->
  state o = RUNNING /\ owner_ok (ph c) iv (value o) /\
  (forall c', c' <> c -> ph c' = Outside \/ ph c' = Waiting).
Proof.
  intros [Ho _ Hc|w Ho Hp Hc|v Ho Hv Hc] H1 H2 H3; cbn [cell ph_] in *.
  - by destruct (H1 (Hc c)).
  - destruct (decide (c = w)) as [->|Hne]; [done|]. by destruct (Hc c Hne).
  - by destruct (Hc c) as [?|[?|?]].
Qed.

Lemma inv_ready_value o ph iv :
  once_inv (mkOnceState o ph) iv -> state o = READY -> exists v, iv = Some v /\ o = mkOnce READY (Some v).
Proof. intros [Ho _ _|w Ho _ _|v Ho Hv _] Hr; cbn [cell] in *; [once_states..|eauto]. Qed.

Lemma inv_returning_ready o ph c iv : once_inv (mkOnceState o ph) iv -> ph c = Returning -> state o = READY.
Proof.
  intros [_ _ Hc|w _ Hp Hc|v Ho _ _] E; cbn [cell ph_] in *; [by rewrite Hc in E| |by subst].
  destruct (decide (c = w)) as [->|Hne]; [by rewrite E in Hp|]. destruct (Hc c Hne); congruence.
Qed.

Lemma once_step_ok (s : OnceState) iv e (s' : OnceState) :
  once_inv s iv -> once_step s e s' -> exists iv', once_effect s iv e s' iv'.
Proof.
  intros I Hs. destruct Hs as [o ph c o' Hc E|o ph c o' Hc E|o ph c v Hc|o ph c v Hc|o ph c Hc
    |o ph c Hc Hn|o ph c Hc Hr|o ph c Hc|o ph c Hc].
  - exists iv. unfold Once_compare_exchange in E. destruct (Z.eqb_spec (state o) UNINIT) as [Hu|]; [|done].
    injection E as <-. apply once_quiet; cbn [cell]; [|by rewrite Hu].
    destruct I as [Ho -> Hall|w Ho _ _|v Ho _ _]; cbn [cell ph_] in *; [|once_states..].
    subst o. apply inv_owner_moves; [done..|]. intros c' _. left. apply Hall.
  - exists iv. unfold Once_compare_exchange in E. destruct (Z.eqb_spec (state o) UNINIT) as [|Hu]; [done|].
    injection E as <-. apply once_quiet; [|done]. apply inv_other_moves; naive_solver.
  - destruct (inv_owner _ _ c _ I) as (Ho & Hp & Hall); [by rewrite Hc..|]. rewrite Hc in Hp.
    destruct Hp as [-> Hvl]. exists (Some v). split; [|done|by left| |done].
    + by apply inv_owner_moves.
    + intros x [= <-]. split; [done|intros []].
  - destruct (inv_owner _ _ c _ I) as (Ho & Hp & Hall); [by rewrite Hc..|]. rewrite Hc in Hp.
    destruct Hp as [-> Hvl]. exists (Some v). apply once_quiet; [|done].
    apply inv_owner_moves; [done| |done]. split; [by eexists|done].
  - destruct (inv_owner _ _ c _ I) as (Ho & Hp & Hall); [by rewrite Hc..|]. rewrite Hc in Hp.
    destruct Hp as [[v ->] Hvl]. exists (Some v). apply once_quiet; [|done].
    apply (inv_ready _ _ v); cbn [cell ph_]; [unfold Once_publish; by rewrite Hvl|done|].
    intros c'. destruct (decide (c = c')) as [<-|]; [rewrite fn_lookup_insert; tauto|].
    rewrite fn_lookup_insert_ne by done. destruct (Hall c'); naive_solver.
  - exists iv. by apply once_quiet.
  - exists iv. apply once_quiet; [|done]. apply inv_other_moves; [done|by rewrite Hr|tauto..].
  - pose proof (inv_returning_ready _ _ _ _ I Hc) as Hr. destruct (inv_ready_value _ _ _ I Hr) as (v & -> & ->).
    exists (Some v). split; [|done|by right| |done].
    + apply inv_other_moves; [done..|tauto|tauto].
    + intros x [= <-]. simpl. naive_solver.
  - exists iv. unfold Once_get. destruct (Z.eqb_spec (state o) READY) as [Hr|Hr].
    + destruct (inv_ready_value _ _ _ I Hr) as (v & -> & ->). split; [done|done|by right| |done].
      intros x [= <-]. simpl. naive_solver.
    + split; [done|simpl; by rewrite app_nil_r|by right| |done]. intros x [= <-]. simpl. naive_solver.
Qed.

Lemma once_run_ok tr (s : OnceState) :
  once_run tr s ->
  exists iv, once_inv s iv /\ inits tr = option_list iv /\ Forall (event_ok iv) tr /\
             (Exists visible tr -> state (cell s) = READY).
Proof.
  induction 1 as [|tr s e s' _ (iv & I & Hin & Hev & Hvis) Hs].
  - exists None. split_and!; [by apply inv_uninit|done|done|]. intros H. inversion H.
  - destruct (once_step_ok _ _ _ _ I Hs) as (iv' & [I' Hin' Hkeep Hx Hr]). exists iv'. split_and!; [done|..].
    + unfold inits in *. rewrite omap_app. by rewrite Hin, Hin'.
    + apply list.Forall_app. split.
      * destruct Hkeep as [->| ->]; [|done]. destruct iv' as [v|]; [|done].
        eapply list.Forall_impl; [exact Hev|]. intros x. apply event_ok_grow. by left.
      * destruct e as [x|]; simpl; [|constructor]. apply list.Forall_singleton. by apply Hx.
    + rewrite Exists_app. intros [H|H]; [by apply Hr, Hvis|]. destruct e as [x|]; simpl in H.
      * apply Exists_cons in H as [H|H]; [by apply (Hx x)|inversion H].
      * inversion H.
Qed.

End once.
Arguments OnceState T : clear implicits.
Arguments once_event T : clear implicits.
Arguments once_phase T : clear implicits.

(** [call_once] initialises once.  In every interleaving: at most one closure
    runs; every reference [call_once] returns and everything [get] gives is that
    closure's value, so uninitialised memory is never read; and once the value has
    been seen anywhere, [get] keeps giving it. *)
Theorem once_initialises_once {T} tr (s : OnceState T) :
  once_run tr s ->
  exists iv, inits tr = option_list iv /\
    (forall c r, Returned c r ∈ tr -> exists v, iv = Some v /\ r = Ok v) /\
    (forall c r, Got c r ∈ tr -> r = Ok None \/ exists v, iv = Some v /\ r = Ok (Some v)) /\
    (Exists visible tr -> exists v, iv = Some v /\ Once_get (cell s) = Ok (Some v)).
Proof.
  intros (iv & I & Hin & Hev & Hvis)%once_run_ok. rewrite list.Forall_forall in Hev. exists iv.
  split_and!; [done|intros c r Hr; apply (Hev _ Hr)|intros c r Hr; apply (Hev _ Hr)|].
  intros Hx%Hvis. destruct s as [o ph]. destruct (inv_ready_value _ _ _ I Hx) as (v & -> & Ho).
  cbn [cell]. exists v. by rewrite Ho.
Qed.

(** CPU 1 looks, and waits, while CPU 0 initialises. *)
Lemma demo_once_run :
  exists tr s, once_run tr s /\ tr = [Got 1 (Ok None); InitRan 0 42; Returned 0 (Ok 42); Returned 1 (Ok 42)].
Proof.
  pose proof (once_start (T := Z)) as H.
  pose proof (once_more _ _ _ _ H (once_win (mkOnce 0 None) _ 0 _ eq_refl eq_refl)) as H0.
  pose proof (once_more _ _ _ _ H0 (once_get _ _ 1 eq_refl)) as H1.
  pose proof (once_more _ _ _ _ H1 (once_lose (mkOnce 1 None) _ 1 _ eq_refl eq_refl)) as H2.
  pose proof (once_more _ _ _ _ H2 (once_init _ _ 0 42 eq_refl)) as H3.
  pose proof (once_more _ _ _ _ H3 (once_spin (mkOnce 1 None) _ 1 eq_refl ltac:(done))) as H4.
  pose proof (once_more _ _ _ _ H4 (once_write _ _ 0 42 eq_refl)) as H5.
  pose proof (once_more _ _ _ _ H5 (once_publish _ _ 0 eq_refl)) as H6.
  pose proof (once_more _ _ _ _ H6 (once_return _ _ 0 eq_refl)) as H7.
  pose proof (once_more _ _ _ _ H7 (once_ready (mkOnce 2 (Some 42)) _ 1 eq_refl eq_refl)) as H8.
  pose proof (once_more _ _ _ _ H8 (once_return _ _ 1 eq_refl)) as H9.
  eexists _, _. split; [exact H9|reflexivity].
Qed.

Lemma once_initialises_once_witness :
  exists tr (s : OnceState Z), once_run tr s /\ length tr = 4%nat /\ Once_get (cell s) = Ok (Some 42).
Proof.
  destruct demo_once_run as (tr & s & H & E). exists tr, s. split; [exact H|]. split; [by rewrite E|].
  destruct (once_initialises_once tr s H) as (iv & Hin & _ & _ & Hvis). rewrite E in Hin, Hvis.
  destruct Hvis as (v & -> & Hg); [right; right; by left|]. simpl in Hin. by simplify_eq.
Defined.
