(* ===== verification/WeakMem.v ===== *)
(** * Weak memory: an atomic cell under the orderings of [core::sync::atomic]

    [Sync] and [Locks] let atomic accesses happen one after the other.  Here an atomic
    cell has instead the release-acquire semantics of the language: a cell is all
    messages ever written to it, at places of its modification order that a writer
    chooses; a CPU may read any message that is not older than what it knows; a
    read-modify-write goes right behind the message it reads; and only an acquiring
    read of what a releasing write published brings over what the writer knew.
    Ordinary memory has no order of its own: an access that some earlier conflicting
    access is not known to precede is a data race, which is undefined behaviour. *)

From S2P Require Import Prelude.

(** [core::sync::atomic::Ordering] *)
Inductive Ordering := Relaxed | Release | Acquire | AcqRel | SeqCst.

Definition acquires (o : Ordering) : bool :=
  match o with Acquire | AcqRel | SeqCst => true | _ => false end.
Definition releases (o : Ordering) : bool :=
  match o with Release | AcqRel | SeqCst => true | _ => false end.

(** Accesses to ordinary memory are numbered; what a CPU knows is a set of them. *)
Definition events : Type := gset nat.

Section cells.
Context {V : Type}.

(** A value, the interval ([from], [to]] it takes of the modification order, and the
    accesses that reading it with an acquiring order makes known. *)
Record message := mkMessage { m_val : V; m_from : Z; m_to : Z; m_released : events }.
Implicit Types (h : list message) (m : message) (k : events).

(** A static's initial value. *)
Definition first_message (v : V) : message := mkMessage v (-1) 0 ∅.

(** There is room for ([f], [t]]. *)
Definition fits h (f t : Z) : Prop :=
  f < t /\ Forall (fun m => m_to m <= f \/ t <= m_from m) h.

(** The three accesses, for a CPU that knows [k] and has seen the cell up to [at_]: the
    history, its knowledge and the place it has seen afterwards. *)
Inductive loads (o : Ordering) h k (at_ : Z) (v : V) : events -> Z -> Prop :=
  | load_from m :
      m ∈ h -> at_ <= m_to m -> v = m_val m ->
      loads o h k at_ v (k ∪ (if acquires o then m_released m else ∅)) (m_to m).

Inductive stores (o : Ordering) h k (at_ : Z) (v : V) : list message -> Z -> Prop :=
  | store_at f t :
      at_ < t -> fits h f t ->
      stores o h k at_ v (mkMessage v f t (if releases o then k else ∅) :: h) t.

Inductive updates (o : Ordering) h k (at_ : Z) (old v : V) : list message -> events -> Z -> Prop :=
  | update_behind m t :
      m ∈ h -> at_ <= m_to m -> old = m_val m -> fits h (m_to m) t ->
      updates o h k at_ old v
        (mkMessage v (m_to m) t (m_released m ∪ (if releases o then k else ∅)) :: h)
        (k ∪ (if acquires o then m_released m else ∅)) t.

Lemma loads_inv o h k a v k' f :
  loads o h k a v k' f ->
  exists m, m ∈ h /\ v = m_val m /\ a <= m_to m /\ f = m_to m /\ k' = k ∪ (if acquires o then m_released m else ∅).
Proof. intros [m]. by exists m. Qed.

(** Messages take disjoint places. *)
Record cell_wf h : Prop := {
  cw_some m : m ∈ h -> m_from m < m_to m;
  cw_same m m' : m ∈ h -> m' ∈ h -> m_to m = m_to m' -> m = m';
}.

Lemma cell_wf_first v : cell_wf [first_message v].
Proof. by split; [intros m ->%list_elem_of_singleton|intros m m' ->%list_elem_of_singleton ->%list_elem_of_singleton]. Qed.

Lemma fits_elem h f t m : fits h f t -> m ∈ h -> m_to m <= f \/ t <= m_from m.
Proof. intros [_ H]. by apply (proj1 (list.Forall_forall _ _) H). Qed.

Lemma cell_wf_cons h v f t k : cell_wf h -> fits h f t -> cell_wf (mkMessage v f t k :: h).
Proof.
  intros [Hs He] Hf. pose proof (proj1 Hf) as Hft.
  assert (forall m, m ∈ h -> m_to m <> t) as Hne.
  { intros m Hm E. pose proof (Hs m Hm). destruct (fits_elem _ _ _ _ Hf Hm); lia. }
  split.
  - intros m [->|Hm]%elem_of_cons; [done|by apply Hs].
  - intros m m' [->|Hm]%elem_of_cons [->|Hm']%elem_of_cons; cbn; [done| | |by apply He].
    + intros E. by destruct (Hne m' Hm').
    + intros E. by destruct (Hne m Hm).
Qed.

(** A message that a read-modify-write can still go behind. *)
Definition last_behind h m : Prop := Forall (fun m' => m_from m' <> m_to m) h.

Lemma fits_last_behind h m t : cell_wf h -> fits h (m_to m) t -> last_behind h m.
Proof.
  intros W Hf. apply list.Forall_forall. intros m' Hm' E. pose proof (cw_some _ W m' Hm').
  destruct Hf as [Hlt Hf]. destruct (proj1 (list.Forall_forall _ _) Hf m' Hm'); lia.
Qed.

(** From [T] on, each message is right behind another. *)
Definition contiguous h (T : Z) : Prop :=
  (exists m, m ∈ h /\ m_to m = T) /\
  forall m, m ∈ h -> T < m_to m -> exists m', m' ∈ h /\ m_to m' = m_from m /\ T <= m_to m'.

(** A store that has seen [T] then goes behind everything. *)
Lemma contiguous_last h T f t m :
  cell_wf h -> contiguous h T -> T < t -> fits h f t -> m ∈ h -> m_to m < t.
Proof.
  intros W [_ Hc] HT Hf. assert (forall n m, (Z.to_nat (m_to m - t) < n)%nat -> m ∈ h -> m_to m < t) as H.
  { intros n. induction n as [|n IH]; intros m' Hn Hm; [lia|].
    destruct (Z.lt_ge_cases (m_to m') t) as [|Hge]; [done|]. exfalso.
    pose proof (cw_some _ W m' Hm). destruct Hf as [Hft Hf].
    destruct (proj1 (list.Forall_forall _ _) Hf m' Hm) as [|Hle]; [lia|].
    destruct (Hc m' Hm ltac:(lia)) as (m2 & Hm2 & E2 & _). pose proof (IH m2 ltac:(lia) Hm2). lia. }
  intros Hm. by apply (H (S (Z.to_nat (m_to m - t)))); [lia|].
Qed.

(** Read-modify-writes keep the order contiguous. *)
Lemma contiguous_update h T m v t k :
  cell_wf h -> contiguous h T -> m ∈ h -> fits h (m_to m) t -> contiguous (mkMessage v (m_to m) t k :: h) T.
Proof.
  intros W [(m1 & Hm1 & E1) Hc] Hm Hf. split; [exists m1; split; [by right|done]|].
  intros m' [->|Hm']%elem_of_cons Hlt; cbn in *.
  - exists m. split_and!; [by right|done|]. pose proof (cw_some _ W m1 Hm1).
    destruct (fits_elem _ _ _ _ Hf Hm1); lia.
  - destruct (Hc m' Hm' Hlt) as (m2 & Hm2 & ?). exists m2. split; [by right|done].
Qed.

Lemma contiguous_from h v f t k :
  (forall m, m ∈ h -> m_to m < t) -> contiguous (mkMessage v f t k :: h) t.
Proof.
  intros Hh. split; [eexists; split; [by left|done]|]. intros m [->|Hm]%elem_of_cons Hlt; cbn in *; [lia|].
  pose proof (Hh m Hm). lia.
Qed.
End cells.
Arguments message V : clear implicits.
