(* ===== verification/WeakOnce.v ===== *)
(** * The single-initialisation cell under the orderings the code asks for

    [Once] of [builtin/sync.rs] with its state an atomic cell of [WeakMem] and its value
    ordinary memory: the compare-exchange and the loads are [Ordering::Acquire], the
    store of [READY] is [Ordering::Release].  A CPU may read any state not older than
    one it has read, whatever the others have written since. *)

From S2P Require Import Prelude Sync WeakMem.

(** The orderings in [call_once] and [get]. *)
Definition cas_ordering : Ordering := Acquire.
Definition load_ordering : Ordering := Acquire.
Definition ready_ordering : Ordering := Release.

Section weak_once.
Context {T : Type}.

(** Where a CPU is: the places of [Sync.once_phase], with the read of the value that ends
    [call_once] ([false]) or [get] ([true]) an access of its own. *)
Inductive place :=
  | Outside | Initialising | Computed (v : T) | Written | Waiting | Reading (from_get : bool).

(** The state's messages, the value, and the accesses made to it. *)
Record weak_cell := mkCell {
  word : list (message Z);
  slot : option T;
  writes : events;
  reads : events;
  clock : nat;
}.

(** The cell, and each CPU's place, what it knows and how far it has seen the state. *)
Record weak := mkWeak {
  the_cell : weak_cell;
  places : cpu -> place;
  knows : cpu -> events;
  front : cpu -> Z;
}.

Definition weak_once_initial : weak :=
  mkWeak (mkCell [first_message UNINIT] None ∅ ∅ 0) (fun _ => Outside) (fun _ => ∅) (fun _ => 0).

Definition moved (w : weak) (c : cpu) (x : weak_cell) (p : place) (k : events) (f : Z) : weak :=
  mkWeak x (<[c := p]> (places w)) (<[c := k]> (knows w)) (<[c := f]> (front w)).

Definition with_word (x : weak_cell) (h : list (message Z)) : weak_cell :=
  mkCell h (slot x) (writes x) (reads x) (clock x).
Definition write_slot (x : weak_cell) (v : T) : weak_cell :=
  mkCell (word x) (Some v) ({[clock x]} ∪ writes x) (reads x) (S (clock x)).
Definition read_slot (x : weak_cell) : weak_cell :=
  mkCell (word x) (slot x) (writes x) ({[clock x]} ∪ reads x) (S (clock x)).

(** [assume_init_ref]: undefined behaviour before the value is written. *)
Definition assume_init_ref (x : weak_cell) : outcome T :=
  match slot x with Some v => Ok v | None => Panic Undefined end.

Definition read_event (c : cpu) (from_get : bool) (r : outcome T) : once_event T :=
  if from_get then Got c (let! v := r in Ok (Some v)) else Returned c r.

(** An access to the value that does not follow all those it conflicts with. *)
Definition racy (w : weak) : Prop :=
  (exists c v, places w c = Computed v /\ ~ writes (the_cell w) ∪ reads (the_cell w) ⊆ knows w c) \/
  (exists c b, places w c = Reading b /\ ~ writes (the_cell w) ⊆ knows w c).

Inductive weak_once_step (w : weak) : option (once_event T) -> weak -> Prop :=
  | wo_win c h k f :
      places w c = Outside ->
      updates cas_ordering (word (the_cell w)) (knows w c) (front w c) UNINIT RUNNING h k f ->
      weak_once_step w None (moved w c (with_word (the_cell w) h) Initialising k f)
  | wo_lose c v k f :
      places w c = Outside -> v <> UNINIT ->
      loads cas_ordering (word (the_cell w)) (knows w c) (front w c) v k f ->
      weak_once_step w None (moved w c (the_cell w) Waiting k f)
  | wo_init c v :
      places w c = Initialising ->
      weak_once_step w (Some (InitRan c v)) (moved w c (the_cell w) (Computed v) (knows w c) (front w c))
  | wo_write c v :
      places w c = Computed v -> writes (the_cell w) ∪ reads (the_cell w) ⊆ knows w c ->
      weak_once_step w None
        (moved w c (write_slot (the_cell w) v) Written ({[clock (the_cell w)]} ∪ knows w c) (front w c))
  | wo_publish c h f :
      places w c = Written ->
      stores ready_ordering (word (the_cell w)) (knows w c) (front w c) READY h f ->
      weak_once_step w None (moved w c (with_word (the_cell w) h) (Reading false) (knows w c) f)
  | wo_wait c v k f :
      places w c = Waiting ->
      loads load_ordering (word (the_cell w)) (knows w c) (front w c) v k f ->
      weak_once_step w None (moved w c (the_cell w) (if v =? READY then Reading false else Waiting) k f)
  | wo_get c v k f :
      places w c = Outside ->
      loads load_ordering (word (the_cell w)) (knows w c) (front w c) v k f ->
      weak_once_step w (if v =? READY then None else Some (Got c (Ok None)))
        (moved w c (the_cell w) (if v =? READY then Reading true else Outside) k f)
  | wo_read c b :
      places w c = Reading b -> writes (the_cell w) ⊆ knows w c ->
      weak_once_step w (Some (read_event c b (assume_init_ref (the_cell w))))
        (moved w c (read_slot (the_cell w)) Outside ({[clock (the_cell w)]} ∪ knows w c) (front w c)).

Inductive weak_once_run : list (once_event T) -> weak -> Prop :=
  | weak_once_start : weak_once_run [] weak_once_initial
  | weak_once_more tr w e w' :
      weak_once_run tr w -> weak_once_step w e w' -> weak_once_run (tr ++ option_list e) w'.

(* ------------------------------------------------------------------------- *)
(** ** The invariant *)

(** The initialising CPU's place, against what was computed and stored. *)
Definition owner_at (p : place) (iv vl : option T) : Prop :=
  match p with
  | Initialising => iv = None /\ vl = None
  | Computed v => iv = Some v /\ vl = None
  | Written => is_Some iv /\ vl = iv
  | _ => False
  end.

Definition running (t : Z) : message Z := mkMessage RUNNING 0 t ∅.

Inductive weak_once_ok (w : weak) (iv : option T) : Prop :=
  | wok_uninit :
      the_cell w = the_cell weak_once_initial -> iv = None -> (forall c, places w c = Outside) -> weak_once_ok w iv
  | wok_running o t :
      0 < t -> word (the_cell w) = [running t; first_message UNINIT] ->
      reads (the_cell w) = ∅ -> writes (the_cell w) ⊆ knows w o -> t <= front w o ->
      owner_at (places w o) iv (slot (the_cell w)) ->
      (forall c, c <> o -> places w c = Outside \/ places w c = Waiting) -> weak_once_ok w iv
  | wok_ready v t f u k :
      0 < t -> t < u -> word (the_cell w) = [mkMessage READY f u k; running t; first_message UNINIT] ->
      slot (the_cell w) = Some v -> iv = Some v -> writes (the_cell w) ⊆ k ->
      (forall c, places w c = Outside \/ places w c = Waiting \/
         exists b, places w c = Reading b /\ writes (the_cell w) ⊆ knows w c /\ u <= front w c) ->
      weak_once_ok w iv.

(** Who has seen the value. *)
Definition sees (c : cpu) (e : once_event T) : Prop :=
  match e with
  | Returned c' _ => c' = c
  | Got c' r => c' = c /\ r <> Ok None
  | InitRan _ _ => False
  end.

(** A CPU that has seen the value has seen the state's last message. *)
Definition informed (w : weak) (c : cpu) : Prop :=
  exists m, m ∈ word (the_cell w) /\ m_val m = READY /\ m_to m <= front w c.

(* ------------------------------------------------------------------------- *)
(** ** Every step keeps it *)

(** What a step does to the initialised value, and what it may report. *)
Record effect (w : weak) (iv : option T) (e : option (once_event T)) (w' : weak) (iv' : option T) : Prop := {
  ef_ok : weak_once_ok w' iv';
  ef_inits : option_list iv' = option_list iv ++ inits (option_list e);
  ef_keep : iv = None \/ iv' = iv;
  ef_event x : e = Some x -> event_ok iv' x;
  ef_sees c x : e = Some x -> sees c x -> informed w' c;
  ef_informed c : informed w c -> informed w' c;
  ef_none c : e = Some (Got c (Ok None)) -> ~ informed w c;
}.

Lemma places_moved w c x p k f c' :
  places (moved w c x p k f) c' = if decide (c = c') then p else places w c'.
Proof. cbn. destruct (decide (c = c')) as [<-|]; [by rewrite fn_lookup_insert|by rewrite fn_lookup_insert_ne]. Qed.

Lemma front_moved w c x p k f c' : front (moved w c x p k f) c' = if decide (c = c') then f else front w c'.
Proof. cbn. destruct (decide (c = c')) as [<-|]; [by rewrite fn_lookup_insert|by rewrite fn_lookup_insert_ne]. Qed.

Lemma knows_moved w c x p k f c' : knows (moved w c x p k f) c' = if decide (c = c') then k else knows w c'.
Proof. cbn. destruct (decide (c = c')) as [<-|]; [by rewrite fn_lookup_insert|by rewrite fn_lookup_insert_ne]. Qed.

(** Fronts and words only grow. *)
Lemma informed_moved w c x p k f c' :
  (forall m, m ∈ word (the_cell w) -> m ∈ word x) -> front w c <= f -> informed w c' -> informed (moved w c x p k f) c'.
Proof.
  intros Hw Hf (m & Hm & Hv & Hle). exists m. split_and!; [by apply Hw|done|]. rewrite front_moved.
  destruct (decide (c = c')) as [->|]; lia.
Qed.

(** A step that reports nothing and computes nothing. *)
Lemma quiet w iv c x p k f :
  weak_once_ok (moved w c x p k f) iv -> (forall m, m ∈ word (the_cell w) -> m ∈ word x) -> front w c <= f ->
  effect w iv None (moved w c x p k f) iv.
Proof.
  intros I Hw Hf. split; try done; [cbn; by rewrite app_nil_r|by right|]. intros c'. by apply informed_moved.
Qed.

(** The initialising CPU is at one of its places. *)
Lemma owner_not w o iv vl : owner_at (places w o) iv vl -> places w o <> Outside /\ places w o <> Waiting.
Proof. destruct (places w o); cbn; (done || by destruct 1). Qed.

(** A CPU that is not initialising reads the state and stays outside or waits. *)
Lemma other_moves w iv c p k f :
  weak_once_ok w iv -> places w c = Outside \/ places w c = Waiting ->
  p = Outside \/ (p = Waiting /\ word (the_cell w) <> [first_message UNINIT]) ->
  weak_once_ok (moved w c (the_cell w) p k f) iv.
Proof.
  intros I Hc Hp. destruct I as [Ex -> Hall|o t Ht Ew Er Hk Hf Ho Hall|v t m u k0 Ht Hu Ew Es -> Hk Hall].
  - destruct Hp as [->|[_ []]]; [|by rewrite Ex]. apply wok_uninit; [done..|]. intros c'.
    rewrite places_moved. by destruct (decide _).
  - assert (c <> o) as Hne by (intros ->; destruct (owner_not _ _ _ _ Ho); tauto).
    apply (wok_running _ _ o t); rewrite ?places_moved, ?knows_moved, ?front_moved, ?decide_False by done; try done.
    intros c' Hc'. rewrite places_moved. destruct (decide _); [tauto|by apply Hall].
  - apply (wok_ready _ _ v t m u k0); try done. intros c'. rewrite places_moved, knows_moved, front_moved.
    destruct (decide _); [tauto|apply Hall].
Qed.

(** The state is what it is when some CPU has read [READY]. *)
Lemma ready_read w iv m :
  weak_once_ok w iv -> m ∈ word (the_cell w) -> m_val m = READY ->
  exists v t f u k, 0 < t /\ t < u /\ word (the_cell w) = [mkMessage READY f u k; running t; first_message UNINIT] /\
    slot (the_cell w) = Some v /\ iv = Some v /\ writes (the_cell w) ⊆ k /\ m = mkMessage READY f u k /\
    forall c, places w c = Outside \/ places w c = Waiting \/
      exists b, places w c = Reading b /\ writes (the_cell w) ⊆ knows w c /\ u <= front w c.
Proof.
  intros [Ex _ _|o t _ Ew _ _ _ _ _|v t f u k Ht Hu Ew Es Ei Hk Hall] Hm Hv.
  - rewrite Ex in Hm. by apply list_elem_of_singleton in Hm as ->.
  - rewrite Ew in Hm. apply elem_of_cons in Hm as [->|Hm%list_elem_of_singleton]; [done|]. by subst m.
  - exists v, t, f, u, k. split_and!; try done. rewrite Ew in Hm.
    apply elem_of_cons in Hm as [->|Hm]; [done|]. apply elem_of_cons in Hm as [->|Hm%list_elem_of_singleton]; [done|by subst m].
Qed.

(** A CPU that loads [READY] may read the value. *)
Lemma ready_moves w iv c b k f :
  weak_once_ok w iv -> places w c = Outside \/ places w c = Waiting ->
  loads load_ordering (word (the_cell w)) (knows w c) (front w c) READY k f ->
  weak_once_ok (moved w c (the_cell w) (Reading b) k f) iv.
Proof.
  intros I Hc (m & Hm & Hv & Ha & -> & ->)%loads_inv.
  destruct (ready_read _ _ _ I Hm (eq_sym Hv)) as (v & t & f & u & k & Ht & Hu & Ew & Es & -> & Hk & -> & Hall).
  apply (wok_ready _ _ v t f u k); try done. intros c'. rewrite places_moved, knows_moved, front_moved.
  destruct (decide _); [|apply Hall]. right; right. exists b. split_and!; [done| |done]. cbn. set_solver.
Qed.

Lemma win_ok w iv c h k f :
  weak_once_ok w iv -> places w c = Outside ->
  updates cas_ordering (word (the_cell w)) (knows w c) (front w c) UNINIT RUNNING h k f ->
  weak_once_ok (moved w c (with_word (the_cell w) h) Initialising k f) iv /\
  (forall m, m ∈ word (the_cell w) -> m ∈ h) /\ front w c <= f.
Proof.
  intros I Hc [m t Hm Ha Hv Hf]. split; [|split; [by right|destruct Hf; lia]].
  assert (forall t', 0 < t' -> running t' ∈ word (the_cell w) -> m = first_message UNINIT -> False) as Hno.
  { intros t' Ht Hin ->. destruct Hf as [Hlt Hf]. destruct (proj1 (list.Forall_forall _ _) Hf _ Hin); cbn in *; lia. }
  destruct I as [Ex -> Hall|o t' Ht Ew _ _ _ _ _|v t' m' u k0 Ht Hu Ew _ _ _ _].
  - rewrite Ex in Hm, Hf |- *. apply list_elem_of_singleton in Hm as ->.
    apply (wok_running _ _ c t); rewrite ?places_moved, ?knows_moved, ?front_moved, ?decide_True by done; cbn;
      [by destruct Hf|by rewrite union_empty_l_L|done|set_solver|done|done|].
    intros c' Hne. rewrite fn_lookup_insert_ne by done. by left.
  - exfalso. rewrite Ew in Hm. apply elem_of_cons in Hm as [->|Hm%list_elem_of_singleton]; [done|].
    apply (Hno t'); [done| |done]. rewrite Ew. by left.
  - exfalso. rewrite Ew in Hm. apply elem_of_cons in Hm as [->|Hm]; [done|].
    apply elem_of_cons in Hm as [->|Hm%list_elem_of_singleton]; [done|].
    apply (Hno t'); [done| |done]. rewrite Ew. right. by left.
Qed.

(** Who is initialising is the owner. *)
Lemma owner_inv w iv c :
  weak_once_ok w iv -> places w c <> Outside -> places w c <> Waiting -> (forall b, places w c <> Reading b) ->
  exists t, 0 < t /\ word (the_cell w) = [running t; first_message UNINIT] /\
    reads (the_cell w) = ∅ /\ writes (the_cell w) ⊆ knows w c /\ t <= front w c /\
    owner_at (places w c) iv (slot (the_cell w)) /\
    (forall c', c' <> c -> places w c' = Outside \/ places w c' = Waiting).
Proof.
  intros [Ex _ Hall|o t Ht Ew Er Hk Hf Ho Hall|v t m u k Ht Hu Ew Es _ _ Hall] H1 H2 H3.
  - by destruct (H1 (Hall c)).
  - destruct (decide (c = o)) as [->|Hne]; [by exists t|]. by destruct (Hall c Hne).
  - destruct (Hall c) as [?|[?|(b & E & _)]]; [done..|by destruct (H3 b)].
Qed.

(** The initialising CPU moves on. *)
Lemma owner_moves w iv c t x p k :
  0 < t -> word x = [running t; first_message UNINIT] -> reads x = ∅ -> writes x ⊆ k -> t <= front w c ->
  owner_at p iv (slot x) -> (forall c', c' <> c -> places w c' = Outside \/ places w c' = Waiting) ->
  weak_once_ok (moved w c x p k (front w c)) iv.
Proof.
  intros Ht Ew Er Hk Hf Ho Hall.
  apply (wok_running _ _ c t); rewrite ?places_moved, ?knows_moved, ?front_moved, ?decide_True by done; try done.
  intros c' Hne. rewrite places_moved, decide_False by done. by apply Hall.
Qed.

Lemma publish_ok w iv c h f :
  weak_once_ok w iv -> places w c = Written ->
  stores ready_ordering (word (the_cell w)) (knows w c) (front w c) READY h f ->
  weak_once_ok (moved w c (with_word (the_cell w) h) (Reading false) (knows w c) f) iv /\
  (forall m, m ∈ word (the_cell w) -> m ∈ h) /\ front w c <= f.
Proof.
  intros I Hc [f0 u Hu Hf]. split; [|split; [by right|lia]].
  destruct (owner_inv _ _ c I) as (t & Ht & Ew & _ & Hk & Hfr & Ho & Hall); [by rewrite Hc..|].
  rewrite Hc in Ho. destruct Ho as [[v ->] Hs].
  apply (wok_ready _ _ v t f0 u (knows w c)); cbn; [done|lia|by rewrite Ew|done|done|done|].
  intros c'. destruct (decide (c = c')) as [<-|Hne].
  - rewrite !fn_lookup_insert. right; right. by exists false.
  - rewrite !fn_lookup_insert_ne by done. destruct (Hall c') as [?|?]; [done|by left|by right; left].
Qed.

Lemma reading_inv w iv c b :
  weak_once_ok w iv -> places w c = Reading b ->
  exists v t f u k, 0 < t /\ t < u /\ word (the_cell w) = [mkMessage READY f u k; running t; first_message UNINIT] /\
    slot (the_cell w) = Some v /\ iv = Some v /\ writes (the_cell w) ⊆ k /\ writes (the_cell w) ⊆ knows w c /\ u <= front w c /\
    forall c, places w c = Outside \/ places w c = Waiting \/
      exists b, places w c = Reading b /\ writes (the_cell w) ⊆ knows w c /\ u <= front w c.
Proof.
  intros [Ex _ Hall|o t Ht Ew Er Hk Hf Ho Hall|v t f u k Ht Hu Ew Es -> Hk Hall] Hc.
  - by rewrite Hall in Hc.
  - destruct (decide (c = o)) as [->|Hne]; [by rewrite Hc in Ho|]. destruct (Hall c Hne); congruence.
  - exists v, t, f, u, k. destruct (Hall c) as [?|[?|(b' & E & ? & ?)]]; [congruence..|done].
Qed.

Lemma read_ok w iv c b :
  weak_once_ok w iv -> places w c = Reading b ->
  effect w iv (Some (read_event c b (assume_init_ref (the_cell w))))
    (moved w c (read_slot (the_cell w)) Outside ({[clock (the_cell w)]} ∪ knows w c) (front w c)) iv.
Proof.
  intros I Hc. destruct (reading_inv _ _ _ _ I Hc) as (v & t & f & u & k & Ht & Hu & Ew & Es & -> & Hk & Hkc & Hf & Hall).
  assert (assume_init_ref (the_cell w) = Ok v) as -> by (unfold assume_init_ref; by rewrite Es).
  split; [|by destruct b|by right| | | |].
  - apply (wok_ready _ _ v t f u k); try done. intros c'. rewrite places_moved, knows_moved, front_moved.
    destruct (decide _); [by left|apply Hall].
  - intros x [= <-]. destruct b; cbn; [right|]; by exists v.
  - intros c' x [= <-] Hs. assert (c' = c) as -> by (destruct b; cbn in Hs; [by destruct Hs|done]).
    exists (mkMessage READY f u k). split_and!; [|done|].
    + cbn. rewrite Ew. by left.
    + by rewrite front_moved, decide_True.
  - intros c'. by apply informed_moved.
  - destruct b; cbn; congruence.
Qed.

(** Reading an older state is impossible for who has read [READY]. *)
Lemma informed_reads w iv c m :
  weak_once_ok w iv -> informed w c -> m ∈ word (the_cell w) -> front w c <= m_to m -> m_val m = READY.
Proof.
  intros I (m0 & Hm0 & Hv & Hle) Hm Hf.
  destruct (ready_read _ _ _ I Hm0 Hv) as (v & t & f & u & k & Ht & Hu & Ew & _ & _ & _ & -> & _). cbn in Hle.
  rewrite Ew in Hm. apply elem_of_cons in Hm as [->|Hm]; [done|].
  apply elem_of_cons in Hm as [->|Hm%list_elem_of_singleton]; [|subst m]; cbn in *; lia.
Qed.

Lemma get_ok w iv c v k f :
  weak_once_ok w iv -> places w c = Outside ->
  loads load_ordering (word (the_cell w)) (knows w c) (front w c) v k f ->
  effect w iv (if v =? READY then None else Some (Got c (Ok None)))
    (moved w c (the_cell w) (if v =? READY then Reading true else Outside) k f) iv.
Proof.
  intros I Hc Hl. pose proof (loads_inv _ _ _ _ _ _ _ Hl) as (m & Hm & Hv & Ha & Ef & _).
  destruct (Z.eqb_spec v READY) as [->|Hne].
  - apply quiet; [apply ready_moves; tauto|done|lia].
  - split; [apply other_moves; tauto|by rewrite app_nil_r|by right| | | |].
    + intros x [= <-]. by left.
    + by intros c' x [= <-] [_ []].
    + intros c'. apply informed_moved; [done|lia].
    + intros c' [= <-] Hi. apply Hne. rewrite Hv. by eapply informed_reads.
Qed.

Lemma weak_once_step_ok w iv e w' :
  weak_once_ok w iv -> weak_once_step w e w' -> exists iv', effect w iv e w' iv'.
Proof.
  intros I Hs. destruct Hs as [c h k f Hc U|c v k f Hc Hv Hl|c v Hc|c v Hc Hk|c h f Hc U|c v k f Hc Hl|c v k f Hc Hl|c b Hc Hk].
  - exists iv. destruct (win_ok _ _ _ _ _ _ I Hc U) as (? & ? & ?). by apply quiet.
  - exists iv. pose proof (loads_inv _ _ _ _ _ _ _ Hl) as (m & Hm & Hvm & Ha & Ef & _).
    apply quiet; [|done|lia]. apply other_moves; [done|by left|]. right. split; [done|]. intros E.
    rewrite E in Hm. apply list_elem_of_singleton in Hm as ->. done.
  - destruct (owner_inv _ _ c I) as (t & Ht & Ew & Er & Hk & Hf & Ho & Hall); [by rewrite Hc..|].
    rewrite Hc in Ho. destruct Ho as [-> Hs]. exists (Some v). split; [|done|by left| |by intros c' x [= <-] []| |done].
    + by eapply (owner_moves _ _ _ t).
    + by intros x [= <-].
    + intros c'. by apply informed_moved.
  - destruct (owner_inv _ _ c I) as (t & Ht & Ew & Er & Hk' & Hf & Ho & Hall); [by rewrite Hc..|].
    rewrite Hc in Ho. destruct Ho as [-> Hs]. exists (Some v). apply quiet; [|done|done].
    apply (owner_moves _ _ _ t); [done..|cbn; set_solver|done| |done]. split; [by eexists|done].
  - exists iv. destruct (publish_ok _ _ _ _ _ I Hc U) as (? & ? & ?). by apply quiet.
  - exists iv. pose proof (loads_inv _ _ _ _ _ _ _ Hl) as (m & Hm & Hvm & Ha & Ef & _). apply quiet; [|done|lia].
    destruct (Z.eqb_spec v READY) as [->|Hne]; [apply ready_moves; tauto|]. apply other_moves; [done|by right|].
    destruct I as [_ _ Hall|o t _ Ew _ _ _ _ _|v' t f' u k' _ _ Ew _ _ _ _]; [by rewrite Hall in Hc|right; by rewrite Ew..].
  - exists iv. by apply get_ok.
  - exists iv. by apply read_ok.
Qed.

Lemma weak_once_race_free w iv : weak_once_ok w iv -> ~ racy w.
Proof.
  intros I [(c & v & Hc & Hn)|(c & b & Hc & Hn)]; apply Hn.
  - destruct (owner_inv _ _ c I) as (t & _ & _ & Er & Hk & _); [by rewrite Hc..|]. rewrite Er. set_solver.
  - by destruct (reading_inv _ _ _ _ I Hc) as (v & t & f & u & k & _ & _ & _ & _ & _ & _ & Hk & _).
Qed.

(** After the value is seen, [get] by the same CPU gives it. *)
Definition coherent (tr : list (once_event T)) : Prop :=
  forall (i j : nat) c e, (i < j)%nat -> tr !! i = Some e -> tr !! j = Some (Got c (Ok None)) -> ~ sees c e.

Record weak_once_done (tr : list (once_event T)) (w : weak) (iv : option T) : Prop := {
  wd_ok : weak_once_ok w iv;
  wd_inits : inits tr = option_list iv;
  wd_events : Forall (event_ok iv) tr;
  wd_sees c e : e ∈ tr -> sees c e -> informed w c;
  wd_coherent : coherent tr;
}.

Lemma coherent_snoc tr w iv e : weak_once_done tr w iv -> (forall c, e = Got c (Ok None) -> ~ informed w c) -> coherent (tr ++ [e]).
Proof.
  intros W He i j c x Hij Hi Hj Hs. apply lookup_snoc_Some in Hj as [[Hj Hj']|[-> Hj]].
  - apply lookup_snoc_Some in Hi as [[_ Hi]|[-> _]]; [|lia]. by apply (wd_coherent _ _ _ W i j c x).
  - apply lookup_snoc_Some in Hi as [[_ Hi]|[-> _]]; [|lia].
    apply (He c Hj). eapply wd_sees; [done| |exact Hs]. by eapply list_elem_of_lookup_2.
Qed.

Lemma weak_once_run_ok tr w : weak_once_run tr w -> exists iv, weak_once_done tr w iv.
Proof.
  induction 1 as [|tr w e w' _ [iv W] Hs].
  - exists None. split; [by apply wok_uninit|done|done|by intros c e ?%elem_of_nil|done].
  - destruct (weak_once_step_ok _ _ _ _ (wd_ok _ _ _ W) Hs) as [iv' F]. exists iv'.
    assert (forall x, event_ok iv x -> event_ok iv' x) as Hgrow.
    { intros x Hx. destruct (ef_keep _ _ _ _ _ F) as [E| ->]; [|done]. destruct iv' as [v|]; [|congruence].
      apply (event_ok_grow iv v x); [by left|done]. }
    split.
    + apply F.
    + unfold inits. rewrite omap_app. fold (inits tr). rewrite (wd_inits _ _ _ W). symmetry. apply F.
    + apply Forall_app. split; [exact (list.Forall_impl _ _ _ (wd_events _ _ _ W) Hgrow)|]. destruct e as [x|]; constructor; [|done].
      by apply (ef_event _ _ _ _ _ F).
    + intros c x [Hx|Hx]%elem_of_app Hc; [by apply F, (wd_sees _ _ _ W c x)|].
      destruct e as [y|]; [|by apply elem_of_nil in Hx]. apply list_elem_of_singleton in Hx as ->. by eapply (ef_sees _ _ _ _ _ F).
    + destruct e as [x|]; [|cbn; rewrite app_nil_r; apply W]. apply (coherent_snoc _ _ _ _ W). intros c ->.
      by apply (ef_none _ _ _ _ _ F).
Qed.
End weak_once.
Arguments weak T : clear implicits.

(** C24: the cell's orderings suffice.  Whatever the interleaving, and however old the
    states that CPUs read: the value is never accessed in a race; at most one closure
    runs; every reference [call_once] returns and everything [get] gives is that
    closure's value, so uninitialised memory is never read; and a CPU that has had the
    value is never told afterwards that there is none. *)
Theorem once_publishes {T} tr (w : weak T) :
  weak_once_run tr w ->
  ~ racy w /\
  exists iv, inits tr = option_list iv /\
    (forall c r, Returned c r ∈ tr -> exists v, iv = Some v /\ r = Ok v) /\
    (forall c r, Got c r ∈ tr -> r = Ok None \/ exists v, iv = Some v /\ r = Ok (Some v)) /\
    coherent tr.
Proof.
  intros [iv W]%weak_once_run_ok. split; [by eapply weak_once_race_free, W|].
  pose proof (wd_events _ _ _ W) as Hev. rewrite list.Forall_forall in Hev. exists iv.
  split_and!; [apply W|intros c r Hr; apply (Hev _ Hr)|intros c r Hr; apply (Hev _ Hr)|apply W].
Qed.

(** CPU 0 initialises and returns; CPU 1's [get] still reads the first state, and its
    next one the last. *)
Lemma demo_weak_once :
  exists tr (w : weak Z), weak_once_run tr w /\
    tr = [InitRan 0 42; Returned 0 (Ok 42); Got 1 (Ok None); Got 1 (Ok (Some 42))].
Proof.
  assert (forall h f t, f < t -> forallb (fun m : message Z => (m_to m <=? f) || (t <=? m_from m)) h = true -> fits h f t) as Hfits.
  { intros h f t Ht Hh. split; [done|]. apply list.Forall_forall. intros m Hm.
    pose proof (proj1 (forallb_forall _ _) Hh m (proj1 (list_elem_of_In _ _) Hm)) as H.
    apply orb_true_iff in H. destruct H; [left|right]; lia. }
  pose proof (weak_once_start (T := Z)) as H.
  eapply weak_once_more in H; [|eapply (wo_win _ 0); [reflexivity|];
    apply (update_behind _ _ _ _ _ _ (first_message UNINIT) 5); [by left|done|done|by apply Hfits]].
  eapply weak_once_more in H; [|by apply (wo_init _ 0 42)].
  eapply weak_once_more in H; [|apply (wo_write _ 0 42); [reflexivity|cbn; set_solver]].
  eapply weak_once_more in H; [|eapply (wo_publish _ 0); [reflexivity|]; apply (store_at _ _ _ _ _ 8 9); [done|by apply Hfits]].
  eapply weak_once_more in H; [|apply (wo_read _ 0 false); [reflexivity|cbn; set_solver]].
  eapply weak_once_more in H; [|eapply (wo_get _ 1 UNINIT); [reflexivity|];
    apply (load_from _ _ _ _ _ (first_message UNINIT)); [right; right; by left|done|done]].
  eapply weak_once_more in H; [|eapply (wo_get _ 1 READY); [reflexivity|];
    apply (load_from _ _ _ _ _ (mkMessage READY 8 9 {[0%nat]})); [left|done|done]].
  eapply weak_once_more in H; [|apply (wo_read _ 1 true); [reflexivity|cbn; set_solver]].
  eexists _, _. split; [exact H|reflexivity].
Qed.

Lemma once_publishes_witness :
  exists tr (w : weak Z), weak_once_run tr w /\ length tr = 4%nat /\ inits tr = [42] /\ ~ racy w.
Proof.
  destruct demo_weak_once as (tr & w & H & E). exists tr, w. split; [exact H|]. split; [by rewrite E|].
  destruct (once_publishes tr w H) as (Hn & iv & Hin & Hr & _). split; [|exact Hn].
  destruct (Hr 0 (Ok 42)) as (v & -> & [= <-]); [rewrite E; right; by left|]. rewrite Hin. reflexivity.
Defined.
