(* ===== verification/WeakStatics.v ===== *)
(** * The atomic statics without a lock, on weak memory

    [NEXT] of [mm/frame.rs], a counter that is only ever taken from with
    [fetch_add(1, Relaxed)], and [CPU_ONLINE] of [cpu/smp.rs], where CPUs set their bits
    with [fetch_or(.., Release)] and look at others' with [load(Acquire)]: what the
    comments there promise of them, in the memory of [WeakMem]. *)

From stdpp Require Import relations.
From S2P Require Import Prelude Sync WeakMem.

(** The orderings in [bump_alloc_page], [mark_online] and [is_online]. *)
Definition take_ordering : Ordering := Relaxed.
Definition mark_ordering : Ordering := Release.
Definition look_ordering : Ordering := Acquire.

(* ------------------------------------------------------------------------- *)
(** ** Cells that are only updated *)

Section chain.
Context {V : Type} (v0 : V).
Implicit Types (h : list (message V)) (m : message V).

(** Newest first, each message right behind the one before it. *)
Inductive chain : list (message V) -> Prop :=
  | chain_first : chain [first_message v0]
  | chain_next m m' h : chain (m' :: h) -> m_from m = m_to m' -> m_to m' < m_to m -> chain (m :: m' :: h).

Lemma chain_behind m0 h m :
  chain (m0 :: h) -> m ∈ h -> exists m', m' ∈ m0 :: h /\ m_from m' = m_to m /\ m_to m < m_to m'.
Proof.
  revert m0. induction h as [|m1 h IH]; intros m0 Hc Hm; [by apply elem_of_nil in Hm|].
  inversion Hc as [|? ? ? Hc' Ef Ht]; subst. apply elem_of_cons in Hm as [->|Hm].
  - exists m0. split_and!; [by left|done..].
  - destruct (IH m1 Hc' Hm) as (m' & Hm' & ? & ?). exists m'. split_and!; [by right|done..].
Qed.

(** A read-modify-write reads the newest message. *)
Lemma chain_reads m0 h m t : chain (m0 :: h) -> m ∈ m0 :: h -> fits (m0 :: h) (m_to m) t -> m = m0.
Proof.
  intros Hc [->|Hm]%elem_of_cons Hf; [done|]. exfalso.
  destruct (chain_behind _ _ _ Hc Hm) as (m' & Hm' & Ef & Ht). destruct Hf as [Hlt Hf].
  destruct (proj1 (list.Forall_forall _ _) Hf m' Hm'); lia.
Qed.

Lemma chain_oldest m0 h m : chain (m0 :: h) -> m ∈ m0 :: h -> m_to m <= m_to m0.
Proof.
  revert m0. induction h as [|m1 h IH]; intros m0 Hc Hm; [by apply list_elem_of_singleton in Hm as ->|].
  inversion Hc as [|? ? ? Hc' Ef Ht]; subst. apply elem_of_cons in Hm as [->|Hm]; [done|].
  pose proof (IH m1 Hc' Hm). lia.
Qed.
End chain.

(* ------------------------------------------------------------------------- *)
(** ** NEXT *)

(** The counter, how far each CPU has seen it, and the indices given, latest first. *)
Record pool := mkPool { next : list (message Z); pool_front : cpu -> Z; given : list Z }.

Definition pool_initial : pool := mkPool [first_message 0] (fun _ => 0) [].

Inductive pool_step (p : pool) : pool -> Prop :=
  | fetch_add c idx h k f :
      updates take_ordering (next p) ∅ (pool_front p c) idx ((idx + 1) mod 2 ^ 64) h k f ->
      pool_step p (mkPool h (<[c := f]> (pool_front p)) (idx :: given p)).

Lemma pool_run_ok p :
  rtc pool_step pool_initial p ->
  given p = (fun i => i mod 2 ^ 64) <$> reverse (seqZ 0 (lenz (given p))) /\
  exists m h, next p = m :: h /\ chain 0 (m :: h) /\ m_val m = lenz (given p) mod 2 ^ 64.
Proof.
  revert p. refine (rtc_ind_r _ _ _ _).
  - split; [done|]. exists (first_message 0), []. split_and!; [done|constructor|done].
  - intros p p' _ [c idx h' k f U] [Hg (m & h & En & Hc & Hv)]. cbn [given next].
    rewrite En in U. destruct U as [m1 t Hm _ -> Hf]. pose proof (chain_reads _ _ _ _ _ Hc Hm Hf) as ->.
    assert (lenz (m_val m :: given p) = lenz (given p) + 1) as El by (unfold lenz; cbn; lia).
    assert (0 <= lenz (given p)) as H0 by (unfold lenz; lia). split.
    + rewrite El, seqZ_app by lia. change (seqZ (0 + lenz (given p)) 1) with [0 + lenz (given p)].
      rewrite reverse_snoc. cbn [fmap list_fmap]. rewrite Hv. f_equal. exact Hg.
    + eexists _, _. split; [reflexivity|]. split; [apply chain_next; [done..|apply Hf]|]. cbn [m_val].
      rewrite El, Hv, Zplus_mod_idemp_l. done.
Qed.

(** Each call gets its own index, with no ordering asked for: the indices given are those
    of the calls in the counter's modification order, so the first
    [POOL_PAGES] of them share the pool's slots out one each. *)
Lemma pool_slots_unique p :
  rtc pool_step pool_initial p -> lenz (given p) <= 2 ^ 64 ->
  NoDup (given p) /\ forall idx, idx ∈ given p <-> 0 <= idx < lenz (given p).
Proof.
  intros (Hg & _)%pool_run_ok Hn. assert (given p = reverse (seqZ 0 (lenz (given p)))) as E.
  { rewrite Hg at 1. rewrite <- (list_fmap_id (reverse _)) at 2. apply list_fmap_ext. intros i x Hx.
    apply list_elem_of_lookup_2, elem_of_reverse, elem_of_seqZ in Hx. cbn. rewrite Z.mod_small; [done|lia]. }
  split.
  - rewrite E, reverse_Permutation. apply NoDup_seqZ.
  - intros idx. rewrite E at 1. rewrite elem_of_reverse, elem_of_seqZ. lia.
Qed.

(* ------------------------------------------------------------------------- *)
(** ** CPU_ONLINE *)

Definition bit_of (cpu : Z) : Z := Z.shiftl 1 cpu.

(** The word, what each CPU knows and how far it has seen the word, and what each CPU
    knew when it marked itself. *)
Record online := mkOnline {
  bits : list (message Z);
  knows : cpu -> events;
  front : cpu -> Z;
  marked : cpu -> option events;
}.

Definition online_initial (k : cpu -> events) : online :=
  mkOnline [first_message 0] k (fun _ => 0) (fun _ => None).

(** A CPU does work of its own or learns of others'; marks itself online, once; looks at
    the word. *)
Inductive online_step (s : online) : online -> Prop :=
  | cpu_works c e :
      online_step s (mkOnline (bits s) (<[c := knows s c ∪ e]> (knows s)) (front s) (marked s))
  | marks_online c old h k f :
      0 <= c < 64 -> marked s c = None ->
      updates mark_ordering (bits s) (knows s c) (front s c) old (Z.lor old (bit_of c)) h k f ->
      online_step s (mkOnline h (<[c := k]> (knows s)) (<[c := f]> (front s)) (<[c := Some (knows s c)]> (marked s)))
  | looks c v k f :
      loads look_ordering (bits s) (knows s c) (front s c) v k f ->
      online_step s (mkOnline (bits s) (<[c := k]> (knows s)) (<[c := f]> (front s)) (marked s)).

(** [is_online(cpu)], from the word it loads. *)
Definition sees_online (v cpu : Z) : bool := negb (Z.land v (bit_of cpu) =? 0).

Lemma sees_online_bit v i : 0 <= i -> sees_online v i = Z.testbit v i.
Proof.
  intros Hi. unfold sees_online, bit_of. destruct (Z.eqb_spec (Z.land v (Z.shiftl 1 i)) 0) as [E|E]; cbn.
  - symmetry. apply (f_equal (fun z => Z.testbit z i)) in E. rewrite Z.land_spec, Z.shiftl_spec, Z.sub_diag, Z.bits_0 in E by done.
    by rewrite andb_true_r in E.
  - destruct (Z.testbit v i) eqn:Ev; [done|]. destruct E. apply Z.bits_inj'. intros j Hj.
    rewrite Z.land_spec, Z.shiftl_spec, Z.bits_0 by done. destruct (decide (j = i)) as [->|]; [by rewrite Ev|].
    destruct (Z.ltb_spec j i); [by rewrite (Z.testbit_neg_r 1 (j - i)), andb_false_r by lia|].
    replace (Z.testbit 1 (j - i)) with false; [apply andb_false_r|]. symmetry. apply Z.bits_above_log2; cbn; lia.
Qed.

Lemma sees_online_mark v c i : 0 <= c -> 0 <= i -> sees_online (Z.lor v (bit_of c)) i = sees_online v i || bool_decide (i = c).
Proof.
  intros Hc Hi. rewrite !sees_online_bit by done. unfold bit_of. rewrite Z.lor_spec, Z.shiftl_spec by done. f_equal.
  destruct (decide (i = c)) as [->|]; [by rewrite Z.sub_diag, bool_decide_true|]. rewrite bool_decide_false by done.
  destruct (Z.ltb_spec i c); [by rewrite Z.testbit_neg_r by lia|]. apply Z.bits_above_log2; cbn; lia.
Qed.

(** Every message that shows a CPU online carries what it published, and later messages
    show it too. *)
Record online_ok (s : online) : Prop := {
  oo_chain : exists m h, bits s = m :: h /\ chain 0 (m :: h);
  oo_published i m :
    0 <= i -> m ∈ bits s -> sees_online (m_val m) i = true -> exists k, marked s i = Some k /\ k ⊆ m_released m;
  oo_grows i m m' :
    0 <= i -> m ∈ bits s -> m' ∈ bits s -> m_to m <= m_to m' -> sees_online (m_val m) i = true -> sees_online (m_val m') i = true;
}.

Lemma mark_ok s c old h k f :
  online_ok s -> 0 <= c < 64 -> marked s c = None ->
  updates mark_ordering (bits s) (knows s c) (front s c) old (Z.lor old (bit_of c)) h k f ->
  online_ok (mkOnline h (<[c := k]> (knows s)) (<[c := f]> (front s)) (<[c := Some (knows s c)]> (marked s))).
Proof.
  intros [(m0 & h0 & Eb & Hc) Hp Hg] Hcr Hn U. destruct U as [m t Hm _ -> Hf].
  assert (m = m0) as -> by (rewrite Eb in Hm, Hf; by eapply chain_reads).
  assert (forall i, marked s i <> None -> <[c := Some (knows s c)]> (marked s) i = marked s i) as Hk.
  { intros i Hi. rewrite fn_lookup_insert_ne; [done|]. by intros <-. }
  split; cbn [bits marked].
  - eexists _, _. split; [reflexivity|]. rewrite Eb. by apply chain_next; [|done|apply Hf].
  - intros i m Hi [->|Hin]%elem_of_cons; cbn [m_val m_released].
    + rewrite sees_online_mark by lia. intros [Hv|Hv]%orb_true_iff.
      * destruct (Hp i m0 Hi Hm Hv) as (k' & Ek & Hsub). exists k'. rewrite Hk by congruence. split; [done|set_solver].
      * apply bool_decide_eq_true in Hv as ->. exists (knows s c). rewrite fn_lookup_insert. split; [done|cbn; set_solver].
    + intros Hv. destruct (Hp i m Hi Hin Hv) as (k' & Ek & Hsub). exists k'. by rewrite Hk by congruence.
  - assert (forall m, m ∈ bits s -> m_to m <= m_to m0) as Hold by (rewrite Eb; intros m Hin; by eapply chain_oldest).
    intros i m m' Hi [->|Hin]%elem_of_cons [->|Hin']%elem_of_cons; cbn [m_val m_to]; [done| | |by apply Hg].
    + intros Hle. pose proof (Hold m' Hin'). destruct Hf. lia.
    + intros _ Hv. rewrite sees_online_mark by lia. apply orb_true_iff. left. by apply (Hg i m m0); [..|apply Hold|].
Qed.

Lemma online_run_ok k s : rtc online_step (online_initial k) s -> online_ok s.
Proof.
  revert s. refine (rtc_ind_r _ _ _ _).
  - split; cbn; [exists (first_message 0), []; by split; [|constructor]| |].
    + by intros i m Hi ->%list_elem_of_singleton.
    + by intros i m m' _ ->%list_elem_of_singleton.
  - intros s s' _ Hs I. destruct Hs as [c e|c old h k' f Hc Hn U|c v k' f U]; [|by eapply mark_ok|];
      destruct I as [Hc Hp Hg]; by split.
Qed.

(** Words and fronts only grow. *)
Lemma stays_seen s s' c m :
  rtc online_step s s' -> m ∈ bits s -> m_to m <= front s c -> m ∈ bits s' /\ m_to m <= front s' c.
Proof.
  induction 1 as [s|s s1 s' Hs _ IH]; [done|]. intros Hm Hf. destruct Hs as [c' e|c' old h k f _ _ U|c' v k f U].
  - by apply IH.
  - destruct U as [m0 t _ Ha _ [Ht _]]. apply IH; cbn; [by right|].
    destruct (decide (c' = c)) as [<-|]; [rewrite fn_lookup_insert; lia|by rewrite fn_lookup_insert_ne].
  - destruct U as [m0 _ Ha _]. apply IH; cbn; [done|].
    destruct (decide (c' = c)) as [<-|]; [rewrite fn_lookup_insert; lia|by rewrite fn_lookup_insert_ne].
Qed.

(** C22: what [mark_online] publishes, [wait_for] obtains.  Whatever the CPUs do, and
    although they all write the one word: when a CPU loads a word that shows another
    online, that other has marked itself, and everything it knew then is from now on
    known to the reader; and the reader never loads a word again that shows it offline. *)
Theorem online_publishes k0 s c v k f i :
  rtc online_step (online_initial k0) s -> 0 <= i ->
  loads look_ordering (bits s) (knows s c) (front s c) v k f -> sees_online v i = true ->
  (exists e, marked s i = Some e /\ e ⊆ k) /\
  (forall s' v' k' f', rtc online_step (mkOnline (bits s) (<[c := k]> (knows s)) (<[c := f]> (front s)) (marked s)) s' ->
     loads look_ordering (bits s') (knows s' c) (front s' c) v' k' f' -> sees_online v' i = true).
Proof.
  intros Hr Hi L Hv. pose proof (online_run_ok _ _ Hr) as I.
  pose proof (loads_inv _ _ _ _ _ _ _ L) as (m & Hm & -> & Ha & Ef & Ek). split.
  - destruct (oo_published _ I i m Hi Hm Hv) as (e & Ee & Hsub). exists e. split; [done|]. rewrite Ek. cbn. set_solver.
  - intros s' v' k' f' Hr' (m' & Hm' & -> & Ha' & _)%loads_inv.
    assert (rtc online_step (online_initial k0) s') as Hall by (etrans; [exact Hr|]; eapply rtc_l; [by eapply looks|exact Hr']).
    destruct (stays_seen _ _ c m Hr') as [Hin Hle]; [done|cbn; by rewrite fn_lookup_insert, Ef|].
    apply (oo_grows _ (online_run_ok _ _ Hall) i m m'); [done..|lia|done].
Qed.

(** CPUs 1 and 2 come online, having done access 11 and 12; CPU 0 loads the word as CPU 2
    left it, and so knows what CPU 1 did. *)
Definition demo_knows (c : cpu) : events := if c =? 1 then {[11%nat]} else if c =? 2 then {[12%nat]} else ∅.

Lemma online_publishes_witness :
  exists s k f, rtc online_step (online_initial demo_knows) s /\
    loads look_ordering (bits s) (knows s 0) (front s 0) 6 k f /\
    exists e, marked s 1 = Some e /\ 11%nat ∈ e /\ e ⊆ k.
Proof.
  assert (exists s, rtc online_step (online_initial demo_knows) s /\ front s 0 = 0 /\ marked s 1 = Some {[11%nat]} /\
    exists m, m ∈ bits s /\ m_val m = 6 /\ 0 <= m_to m) as (s & Hr & Hf & Hm1 & m & Hm & Hv & Ht).
  { eexists. split.
    - eapply rtc_l; [eapply (marks_online _ 1); [lia|done|]; apply (update_behind _ _ _ _ _ _ (first_message 0) 5);
        [by left|done|done|split; [done|repeat (apply list.Forall_cons_2; [by left|]); by apply list.Forall_nil_2]]|].
      eapply rtc_l; [eapply (marks_online _ 2 2); [lia|done|]; eapply (update_behind _ _ _ _ _ _ (mkMessage 2 0 5 _) 9);
        [by left|done|done|split; [done|repeat (apply list.Forall_cons_2; [by left|]); by apply list.Forall_nil_2]]|]. reflexivity.
    - split; [reflexivity|]. split; [reflexivity|]. eexists. split; [by left|]. split; [reflexivity|]. cbn. lia. }
  pose proof (load_from look_ordering (bits s) (knows s 0) (front s 0) 6 m Hm ltac:(lia) ltac:(done)) as L.
  eexists s, _, _. split; [exact Hr|]. split; [exact L|].
  destruct (online_publishes demo_knows s 0 6 _ _ 1 Hr ltac:(done) L eq_refl) as [(e & Ee & Hsub) _].
  exists e. split; [exact Ee|]. split; [|exact Hsub]. rewrite Hm1 in Ee. injection Ee as <-. by apply elem_of_singleton.
Defined.
