(* ===== verification/Buddy.v ===== *)
(** * kernel/mm/buddy.rs: the buddy page allocator, as the code runs it

    The page descriptors ([PageInfo]), the allocator state ([BuddyAllocator])
    and every operation, by explicit state passing in the [outcome] monad:
    slice indexing, debug assertions and machine arithmetic stop where the code
    would panic.  [count] and [flags] are carried, as no operation touches them.
    The invariant and the theorems are in [BuddyInv] and [BuddyProps]. *)

From S2P Require Import Prelude FrameTypes Layout.

Definition RAW_NONE : Z := 2 ^ 32 - 1.
Definition MAX_ORDER : Z := 11.
Definition SIZEOF_PageInfo : Z := 16.

Inductive PageState := Reserved | Free | Allocated | Tail.

#[export] Instance PageState_eq_dec : EqDecision PageState.
Proof. solve_decision. Defined.

Record PageInfo := mkPageInfo {
  pi_next : Z;
  pi_prev : Z;
  pi_count : Z;
  pi_order : Z;
  pi_state : PageState;
  pi_flags : Z;
}.

#[export] Instance PageInfo_eq_dec : EqDecision PageInfo.
Proof. solve_decision. Defined.

Definition with_next (p : PageInfo) (v : Z) : PageInfo :=
  mkPageInfo v (pi_prev p) (pi_count p) (pi_order p) (pi_state p) (pi_flags p).
Definition with_prev (p : PageInfo) (v : Z) : PageInfo :=
  mkPageInfo (pi_next p) v (pi_count p) (pi_order p) (pi_state p) (pi_flags p).
Definition with_order (p : PageInfo) (v : Z) : PageInfo :=
  mkPageInfo (pi_next p) (pi_prev p) (pi_count p) v (pi_state p) (pi_flags p).
Definition with_state (p : PageInfo) (v : PageState) : PageInfo :=
  mkPageInfo (pi_next p) (pi_prev p) (pi_count p) (pi_order p) v (pi_flags p).

(** A buddy allocator over frames [0, nr_frames), relative to [dram_base]. *)
Record BuddyAllocator := mkBuddy {
  pages : list PageInfo;
  dram_base : Z;
  nr_frames : Z;
  free_area : list (option Z);
  free_frames : Z;
}.

Definition with_pages (a : BuddyAllocator) (l : list PageInfo) : BuddyAllocator :=
  mkBuddy l (dram_base a) (nr_frames a) (free_area a) (free_frames a).
Definition with_free_area (a : BuddyAllocator) (l : list (option Z)) : BuddyAllocator :=
  mkBuddy (pages a) (dram_base a) (nr_frames a) l (free_frames a).
Definition with_free_frames (a : BuddyAllocator) (n : Z) : BuddyAllocator :=
  mkBuddy (pages a) (dram_base a) (nr_frames a) (free_area a) n.

(* ------------------------------------------------------------------------- *)
(** ** Page descriptors *)

Section page_info.
Context {P : Profile}.

Definition PageInfo_is_head (p : PageInfo) : bool :=
  match pi_state p with Free | Allocated => true | _ => false end.

Definition PageInfo_is_free (p : PageInfo) : bool := bool_decide (pi_state p = Free).

Definition PageInfo_next (p : PageInfo) : outcome (option Z) :=
  let! _ := debug_assert (PageInfo_is_free p) in
  if pi_next p =? RAW_NONE then Ok None else Ok (Some (pi_next p)).

Definition PageInfo_prev (p : PageInfo) : outcome (option Z) :=
  let! _ := debug_assert (PageInfo_is_free p) in
  if pi_prev p =? RAW_NONE then Ok None else Ok (Some (pi_prev p)).

Definition PageInfo_set_next (p : PageInfo) (link : option Z) : outcome PageInfo :=
  match link with
  | Some pfn =>
      let! _ := debug_assert (negb (pfn =? RAW_NONE)) in
      Ok (with_next p pfn)
  | None => Ok (with_next p RAW_NONE)
  end.

Definition PageInfo_set_prev (p : PageInfo) (link : option Z) : outcome PageInfo :=
  match link with
  | Some pfn =>
      let! _ := debug_assert (negb (pfn =? RAW_NONE)) in
      Ok (with_prev p pfn)
  | None => Ok (with_prev p RAW_NONE)
  end.

Definition PageInfo_get_order (p : PageInfo) : outcome Z :=
  let! _ := debug_assert (PageInfo_is_head p) in
  Ok (pi_order p).

Definition PageInfo_set_order (p : PageInfo) (order : Z) : outcome PageInfo :=
  let! _ := debug_assert (order <? MAX_ORDER) in
  Ok (with_order p order).

Definition PageInfo_mark_free (p : PageInfo) (order : Z) : outcome PageInfo :=
  Ok (with_order (with_state p Free) order).

Definition PageInfo_mark_allocated (p : PageInfo) (order : Z) : outcome PageInfo :=
  let p := with_order (with_state p Allocated) order in
  let! p := PageInfo_set_next p None in
  PageInfo_set_prev p None.

Definition PageInfo_mark_tail (p : PageInfo) : outcome PageInfo :=
  let p := with_state p Tail in
  let! p := PageInfo_set_next p None in
  PageInfo_set_prev p None.

Definition PageInfo_mark_reserved (p : PageInfo) : outcome PageInfo :=
  let p := with_state p Reserved in
  let! p := PageInfo_set_next p None in
  PageInfo_set_prev p None.
End page_info.

(* ------------------------------------------------------------------------- *)
(** ** Addresses and free lists *)

Section allocator.
Context {P : Profile}.
Implicit Types (a : BuddyAllocator) (pfn order : Z).

(** [for p in pages.iter_mut() { p.mark_reserved() }] *)
Fixpoint mark_all_reserved (l : list PageInfo) : outcome (list PageInfo) :=
  match l with
  | [] => Ok []
  | p :: l =>
      let! p := PageInfo_mark_reserved p in
      let! l := mark_all_reserved l in
      Ok (p :: l)
  end.

Definition BuddyAllocator_new (pgs : list PageInfo) (base nr : Z) : outcome BuddyAllocator :=
  let! _ := debug_assert (nr <=? lenz pgs) in
  let! pgs := mark_all_reserved pgs in
  Ok (mkBuddy pgs base nr (replicate (Z.to_nat MAX_ORDER) None) 0).

Definition pfn_of a (pa : Z) : outcome Z :=
  let! in_range :=
    (if dram_base a <=? pa then
       let! span := umul 64 (nr_frames a) PAGE_SIZE in
       let! lim := uadd 64 (dram_base a) span in
       Ok (pa <? lim)
     else Ok false) in
  let! _ := debug_assert in_range in
  let! _ := debug_assert (pa mod PAGE_SIZE =? 0) in
  let! off := usub 64 pa (dram_base a) in
  Ok (as_u32 (off / PAGE_SIZE)).

Definition pa_of a pfn : outcome Z :=
  let! _ := debug_assert (pfn <? nr_frames a) in
  let! off := umul 64 pfn PAGE_SIZE in
  uadd 64 (dram_base a) off.

Definition buddy_pfn a pfn order : outcome (option Z) :=
  let! _ := debug_assert (order <? MAX_ORDER) in
  let! bit := ushl 32 1 order in
  let n := Z.lxor pfn bit in
  if nr_frames a <=? n then Ok None else Ok (Some n).

Definition page a pfn : outcome PageInfo := idx (pages a) pfn.

(** [f(self.page_mut(pfn))]: update one descriptor in place. *)
Definition page_mut a pfn (f : PageInfo -> outcome PageInfo) : outcome BuddyAllocator :=
  let! p := idx (pages a) pfn in
  let! p := f p in
  Ok (with_pages a (setz (pages a) pfn p)).

Definition set_free_area a order (head : option Z) : outcome BuddyAllocator :=
  let! fa := set_idx (free_area a) order head in
  Ok (with_free_area a fa).

Definition push_front a order pfn : outcome BuddyAllocator :=
  let! p := page a pfn in
  let! _ := debug_assert (PageInfo_is_free p) in
  let! old_head := idx (free_area a) order in
  let! a := page_mut a pfn (fun p => PageInfo_set_prev p None) in
  let! a := page_mut a pfn (fun p => PageInfo_set_next p old_head) in
  let! a :=
    match old_head with
    | Some h => page_mut a h (fun p => PageInfo_set_prev p (Some pfn))
    | None => Ok a
    end in
  set_free_area a order (Some pfn).

Definition unlink a order pfn : outcome BuddyAllocator :=
  let! p := page a pfn in
  let! prev := PageInfo_prev p in
  let! p := page a pfn in
  let! next := PageInfo_next p in
  let! a :=
    match prev with
    | Some p => page_mut a p (fun q => PageInfo_set_next q next)
    | None => set_free_area a order next
    end in
  match next with
  | Some n => page_mut a n (fun q => PageInfo_set_prev q prev)
  | None => Ok a
  end.

Definition pop_front a order : outcome (option Z * BuddyAllocator) :=
  let! head := idx (free_area a) order in
  match head with
  | None => Ok (None, a)
  | Some head =>
      let! a := unlink a order head in
      Ok (Some head, a)
  end.

(* ----------------------------------------------------------------------- *)
(** ** Allocation *)

(** [(order..MAX_ORDER).find(|&k| self.free_area[k].is_some())] over the
    candidate orders [ks]. *)
Fixpoint find_order a (ks : list Z) : outcome (option Z) :=
  match ks with
  | [] => Ok None
  | k :: ks =>
      let! head := idx (free_area a) k in
      match head with Some _ => Ok (Some k) | None => find_order a ks end
  end.

(** One turn of the split loop: the upper half of the block goes on the next
    lower list. *)
Definition alloc_split_step (block : Z) (s : Z * BuddyAllocator) : outcome (Z * BuddyAllocator) :=
  let '(k, a) := s in
  let! k := usub 64 k 1 in
  let! bit := ushl 32 1 k in
  let! buddy := uadd 32 block bit in
  let! a := page_mut a buddy (fun p => PageInfo_mark_free p (as_u8 k)) in
  let! a := push_front a (as_u8 k) buddy in
  Ok (k, a).

Definition BuddyAllocator_alloc a order : outcome (option Z * BuddyAllocator) :=
  let! found := find_order a (seqZ order (MAX_ORDER - order)) in
  match found with
  | None => Ok (None, a)
  | Some k =>
      let! '(head, a) := pop_front a (as_u8 k) in
      let! block := unwrap head in
      let! '(_, a) :=
        while (Z.to_nat MAX_ORDER) (fun s => order <? s.1) (alloc_split_step block) (k, a) in
      let! size := ushl 64 1 order in
      let! n := FrameCount_sub_assign (free_frames a) size in
      let! a := page_mut (with_free_frames a n) block (fun p => PageInfo_mark_allocated p order) in
      Ok (Some block, a)
  end.

(* ----------------------------------------------------------------------- *)
(** ** Release *)

(** One turn of the coalescing loop; [inr] is leaving it. *)
Definition free_merge_step (s : (Z * Z) * BuddyAllocator)
  : outcome (((Z * Z) * BuddyAllocator) + ((Z * Z) * BuddyAllocator)) :=
  let '((cur, cur_order), a) := s in
  if cur_order <? MAX_ORDER - 1 then
    let! b := buddy_pfn a cur cur_order in
    match b with
    | None => Ok (inr s)
    | Some buddy =>
        let! p := page a buddy in
        let! mergeable :=
          (if PageInfo_is_free p then
             let! p := page a buddy in
             let! o := PageInfo_get_order p in
             Ok (o =? cur_order)
           else Ok false) in
        if negb mergeable then Ok (inr s)
        else
          let! a := unlink a cur_order buddy in
          let '(head, tail) := if cur <? buddy then (cur, buddy) else (buddy, cur) in
          let! a := page_mut a tail PageInfo_mark_tail in
          let! cur_order := uadd 8 cur_order 1 in
          Ok (inl ((head, cur_order), a))
    end
  else Ok (inr s).

Definition BuddyAllocator_free a pfn order : outcome BuddyAllocator :=
  let! size := ushl 64 1 order in
  let! n := FrameCount_add_assign (free_frames a) size in
  let a := with_free_frames a n in
  let! '((cur, cur_order), a) :=
    loop (S (Z.to_nat MAX_ORDER)) free_merge_step ((pfn, order), a) in
  let! a := page_mut a cur (fun p => PageInfo_mark_free p cur_order) in
  push_front a cur_order cur.

Definition max_order_at pfn (remaining : Z) : outcome Z :=
  let cap := MAX_ORDER - 1 in
  let align := Z.min (trailing_zeros 32 pfn) cap in
  let! top := usub 32 63 (leading_zeros 64 remaining) in
  let size := Z.min top cap in
  Ok (as_u8 (Z.min align size)).

(** [while i < 1 << order { page_mut(pfn + i).mark_tail(); i += 1 }] *)
Definition mark_tail_step pfn (s : Z * BuddyAllocator) : outcome (Z * BuddyAllocator) :=
  let '(i, a) := s in
  let! t := uadd 32 pfn i in
  let! a := page_mut a t PageInfo_mark_tail in
  let! i := uadd 32 i 1 in
  Ok (i, a).

(** One turn of the carving loop of [free_range]. *)
Definition free_range_step (lim : Z) (s : Z * BuddyAllocator) : outcome (Z * BuddyAllocator) :=
  let '(pfn, a) := s in
  let! remaining := usub 32 lim pfn in
  let! order := max_order_at pfn remaining in
  let! bound := ushl 32 1 order in
  let! '(_, a) :=
    while (Z.to_nat (2 ^ MAX_ORDER)) (fun s => s.1 <? bound) (mark_tail_step pfn) (1, a) in
  let! a := page_mut a pfn (fun p => PageInfo_mark_free p order) in
  let! a := push_front a order pfn in
  let! size := ushl 64 1 order in
  let! n := FrameCount_add_assign (free_frames a) size in
  let a := with_free_frames a n in
  let! step := ushl 32 1 order in
  let! pfn := uadd 32 pfn step in
  Ok (pfn, a).

Definition BuddyAllocator_free_range a (start count : Z) : outcome BuddyAllocator :=
  let! sum := uadd 64 start count in
  let! _ := debug_assert (sum <=? nr_frames a) in
  let! lim := uadd 32 start (as_u32 count) in
  let! '(_, a) :=
    while (Z.to_nat count) (fun s => s.1 <? lim) (free_range_step lim) (start, a) in
  Ok a.

(* ----------------------------------------------------------------------- *)
(** ** Physical-address interface *)

Definition BuddyAllocator_alloc_pages a order : outcome (option Z * BuddyAllocator) :=
  let! '(r, a) := BuddyAllocator_alloc a order in
  match r with
  | None => Ok (None, a)
  | Some pfn =>
      let! pa := pa_of a pfn in
      Ok (Some pa, a)
  end.

Definition BuddyAllocator_alloc_page a : outcome (option Z * BuddyAllocator) :=
  BuddyAllocator_alloc_pages a 0.

Definition BuddyAllocator_free_pages a (pa order : Z) : outcome BuddyAllocator :=
  let! pfn := pfn_of a pa in
  BuddyAllocator_free a pfn order.

Definition memmap_frames (nr : Z) : outcome Z :=
  let! bytes := umul 64 nr SIZEOF_PageInfo in
  Ok (div_ceil bytes PAGE_SIZE).

(** [new_at]: [raw] is what the mapped memory at [mm_pa] holds, reinterpreted
    as [nr] descriptors. *)
Definition BuddyAllocator_new_at (raw : list PageInfo) (mm_pa base nr : Z)
  : outcome BuddyAllocator :=
  let! _va := pa_to_linear_va mm_pa in
  BuddyAllocator_new raw base nr.
End allocator.
