(* ===== verification/BuddyInv.v ===== *)
(** * Buddy allocator: free-list representation

    What the intrusive doubly-linked free lists represent ([flist], [links]) and
    how [push_front], [unlink], [pop_front] and the descriptor updates act on the
    represented lists.  Every lemma is total: the operation is shown to return,
    in every build profile, so no debug assertion or index check fires. *)

From S2P Require Import Prelude FrameTypes Layout Buddy.

(** State and order of a descriptor: what the geometry of blocks depends on. *)
Definition meta (a : BuddyAllocator) (p : Z) : option (PageState * Z) :=
  (fun q => (pi_state q, pi_order q)) <$> getz (pages a) p.

Lemma meta_getz a p q : getz (pages a) p = Some q -> meta a p = Some (pi_state q, pi_order q).
Proof. unfold meta. by intros ->. Qed.
Lemma meta_Some a p s o :
  meta a p = Some (s, o) -> exists q, getz (pages a) p = Some q /\ pi_state q = s /\ pi_order q = o.
Proof. unfold meta. destruct (getz _ p); simpl; [|done]. intros [= <- <-]. eauto. Qed.

(* ------------------------------------------------------------------------- *)
(** ** Doubly-linked segments *)

Definition link_raw (l : option Z) : Z := match l with Some p => p | None => RAW_NONE end.
Definition link_ok (l : option Z) : Prop := forall p, l = Some p -> p <> RAW_NONE.

Definition hd_or (l : list Z) (nxt : option Z) : option Z :=
  match l with x :: _ => Some x | [] => nxt end.
Fixpoint last_or (prev : option Z) (l : list Z) : option Z :=
  match l with x :: l => last_or (Some x) l | [] => prev end.

(** [dseg pgs prev l nxt]: the descriptors of [l] are chained in order, [prev]
    before the first and [nxt] after the last. *)
Fixpoint dseg (pgs : list PageInfo) (prev : option Z) (l : list Z) (nxt : option Z) : Prop :=
  match l with
  | [] => True
  | x :: l =>
      (exists q, getz pgs x = Some q /\ pi_prev q = link_raw prev /\ pi_next q = link_raw (hd_or l nxt))
      /\ dseg pgs (Some x) l nxt
  end.

Lemma hd_or_app l1 l2 nxt : hd_or (l1 ++ l2) nxt = hd_or l1 (hd_or l2 nxt).
Proof. by destruct l1. Qed.

Lemma last_or_snoc prev l x : last_or prev (l ++ [x]) = Some x.
Proof. revert prev. induction l; intros; simpl; auto. Qed.

Lemma dseg_app pgs prev l1 l2 nxt :
  dseg pgs prev (l1 ++ l2) nxt <->
  dseg pgs prev l1 (hd_or l2 nxt) /\ dseg pgs (last_or prev l1) l2 nxt.
Proof.
  revert prev. induction l1 as [|x l1 IH]; intros prev; simpl; [tauto|].
  rewrite IH, hd_or_app. tauto.
Qed.

(** A segment only depends on the descriptors of its nodes. *)
Lemma dseg_frame pgs pgs' prev l nxt :
  (forall p, p ∈ l -> getz pgs' p = getz pgs p) -> dseg pgs prev l nxt -> dseg pgs' prev l nxt.
Proof.
  revert prev. induction l as [|x l IH]; intros prev Hf; simpl; [done|].
  intros [(q & Hq & Hp & Hn) Hl]. split.
  - exists q. rewrite Hf by set_solver. done.
  - apply IH; [|done]. intros. apply Hf. set_solver.
Qed.

(** Redirecting the first node's [prev] moves the whole segment. *)
Lemma dseg_set_prev pgs pgs' prev prev' x l nxt :
  NoDup (x :: l) ->
  (forall p, p ∈ l -> getz pgs' p = getz pgs p) ->
  (forall q, getz pgs x = Some q -> exists q', getz pgs' x = Some q' /\
      pi_prev q' = link_raw prev' /\ pi_next q' = pi_next q) ->
  dseg pgs prev (x :: l) nxt -> dseg pgs' prev' (x :: l) nxt.
Proof.
  intros _ Hf Hx [(q & Hq & _ & Hn) Hl]. split.
  - destruct (Hx q Hq) as (q' & ? & ? & ?). exists q'. by rewrite <- Hn.
  - by eapply dseg_frame.
Qed.

(** Redirecting the last node's [next]. *)
Lemma dseg_set_next pgs pgs' prev l x nxt nxt' :
  (forall p, p ∈ l -> getz pgs' p = getz pgs p) ->
  (forall q, getz pgs x = Some q -> exists q', getz pgs' x = Some q' /\
      pi_next q' = link_raw nxt' /\ pi_prev q' = pi_prev q) ->
  dseg pgs prev (l ++ [x]) nxt -> dseg pgs' prev (l ++ [x]) nxt'.
Proof.
  intros Hf Hx. rewrite !dseg_app. intros [Hl [(q & Hq & Hp & _) _]]. split.
  - by eapply dseg_frame.
  - split; [|done]. destruct (Hx q Hq) as (q' & ? & ? & ?). exists q'. by rewrite <- Hp.
Qed.

(* ------------------------------------------------------------------------- *)
(** ** Descriptor accessors under their assertions *)

Section accessors.
Context {P : Profile}.

Lemma PageInfo_is_free_true q : pi_state q = Free -> PageInfo_is_free q = true.
Proof. intros. by apply bool_decide_eq_true. Qed.

Lemma PageInfo_next_ok q l :
  pi_state q = Free -> pi_next q = link_raw l -> link_ok l -> PageInfo_next q = Ok l.
Proof.
  intros Hs Hn Hl. unfold PageInfo_next.
  rewrite debug_assert_true by by apply PageInfo_is_free_true. cbn [obind]. rewrite Hn.
  destruct l as [p|]; simpl; [|done]. destruct (Z.eqb_spec p RAW_NONE); [|done].
  by destruct (Hl p).
Qed.

Lemma PageInfo_prev_ok q l :
  pi_state q = Free -> pi_prev q = link_raw l -> link_ok l -> PageInfo_prev q = Ok l.
Proof.
  intros Hs Hn Hl. unfold PageInfo_prev.
  rewrite debug_assert_true by by apply PageInfo_is_free_true. cbn [obind]. rewrite Hn.
  destruct l as [p|]; simpl; [|done]. destruct (Z.eqb_spec p RAW_NONE); [|done].
  by destruct (Hl p).
Qed.

Lemma PageInfo_set_next_ok q l :
  link_ok l -> PageInfo_set_next q l = Ok (with_next q (link_raw l)).
Proof.
  intros Hl. destruct l as [p|]; simpl; [|done].
  rewrite debug_assert_true; [done|]. specialize (Hl p eq_refl).
  destruct (Z.eqb_spec p RAW_NONE); done.
Qed.

Lemma PageInfo_set_prev_ok q l :
  link_ok l -> PageInfo_set_prev q l = Ok (with_prev q (link_raw l)).
Proof.
  intros Hl. destruct l as [p|]; simpl; [|done].
  rewrite debug_assert_true; [done|]. specialize (Hl p eq_refl).
  destruct (Z.eqb_spec p RAW_NONE); done.
Qed.

Lemma page_ok a p q : getz (pages a) p = Some q -> page a p = Ok q.
Proof. apply idx_ok. Qed.

Lemma page_mut_ok a p f q q' :
  getz (pages a) p = Some q -> f q = Ok q' ->
  page_mut a p f = Ok (with_pages a (setz (pages a) p q')).
Proof. intros Hq Hf. unfold page_mut. rewrite (idx_ok _ _ _ Hq). cbn. by rewrite Hf. Qed.

Lemma set_free_area_ok a k h x :
  getz (free_area a) k = Some x ->
  set_free_area a k h = Ok (with_free_area a (setz (free_area a) k h)).
Proof.
  intros Hk. unfold set_free_area. rewrite set_idx_ok by by eapply getz_Some_range. done.
Qed.
End accessors.

(* ------------------------------------------------------------------------- *)
(** ** One free list *)

(** List [k] of the allocator represents the sequence [l] of frames. *)
Definition flist (a : BuddyAllocator) (k : Z) (l : list Z) : Prop :=
  getz (free_area a) k = Some (hd_or l None) /\
  dseg (pages a) None l None /\ NoDup l /\
  forall p, p ∈ l -> meta a p = Some (Free, k) /\ p <> RAW_NONE.

(** What a list operation leaves alone. *)
Record same_meta (a a' : BuddyAllocator) : Prop := {
  sm_base : dram_base a' = dram_base a;
  sm_nr : nr_frames a' = nr_frames a;
  sm_ff : free_frames a' = free_frames a;
  sm_len : lenz (pages a') = lenz (pages a);
  sm_meta : forall p, meta a' p = meta a p;
}.

Lemma same_meta_refl a : same_meta a a.
Proof. by constructor. Qed.
Lemma same_meta_trans a b c : same_meta a b -> same_meta b c -> same_meta a c.
Proof. intros [] []. constructor; intros; congruence. Qed.

Lemma flist_frame a a' k l :
  getz (free_area a') k = getz (free_area a) k ->
  (forall p, p ∈ l -> getz (pages a') p = getz (pages a) p) ->
  flist a k l -> flist a' k l.
Proof.
  intros Hfa Hp (H1 & H2 & H3 & H4). split_and!; [by rewrite Hfa | by eapply dseg_frame | done |].
  intros p Hin. unfold meta. rewrite Hp by done. by apply H4.
Qed.

Lemma meta_setz a p q q' :
  getz (pages a) p = Some q -> pi_state q' = pi_state q -> pi_order q' = pi_order q ->
  forall x, meta (with_pages a (setz (pages a) p q')) x = meta a x.
Proof.
  intros Hq Hs Ho x. unfold meta. simpl. destruct (decide (p = x)) as [->|Hne].
  - rewrite getz_setz_eq by by eapply getz_Some_range. rewrite Hq. simpl. by rewrite Hs, Ho.
  - by rewrite getz_setz_ne.
Qed.

Lemma same_meta_setz a p q q' :
  getz (pages a) p = Some q -> pi_state q' = pi_state q -> pi_order q' = pi_order q ->
  same_meta a (with_pages a (setz (pages a) p q')).
Proof.
  intros. constructor; [done..| simpl; by rewrite lenz_setz |]. intros. by eapply meta_setz.
Qed.

Lemma same_meta_free_area a l : same_meta a (with_free_area a l).
Proof. by constructor. Qed.

Lemma link_ok_None : link_ok None.
Proof. by intros ? [=]. Qed.
Lemma link_ok_Some p : p <> RAW_NONE -> link_ok (Some p).
Proof. by intros ? ? [= <-]. Qed.

Lemma flist_link_ok a k l1 l2 : flist a k (l1 ++ l2) -> link_ok (hd_or l2 None).
Proof.
  intros (_ & _ & _ & H) p Hp. destruct l2 as [|x l2]; simplify_eq/=. apply H. set_solver.
Qed.
Lemma flist_last_ok a k l1 l2 : flist a k (l1 ++ l2) -> link_ok (last_or None l1).
Proof.
  intros (_ & _ & _ & H) p. destruct l1 as [|x l1 _] using rev_ind; [done|].
  rewrite last_or_snoc. intros [= <-]. apply H. set_solver.
Qed.

Create HintDb buddy.
#[export] Hint Resolve same_meta_refl same_meta_trans same_meta_free_area link_ok_None link_ok_Some
  : buddy.

Section list_ops.
Context {P : Profile}.

(** Pushing, second half: the old head points back at the new one, which heads the list. *)
Lemma relink_front a a2 k l p :
  flist a k l -> meta a p = Some (Free, k) -> p <> RAW_NONE -> p ∉ l ->
  same_meta a a2 -> free_area a2 = free_area a ->
  (exists q, getz (pages a2) p = Some q /\ pi_prev q = link_raw None /\ pi_next q = link_raw (hd_or l None)) ->
  (forall x, x <> p -> getz (pages a2) x = getz (pages a) x) ->
  exists a',
    (let! a2 := match hd_or l None with
                | Some h => page_mut a2 h (fun q => PageInfo_set_prev q (Some p))
                | None => Ok a2
                end in set_free_area a2 k (Some p)) = Ok a' /\
    flist a' k (p :: l) /\ same_meta a a' /\
    (forall j, j <> k -> getz (free_area a') j = getz (free_area a) j) /\
    (forall x, x ∉ p :: l -> getz (pages a') x = getz (pages a) x).
Proof.
  intros (Hfa & Hseg & Hnd & Hfree) Hmp Hp Hpl Hsm Hf2 (q2 & Hq2 & Hpr & Hne) Hother.
  rewrite <- Hf2 in Hfa |- *. pose proof (getz_Some_range _ _ _ Hfa) as Hrk. destruct l as [|h l]; cbn [hd_or].
  - cbn [obind]. rewrite (set_free_area_ok a2 k _ _ Hfa).
    eexists. split_and!; [reflexivity| |eauto with buddy| |].
    + split_and!; [by apply getz_setz_eq| |by apply NoDup_singleton|].
      * split; [|done]. by exists q2.
      * intros x ->%list_elem_of_singleton. by rewrite <- Hmp, <- (sm_meta _ _ Hsm).
    + intros j Hj. by apply getz_setz_ne.
    + intros x Hx. apply Hother. set_solver.
  - destruct Hseg as [(qh & Hqh & Hph & Hnh) Hseg].
    assert (h <> p) as Hhp by set_solver.
    assert (getz (pages a2) h = Some qh) as Hqh2 by by rewrite Hother.
    rewrite (page_mut_ok _ _ _ _ _ Hqh2 (PageInfo_set_prev_ok _ _ (link_ok_Some _ Hp))).
    cbn [obind]. set (qh' := with_prev qh _). set (a3 := with_pages a2 _).
    rewrite (set_free_area_ok a3 k _ _ Hfa).
    assert (same_meta a a3) as Hsm3 by (eapply same_meta_trans; [exact Hsm|]; by eapply same_meta_setz).
    assert (forall x, x <> p -> x <> h -> getz (pages a3) x = getz (pages a) x) as Hother3.
    { intros x ? ?. cbn. rewrite getz_setz_ne by done. by apply Hother. }
    eexists. split_and!; [reflexivity| |eauto with buddy| |].
    + split_and!; [by apply getz_setz_eq| |by constructor|].
      * split; [exists q2; split_and!; [by cbn; rewrite getz_setz_ne|done..]|].
        split; [exists qh'; split_and!; [by apply getz_setz_eq; eapply getz_Some_range|done..]|].
        eapply dseg_frame; [|exact Hseg]. intros x Hx. cbn [with_free_area pages].
        apply list.NoDup_cons in Hnd. apply Hother3; set_solver.
      * intros x Hx. change (meta (with_free_area a3 _) x) with (meta a3 x).
        rewrite (sm_meta _ _ Hsm3). apply elem_of_cons in Hx as [->|Hx]; [done|]. by apply Hfree.
    + intros j Hj. by apply getz_setz_ne.
    + intros x Hx. apply Hother3; set_solver.
Qed.

(** Pushing a free frame conses it onto the represented list. *)
Lemma push_front_flist a k l p :
  flist a k l -> meta a p = Some (Free, k) -> p <> RAW_NONE -> p ∉ l ->
  exists a', push_front a k p = Ok a' /\ flist a' k (p :: l) /\ same_meta a a' /\
    (forall j, j <> k -> getz (free_area a') j = getz (free_area a) j) /\
    (forall x, x ∉ p :: l -> getz (pages a') x = getz (pages a) x).
Proof.
  intros HL Hmp Hp Hpl. pose proof HL as (Hfa & _).
  destruct (meta_Some _ _ _ _ Hmp) as (q & Hq & Hst & Hor).
  pose proof (getz_Some_range _ _ _ Hq) as Hrp.
  unfold push_front. rewrite (page_ok _ _ _ Hq). cbn [obind].
  rewrite debug_assert_true by by apply PageInfo_is_free_true. cbn [obind].
  rewrite (idx_ok _ _ _ Hfa). cbn [obind].
  rewrite (page_mut_ok _ _ _ _ _ Hq (PageInfo_set_prev_ok _ None link_ok_None)). cbn [obind].
  set (q1 := with_prev q _). set (a1 := with_pages a _).
  assert (getz (pages a1) p = Some q1) as Hq1 by by apply getz_setz_eq.
  pose proof (flist_link_ok a k [] l HL) as Hlk.
  rewrite (page_mut_ok _ _ _ _ _ Hq1 (PageInfo_set_next_ok _ _ Hlk)). cbn [obind].
  apply relink_front; try done.
  - eapply same_meta_trans; eapply same_meta_setz; eauto.
  - eexists. split; [apply getz_setz_eq; cbn; by rewrite lenz_setz|done].
  - intros x Hx. cbn. by rewrite !getz_setz_ne by done.
Qed.

(** Removal, first half: the predecessor (or the list head) skips the node. *)
Lemma unlink_fix_left a k l1 p next :
  dseg (pages a) None l1 (Some p) -> NoDup l1 -> link_ok next ->
  getz (free_area a) k = Some (hd_or l1 (Some p)) ->
  exists a', match last_or None l1 with
             | Some x => page_mut a x (fun q => PageInfo_set_next q next)
             | None => set_free_area a k next
             end = Ok a' /\
    getz (free_area a') k = Some (hd_or l1 next) /\ dseg (pages a') None l1 next /\
    same_meta a a' /\
    (forall j, j <> k -> getz (free_area a') j = getz (free_area a) j) /\
    (forall x, x ∉ l1 -> getz (pages a') x = getz (pages a) x).
Proof.
  intros Hseg Hnd Hnext Hfa. pose proof (getz_Some_range _ _ _ Hfa) as Hrk.
  destruct l1 as [|x l1 _] using rev_ind; cbn [last_or hd_or] in *.
  - rewrite (set_free_area_ok _ _ _ _ Hfa). eexists. split_and!; [done|..|done].
    + by apply getz_setz_eq.
    + done.
    + apply same_meta_free_area.
    + intros. by apply getz_setz_ne.
  - rewrite last_or_snoc. pose proof Hseg as Hseg'. apply dseg_app in Hseg' as [_ [(q & Hq & _) _]].
    apply list.NoDup_app in Hnd as (_ & Hx & _).
    rewrite (page_mut_ok _ _ _ _ _ Hq (PageInfo_set_next_ok _ _ Hnext)).
    pose proof (getz_Some_range _ _ _ Hq) as Hrx.
    eexists. split_and!; [done|..].
    + cbn. rewrite Hfa. by destruct l1.
    + eapply dseg_set_next; [| |exact Hseg].
      * intros y Hy. apply getz_setz_ne. intros <-. apply (Hx _ Hy). set_solver.
      * intros q0 Hq0. simplify_eq. eexists. simpl. by rewrite getz_setz_eq.
    + by eapply same_meta_setz.
    + done.
    + intros y Hy. apply getz_setz_ne. set_solver.
Qed.

(** Removal, second half: the successor points back past the node. *)
Lemma unlink_fix_right a l2 p prev :
  dseg (pages a) (Some p) l2 None -> NoDup l2 -> link_ok prev ->
  exists a', match hd_or l2 None with
             | Some x => page_mut a x (fun q => PageInfo_set_prev q prev)
             | None => Ok a
             end = Ok a' /\
    dseg (pages a') prev l2 None /\ same_meta a a' /\ free_area a' = free_area a /\
    (forall x, x ∉ l2 -> getz (pages a') x = getz (pages a) x).
Proof.
  intros Hseg Hnd Hprev. destruct l2 as [|x l2]; cbn [hd_or].
  - exists a. by split_and!.
  - pose proof Hseg as [(q & Hq & _) _].
    rewrite (page_mut_ok _ _ _ _ _ Hq (PageInfo_set_prev_ok _ _ Hprev)).
    pose proof (getz_Some_range _ _ _ Hq) as Hrx. pose proof Hnd as Hx.
    apply list.NoDup_cons in Hx as [Hx _].
    eexists. split_and!; [done|..].
    + eapply dseg_set_prev; [exact Hnd| | |exact Hseg].
      * intros y Hy. apply getz_setz_ne. by intros <-.
      * intros q0 Hq0. simplify_eq. eexists. simpl. by rewrite getz_setz_eq.
    + by eapply same_meta_setz.
    + done.
    + intros y Hy. apply getz_setz_ne. set_solver.
Qed.

(** Unlinking a member deletes it from the represented list. *)
Lemma unlink_flist a k l1 p l2 :
  flist a k (l1 ++ p :: l2) ->
  exists a', unlink a k p = Ok a' /\ flist a' k (l1 ++ l2) /\ same_meta a a' /\
    (forall j, j <> k -> getz (free_area a') j = getz (free_area a) j) /\
    (forall x, x ∉ l1 ++ l2 -> getz (pages a') x = getz (pages a) x).
Proof.
  intros HL. pose proof HL as (Hfa & Hseg & Hnd & Hfree).
  apply dseg_app in Hseg as [Hseg1 [(q & Hq & Hqp & Hqn) Hseg2]].
  destruct (Hfree p) as [Hmp _]; [set_solver|].
  assert (pi_state q = Free) as Hst by (unfold meta in Hmp; rewrite Hq in Hmp; by simplify_eq/=).
  pose proof (flist_last_ok _ _ _ _ HL) as Hlk1.
  assert (link_ok (hd_or l2 None)) as Hlk2.
  { apply (flist_link_ok a k (l1 ++ [p])). by rewrite <- app_assoc. }
  apply list.NoDup_app in Hnd as (Hnd1 & Hnd12 & Hnd2). apply list.NoDup_cons in Hnd2 as [Hpl2 Hnd2].
  unfold unlink. rewrite !(page_ok _ _ _ Hq). cbn [obind].
  rewrite (PageInfo_prev_ok _ _ Hst Hqp Hlk1). cbn [obind].
  rewrite (PageInfo_next_ok _ _ Hst Hqn Hlk2). cbn [obind]. cbn [hd_or] in Hseg1.
  destruct (unlink_fix_left a k l1 p (hd_or l2 None)) as (a1 & -> & Hfa1 & Hs1 & Hsm1 & Hj1 & Hx1);
    [done..|by rewrite Hfa; destruct l1|]. cbn [obind].
  assert (forall x, x ∈ l2 -> getz (pages a1) x = getz (pages a) x) as Hx1'.
  { intros x Hx. apply Hx1. intros Hx'. apply (Hnd12 x Hx'). set_solver. }
  destruct (unlink_fix_right a1 l2 p (last_or None l1)) as (a2 & -> & Hs2 & Hsm2 & Hfa2 & Hx2);
    [by eapply dseg_frame|done..|].
  assert (same_meta a a2) as Hsm by eauto with buddy.
  exists a2. split_and!; [done| |done|by rewrite Hfa2|].
  - split_and!.
    + rewrite Hfa2, Hfa1. by destruct l1.
    + apply dseg_app. split; [|done]. eapply dseg_frame; [|exact Hs1].
      intros x Hx. apply Hx2. intros ?. apply (Hnd12 x Hx). set_solver.
    + apply list.NoDup_app. split_and!; [done| |done]. set_solver.
    + intros x Hx. rewrite (sm_meta _ _ Hsm). apply Hfree. set_solver.
  - intros x Hx. rewrite Hx2 by set_solver. apply Hx1. set_solver.
Qed.

Lemma pop_front_flist_nil a k : flist a k [] -> pop_front a k = Ok (None, a).
Proof. intros (Hfa & _). unfold pop_front. by rewrite (idx_ok _ _ _ Hfa). Qed.

Lemma pop_front_flist_cons a k p l :
  flist a k (p :: l) ->
  exists a', pop_front a k = Ok (Some p, a') /\ flist a' k l /\ same_meta a a' /\
    (forall j, j <> k -> getz (free_area a') j = getz (free_area a) j) /\
    (forall x, x ∉ l -> getz (pages a') x = getz (pages a) x).
Proof.
  intros HL. destruct (unlink_flist a k [] p l HL) as (a' & Hu & ?).
  exists a'. unfold pop_front. rewrite (idx_ok _ _ _ (proj1 HL)). cbn. by rewrite Hu.
Qed.
End list_ops.
