(* ===== verification/BuddyGeom.v ===== *)
(** * Buddy allocator: geometry of blocks

    A block is a head frame and an order.  [geometry nr hd] says that the heads
    given by [hd] have aligned, in-range, pairwise disjoint blocks.  This file has
    the arithmetic of buddies ([buddy_xor]), the split / merge / insert / remove
    lemmas, and the counting argument that bounds the mass of the free lists by
    the number of frames. *)

From S2P Require Import Prelude FrameTypes Buddy.

Definition block_ok (nr p o : Z) : Prop :=
  0 <= o < MAX_ORDER /\ 0 <= p /\ (2 ^ o | p) /\ p + 2 ^ o <= nr.

Definition in_block (p o f : Z) : Prop := p <= f < p + 2 ^ o.

Record geometry (nr : Z) (hd : Z -> option Z) : Prop := {
  geo_block : forall p o, hd p = Some o -> block_ok nr p o;
  geo_disj : forall p o q o', hd p = Some o -> hd q = Some o' -> p < q -> p + 2 ^ o <= q;
}.

Lemma pow2_pos k : 0 <= k -> 0 < 2 ^ k.
Proof. lia. Qed.

Lemma pow2_succ k : 0 <= k -> 2 ^ (k + 1) = 2 * 2 ^ k.
Proof. intros. rewrite Z.pow_add_r by lia. lia. Qed.

(** Decompose updates of a function at a point. *)
Ltac fn_cases :=
  unfold insert, fn_insert in *;
  repeat match goal with
  | |- context [decide (?a = ?b)] => destruct (decide (a = b))
  | H : context [decide (?a = ?b)] |- _ => destruct (decide (a = b))
  end; simplify_eq/=.

Lemma geometry_ext nr hd hd' :
  (forall p, hd' p = hd p) -> geometry nr hd -> geometry nr hd'.
Proof.
  intros E [HB HD]. split; intros *; rewrite !E; [apply HB | apply HD].
Qed.

Lemma geometry_remove nr hd p : geometry nr hd -> geometry nr (<[p := None]> hd).
Proof.
  intros [HB HD]. split.
  - intros q o. fn_cases; [done | apply HB].
  - intros q o r o'. fn_cases; [done..|apply HD].
Qed.

Lemma geometry_insert nr hd p o :
  geometry nr hd -> block_ok nr p o ->
  (forall q o', q <> p -> hd q = Some o' -> q + 2 ^ o' <= p \/ p + 2 ^ o <= q) ->
  geometry nr (<[p := Some o]> hd).
Proof.
  intros [HB HD] Hb Hd. split.
  - intros q o'. fn_cases; [by intros [= <-] | apply HB].
  - intros q o1 r o2. fn_cases; intros; simplify_eq; [lia|..|by eapply HD].
    + destruct (Hd r o2) as [?|?]; [lia|done| |lia].
      destruct (HB r o2) as (? & ? & ? & ?); [done|]. lia.
    + destruct (Hd q o1) as [?|?]; [lia|done|lia|].
      destruct Hb as (? & ? & ? & ?). lia.
Qed.

(** No head lies strictly inside another head's block. *)
Lemma geometry_interior nr hd p o f :
  geometry nr hd -> hd p = Some o -> in_block p o f -> f <> p -> hd f = None.
Proof.
  intros [_ HD] Hp [? ?] ?. destruct (hd f) as [o'|] eqn:E; [|done].
  pose proof (HD p o f o' Hp E). lia.
Qed.

Lemma geometry_split nr hd b k :
  geometry nr hd -> 0 <= k -> hd b = Some (k + 1) ->
  hd (b + 2 ^ k) = None /\
  geometry nr (<[b + 2 ^ k := Some k]> (<[b := Some k]> hd)) /\
  block_ok nr (b + 2 ^ k) k.
Proof.
  intros G Hk Hb. pose proof (geo_block _ _ G _ _ Hb) as (Ho & Hb0 & Hal & Hnr).
  rewrite pow2_succ in * by done. pose proof (pow2_pos k Hk) as Hpos.
  assert (2 ^ k | b) as Hal' by (eapply Z.divide_trans; [|exact Hal]; apply Z.divide_factor_r).
  assert (block_ok nr b k) as Hbl by (split_and!; lia || done).
  assert (block_ok nr (b + 2 ^ k) k) as Hbu.
  { split_and!; try lia. apply Z.divide_add_r; [done|apply Z.divide_refl]. }
  assert (forall q o', q <> b -> hd q = Some o' -> q + 2 ^ o' <= b \/ b + 2 * 2 ^ k <= q) as Hout.
  { intros q o' Hq Hqo. destruct (Z.lt_total q b) as [?|[?|?]]; [left|lia|right].
    - by eapply (geo_disj _ _ G).
    - rewrite <- pow2_succ by done. by eapply (geo_disj _ _ G). }
  split; [|split; [|done]].
  - eapply geometry_interior; [done|exact Hb| |lia]. split; rewrite ?pow2_succ by done; lia.
  - apply geometry_insert; [apply geometry_insert; [done..|]|done|].
    + intros q o' Hq Hqo. destruct (Hout q o' Hq Hqo); lia.
    + intros q o' Hq. fn_cases; intros; simplify_eq; [lia|].
      destruct (Hout q o') as [?|?]; [done..|lia|lia].
Qed.

Lemma lxor_1 n : 0 <= n -> Z.lxor n 1 = if Z.even n then n + 1 else n - 1.
Proof. intros. by destruct n as [|[p|p|]|p]. Qed.

(** Flipping the order bit of an aligned frame gives its buddy: the other half
    of the enclosing block of the next order. *)
Lemma buddy_xor c k :
  0 <= k -> 0 <= c -> (2 ^ k | c) ->
  exists m, 0 <= m /\
    ((c = m * 2 ^ (k + 1) /\ Z.lxor c (2 ^ k) = c + 2 ^ k) \/
     (c = m * 2 ^ (k + 1) + 2 ^ k /\ Z.lxor c (2 ^ k) = c - 2 ^ k)).
Proof.
  intros Hk Hc [n ->]. pose proof (pow2_pos k Hk) as Hpos.
  assert (0 <= n) as Hn by nia. exists (n / 2). split; [apply Z.div_pos; lia|].
  assert (Z.lxor (n * 2 ^ k) (2 ^ k) = Z.lxor n 1 * 2 ^ k) as ->.
  { rewrite <- (Z.mul_1_l (2 ^ k)) at 2. rewrite <- !Z.shiftl_mul_pow2 by done.
    symmetry. apply Z.shiftl_lxor. }
  rewrite lxor_1, pow2_succ by done. pose proof (Zmod_even n) as He.
  pose proof (Z.div_mod n 2). destruct (Z.even n); [left|right]; split; nia.
Qed.

Lemma buddy_ne c k : 0 <= k -> 0 <= c -> (2 ^ k | c) -> c <> Z.lxor c (2 ^ k).
Proof.
  intros Hk Hc Hd. destruct (buddy_xor c k Hk Hc Hd) as (m & _ & H).
  pose proof (pow2_pos k Hk). lia.
Qed.

Lemma buddy_xor_involutive c k : 0 <= k -> 0 <= c -> Z.lxor (Z.lxor c (2 ^ k)) (2 ^ k) = c.
Proof. intros. by rewrite Z.lxor_assoc, Z.lxor_nilpotent, Z.lxor_0_r. Qed.

Lemma buddy_xor_bounds c k :
  0 <= k < 32 -> 0 <= c < 2 ^ 32 -> (2 ^ k | c) -> 0 <= Z.lxor c (2 ^ k) < 2 ^ 32.
Proof.
  intros Hk Hc Hal. destruct (buddy_xor c k) as (m & Hm & H); [lia..|done|].
  assert (0 < 2 ^ k) by lia. rewrite pow2_succ in H by lia.
  assert (2 ^ 32 = 2 ^ (31 - k) * (2 * 2 ^ k)) as E.
  { rewrite <- pow2_succ, <- Z.pow_add_r by lia. f_equal. lia. }
  rewrite E in Hc |- *. set (N := 2 ^ (31 - k)) in *. set (D := 2 ^ k) in *.
  destruct H as [[-> ->]|[-> ->]]; [|nia].
  assert (m < N) by nia. nia.
Qed.

Lemma geometry_merge nr hd c k :
  geometry nr hd -> k + 1 < MAX_ORDER -> hd c = Some k -> hd (Z.lxor c (2 ^ k)) = Some k ->
  let b := Z.lxor c (2 ^ k) in
  c <> b /\ Z.max c b = Z.min c b + 2 ^ k /\
  geometry nr (<[Z.min c b := Some (k + 1)]> (<[Z.max c b := None]> hd)).
Proof.
  intros G Hk Hc Hb b. fold b in Hb.
  pose proof (geo_block _ _ G _ _ Hc) as (Ho & Hc0 & Hal & Hnr).
  pose proof (geo_block _ _ G _ _ Hb) as (_ & Hb0 & _ & Hnrb).
  pose proof (pow2_pos k ltac:(lia)) as Hpos.
  destruct (buddy_xor c k) as (m & Hm & H); [lia..|done|]. fold b in H.
  assert (Z.max c b = Z.min c b + 2 ^ k) as Hmax by lia.
  assert (hd (Z.min c b) = Some k) as Hmin by (destruct (Z.min_spec c b) as [[_ ->]|[_ ->]]; done).
  assert (hd (Z.max c b) = Some k) as Hmx by (destruct (Z.max_spec c b) as [[_ ->]|[_ ->]]; done).
  split_and!; [lia|done|]. apply geometry_insert; [by apply geometry_remove| |].
  - split_and!; [lia..| |rewrite pow2_succ by lia; lia].
    exists m. lia.
  - intros q o' Hq. fn_cases; [done|]. intros Hqo. rewrite pow2_succ by lia.
    destruct (Z.lt_total q (Z.min c b)) as [?|[?|?]]; [left; by eapply (geo_disj _ _ G)|lia|right].
    destruct (Z.lt_total q (Z.max c b)) as [?|[?|?]]; [|lia|].
    + pose proof (geo_disj _ _ G _ _ _ _ Hmin Hqo). lia.
    + pose proof (geo_disj _ _ G _ _ _ _ Hmx Hqo). lia.
Qed.

(* ------------------------------------------------------------------------- *)
(** ** Counting frames *)

Definition orders : list Z := seqZ 0 MAX_ORDER.

(** Frames held by free lists [fl], with multiplicity, and their number. *)
Definition frames_of (fl : Z -> list Z) : list Z :=
  orders ≫= fun k => fl k ≫= fun p => seqZ p (2 ^ k).
Definition mass (fl : Z -> list Z) : Z :=
  foldr (fun k acc => 2 ^ k * lenz (fl k) + acc) 0 orders.

(** The frames of free blocks. *)
Definition free_frame (fl : Z -> list Z) (f : Z) : Prop :=
  exists k p, 0 <= k < MAX_ORDER /\ p ∈ fl k /\ in_block p k f.

Lemma elem_of_orders k : k ∈ orders <-> 0 <= k < MAX_ORDER.
Proof. unfold orders. rewrite elem_of_seqZ. unfold MAX_ORDER. lia. Qed.

Lemma elem_of_frames_of fl f : f ∈ frames_of fl <-> free_frame fl f.
Proof.
  unfold frames_of, free_frame, in_block. rewrite list_elem_of_bind. split.
  - intros (k & Hf & Hk%elem_of_orders). apply list_elem_of_bind in Hf as (p & Hf & Hp).
    apply elem_of_seqZ in Hf. eauto.
  - intros (k & p & Hk & Hp & Hf). exists k. rewrite elem_of_orders. split; [|done].
    apply list_elem_of_bind. exists p. by rewrite elem_of_seqZ.
Qed.

Lemma length_bind_const {A B} (f : A -> list B) (n : nat) l :
  (forall x, length (f x) = n) -> length (l ≫= f) = (n * length l)%nat.
Proof. intros H. induction l as [|x l IH]; csimpl; [lia|]. rewrite length_app, H, IH. lia. Qed.

Lemma lenz_frames_of fl : lenz (frames_of fl) = mass fl.
Proof.
  unfold frames_of, mass. assert (Forall (fun k => 0 <= k) orders) as Ho.
  { apply list.Forall_forall. intros k ?%elem_of_orders. lia. }
  induction orders as [|k l IH]; [done|]. apply list.Forall_cons in Ho as [Hk Ho].
  unfold lenz in *. csimpl. rewrite length_app, Nat2Z.inj_add, IH by done.
  rewrite (length_bind_const _ (Z.to_nat (2 ^ k))) by (intros; apply length_seqZ). lia.
Qed.

Lemma mass_update fl k l :
  0 <= k < MAX_ORDER -> mass (<[k := l]> fl) = mass fl + 2 ^ k * (lenz l - lenz (fl k)).
Proof.
  intros Hk. pose proof (NoDup_seqZ 0 MAX_ORDER) as Hnd. apply elem_of_orders in Hk.
  unfold mass. unfold orders in *. revert Hk Hnd.
  induction (seqZ 0 MAX_ORDER) as [|j js IH]; [set_solver|].
  intros Hk Hnd. apply list.NoDup_cons in Hnd as [Hj Hnd]. simpl.
  destruct (decide (k = j)) as [->|Hne].
  - rewrite fn_lookup_insert. assert (forall acc, foldr (fun k acc => 2 ^ k * lenz ((<[j:=l]> fl) k) + acc) acc js
      = foldr (fun k acc => 2 ^ k * lenz (fl k) + acc) acc js) as ->; [|lia].
    clear IH Hk Hnd. intros acc. induction js as [|i js IH]; [done|]. simpl.
    rewrite fn_lookup_insert_ne by set_solver. rewrite IH by set_solver. done.
  - rewrite fn_lookup_insert_ne by done. rewrite IH by set_solver. lia.
Qed.

Lemma mass_nonneg fl : 0 <= mass fl.
Proof. rewrite <- lenz_frames_of. unfold lenz. lia. Qed.

(** A free block weighs no more than the lists that hold it. *)
Lemma mass_member fl k p : 0 <= k < MAX_ORDER -> p ∈ fl k -> 2 ^ k <= mass fl.
Proof.
  intros Hk Hp. pose proof (mass_update fl k [] Hk) as H. pose proof (mass_nonneg (<[k:=[]]> fl)).
  assert (1 <= lenz (fl k)) by (destruct (fl k); [set_solver | unfold lenz; simpl; lia]).
  change (lenz []) with 0 in H. assert (0 < 2 ^ k) by lia. nia.
Qed.

Section counting.
Context (nr : Z) (hd : Z -> option Z) (fl : Z -> list Z).
Hypothesis Hgeo : geometry nr hd.
Hypothesis Hhd : forall k p, 0 <= k < MAX_ORDER -> p ∈ fl k -> hd p = Some k.
Hypothesis Hnd : forall k, 0 <= k < MAX_ORDER -> NoDup (fl k).

Lemma blocks_share_frame p o q o' f :
  hd p = Some o -> hd q = Some o' -> in_block p o f -> in_block q o' f -> p = q.
Proof.
  intros Hp Hq [? ?] [? ?]. destruct (Z.lt_total p q) as [?|[?|?]]; [|done|].
  - pose proof (geo_disj _ _ Hgeo p o q o' Hp Hq). lia.
  - pose proof (geo_disj _ _ Hgeo q o' p o Hq Hp). lia.
Qed.

Lemma frames_of_NoDup : NoDup (frames_of fl).
Proof.
  unfold frames_of. apply NoDup_bind; [| |apply NoDup_seqZ].
  - intros k1 k2 f Hk1%elem_of_orders Hk2%elem_of_orders.
    intros (p & Hf1%elem_of_seqZ & Hp)%list_elem_of_bind (q & Hf2%elem_of_seqZ & Hq)%list_elem_of_bind.
    pose proof (Hhd _ _ Hk1 Hp) as H1. pose proof (Hhd _ _ Hk2 Hq) as H2.
    assert (p = q) as <- by by eapply blocks_share_frame. congruence.
  - intros k Hk%elem_of_orders. apply NoDup_bind; [| |by apply Hnd].
    + intros p q f Hp Hq Hf1%elem_of_seqZ Hf2%elem_of_seqZ.
      by eapply (blocks_share_frame p k q k f); auto.
    + intros p _. apply NoDup_seqZ.
Qed.

Lemma mass_le_frames : mass fl <= Z.max 0 nr.
Proof.
  rewrite <- lenz_frames_of. unfold lenz.
  assert (length (frames_of fl) ≤ length (seqZ 0 nr))%nat as H.
  { apply submseteq_length, NoDup_submseteq; [apply frames_of_NoDup|].
    intros f (k & p & Hk & Hp & Hf)%elem_of_frames_of. apply elem_of_seqZ.
    destruct (geo_block _ _ Hgeo _ _ (Hhd _ _ Hk Hp)) as (? & ? & _ & ?).
    destruct Hf. lia. }
  rewrite length_seqZ in H. lia.
Qed.
End counting.
