(* ===== verification/BuddyWf.v ===== *)
(** * Buddy allocator: the invariant and its transitions

    [inv a fl hd cur]: the free lists of [a] represent [fl], the block heads [hd]
    have a sound geometry, and descriptors, lists and heads agree everywhere but
    at [cur], the block an operation is working on.  [wf] is the invariant between
    operations.  Each transition lemma is one elementary step of [alloc], [free]
    or [free_range]; each says that the step returns and what it does to [fl],
    [hd] and the descriptors. *)

From S2P Require Import Prelude FrameTypes Layout Buddy BuddyInv BuddyGeom.

(** The block headed by a descriptor, if it is a head ([PageInfo::is_head]). *)
Definition head_of (m : option (PageState * Z)) : option Z :=
  match m with
  | Some (Free, o) | Some (Allocated, o) => Some o
  | _ => None
  end.

Definition lists (a : BuddyAllocator) (fl : Z -> list Z) : Prop :=
  forall k, 0 <= k < MAX_ORDER -> flist a k (fl k).

Record inv (a : BuddyAllocator) (fl : Z -> list Z) (hd : Z -> option Z) (cur : option Z) : Prop := {
  inv_lists : lists a fl;
  inv_geo : geometry (nr_frames a) hd;
  inv_nr : 0 <= nr_frames a <= RAW_NONE /\ nr_frames a <= lenz (pages a);
  inv_hd : forall p, Some p <> cur -> hd p = head_of (meta a p);
  inv_free : forall p k, Some p <> cur -> meta a p = Some (Free, k) -> p ∈ fl k;
  inv_cur : forall k p, 0 <= k < MAX_ORDER -> p ∈ fl k -> Some p <> cur;
}.

Definition heads (a : BuddyAllocator) (p : Z) : option Z := head_of (meta a p).

(** The allocator's invariant between operations. *)
Record wf_with (a : BuddyAllocator) (fl : Z -> list Z) : Prop := {
  wf_inv : inv a fl (heads a) None;
  wf_mass : free_frames a = mass fl;
}.
Definition wf (a : BuddyAllocator) : Prop := exists fl, wf_with a fl.

(** Only descriptors changed: bookkeeping fields and the mem-map's size did not. *)
Record same_shape (a a' : BuddyAllocator) : Prop := {
  ss_base : dram_base a' = dram_base a;
  ss_nr : nr_frames a' = nr_frames a;
  ss_ff : free_frames a' = free_frames a;
  ss_len : lenz (pages a') = lenz (pages a);
}.

Lemma same_shape_refl a : same_shape a a.
Proof. by constructor. Qed.
Lemma same_shape_trans a b c : same_shape a b -> same_shape b c -> same_shape a c.
Proof. intros [] []. constructor; congruence. Qed.
Lemma same_meta_shape a a' : same_meta a a' -> same_shape a a'.
Proof. intros []. by constructor. Qed.
#[export] Hint Resolve same_shape_refl same_shape_trans same_meta_shape : buddy.

(* ------------------------------------------------------------------------- *)
(** ** Lists under elementary steps *)

Section lists_steps.
Context {P : Profile}.

Lemma page_mut_lists a fl p q f q' :
  lists a fl -> (forall k, 0 <= k < MAX_ORDER -> p ∉ fl k) ->
  getz (pages a) p = Some q -> f q = Ok q' ->
  exists a', page_mut a p f = Ok a' /\ lists a' fl /\ same_shape a a' /\
    forall x, meta a' x = (<[p := Some (pi_state q', pi_order q')]> (meta a)) x.
Proof.
  intros HL Hp Hq Hf. rewrite (page_mut_ok _ _ _ _ _ Hq Hf).
  pose proof (getz_Some_range _ _ _ Hq). eexists. split_and!; [done|..].
  - intros k Hk. eapply flist_frame; [..|by apply HL]; [done|].
    intros x Hx. apply getz_setz_ne. intros <-. by apply (Hp k Hk).
  - constructor; [done..|]. simpl. apply lenz_setz.
  - intros x. unfold meta. simpl. fn_cases.
    + by rewrite getz_setz_eq.
    + by rewrite getz_setz_ne.
Qed.

(** Members of different lists are different frames. *)
Lemma lists_disjoint a fl j k x :
  lists a fl -> 0 <= j < MAX_ORDER -> 0 <= k < MAX_ORDER -> x ∈ fl j -> x ∈ fl k -> j = k.
Proof.
  intros HL Hj Hk Hxj Hxk. destruct (HL j Hj) as (_ & _ & _ & Fj).
  destruct (HL k Hk) as (_ & _ & _ & Fk).
  destruct (Fj x Hxj) as [Ej _]. destruct (Fk x Hxk) as [Ek _]. congruence.
Qed.

Lemma lists_update a a' fl k l (S : list Z) :
  lists a fl -> flist a' k l ->
  (forall j, j <> k -> getz (free_area a') j = getz (free_area a) j) ->
  (forall x, x ∉ S -> getz (pages a') x = getz (pages a) x) ->
  (forall j x, 0 <= j < MAX_ORDER -> j <> k -> x ∈ fl j -> x ∉ S) ->
  lists a' (<[k := l]> fl).
Proof.
  intros HL Hk Hfa Hx HS j Hj. fn_cases; [done|].
  eapply flist_frame; [by apply Hfa| |by apply HL]. eauto.
Qed.

Lemma push_lists a fl k p :
  lists a fl -> 0 <= k < MAX_ORDER -> meta a p = Some (Free, k) -> p <> RAW_NONE -> p ∉ fl k ->
  exists a', push_front a k p = Ok a' /\ lists a' (<[k := p :: fl k]> fl) /\ same_meta a a'.
Proof.
  intros HL Hk Hm Hr Hp.
  destruct (push_front_flist a k (fl k) p) as (a' & E & F & ? & Hfa & Hx); auto.
  exists a'. split_and!; [done| |done]. eapply lists_update; [done..|].
  intros j x Hj Hne Hxj [->|Hxk]%elem_of_cons.
  - destruct (HL j Hj) as (_ & _ & _ & Fj). destruct (Fj p Hxj). congruence.
  - apply Hne. by eapply (lists_disjoint a fl j k x).
Qed.

Lemma unlink_lists a fl k l1 p l2 :
  lists a fl -> 0 <= k < MAX_ORDER -> fl k = l1 ++ p :: l2 ->
  exists a', unlink a k p = Ok a' /\ lists a' (<[k := l1 ++ l2]> fl) /\ same_meta a a'.
Proof.
  intros HL Hk E. pose proof (HL k Hk) as HLk. rewrite E in HLk.
  destruct (unlink_flist a k l1 p l2 HLk) as (a' & E' & F & ? & Hfa & Hx).
  exists a'. split_and!; [done| |done]. eapply lists_update; [done..|].
  intros j x Hj Hne Hxj Hxk. apply Hne. eapply (lists_disjoint a fl j k x); [done..|].
  rewrite E. set_solver.
Qed.

Lemma pop_lists a fl k p l :
  lists a fl -> 0 <= k < MAX_ORDER -> fl k = p :: l ->
  exists a', pop_front a k = Ok (Some p, a') /\ lists a' (<[k := l]> fl) /\ same_meta a a'.
Proof.
  intros HL Hk E. pose proof (HL k Hk) as (Hfa & _). rewrite E in Hfa.
  destruct (unlink_lists a fl k [] p l HL Hk E) as (a' & Hu & ?).
  exists a'. unfold pop_front. rewrite (idx_ok _ _ _ Hfa). cbn. by rewrite Hu.
Qed.
End lists_steps.

(* ------------------------------------------------------------------------- *)
(** ** Consequences of the invariant *)

Section inv_facts.
Context {a : BuddyAllocator} {fl : Z -> list Z} {hd : Z -> option Z} {cur : option Z}.
Hypothesis I : inv a fl hd cur.

Lemma inv_member k p :
  0 <= k < MAX_ORDER -> p ∈ fl k ->
  hd p = Some k /\ meta a p = Some (Free, k) /\ Some p <> cur /\ p <> RAW_NONE.
Proof.
  intros Hk Hp. destruct (inv_lists _ _ _ _ I k Hk) as (_ & _ & _ & F).
  destruct (F p Hp) as [Hm Hr]. pose proof (inv_cur _ _ _ _ I k p Hk Hp) as Hc.
  split_and!; [|done..]. by rewrite (inv_hd _ _ _ _ I) by done; rewrite Hm.
Qed.

Lemma inv_NoDup k : 0 <= k < MAX_ORDER -> NoDup (fl k).
Proof. intros Hk. apply (inv_lists _ _ _ _ I k Hk). Qed.

(** A head's block is in range, so its frames have descriptors. *)
Lemma inv_block p o :
  hd p = Some o -> block_ok (nr_frames a) p o.
Proof. apply (inv_geo _ _ _ _ I). Qed.

Lemma inv_descriptor p o f :
  block_ok (nr_frames a) p o -> in_block p o f ->
  exists q, getz (pages a) f = Some q /\ f <> RAW_NONE /\ 0 <= f < RAW_NONE.
Proof.
  intros (Ho & Hp & _ & Hn) [? ?]. destruct (inv_nr _ _ _ _ I) as [? ?].
  destruct (getz_is_Some (pages a) f) as [q Hq]; [lia|]. exists q. split; [done|]. lia.
Qed.

Lemma inv_not_head p :
  hd p = None -> forall k, 0 <= k < MAX_ORDER -> p ∉ fl k.
Proof. intros Hp k Hk Hin. destruct (inv_member k p Hk Hin). congruence. Qed.

Lemma inv_cur_not_member p : cur = Some p -> forall k, 0 <= k < MAX_ORDER -> p ∉ fl k.
Proof. intros -> k Hk Hin. by apply (inv_cur _ _ _ _ I k p Hk Hin). Qed.

Lemma inv_mass_le : mass fl <= nr_frames a.
Proof.
  destruct (inv_nr _ _ _ _ I) as [? ?].
  pose proof (mass_le_frames (nr_frames a) hd fl (inv_geo _ _ _ _ I)) as H'.
  rewrite Z.max_r in H' by lia. apply H'; [|apply inv_NoDup].
  intros k p Hk Hp. by apply inv_member.
Qed.
End inv_facts.

Lemma inv_ext a fl hd hd' cur :
  (forall p, hd' p = hd p) -> inv a fl hd cur -> inv a fl hd' cur.
Proof.
  intros E []. constructor; auto; [by eapply geometry_ext|]. intros. rewrite E. auto.
Qed.

(** Bookkeeping fields are irrelevant to the invariant. *)
Lemma inv_free_frames a fl hd cur n : inv a fl hd cur -> inv (with_free_frames a n) fl hd cur.
Proof. intros []. by constructor. Qed.
