(* ===== verification/BuddySteps.v ===== *)
(** * Buddy allocator: transitions of the invariant

    One lemma per elementary step of [alloc], [free] and [free_range]: taking a
    block off a list, splitting, merging, handing out, putting back.  Each says
    that the step returns, in every build profile, and what it does to the free
    lists, the heads and the descriptors. *)

From S2P Require Import Prelude FrameTypes Layout Buddy BuddyInv BuddyGeom BuddyWf.

(* ------------------------------------------------------------------------- *)
(** ** Free frames under list updates *)

Lemma free_frame_cons fl k p f :
  0 <= k < MAX_ORDER ->
  free_frame (<[k := p :: fl k]> fl) f <-> free_frame fl f \/ in_block p k f.
Proof.
  intros Hk. split.
  - intros (j & q & Hj & Hq & Hf). revert Hq. fn_cases.
    + intros [->|Hq]%elem_of_cons; [by right | left; by eexists _, q].
    + left. by exists j, q.
  - intros [(j & q & Hj & Hq & Hf)|Hf].
    + exists j, q. split_and!; [lia..| |done]. fn_cases; set_solver.
    + exists k, p. split_and!; [lia..| |done]. fn_cases; set_solver.
Qed.

Lemma free_frame_delete fl k l1 p l2 f :
  0 <= k < MAX_ORDER -> fl k = l1 ++ p :: l2 ->
  free_frame fl f <-> free_frame (<[k := l1 ++ l2]> fl) f \/ in_block p k f.
Proof.
  intros Hk E. split.
  - intros (j & q & Hj & Hq & Hf). destruct (decide (j = k)) as [->|Hne].
    + rewrite E in Hq. destruct (decide (q = p)) as [->|]; [by right|].
      left. exists k, q. fn_cases. set_solver.
    + left. exists j, q. fn_cases. done.
  - intros [(j & q & Hj & Hq & Hf)|Hf].
    + exists j, q. split_and!; [lia..| |done]. revert Hq. fn_cases; rewrite ?E; set_solver.
    + exists k, p. rewrite E. split_and!; [lia..| |done]. set_solver.
Qed.

(** A block is its two halves. *)
Lemma in_block_halves p k f :
  0 <= k -> in_block p (k + 1) f <-> in_block p k f \/ in_block (p + 2 ^ k) k f.
Proof. intros. unfold in_block. rewrite pow2_succ by done. lia. Qed.

(** The mass of the lists after a push and after a removal. *)
Lemma mass_cons fl k p :
  0 <= k < MAX_ORDER -> mass (<[k := p :: fl k]> fl) = mass fl + 2 ^ k.
Proof. intros. rewrite mass_update by done. unfold lenz. cbn [length]. lia. Qed.

Lemma mass_delete fl k l1 p l2 :
  0 <= k < MAX_ORDER -> fl k = l1 ++ p :: l2 ->
  mass (<[k := l1 ++ l2]> fl) = mass fl - 2 ^ k.
Proof.
  intros Hk E. rewrite mass_update, E by done. unfold lenz. rewrite !length_app. cbn [length]. lia.
Qed.

(* ------------------------------------------------------------------------- *)
(** ** Descriptor updates *)

Section steps.
Context {P : Profile}.
Implicit Types (a : BuddyAllocator) (fl : Z -> list Z) (hd : Z -> option Z).

Lemma mark_tail_ok q : exists q', PageInfo_mark_tail q = Ok q' /\ pi_state q' = Tail.
Proof. by eexists. Qed.
Lemma mark_free_ok q o :
  exists q', PageInfo_mark_free q o = Ok q' /\ pi_state q' = Free /\ pi_order q' = o.
Proof. by eexists. Qed.
Lemma mark_allocated_ok q o :
  exists q', PageInfo_mark_allocated q o = Ok q' /\ pi_state q' = Allocated /\ pi_order q' = o.
Proof. by eexists. Qed.

(** Re-describing a frame outside every list changes that frame only. *)
Lemma set_descriptor a fl hd cur p o x g (Q : PageInfo -> Prop) :
  inv a fl hd cur -> block_ok (nr_frames a) p o -> in_block p o x ->
  (forall k, 0 <= k < MAX_ORDER -> x ∉ fl k) ->
  (forall q, exists q', g q = Ok q' /\ Q q') ->
  exists a' q', page_mut a x g = Ok a' /\ lists a' fl /\ same_shape a a' /\ Q q' /\
    meta a' x = Some (pi_state q', pi_order q') /\ forall y, y <> x -> meta a' y = meta a y.
Proof.
  intros I Hb Hx Hl Hg. destruct (inv_descriptor I _ _ _ Hb Hx) as (q & Hq & _).
  destruct (Hg q) as (q' & Hgq & HQ).
  destruct (page_mut_lists a fl x q g q' (inv_lists _ _ _ _ I) Hl Hq Hgq) as (a' & ? & ? & ? & Hm).
  exists a', q'. split_and!; [done..| |].
  - rewrite Hm. by rewrite fn_lookup_insert.
  - intros y Hy. rewrite Hm. by rewrite fn_lookup_insert_ne.
Qed.

Lemma inv_nr_shape a a' fl hd cur :
  inv a fl hd cur -> same_shape a a' ->
  0 <= nr_frames a' <= RAW_NONE /\ nr_frames a' <= lenz (pages a').
Proof. intros I []. pose proof (inv_nr _ _ _ _ I). lia. Qed.

(* ----------------------------------------------------------------------- *)
(** ** Taking a block off its list *)

Lemma inv_unlink a fl hd k l1 p l2 :
  inv a fl hd None -> 0 <= k < MAX_ORDER -> fl k = l1 ++ p :: l2 ->
  exists a', unlink a k p = Ok a' /\ inv a' (<[k := l1 ++ l2]> fl) hd (Some p) /\
    same_meta a a'.
Proof.
  intros I Hk E.
  destruct (unlink_lists a fl k l1 p l2 (inv_lists _ _ _ _ I) Hk E) as (a' & Hu & HL & Hsm).
  exists a'. split_and!; [done| |done].
  assert (p ∈ fl k) as Hp by (rewrite E; set_solver).
  pose proof (inv_NoDup I k Hk) as Hnd. rewrite E in Hnd.
  apply list.NoDup_app in Hnd as (_ & Hnd1 & Hnd2%list.NoDup_cons).
  constructor.
  - done.
  - rewrite (sm_nr _ _ Hsm). apply I.
  - eapply inv_nr_shape; eauto with buddy.
  - intros q Hq. rewrite (sm_meta _ _ Hsm). by apply I.
  - intros q j Hq. rewrite (sm_meta _ _ Hsm). intros Hm.
    pose proof (inv_free _ _ _ _ I q j ltac:(done) Hm) as Hin. fn_cases; [|done].
    rewrite E in Hin. assert (q <> p) by congruence. set_solver.
  - intros j q Hj Hq [= ->]. revert Hq. fn_cases; [set_solver|]. intros Hq.
    by destruct (lists_disjoint a fl j k p (inv_lists _ _ _ _ I) Hj Hk Hq Hp).
Qed.

Lemma inv_pop a fl hd k p l :
  inv a fl hd None -> 0 <= k < MAX_ORDER -> fl k = p :: l ->
  exists a', pop_front a k = Ok (Some p, a') /\ inv a' (<[k := l]> fl) hd (Some p) /\
    same_meta a a'.
Proof.
  intros I Hk E. destruct (inv_unlink a fl hd k [] p l I Hk E) as (a' & Hu & ?).
  pose proof (inv_lists _ _ _ _ I k Hk) as (Hfa & _). rewrite E in Hfa.
  exists a'. unfold pop_front. rewrite (idx_ok _ _ _ Hfa). cbn. by rewrite Hu.
Qed.

(** A free block that is about to be merged comes off while another is current. *)
Lemma inv_unlink_other a fl hd c k l1 p l2 :
  inv a fl hd (Some c) -> 0 <= k < MAX_ORDER -> fl k = l1 ++ p :: l2 ->
  exists a', unlink a k p = Ok a' /\ lists a' (<[k := l1 ++ l2]> fl) /\ same_meta a a' /\
    (forall j, 0 <= j < MAX_ORDER -> p ∉ (<[k := l1 ++ l2]> fl) j) /\
    (forall j, 0 <= j < MAX_ORDER -> c ∉ (<[k := l1 ++ l2]> fl) j) /\
    (forall q j, q <> c -> q <> p -> meta a q = Some (Free, j) -> q ∈ (<[k := l1 ++ l2]> fl) j).
Proof.
  intros I Hk E.
  destruct (unlink_lists a fl k l1 p l2 (inv_lists _ _ _ _ I) Hk E) as (a' & Hu & HL & Hsm).
  assert (p ∈ fl k) as Hp by (rewrite E; set_solver).
  pose proof (inv_NoDup I k Hk) as Hnd. rewrite E in Hnd.
  apply list.NoDup_app in Hnd as (_ & Hnd1 & Hnd2%list.NoDup_cons).
  pose proof (inv_cur_not_member I c eq_refl) as Hc.
  exists a'. split_and!; [done..| | |].
  - intros j Hj. fn_cases; [set_solver|]. intros Hq.
    by destruct (lists_disjoint a fl j k p (inv_lists _ _ _ _ I) Hj Hk Hq Hp).
  - intros j Hj. specialize (Hc j Hj). fn_cases; [|done]. rewrite E in Hc. set_solver.
  - intros q j Hqc Hqp Hm. pose proof (inv_free _ _ _ _ I q j ltac:(congruence) Hm) as Hin.
    fn_cases; [|done]. rewrite E in Hin. set_solver.
Qed.

(* ----------------------------------------------------------------------- *)
(** ** Putting a block on its list *)

(** Marking a block free and pushing it; [b] is a head of no list. *)
Lemma inv_mark_push a fl hd hd' cur cur' p k :
  inv a fl hd cur -> block_ok (nr_frames a) p k ->
  (forall j, 0 <= j < MAX_ORDER -> p ∉ fl j) ->
  geometry (nr_frames a) hd' -> hd' p = Some k -> cur' <> Some p ->
  (forall q, q <> p -> Some q <> cur' -> Some q <> cur /\ hd' q = hd q) ->
  (forall c, cur' = Some c -> forall j, 0 <= j < MAX_ORDER -> c ∉ fl j) ->
  exists a' a'', page_mut a p (fun q => PageInfo_mark_free q k) = Ok a' /\
    push_front a' k p = Ok a'' /\ inv a'' (<[k := p :: fl k]> fl) hd' cur' /\
    same_shape a a'' /\ meta a'' p = Some (Free, k) /\
    (forall x, x <> p -> meta a'' x = meta a x).
Proof.
  intros I Hb Hl G Hp Hcp Hhd Hcl. pose proof Hb as (Hk & _).
  assert (in_block p k p) as Hin by (unfold in_block; lia).
  destruct (set_descriptor a fl hd cur p k p _ _ I Hb Hin Hl (fun q => mark_free_ok q k))
    as (a1 & q1 & E1 & HL1 & Hs1 & [Hst Hor] & Hm1 & Hx1).
  rewrite Hst, Hor in Hm1. destruct (inv_descriptor I _ _ _ Hb Hin) as (? & _ & Hraw & _).
  destruct (push_lists a1 fl k p HL1 Hk Hm1 Hraw (Hl k Hk)) as (a2 & E2 & HL2 & Hsm2).
  assert (same_shape a a2) as Hss by eauto with buddy.
  assert (forall x, x <> p -> meta a2 x = meta a x) as Hx.
  { intros y ?. rewrite (sm_meta _ _ Hsm2). auto. }
  assert (meta a2 p = Some (Free, k)) as Hmp by by rewrite (sm_meta _ _ Hsm2).
  exists a1, a2. split_and!; [done..| |done|done|done]. constructor; [done|..].
  - by rewrite (ss_nr _ _ Hss).
  - by eapply inv_nr_shape.
  - intros q Hq. destruct (decide (q = p)) as [->|Hne]; [by rewrite Hmp|].
    destruct (Hhd q Hne Hq) as [Hq' ->]. rewrite Hx by done. by apply I.
  - intros q j Hq Hm. destruct (decide (q = p)) as [->|Hne].
    + assert (j = k) as -> by congruence. rewrite fn_lookup_insert. set_solver.
    + rewrite Hx in Hm by done. destruct (Hhd q Hne Hq) as [Hq' _].
      pose proof (inv_free _ _ _ _ I q j Hq' Hm). fn_cases; set_solver.
  - intros j q Hj Hq <-. specialize (Hcl q eq_refl). revert Hq. fn_cases; [|by apply Hcl].
    intros [->|Hq]%elem_of_cons; [done|]. by eapply Hcl.
Qed.

(** The block in hand goes back on the list of its order. *)
Lemma inv_put_back a fl hd p k :
  inv a fl hd (Some p) -> hd p = Some k ->
  exists a' a'', page_mut a p (fun q => PageInfo_mark_free q k) = Ok a' /\
    push_front a' k p = Ok a'' /\ inv a'' (<[k := p :: fl k]> fl) hd None /\
    same_shape a a'' /\ meta a'' p = Some (Free, k) /\
    (forall x, x <> p -> meta a'' x = meta a x).
Proof.
  intros I Hp. eapply inv_mark_push; [done|by eapply inv_block|by apply (inv_cur_not_member I)|
    apply I|done|done|by intros; split; [congruence|]|done].
Qed.

(** One turn of the split loop of [alloc]. *)
Lemma inv_split a fl hd b k :
  inv a fl hd (Some b) -> 0 <= k -> hd b = Some (k + 1) ->
  exists a', alloc_split_step b (k + 1, a) = Ok (k, a') /\
    inv a' (<[k := (b + 2 ^ k) :: fl k]> fl) (<[b + 2 ^ k := Some k]> (<[b := Some k]> hd)) (Some b) /\
    same_shape a a' /\ meta a' (b + 2 ^ k) = Some (Free, k) /\
    (forall x, x <> b + 2 ^ k -> meta a' x = meta a x).
Proof.
  intros I Hk Hb. destruct (inv_nr _ _ _ _ I) as [Hnr _].
  destruct (geometry_split _ _ _ _ (inv_geo _ _ _ _ I) Hk Hb) as (Hnone & G & Hbo).
  pose proof Hbo as (Hko & Hb0 & _ & Hbn). unfold MAX_ORDER, RAW_NONE in *.
  pose proof (pow2_pos k Hk) as Hpos.
  pose proof (inv_block I _ _ Hb) as (_ & Hbp & _).
  unfold alloc_split_step. rewrite usub_ok by lia. cbn [obind].
  replace (k + 1 - 1) with k by lia. rewrite ushl_one_ok by lia. cbn [obind].
  rewrite uadd_ok by lia. cbn [obind]. rewrite as_u8_small by lia.
  destruct (inv_mark_push a fl hd _ (Some b) (Some b) _ k I Hbo (inv_not_head I _ Hnone) G)
    as (a1 & a2 & -> & E2 & ?).
  - by rewrite fn_lookup_insert.
  - intros [=]. lia.
  - intros q Hq Hqb. split; [done|]. fn_cases; done.
  - intros c [= <-]. by apply (inv_cur_not_member I).
  - cbn [obind]. rewrite E2. cbn [obind]. by exists a2.
Qed.

(** The block in hand is handed out. *)
Lemma inv_hand_out a fl hd b o :
  inv a fl hd (Some b) -> hd b = Some o ->
  exists a', page_mut a b (fun q => PageInfo_mark_allocated q o) = Ok a' /\
    inv a' fl hd None /\ same_shape a a' /\ meta a' b = Some (Allocated, o) /\
    (forall x, x <> b -> meta a' x = meta a x).
Proof.
  intros I Hb. pose proof (inv_block I _ _ Hb) as Hbo. pose proof Hbo as (Ho & _).
  pose proof (inv_cur_not_member I b eq_refl) as Hl.
  assert (in_block b o b) as Hin by (unfold in_block; lia).
  destruct (set_descriptor a fl hd _ b o b _ _ I Hbo Hin Hl (fun q => mark_allocated_ok q o))
    as (a1 & q1 & E1 & HL1 & Hs1 & [Hst Hor] & Hm1 & Hx1).
  rewrite Hst, Hor in Hm1. exists a1. split_and!; [done| |done..]. constructor; [done|..].
  - rewrite (ss_nr _ _ Hs1). apply I.
  - by eapply inv_nr_shape.
  - intros q _. destruct (decide (q = b)) as [->|]; [by rewrite Hm1|].
    rewrite Hx1 by done. apply I. congruence.
  - intros q k _ Hm. destruct (decide (q = b)) as [->|]; [congruence|].
    rewrite Hx1 in Hm by done. eapply (inv_free _ _ _ _ I); [congruence|done].
  - done.
Qed.

(* ----------------------------------------------------------------------- *)
(** ** Taking a block back *)

(** The frames of block [p] of order [o] belong to no head but possibly [p]. *)
Definition block_apart (hd : Z -> option Z) (p o : Z) : Prop :=
  forall q o', q <> p -> hd q = Some o' -> q + 2 ^ o' <= p \/ p + 2 ^ o <= q.

Lemma inv_take_back a fl hd p o :
  inv a fl hd None -> block_ok (nr_frames a) p o -> block_apart hd p o ->
  (forall j, 0 <= j < MAX_ORDER -> p ∉ fl j) ->
  inv a fl (<[p := Some o]> hd) (Some p).
Proof.
  intros I Hb Hd Hl. constructor.
  - apply I.
  - apply geometry_insert; [apply I|done..].
  - apply I.
  - intros q Hq. rewrite fn_lookup_insert_ne by congruence. by apply I.
  - intros q k _. by apply (inv_free _ _ _ _ I).
  - intros k q Hk Hq [= ->]. by eapply Hl.
Qed.

(* ----------------------------------------------------------------------- *)
(** ** Coalescing *)

(** The block [c] of order [k] has a free buddy it merges with. *)
Definition mergeable a (c k : Z) : Prop :=
  k + 1 < MAX_ORDER /\ Z.lxor c (2 ^ k) < nr_frames a /\
  meta a (Z.lxor c (2 ^ k)) = Some (Free, k).

(** What the loop tests, spelled out. *)
Lemma merge_test_ok a fl hd c k :
  inv a fl hd (Some c) -> hd c = Some k -> k < MAX_ORDER - 1 ->
  let b := Z.lxor c (2 ^ k) in
  buddy_pfn a c k = Ok (if nr_frames a <=? b then None else Some b) /\
  (b < nr_frames a -> exists q, getz (pages a) b = Some q /\
    (if PageInfo_is_free q then
       let! p := page a b in let! o := PageInfo_get_order p in Ok (o =? k)
     else Ok false) = Ok (bool_decide (meta a b = Some (Free, k)))).
Proof.
  intros I Hc Hk b. destruct (inv_nr _ _ _ _ I) as [Hnr Hlen].
  pose proof (inv_block I _ _ Hc) as (Hk0 & Hc0 & Hal & Hcn). unfold MAX_ORDER, RAW_NONE in *.
  pose proof (pow2_pos k ltac:(lia)) as Hpos.
  pose proof (buddy_xor_bounds c k ltac:(lia) ltac:(lia) Hal) as Hb. fold b in Hb. split.
  - unfold buddy_pfn. rewrite debug_assert_true by (apply Z.ltb_lt; unfold MAX_ORDER; lia).
    cbn [obind]. rewrite ushl_one_ok by lia. cbn [obind]. fold b. by destruct (_ <=? _).
  - intros Hbn. destruct (getz_is_Some (pages a) b) as [q Hq]; [lia|]. exists q.
    split; [done|]. rewrite (page_ok _ _ _ Hq). cbn [obind]. rewrite (meta_getz _ _ _ Hq).
    unfold PageInfo_is_free. case_bool_decide as Hf.
    + unfold PageInfo_get_order, PageInfo_is_head. rewrite Hf, debug_assert_true by done.
      cbn [obind]. f_equal. case_bool_decide as Ho; destruct (Z.eqb_spec (pi_order q) k); congruence.
    + rewrite bool_decide_false; [done|]. congruence.
Qed.

Lemma inv_merge_stop a fl hd c k :
  inv a fl hd (Some c) -> hd c = Some k -> ~ mergeable a c k ->
  free_merge_step ((c, k), a) = Ok (inr ((c, k), a)).
Proof.
  intros I Hc Hm. cbn [free_merge_step]. destruct (Z.ltb_spec k (MAX_ORDER - 1)) as [Hk|]; [|done].
  destruct (merge_test_ok a fl hd c k I Hc Hk) as [-> Ht]. cbn [obind].
  destruct (Z.leb_spec (nr_frames a) (Z.lxor c (2 ^ k))); [done|].
  destruct (Ht ltac:(lia)) as (q & Hq & E). rewrite (page_ok _ _ _ Hq) in E |- *. cbn [obind] in E |- *.
  rewrite E. cbn [obind]. rewrite bool_decide_false; [done|].
  intros ?. apply Hm. split_and!; lia || done.
Qed.

Definition merge_heads hd (c k : Z) : Z -> option Z :=
  let b := Z.lxor c (2 ^ k) in
  <[Z.min c b := Some (k + 1)]> (<[Z.max c b := None]> hd).

(** One turn of the coalescing loop. *)
Lemma inv_merge_go a fl hd c k :
  inv a fl hd (Some c) -> hd c = Some k -> mergeable a c k ->
  let b := Z.lxor c (2 ^ k) in
  exists a' l1 l2, free_merge_step ((c, k), a) = Ok (inl ((Z.min c b, k + 1), a')) /\
    fl k = l1 ++ b :: l2 /\
    inv a' (<[k := l1 ++ l2]> fl) (merge_heads hd c k) (Some (Z.min c b)) /\
    same_shape a a' /\ head_of (meta a' (Z.max c b)) = None /\
    (forall x, x <> Z.max c b -> meta a' x = meta a x).
Proof.
  intros I Hc (Hk & Hbn & Hmb) b. fold b in Hbn, Hmb.
  pose proof (inv_block I _ _ Hc) as Hbc. pose proof Hbc as (Hk0 & Hc0 & _).
  assert (c <> b) as Hne by (apply buddy_ne; lia || apply Hbc).
  assert (hd b = Some k) as Hb by (rewrite (inv_hd _ _ _ _ I) by congruence; by rewrite Hmb).
  pose proof (inv_free _ _ _ _ I b k ltac:(congruence) Hmb) as Hin.
  apply list_elem_of_split in Hin as (l1 & l2 & E).
  destruct (inv_unlink_other a fl hd c k l1 b l2 I Hk0 E) as (a1 & Hu & HL1 & Hsm & Hbl & Hcl & Hfr).
  destruct (geometry_merge _ hd c k (inv_geo _ _ _ _ I) Hk Hc Hb) as (_ & Hmax & G).
  fold b in Hmax, G. cbn [free_merge_step]. destruct (Z.ltb_spec k (MAX_ORDER - 1)); [|lia].
  destruct (merge_test_ok a fl hd c k I Hc ltac:(lia)) as [-> Ht]. cbn [obind]. fold b in Ht |- *.
  destruct (Z.leb_spec (nr_frames a) b); [lia|].
  destruct (Ht ltac:(lia)) as (q & Hq & E'). rewrite (page_ok _ _ _ Hq) in E' |- *. cbn [obind] in E' |- *.
  rewrite E'. cbn [obind]. rewrite bool_decide_true by done. cbn [negb]. rewrite Hu. cbn [obind].
  replace (if c <? b then (c, b) else (b, c)) with (Z.min c b, Z.max c b)
    by (destruct (Z.ltb_spec c b); f_equal; lia).
  (* mark the upper half *)
  assert (exists q, getz (pages a1) (Z.max c b) = Some q) as [qt Hqt].
  { apply getz_is_Some. rewrite (sm_len _ _ Hsm). destruct (inv_nr _ _ _ _ I).
    pose proof (inv_block I _ _ Hb) as (_ & ? & _ & ?). pose proof Hbc as (_ & _ & _ & ?).
    pose proof (pow2_pos k ltac:(lia)). lia. }
  destruct (mark_tail_ok qt) as (qt' & Eqt & Hst).
  destruct (page_mut_lists a1 _ (Z.max c b) qt PageInfo_mark_tail qt' HL1) as (a2 & -> & HL2 & Hs2 & Hm2);
    [by intros; destruct (Z.max_spec c b) as [[_ ->]|[_ ->]]; auto|done..|].
  cbn [obind]. unfold uadd. rewrite arith_ok by (unfold MAX_ORDER in *; lia). cbn [obind].
  assert (same_shape a a2) as Hss by eauto with buddy.
  assert (head_of (meta a2 (Z.max c b)) = None) as Htl by by rewrite Hm2, fn_lookup_insert, Hst.
  assert (forall x, x <> Z.max c b -> meta a2 x = meta a x) as Hx.
  { intros x ?. rewrite Hm2, fn_lookup_insert_ne by done. apply Hsm. }
  exists a2, l1, l2. split_and!; [done..| |done|done|done]. constructor; [done|..].
  - by rewrite (ss_nr _ _ Hss).
  - by eapply inv_nr_shape.
  - intros y Hy. unfold merge_heads. fold b. assert (y <> Z.min c b) by congruence.
    rewrite fn_lookup_insert_ne by done.
    destruct (decide (y = Z.max c b)) as [->|Hyn]; [by rewrite fn_lookup_insert|].
    rewrite fn_lookup_insert_ne, Hx by done. apply I. intros [= ->]. destruct (Z.lt_total c b) as [?|[?|?]]; lia.
  - intros y j Hy Hm. destruct (decide (y = Z.max c b)) as [->|Hyn].
    + rewrite Hm in Htl. done.
    + rewrite Hx in Hm by done. apply Hfr; [..|done]; intros ->;
        destruct (Z.lt_total c b) as [?|[?|?]];
        first [lia | apply Hyn; lia | apply Hy; f_equal; lia].
  - intros j y Hj Hy [= ->]. destruct (Z.min_spec c b) as [[_ Em]|[_ Em]]; rewrite Em in Hy;
      [by eapply Hcl|by eapply Hbl].
Qed.
End steps.
