(* ===== verification/BuddyCore.v ===== *)
(** * Buddy allocator: allocation and release over the invariant

    The observations a client makes of an allocator ([free_in], [allocated],
    [coalesced]), the loop invariants of [alloc] and [free], and the two
    operations' full specifications, from which the properties follow. *)

From S2P Require Import Prelude FrameTypes Layout Buddy BuddyInv BuddyGeom BuddyWf BuddySteps.

(* ------------------------------------------------------------------------- *)
(** ** Observations *)

(** Frame [f] lies in a free block. *)
Definition free_in (a : BuddyAllocator) (f : Z) : Prop :=
  exists p k, meta a p = Some (Free, k) /\ in_block p k f.

(** The order of the allocated block headed by [p]. *)
Definition allocated (a : BuddyAllocator) (p : Z) : option Z :=
  match meta a p with Some (Allocated, o) => Some o | _ => None end.

(** [p] heads a free block of order [k] other than the one in hand. *)
Definition free_at (a : BuddyAllocator) (cur : option Z) (p k : Z) : Prop :=
  meta a p = Some (Free, k) /\ Some p <> cur.

Definition coalesced_but (a : BuddyAllocator) (cur : option Z) : Prop :=
  forall p k, k + 1 < MAX_ORDER -> free_at a cur p k -> ~ free_at a cur (Z.lxor p (2 ^ k)) k.

(** No two buddies are free at once: every free block is as large as it can be. *)
Definition coalesced (a : BuddyAllocator) : Prop :=
  forall p k, k + 1 < MAX_ORDER -> meta a p = Some (Free, k) ->
    meta a (Z.lxor p (2 ^ k)) <> Some (Free, k).

Lemma coalesced_None a : coalesced_but a None <-> coalesced a.
Proof.
  unfold coalesced_but, coalesced, free_at. split.
  - intros H p k Hk Hp Hb. apply (H p k Hk); by split.
  - intros H p k Hk [Hp _] [Hb _]. exact (H p k Hk Hp Hb).
Qed.

Lemma free_in_frame a fl hd f : inv a fl hd None -> free_in a f <-> free_frame fl f.
Proof.
  intros I. split.
  - intros (p & k & Hm & Hf). exists k, p. pose proof (inv_free _ _ _ _ I p k ltac:(done) Hm).
    split; [|done]. assert (hd p = Some k) as Hp.
    { rewrite (inv_hd _ _ _ _ I) by done. by rewrite Hm. }
    by destruct (inv_block I _ _ Hp).
  - intros (k & p & Hk & Hp & Hf). exists p, k. split; [|done]. by apply (inv_member I k p).
Qed.

Lemma allocated_None a p m : meta a p = m -> head_of m = None -> allocated a p = None.
Proof. unfold allocated. intros ->. by destruct m as [[[] ?]|]. Qed.
Lemma allocated_free a p k : meta a p = Some (Free, k) -> allocated a p = None.
Proof. unfold allocated. by intros ->. Qed.
Lemma allocated_heads a p o : allocated a p = Some o -> heads a p = Some o.
Proof. unfold allocated, heads, head_of. by destruct (meta a p) as [[[] ?]|]. Qed.
Lemma allocated_eq a a' p : meta a' p = meta a p -> allocated a' p = allocated a p.
Proof. unfold allocated. by intros ->. Qed.

(** Heads given by the descriptors once nothing is in hand. *)
Lemma inv_heads a fl hd : inv a fl hd None -> inv a fl (heads a) None.
Proof.
  intros I. eapply inv_ext; [|exact I]. intros p. symmetry. by apply (inv_hd _ _ _ _ I).
Qed.

Section core.
Context {P : Profile}.
Implicit Types (a : BuddyAllocator) (fl : Z -> list Z) (hd : Z -> option Z).

(* ----------------------------------------------------------------------- *)
(** ** Finding a list *)

Lemma find_order_ok a fl ks :
  lists a fl -> (forall k, k ∈ ks -> 0 <= k < MAX_ORDER) ->
  (exists k p l, find_order a ks = Ok (Some k) /\ k ∈ ks /\ fl k = p :: l) \/
  (find_order a ks = Ok None /\ forall k, k ∈ ks -> fl k = []).
Proof.
  intros HL. induction ks as [|k ks IH]; intros Hks; cbn [find_order].
  - right. split; [done|]. set_solver.
  - destruct (HL k) as (Hfa & _); [apply Hks; set_solver|].
    rewrite (idx_ok _ _ _ Hfa). cbn [obind]. destruct (fl k) as [|p l] eqn:E; cbn [hd_or].
    + destruct IH as [(j & p & l & -> & ? & ?)|[-> Hn]]; [set_solver|left|right].
      * exists j, p, l. split_and!; [done|set_solver|done].
      * split; [done|]. intros j [->|?]%elem_of_cons; auto.
    + left. exists k, p, l. split_and!; [done|set_solver|done].
Qed.

(* ----------------------------------------------------------------------- *)
(** ** The split loop *)

(** Invariant of the split loop on block [b], popped with order [k0] from the
    lists [fl0] of [a0]. *)
Record splitting (a0 : BuddyAllocator) fl0 (b k0 o : Z) (s : Z * BuddyAllocator) : Prop := {
  sp_order : 0 <= o <= s.1 /\ s.1 <= k0;
  sp_shape : same_shape a0 s.2;
  sp_alloc : forall x, x <> b -> allocated s.2 x = allocated a0 x;
  sp_co : coalesced_but a0 (Some b) -> coalesced_but s.2 (Some b);
  sp_inv : exists fl hd, inv s.2 fl hd (Some b) /\ hd b = Some s.1 /\
    mass fl + 2 ^ s.1 = mass fl0 + 2 ^ k0 /\
    forall f, free_frame fl f \/ in_block b s.1 f <-> free_frame fl0 f \/ in_block b k0 f;
}.

Lemma split_turn a0 fl0 b k0 o s :
  splitting a0 fl0 b k0 o s -> o < s.1 ->
  exists s', alloc_split_step b s = Ok s' /\ splitting a0 fl0 b k0 o s' /\ s'.1 = s.1 - 1.
Proof.
  destruct s as [k a]. intros [[Ho1 Ho2] Hsh Hal Hco (fl & hd & I & Hb & Hm & Hf)] Hlt.
  cbn [fst snd] in *.
  assert (0 <= k - 1) as Hk by lia. replace k with (k - 1 + 1) in Hb by lia.
  destruct (inv_split a fl hd b (k - 1) I Hk Hb) as (a' & E & I' & Hs & Hmu & Hx).
  pose proof (inv_block I _ _ Hb) as (Hko & Hb0 & Hdiv & _). pose proof (pow2_pos (k - 1) Hk) as Hpos.
  destruct (geometry_split _ _ _ _ (inv_geo _ _ _ _ I) Hk Hb) as (Hnone & _).
  replace (k - 1 + 1) with k in E by lia. exists (k - 1, a'). split_and!; [done| |done].
  assert (0 <= k - 1 < MAX_ORDER) as Hkr by lia.
  constructor; cbn [fst snd].
  - lia.
  - eauto with buddy.
  - intros x Hxb. destruct (decide (x = b + 2 ^ (k - 1))) as [->|Hne].
    + rewrite (allocated_free _ _ _ Hmu). rewrite <- Hal by done. symmetry.
      eapply allocated_None; [done|]. rewrite <- (inv_hd _ _ _ _ I) by congruence. done.
    + rewrite <- Hal by done. by apply allocated_eq, Hx.
  - intros Hc0 p j Hj [Hp Hpb] [Hq Hqb]. specialize (Hco Hc0).
    assert (Z.lxor (b + 2 ^ (k - 1)) (2 ^ (k - 1)) = b) as Hbuddy.
    { destruct (buddy_xor b (k - 1) Hk Hb0) as (m & _ & [[_ H]|[H _]]).
      - eapply Z.divide_trans; [|exact Hdiv]. rewrite pow2_succ by done. apply Z.divide_factor_r.
      - rewrite <- H. apply buddy_xor_involutive; lia.
      - exfalso. rewrite pow2_succ in Hdiv, H by done. destruct Hdiv as [n Hn].
        assert ((2 * (n - m) - 1) * 2 ^ (k - 1) = 0) as [?|?]%Z.mul_eq_0 by lia; lia. }
    destruct (decide (p = b + 2 ^ (k - 1))) as [->|Hpn].
    + assert (j = k - 1) as -> by congruence. by rewrite Hbuddy in Hqb.
    + destruct (decide (Z.lxor p (2 ^ j) = b + 2 ^ (k - 1))) as [Heq|Hqn].
      * assert (j = k - 1) as -> by congruence. apply Hpb. f_equal.
        rewrite <- Hbuddy, <- Heq. rewrite Z.lxor_assoc, Z.lxor_nilpotent. by rewrite Z.lxor_0_r.
      * apply (Hco p j Hj); split; try done; by rewrite <- Hx.
  - eexists _, _. split_and!; [exact I'| | |].
    + rewrite fn_lookup_insert_ne by lia. by rewrite fn_lookup_insert.
    + rewrite mass_cons by done. rewrite <- Hm. pose proof (pow2_succ (k - 1) Hk) as Hp2.
      replace (k - 1 + 1) with k in Hp2 by lia. lia.
    + intros f. rewrite <- Hf, free_frame_cons by done.
      pose proof (in_block_halves b (k - 1) f Hk) as Hh. replace (k - 1 + 1) with k in Hh by lia.
      tauto.
Qed.

Lemma split_loop a0 fl0 b k0 o s fuel :
  splitting a0 fl0 b k0 o s -> k0 <= Z.of_nat fuel ->
  exists a', while fuel (fun s => o <? s.1) (alloc_split_step b) s = Ok (o, a') /\
    splitting a0 fl0 b k0 o (o, a').
Proof.
  intros Hs Hf.
  destruct (while_rule (splitting a0 fl0 b k0 o) fst (fun s => o <? s.1) (alloc_split_step b))
    with (fuel := fuel) (s := s) as ([k a'] & E & Hs' & Hc); [|done|destruct Hs; lia|].
  - intros s1 H1 Hlt%Z.ltb_lt. destruct (split_turn _ _ _ _ _ _ H1 Hlt) as (s2 & ? & H2 & Hk).
    exists s2. split_and!; [done..| |lia]. destruct H2; lia.
  - apply Z.ltb_ge in Hc. pose proof (sp_order _ _ _ _ _ _ Hs') as Ho. cbn [fst] in *.
    assert (k = o) as -> by lia. eauto.
Qed.

(* ----------------------------------------------------------------------- *)
(** ** [alloc] *)

(** What handing out block [p] of order [o] does. *)
Record handed_out (a a' : BuddyAllocator) (p o : Z) : Prop := {
  ho_wf : wf a';
  ho_block : block_ok (nr_frames a) p o;
  ho_free : forall f, in_block p o f -> free_in a f;
  ho_rest : forall f, free_in a' f <-> free_in a f /\ ~ in_block p o f;
  ho_alloc : forall x, allocated a' x = (<[p := Some o]> (allocated a)) x;
  ho_fresh : allocated a p = None;
  ho_count : free_frames a' = free_frames a - 2 ^ o;
  ho_base : dram_base a' = dram_base a;
  ho_nr : nr_frames a' = nr_frames a;
  ho_len : lenz (pages a') = lenz (pages a);
  ho_co : coalesced a -> coalesced a';
}.

Lemma order_candidates o k : 0 <= o -> k ∈ seqZ o (MAX_ORDER - o) <-> o <= k < MAX_ORDER.
Proof. intros. rewrite elem_of_seqZ. unfold MAX_ORDER. lia. Qed.

Lemma wf_with_free_frames a fl : wf_with a fl -> 0 <= free_frames a <= nr_frames a.
Proof.
  intros [I ->]. pose proof (inv_mass_le I). pose proof (mass_nonneg fl). lia.
Qed.

Lemma alloc_none a fl o :
  wf_with a fl -> 0 <= o -> (forall k, o <= k < MAX_ORDER -> fl k = []) ->
  BuddyAllocator_alloc a o = Ok (None, a).
Proof.
  intros [I _] Ho Hn. unfold BuddyAllocator_alloc.
  destruct (find_order_ok a fl (seqZ o (MAX_ORDER - o)) (inv_lists _ _ _ _ I))
    as [(k & p & l & _ & Hk & E)|[-> _]]; [| |done].
  - intros k Hk%order_candidates; lia.
  - apply order_candidates in Hk; [|done]. by rewrite Hn in E.
Qed.

(** Block [p] of order [o] taken from the free lists [fl] of [a], in hand in [a2]. *)
Record cut_out (a a2 : BuddyAllocator) (fl : Z -> list Z) (p o : Z) : Prop := {
  cu_shape : same_shape a a2;
  cu_block : block_ok (nr_frames a) p o;
  cu_alloc : forall x, x <> p -> allocated a2 x = allocated a x;
  cu_fresh : allocated a p = None;
  cu_co : coalesced a -> coalesced_but a2 (Some p);
  cu_inv : exists fl2 hd2, inv a2 fl2 hd2 (Some p) /\ hd2 p = Some o /\ mass fl2 + 2 ^ o = mass fl /\
    (forall f, free_frame fl f <-> free_frame fl2 f \/ in_block p o f) /\
    (forall f, free_frame fl2 f -> ~ in_block p o f);
}.

(** Popping a block and splitting it down cuts one out. *)
Lemma cut_ok a fl o k p l :
  wf_with a fl -> 0 <= o <= k -> k < MAX_ORDER -> fl k = p :: l ->
  exists a1 a2, pop_front a k = Ok (Some p, a1) /\
    while (Z.to_nat MAX_ORDER) (fun s => o <? s.1) (alloc_split_step p) (k, a1) = Ok (o, a2) /\ cut_out a a2 fl p o.
Proof.
  intros [I _] Hok Hk E. destruct (inv_pop a fl _ k p l I ltac:(lia) E) as (a1 & E1 & I1 & Hsm).
  destruct (inv_member I k p ltac:(lia) ltac:(rewrite E; set_solver)) as (Hpk & Hmp & _ & _).
  assert (splitting a1 (<[k := l]> fl) p k o (k, a1)) as Hsp.
  { constructor; cbn [fst snd]; [lia|done..|]. eexists _, _. split_and!; [exact I1|done..]. }
  destruct (split_loop _ _ _ _ _ _ (Z.to_nat MAX_ORDER) Hsp ltac:(unfold MAX_ORDER in *; lia))
    as (a2 & E2 & [_ Hsh Hal Hco (fl2 & hd2 & I2 & Hb2 & Hm2 & Hf2)]). cbn [fst snd] in *.
  assert (same_shape a a2) as Hsa by eauto with buddy.
  exists a1, a2. split_and!; [done..|]. constructor.
  - done.
  - rewrite <- (ss_nr _ _ Hsa). by eapply inv_block.
  - intros x Hx. rewrite <- (allocated_eq a a1 x) by apply Hsm. by rewrite Hal.
  - by eapply allocated_free.
  - intros Hc. apply Hco. intros q i Hi [Hq _] [Hb _]. rewrite (sm_meta _ _ Hsm) in Hq, Hb. exact (Hc q i Hi Hq Hb).
  - exists fl2, hd2. split_and!; [done..| | |].
    + pose proof (mass_delete fl k [] p l ltac:(lia) E) as Hmd. cbn [app] in Hmd. lia.
    + intros f. rewrite Hf2. by apply (free_frame_delete fl k [] p l f); [lia|].
    + intros f (i & q & Hi & Hq & Hfq) Hfp. destruct (inv_member I2 i q Hi Hq) as (Hq2 & _ & Hqp & _). apply Hqp. f_equal.
      by eapply (blocks_share_frame _ _ (inv_geo _ _ _ _ I2)).
Qed.

(** Marking it and counting it off hands it out. *)
Lemma hand_out_ok a fl a2 p o :
  wf_with a fl -> cut_out a a2 fl p o -> 0 <= o ->
  2 ^ o <= free_frames a2 <= RAW_NONE /\
  exists a3, page_mut (with_free_frames a2 (free_frames a2 - 2 ^ o)) p (fun q => PageInfo_mark_allocated q o) = Ok a3 /\
    handed_out a a3 p o.
Proof.
  intros W [Hsa Hblk Hal Hfr Hco (fl2 & hd2 & I2 & Hb2 & Hm2 & Hff & Hdisj)] Ho. pose proof W as [I Hmf].
  pose proof (wf_with_free_frames a fl W) as Hmass. pose proof (mass_nonneg fl2) as Hm0.
  pose proof (inv_nr _ _ _ _ I) as [Hnr _]. pose proof (ss_ff _ _ Hsa) as Hffeq. split; [lia|].
  destruct (inv_hand_out _ fl2 hd2 p o (inv_free_frames _ _ _ _ (free_frames a2 - 2 ^ o) I2) Hb2)
    as (a3 & E & I3 & Hs3 & Hm3 & Hx3).
  exists a3. split; [done|]. constructor.
  - exists fl2. split; [by eapply inv_heads|]. rewrite (ss_ff _ _ Hs3). cbn. lia.
  - done.
  - intros f Hf. rewrite (free_in_frame _ _ _ f I), Hff. by right.
  - intros f. rewrite (free_in_frame _ _ _ f I), (free_in_frame _ _ _ f I3), Hff. pose proof (Hdisj f). tauto.
  - intros x. destruct (decide (x = p)) as [->|Hxp].
    + rewrite fn_lookup_insert. unfold allocated. by rewrite Hm3.
    + rewrite fn_lookup_insert_ne by done. rewrite <- Hal by done. by apply allocated_eq, Hx3.
  - done.
  - rewrite (ss_ff _ _ Hs3). cbn. lia.
  - rewrite (ss_base _ _ Hs3). apply Hsa.
  - rewrite (ss_nr _ _ Hs3). apply Hsa.
  - rewrite (ss_len _ _ Hs3). apply Hsa.
  - intros Hc q i Hi Hq Hbq. apply (Hco Hc) with q i; [done|..].
    + assert (q <> p) by congruence. split; [|congruence]. rewrite <- Hq. symmetry. by apply Hx3.
    + assert (Z.lxor q (2 ^ i) <> p) by congruence. split; [|congruence].
      rewrite <- Hbq. symmetry. by apply Hx3.
Qed.

(** A free block of a sufficient order is enough. *)
Lemma alloc_some a fl o j :
  wf_with a fl -> 0 <= o <= j -> j < MAX_ORDER -> fl j <> [] ->
  exists p a', BuddyAllocator_alloc a o = Ok (Some p, a') /\ handed_out a a' p o.
Proof.
  intros W Hoj Hj Hne. pose proof W as [I _]. unfold BuddyAllocator_alloc.
  destruct (find_order_ok a fl (seqZ o (MAX_ORDER - o)) (inv_lists _ _ _ _ I))
    as [(k & p & l & -> & Hk & E)|[_ Hn]].
  { intros k Hk%order_candidates; lia. }
  2: { destruct Hne. apply Hn, order_candidates; lia. }
  apply order_candidates in Hk; [|lia]. cbn [obind]. rewrite as_u8_small by (unfold MAX_ORDER in *; lia).
  destruct (cut_ok a fl o k p l W ltac:(lia) ltac:(lia) E) as (a1 & a2 & -> & E2 & C). cbn [obind unwrap].
  rewrite E2. cbn [obind]. destruct (hand_out_ok a fl a2 p o W C ltac:(lia)) as (Hff & a3 & E3 & H).
  rewrite ushl_one_ok by (unfold MAX_ORDER in *; lia). cbn [obind].
  unfold FrameCount_sub_assign. rewrite usub_ok by (unfold RAW_NONE in *; lia). cbn [obind].
  rewrite E3. by exists p, a3.
Qed.

Lemma alloc_cases a o :
  wf a -> 0 <= o < MAX_ORDER ->
  (exists p a', BuddyAllocator_alloc a o = Ok (Some p, a') /\ handed_out a a' p o) \/
  (BuddyAllocator_alloc a o = Ok (None, a) /\
   forall p k, meta a p = Some (Free, k) -> k < o).
Proof.
  intros (fl & W) Ho. pose proof W as [I _].
  destruct (find_order_ok a fl (seqZ o (MAX_ORDER - o)) (inv_lists _ _ _ _ I))
    as [(k & p & l & _ & Hk & E)|[_ Hn]].
  - intros k Hk%order_candidates; lia.
  - left. apply order_candidates in Hk; [|lia].
    apply (alloc_some a fl o k W); [lia..|]. by rewrite E.
  - right. split.
    + apply (alloc_none a fl o W); [lia|]. intros k Hk. apply Hn, order_candidates; lia.
    + intros p k Hm. destruct (Z.lt_ge_cases k o) as [|Hk]; [done|exfalso].
      assert (block_ok (nr_frames a) p k) as (Hk' & _) by (eapply (inv_block I); unfold heads; by rewrite Hm).
      pose proof (inv_free _ _ _ _ I p k ltac:(done) Hm) as Hin.
      rewrite Hn in Hin; [set_solver|]. apply order_candidates; lia.
Qed.
End core.
