(* ===== verification/BuddyFree.v ===== *)
(** * Buddy allocator: releasing blocks and ranges

    The coalescing loop of [free] with its invariant and the operation's full
    specification. *)

From S2P Require Import Prelude FrameTypes Layout Buddy BuddyInv BuddyGeom BuddyWf BuddySteps BuddyCore.

Section free.
Context {P : Profile}.
Implicit Types (a : BuddyAllocator) (fl : Z -> list Z) (hd : Z -> option Z).

(** Invariant of the coalescing loop releasing block [p] of order [o] into the
    lists [fl0] of [a0]; [c] of order [k] is the block grown so far. *)
Record merging (a0 : BuddyAllocator) fl0 (p o : Z) (s : (Z * Z) * BuddyAllocator) : Prop := {
  mg_order : 0 <= o <= s.1.2 /\ s.1.2 < MAX_ORDER;
  mg_shape : same_shape a0 s.2;
  mg_alloc : forall x, x <> s.1.1 -> allocated s.2 x = (<[p := None]> (allocated a0)) x;
  mg_cur : s.1.1 <> p -> allocated a0 s.1.1 = None;
  mg_co : coalesced_but a0 (Some p) -> coalesced_but s.2 (Some s.1.1);
  mg_inv : exists fl hd, inv s.2 fl hd (Some s.1.1) /\ hd s.1.1 = Some s.1.2 /\
    mass fl + 2 ^ s.1.2 = mass fl0 + 2 ^ o /\
    forall f, free_frame fl f \/ in_block s.1.1 s.1.2 f <-> free_frame fl0 f \/ in_block p o f;
}.

Lemma mergeable_dec a c k : Decision (mergeable a c k).
Proof. unfold mergeable. apply _. Defined.

(** The two buddies together are the block of the next order at the lower one. *)
Lemma in_block_buddies c k f :
  0 <= k -> 0 <= c -> (2 ^ k | c) ->
  in_block (Z.min c (Z.lxor c (2 ^ k))) (k + 1) f <->
  in_block c k f \/ in_block (Z.lxor c (2 ^ k)) k f.
Proof.
  intros Hk Hc Hd. destruct (buddy_xor c k Hk Hc Hd) as (m & _ & H). unfold in_block.
  pose proof (pow2_pos k Hk). rewrite pow2_succ by done. lia.
Qed.

Lemma merge_turn a0 fl0 p o c k a :
  merging a0 fl0 p o ((c, k), a) -> mergeable a c k ->
  exists c' a', free_merge_step ((c, k), a) = Ok (inl ((c', k + 1), a')) /\
    merging a0 fl0 p o ((c', k + 1), a').
Proof.
  intros [Ho Hsh Hal Hcur Hco (fl & hd & I & Hc & Hm & Hf)] Hmg. cbn [fst snd] in *.
  pose proof Hmg as (Hk & Hbn & Hmb). set (b := Z.lxor c (2 ^ k)) in *.
  pose proof (inv_block I _ _ Hc) as (Hk0 & Hc0 & Hdiv & _).
  destruct (inv_merge_go a fl hd c k I Hc Hmg) as (a' & l1 & l2 & E & El & I' & Hs & Hmt & Hx).
  fold b in E, El, I', Hmt, Hx. pose proof (in_block_buddies c k) as Hbl. fold b in Hbl.
  assert (allocated a b = None) as Hab by by eapply allocated_free.
  assert (c <> b) as Hne by (apply buddy_ne; lia || done).
  exists (Z.min c b), a'. split; [done|]. constructor; cbn [fst snd].
  - lia.
  - eauto with buddy.
  - intros x Hxc. destruct (decide (x = Z.max c b)) as [->|Hxm].
    + rewrite (allocated_None _ _ _ eq_refl Hmt). symmetry.
      destruct (decide (Z.max c b = p)) as [->|Hp]; [by rewrite fn_lookup_insert|].
      rewrite fn_lookup_insert_ne by done.
      destruct (Z.max_spec c b) as [[_ Em]|[_ Em]]; rewrite Em in *; [|by apply Hcur].
      rewrite <- Hab, Hal by done. by rewrite fn_lookup_insert_ne.
    + rewrite (allocated_eq a) by by apply Hx. apply Hal. lia.
  - intros Hcp. destruct (Z.min_spec c b) as [[_ Em]|[_ Em]]; rewrite Em in *; [by apply Hcur|].
    rewrite <- Hab, Hal by done. by rewrite fn_lookup_insert_ne.
  - intros H0 q j Hj [Hq Hqc] [Hr Hrc]. specialize (Hco H0).
    assert (forall x, meta a' x = Some (Free, j) -> x <> Z.max c b) as Hnm.
    { intros x Hx' ->. by rewrite Hx' in Hmt. }
    pose proof (Hnm _ Hq). pose proof (Hnm _ Hr). rewrite Hx in Hq, Hr by done.
    apply (Hco q j Hj); (split; [done|]); intros [= Ec];
      (assert (c = Z.min c b \/ c = Z.max c b) as [E'|E'] by lia); congruence.
  - eexists _, _. split_and!; [exact I'| | |].
    + unfold merge_heads. fold b. by rewrite fn_lookup_insert.
    + rewrite (mass_delete _ _ _ _ _ Hk0 El), pow2_succ by lia. lia.
    + intros f. rewrite <- Hf, Hbl, (free_frame_delete fl k l1 b l2 f) by lia || done. tauto.
Qed.

(** The loop ends, by the bound on orders, with a block that merges no further. *)
Lemma merge_loop a0 fl0 p o s fuel :
  merging a0 fl0 p o s -> MAX_ORDER < Z.of_nat fuel ->
  exists c k a', loop fuel free_merge_step s = Ok ((c, k), a') /\
    merging a0 fl0 p o ((c, k), a') /\ ~ mergeable a' c k.
Proof.
  intros Hs Hf.
  destruct (loop_rule (merging a0 fl0 p o)
    (fun s => merging a0 fl0 p o s /\ ~ mergeable s.2 s.1.1 s.1.2)
    (fun s => MAX_ORDER - s.1.2) free_merge_step) with (fuel := fuel) (s := s)
    as ([[c k] a'] & E & H & Hn); [|done| |eauto 10].
  - intros [[c k] a] H1. pose proof (mg_order _ _ _ _ _ H1) as Ho. cbn [fst snd] in *.
    split; [lia|]. destruct (mergeable_dec a c k) as [Hm|Hm].
    + left. destruct (merge_turn _ _ _ _ _ _ _ H1 Hm) as (c' & a' & E & H2).
      exists ((c', k + 1), a'). split_and!; [done..|]. cbn. lia.
    + right. exists ((c, k), a). split; [|done].
      destruct H1 as [_ _ _ _ _ (fl & hd & I & Hc & _)]. by eapply inv_merge_stop.
  - pose proof (mg_order _ _ _ _ _ Hs). lia.
Qed.

(** What taking back block [p] of order [o] does. *)
Record taken_back (a a' : BuddyAllocator) (p o : Z) : Prop := {
  tb_wf : wf a';
  tb_free : forall f, free_in a' f <-> free_in a f \/ in_block p o f;
  tb_alloc : forall x, allocated a' x = (<[p := None]> (allocated a)) x;
  tb_count : free_frames a' = free_frames a + 2 ^ o;
  tb_base : dram_base a' = dram_base a;
  tb_nr : nr_frames a' = nr_frames a;
  tb_len : lenz (pages a') = lenz (pages a);
  tb_co : coalesced a -> coalesced a';
}.

(** A block that may be released: in range, aligned, not free, and apart from
    every other block. *)
Record releasable (a : BuddyAllocator) (p o : Z) : Prop := {
  rl_block : block_ok (nr_frames a) p o;
  rl_apart : block_apart (heads a) p o;
  rl_busy : forall k, meta a p <> Some (Free, k);
}.

Lemma allocated_releasable a p o : wf a -> allocated a p = Some o -> releasable a p o.
Proof.
  intros (fl & I & _) Ha. pose proof (allocated_heads _ _ _ Ha) as Hp. constructor.
  - by eapply inv_block.
  - intros q o' Hne Hq. destruct (Z.lt_total q p) as [?|[?|?]]; [left|done|right];
      by eapply (geo_disj _ _ (inv_geo _ _ _ _ I)).
  - intros k Hk. unfold allocated in Ha. by rewrite Hk in Ha.
Qed.

Lemma merging_start a fl p o :
  wf_with a fl -> releasable a p o -> merging a fl p o ((p, o), a).
Proof.
  intros [I _] [Hb Hd Hn]. pose proof Hb as (Ho & _).
  assert (forall j, 0 <= j < MAX_ORDER -> p ∉ fl j) as Hl.
  { intros j Hj Hp. destruct (inv_member I j p Hj Hp) as (_ & Hm & _). by eapply Hn. }
  constructor; cbn [fst snd]; [lia|done| |done|done|].
  - intros x Hx. by rewrite fn_lookup_insert_ne.
  - eexists _, _. split_and!; [by eapply inv_take_back|by rewrite fn_lookup_insert|done..].
Qed.

Lemma coalesced_put_back a a' c k fl hd :
  inv a fl hd (Some c) -> ~ mergeable a c k -> 0 <= k ->
  0 <= c -> (2 ^ k | c) ->
  meta a' c = Some (Free, k) -> (forall x, x <> c -> meta a' x = meta a x) ->
  coalesced_but a (Some c) -> coalesced a'.
Proof.
  intros I Hn Hk0 Hc0 Hdiv Hm Hx Hco q j Hj Hq Hb.
  assert (forall x, x <> c -> meta a' x = Some (Free, j) -> free_at a (Some c) x j) as Hfa.
  { intros x Hxc Hxm. rewrite Hx in Hxm by done. split; congruence. }
  assert (forall x, x <> c -> meta a' x = Some (Free, j) -> x < nr_frames a) as Hnr.
  { intros x Hxc Hxm. destruct (Hfa x Hxc Hxm) as [Hxa _].
    assert (hd x = Some j) as Hh by (rewrite (inv_hd _ _ _ _ I) by congruence; by rewrite Hxa).
    pose proof (inv_block I _ _ Hh) as (? & _ & _ & ?). pose proof (pow2_pos j ltac:(lia)). lia. }
  assert (forall x, x <> c -> meta a' x = Some (Free, k) -> j = k -> Z.lxor c (2 ^ k) <> x) as Hnm.
  { intros x Hxc Hxm -> E. apply Hn. split_and!; [done|rewrite E; by apply Hnr|].
    rewrite E, <- Hx by done. done. }
  destruct (decide (q = c)) as [->|Hqc]; [|destruct (decide (Z.lxor q (2 ^ j) = c)) as [Eb|Hbc]].
  - assert (j = k) as -> by congruence. pose proof (buddy_ne c k Hk0 Hc0 Hdiv).
    by eapply (Hnm (Z.lxor c (2 ^ k))).
  - rewrite Eb in Hb. assert (j = k) as -> by congruence. eapply (Hnm q); [done..|].
    rewrite <- Eb, Z.lxor_assoc, Z.lxor_nilpotent. apply Z.lxor_0_r.
  - apply (Hco q j Hj); auto.
Qed.

Lemma free_ok a p o :
  wf a -> releasable a p o ->
  exists a', BuddyAllocator_free a p o = Ok a' /\ taken_back a a' p o.
Proof.
  intros (fl & W) Hr. pose proof W as [I Hmass]. pose proof (rl_block _ _ _ Hr) as (Ho & _).
  pose proof (wf_with_free_frames a fl W) as Hff. pose proof (inv_nr _ _ _ _ I) as [Hnr _].
  assert (2 ^ o <= 2 ^ MAX_ORDER) as Hpow by (apply Z.pow_le_mono_r; lia).
  change (2 ^ MAX_ORDER) with 2048 in Hpow. pose proof (pow2_pos o ltac:(lia)).
  unfold BuddyAllocator_free. rewrite ushl_one_ok by (unfold MAX_ORDER in *; lia). cbn [obind].
  unfold FrameCount_add_assign. rewrite uadd_ok by (unfold RAW_NONE in *; lia). cbn [obind].
  set (a0 := with_free_frames a _).
  assert (merging a0 fl p o ((p, o), a0)) as Hs.
  { destruct (merging_start a fl p o W Hr) as [? ? ? ? ? (fl1 & hd1 & I1 & ?)].
    constructor; try done. exists fl1, hd1. split; [by apply inv_free_frames|done]. }
  destruct (merge_loop _ _ _ _ _ (S (Z.to_nat MAX_ORDER)) Hs) as (c & k & a1 & -> & Hs1 & Hn);
    [unfold MAX_ORDER; lia|]. cbn [obind].
  destruct Hs1 as [Hok Hsh Hal Hcur Hco (fl1 & hd1 & I1 & Hc & Hm & Hf)]. cbn [fst snd] in *.
  destruct (inv_put_back a1 fl1 hd1 c k I1 Hc) as (a2 & a3 & -> & E3 & I3 & Hs3 & Hm3 & Hx3).
  cbn [obind]. rewrite E3. exists a3. split; [done|].
  assert (same_shape a0 a3) as Hss by eauto with buddy.
  pose proof (inv_block I1 _ _ Hc) as (Hk & Hc0 & Hdiv & _). constructor.
  - eexists. split; [by eapply inv_heads|]. rewrite (ss_ff _ _ Hss), mass_cons by done. cbn. lia.
  - intros f. rewrite (free_in_frame _ _ _ f I), (free_in_frame _ _ _ f I3), free_frame_cons by done.
    apply Hf.
  - intros x. destruct (decide (x = c)) as [->|Hxc].
    + rewrite (allocated_free _ _ _ Hm3). symmetry.
      destruct (decide (c = p)) as [->|]; [by rewrite fn_lookup_insert|].
      rewrite fn_lookup_insert_ne by done. by apply Hcur.
    + rewrite (allocated_eq a1) by by apply Hx3. by apply Hal.
  - rewrite (ss_ff _ _ Hss). done.
  - apply (ss_base _ _ Hss).
  - apply (ss_nr _ _ Hss).
  - apply (ss_len _ _ Hss).
  - intros Hc1. eapply coalesced_put_back; [exact I1|exact Hn|lia|done..|].
    apply Hco. intros q j Hj [Hq _] [Hb _]. by eapply (Hc1 q j).
Qed.
End free.
