(* ===== verification/BuddyRange.v ===== *)
(** * Buddy allocator: carving a frame range into free blocks

    [max_order_at] picks the largest aligned block that fits; [free_range] walks
    a range with it, marking the interior frames [Tail] and pushing each head. *)

From S2P Require Import Prelude FrameTypes Layout Buddy BuddyInv BuddyGeom BuddyWf BuddySteps BuddyCore.

(** The order [max_order_at] chooses. *)
Definition carve_order (pfn remaining : Z) : Z :=
  Z.min (Z.min (trailing_zeros 32 pfn) (MAX_ORDER - 1)) (Z.min (Z.log2 remaining) (MAX_ORDER - 1)).

Section range.
Context {P : Profile}.
Implicit Types (a : BuddyAllocator) (fl : Z -> list Z) (hd : Z -> option Z).

Lemma max_order_at_ok pfn remaining :
  0 <= pfn -> 0 < remaining < 2 ^ 64 ->
  max_order_at pfn remaining = Ok (carve_order pfn remaining).
Proof.
  intros Hp Hr. unfold max_order_at, carve_order, leading_zeros.
  destruct (Z.eqb_spec remaining 0); [lia|].
  pose proof (Z.log2_nonneg remaining). assert (Z.log2 remaining < 64) by (apply Z.log2_lt_pow2; lia).
  rewrite usub_ok by lia. cbn [obind]. replace (63 - (64 - 1 - Z.log2 remaining)) with (Z.log2 remaining) by lia.
  pose proof (trailing_zeros_nonneg 32 pfn ltac:(lia)). rewrite as_u8_small; [done|]. unfold MAX_ORDER. lia.
Qed.

Lemma carve_order_range pfn remaining : 0 <= carve_order pfn remaining < MAX_ORDER.
Proof.
  unfold carve_order. pose proof (Z.log2_nonneg remaining).
  pose proof (trailing_zeros_nonneg 32 pfn ltac:(lia)). unfold MAX_ORDER. lia.
Qed.

(** The chosen block is aligned and fits. *)
Lemma carve_order_fits pfn remaining :
  0 <= pfn -> 0 < remaining ->
  (2 ^ carve_order pfn remaining | pfn) /\ 2 ^ carve_order pfn remaining <= remaining.
Proof.
  intros Hp Hr. pose proof (carve_order_range pfn remaining) as [H0 _]. split.
  - eapply Z.divide_trans; [|by apply (trailing_zeros_divide 32)].
    exists (2 ^ (trailing_zeros 32 pfn - carve_order pfn remaining)).
    assert (carve_order pfn remaining <= trailing_zeros 32 pfn) by (unfold carve_order; lia).
    rewrite <- Z.pow_add_r by lia. f_equal. lia.
  - etrans; [apply Z.pow_le_mono_r; [lia|]|by apply Z.log2_spec]. unfold carve_order. lia.
Qed.

(** The frames of [s, s+n) are in no block. *)
Definition range_clear (hd : Z -> option Z) (s e : Z) : Prop :=
  forall p o, hd p = Some o -> p + 2 ^ o <= s \/ e <= p.

Lemma range_clear_None nr hd s e f :
  geometry nr hd -> range_clear hd s e -> s <= f < e -> hd f = None.
Proof.
  intros G Hc Hf. destruct (hd f) as [o|] eqn:E; [|done].
  destruct (geo_block _ _ G _ _ E) as (? & _). pose proof (pow2_pos o ltac:(lia)).
  destruct (Hc f o E); lia.
Qed.

(** The interior of a fresh block becomes [Tail]. *)
Record tailing (a0 : BuddyAllocator) fl hd (p o : Z) (s : Z * BuddyAllocator) : Prop := {
  tl_idx : 1 <= s.1 <= 2 ^ o;
  tl_inv : inv s.2 fl hd None;
  tl_shape : same_shape a0 s.2;
  tl_meta : forall x, ~ in_block p o x -> meta s.2 x = meta a0 x;
  tl_alloc : forall x, allocated s.2 x = allocated a0 x;
}.

Lemma tail_loop a fl hd p o fuel :
  inv a fl hd None -> block_ok (nr_frames a) p o -> range_clear hd p (p + 2 ^ o) ->
  2 ^ o <= Z.of_nat fuel ->
  exists i a', while fuel (fun s => s.1 <? 2 ^ o) (mark_tail_step p) (1, a) = Ok (i, a') /\
    tailing a fl hd p o (i, a').
Proof.
  intros I Hb Hc Hfuel. pose proof Hb as (Ho & Hp & _ & Hn).
  pose proof (inv_nr _ _ _ _ I) as [Hnr _].
  destruct (while_rule (tailing a fl hd p o) (fun s => 2 ^ o - s.1)
    (fun s => s.1 <? 2 ^ o) (mark_tail_step p)) with (fuel := fuel) (s := (1, a))
    as ([i a'] & E & Ht & _); [| | |eauto].
  - intros [i a1] [Hi I1 Hs1 Hm1 Ha1] Hlt%Z.ltb_lt. cbn [fst snd] in *.
    assert (in_block p o (p + i)) as Hin by (unfold in_block; lia).
    assert (hd (p + i) = None) as Hh.
    { eapply range_clear_None; [apply I|done|]. unfold in_block in Hin. lia. }
    assert (block_ok (nr_frames a1) p o) as Hb1 by by rewrite (ss_nr _ _ Hs1).
    destruct (set_descriptor a1 fl hd None p o (p + i) _ _ I1 Hb1 Hin (inv_not_head I1 _ Hh) mark_tail_ok)
      as (a2 & q & E2 & HL2 & Hs2 & Hst & Hm2 & Hx2). rewrite Hst in Hm2.
    unfold mark_tail_step. rewrite uadd_ok by (unfold RAW_NONE in *; lia). cbn [obind].
    rewrite E2. cbn [obind]. rewrite uadd_ok by (unfold RAW_NONE in *; lia). cbn [obind].
    exists (i + 1, a2). split; [done|]. split; [|cbn; lia]. constructor; cbn [fst snd].
    + lia.
    + constructor; [done|..].
      * rewrite (ss_nr _ _ Hs2). apply I1.
      * by eapply inv_nr_shape.
      * intros y _. destruct (decide (y = p + i)) as [->|]; [by rewrite Hm2|].
        rewrite Hx2 by done. by apply I1.
      * intros y k _ Hy. destruct (decide (y = p + i)) as [->|]; [congruence|].
        rewrite Hx2 in Hy by done. by eapply (inv_free _ _ _ _ I1).
      * done.
    + eauto with buddy.
    + intros x Hx. rewrite Hx2 by (by intros ->). by apply Hm1.
    + intros x. destruct (decide (x = p + i)) as [->|].
      * rewrite (allocated_None _ _ _ Hm2) by done. rewrite <- Ha1. symmetry.
        eapply allocated_None; [done|]. by rewrite <- (inv_hd _ _ _ _ I1).
      * rewrite <- Ha1. by apply allocated_eq, Hx2.
  - constructor; cbn [fst snd]; try done. pose proof (pow2_pos o ltac:(lia)). lia.
  - cbn. lia.
Qed.

(** What carving the frames [s, e) into free blocks does. *)
Record range_freed (a a' : BuddyAllocator) (s e : Z) : Prop := {
  rf_wf : wf a';
  rf_free : forall f, free_in a' f <-> free_in a f \/ s <= f < e;
  rf_alloc : forall x, allocated a' x = allocated a x;
  rf_count : free_frames a' = free_frames a + (e - s);
  rf_base : dram_base a' = dram_base a;
  rf_nr : nr_frames a' = nr_frames a;
  rf_len : lenz (pages a') = lenz (pages a);
  rf_clear : forall e', e <= e' -> range_clear (heads a) s e' -> range_clear (heads a') e e';
}.

Lemma range_freed_refl a s : wf a -> range_freed a a s s.
Proof.
  intros. constructor; try done; intros; [|lia..].
  split; [by left|]. intros [?|?]; [done|lia].
Qed.

Lemma range_freed_trans a b c s m e :
  s <= m <= e -> range_freed a b s m -> range_freed b c m e -> range_freed a c s e.
Proof.
  intros Hsm [? F1 A1 ? ? ? ? C1] [? F2 A2 ? ? ? ? C2]. constructor; try congruence.
  - intros f. rewrite F2, F1. assert (s <= f < e <-> s <= f < m \/ m <= f < e) by lia. tauto.
  - lia.
  - intros e' He H. apply C2; [done|]. apply C1; [lia|done].
Qed.

(** A block of frames that were in no free block is now one. *)
Lemma block_freed a a1 a3 fl s o :
  wf_with a fl -> 0 <= o < MAX_ORDER -> 0 <= s -> heads a s = None ->
  inv a1 fl (heads a) None -> (forall x, allocated a1 x = allocated a x) ->
  inv a3 (<[o := s :: fl o]> fl) (<[s := Some o]> (heads a)) None -> same_shape a a3 ->
  meta a3 s = Some (Free, o) -> (forall x, x <> s -> meta a3 x = meta a1 x) ->
  range_freed a (with_free_frames a3 (free_frames a + 2 ^ o)) s (s + 2 ^ o).
Proof.
  intros [I Hmass] Ho Hs Hhs I1 Ha1 I3 Hss Hm3 Hx3.
  pose proof (pow2_pos o ltac:(lia)) as Hpos.
  pose proof (inv_free_frames _ _ _ _ (free_frames a + 2 ^ o) I3) as I4.
  constructor; cbn [with_free_frames pages dram_base nr_frames free_area free_frames].
  - eexists. split; [by eapply inv_heads|]. rewrite mass_cons by done. cbn. lia.
  - intros f. rewrite (free_in_frame _ _ _ f I), (free_in_frame _ _ _ f I4), free_frame_cons by done.
    done.
  - intros x. destruct (decide (x = s)) as [->|].
    + transitivity (@None Z); [by eapply allocated_free|]. symmetry. by eapply allocated_None.
    + rewrite <- Ha1. by apply allocated_eq, Hx3.
  - lia.
  - apply Hss.
  - apply Hss.
  - apply Hss.
  - intros e' He' Hc' p k Hp. change (heads a3 p = Some k) in Hp. revert Hp.
    destruct (decide (p = s)) as [->|Hps].
    + unfold heads. rewrite Hm3. intros [= <-]. lia.
    + unfold heads. rewrite Hx3 by done. intros Hp.
      assert (heads a p = Some k) as Hp' by (rewrite (inv_hd _ _ _ _ I1); done).
      destruct (Hc' p k Hp'); [lia|]. lia.
Qed.

(** One turn of the carving loop. *)
Lemma free_range_turn a s e :
  wf a -> 0 <= s < e -> e <= nr_frames a -> range_clear (heads a) s e ->
  exists s' a', free_range_step e (s, a) = Ok (s', a') /\ s < s' <= e /\ range_freed a a' s s'.
Proof.
  intros (fl & W) Hs He Hc. pose proof W as [I Hmass]. pose proof (inv_nr _ _ _ _ I) as [Hnr _].
  pose proof (wf_with_free_frames a fl W) as Hff. unfold RAW_NONE in *.
  unfold free_range_step. rewrite usub_ok by lia. cbn [obind].
  rewrite max_order_at_ok by lia. cbn [obind].
  destruct (carve_order_fits s (e - s)) as [Hdiv Hfit]; [lia..|].
  pose proof (carve_order_range s (e - s)) as Ho. set (o := carve_order s (e - s)) in *.
  pose proof (pow2_pos o ltac:(lia)) as Hpos.
  assert (2 ^ o <= 2 ^ MAX_ORDER) as Hpow by (apply Z.pow_le_mono_r; lia).
  rewrite ushl_one_ok by (unfold MAX_ORDER in *; lia). cbn [obind].
  assert (block_ok (nr_frames a) s o) as Hb by (split_and!; lia || done).
  assert (range_clear (heads a) s (s + 2 ^ o)) as Hcb.
  { intros p k Hp. destruct (Hc p k Hp); lia. }
  destruct (tail_loop a fl (heads a) s o (Z.to_nat (2 ^ MAX_ORDER)) I Hb Hcb ltac:(lia))
    as (i & a1 & -> & [_ I1 Hs1 Hm1 Ha1]). cbn [obind fst snd] in *.
  assert (block_ok (nr_frames a1) s o) as Hb1 by by rewrite (ss_nr _ _ Hs1).
  assert (heads a s = None) as Hhs by (eapply range_clear_None; [apply I|done|lia]).
  assert (geometry (nr_frames a1) (<[s := Some o]> (heads a))) as G.
  { apply geometry_insert; [apply I1|done|]. intros q o' _ Hq. by apply Hcb. }
  destruct (inv_mark_push a1 fl (heads a) (<[s := Some o]> (heads a)) None None s o I1 Hb1
    (inv_not_head I1 _ Hhs) G) as (a2 & a3 & -> & E3 & I3 & Hs3 & Hm3 & Hx3);
    [by rewrite fn_lookup_insert|done|intros; split; [done|by rewrite fn_lookup_insert_ne]|done|].
  cbn [obind]. rewrite E3. cbn [obind]. assert (same_shape a a3) as Hss by eauto with buddy.
  rewrite ushl_one_ok by (unfold MAX_ORDER in *; lia). cbn [obind].
  unfold FrameCount_add_assign. rewrite (ss_ff _ _ Hss).
  assert (2 ^ MAX_ORDER = 2048) as Hmx by done.
  rewrite uadd_ok by lia. cbn [obind]. rewrite uadd_ok by lia. cbn [obind].
  exists (s + 2 ^ o). eexists. split; [done|]. split; [lia|].
  eapply block_freed; try done; lia.
Qed.

Lemma free_range_ok a s n :
  wf a -> 0 <= s -> 0 <= n -> s + n <= nr_frames a -> range_clear (heads a) s (s + n) ->
  exists a', BuddyAllocator_free_range a s n = Ok a' /\ range_freed a a' s (s + n).
Proof.
  intros W Hs Hn He Hc. pose proof W as (fl & I & _). pose proof (inv_nr _ _ _ _ I) as [Hnr _].
  unfold RAW_NONE in *. unfold BuddyAllocator_free_range. rewrite uadd_ok by lia. cbn [obind].
  rewrite debug_assert_true by lia. cbn [obind]. rewrite as_u32_small by lia.
  rewrite uadd_ok by lia. cbn [obind].
  destruct (while_rule
    (fun st => s <= st.1 <= s + n /\ range_freed a st.2 s st.1) (fun st => s + n - st.1)
    (fun st => st.1 <? s + n) (free_range_step (s + n))) with (fuel := Z.to_nat n) (s := (s, a))
    as ([s1 a1] & -> & [Hs1 Hf1] & Hlt); [| |cbn; lia|].
  - intros [s1 a1] [Hs1 Hf1] Hlt%Z.ltb_lt. cbn [fst snd] in *.
    destruct (free_range_turn a1 s1 (s + n)) as (s2 & a2 & E & Hs2 & Hf2);
      [apply Hf1|lia|by rewrite (rf_nr _ _ _ _ Hf1)|apply (rf_clear _ _ _ _ Hf1); [lia|done]|].
    exists (s2, a2). split; [done|]. cbn. split; [|lia]. split; [lia|].
    eapply range_freed_trans; [|done..]. lia.
  - cbn. split; [lia|]. by apply range_freed_refl.
  - cbn [obind fst snd] in *. apply Z.ltb_ge in Hlt. assert (s1 = s + n) as -> by lia. eauto.
Qed.
End range.
