(* ===== verification/BuddyCanon.v ===== *)
(** * Buddy allocator: canonical form and counting

    A coalesced allocator's free blocks are determined by its set of free frames:
    they are the maximal aligned free blocks.  The counter [free_frames] is the
    number of free frames.  Also the fresh allocator of [new], and the address
    arithmetic [pfn_of] / [pa_of]. *)

From S2P Require Import Prelude FrameTypes Layout Buddy BuddyInv BuddyGeom BuddyWf BuddySteps BuddyCore BuddyRange.

Lemma aligned_contained p k q j :
  0 <= j <= k -> (2 ^ k | p) -> (2 ^ j | q) -> p <= q < p + 2 ^ k -> q + 2 ^ j <= p + 2 ^ k.
Proof.
  intros Hjk [m ->] [n ->] [? ?]. pose proof (pow2_pos j ltac:(lia)).
  replace (2 ^ k) with (2 ^ (k - j) * 2 ^ j) in * by (rewrite <- Z.pow_add_r by lia; f_equal; lia).
  set (N := 2 ^ (k - j)) in *. set (D := 2 ^ j) in *. assert (n < m * N + N) by nia. nia.
Qed.

Lemma wf_free_block a p k : wf a -> meta a p = Some (Free, k) -> block_ok (nr_frames a) p k.
Proof.
  intros (fl & I & _) Hm. eapply (inv_block I). unfold heads. by rewrite Hm.
Qed.

Lemma wf_free_inj a p k q j f :
  wf a -> meta a p = Some (Free, k) -> meta a q = Some (Free, j) ->
  in_block p k f -> in_block q j f -> p = q /\ k = j.
Proof.
  intros (fl & I & _) Hp Hq Hfp Hfq. assert (p = q) as ->; [|split; congruence].
  eapply (blocks_share_frame _ _ (inv_geo _ _ _ _ I)); [..|exact Hfp|exact Hfq];
    unfold heads; [by rewrite Hp|by rewrite Hq].
Qed.

(** In a coalesced allocator an aligned free block lies in one free block. *)
Lemma coalesced_covers a (n : nat) q :
  wf a -> coalesced a -> let j := Z.of_nat n in block_ok (nr_frames a) q j ->
  (forall f, in_block q j f -> free_in a f) ->
  exists p k, meta a p = Some (Free, k) /\ j <= k /\ p <= q /\ q + 2 ^ j <= p + 2 ^ k.
Proof.
  intros W C. revert q. induction n as [|n IH]; intros q j Hb Hf.
  - change j with 0 in *. destruct (Hf q) as (p & k & Hm & ? & ?); [unfold in_block; lia|].
    pose proof (wf_free_block a p k W Hm) as (? & _). exists p, k. split_and!; [done|lia..].
  - pose proof Hb as (Hjr & Hq0 & Hd & Hn). subst j. rewrite Nat2Z.inj_succ in *.
    unfold Z.succ in *. set (j := Z.of_nat n) in *.
    assert (0 <= j) as Hj by lia. pose proof (pow2_pos j Hj) as Hpos.
    assert (2 ^ j | q) as Hd' by (etrans; [|exact Hd]; rewrite pow2_succ by done; apply Z.divide_factor_r).
    pose proof (fun f => in_block_halves q j f Hj) as Hh. rewrite pow2_succ in Hn by done.
    destruct (IH q) as (p1 & k1 & Hm1 & Hk1 & Hl1 & Hr1);
      [split_and!; lia || done|intros f ?; apply Hf, Hh; auto|].
    destruct (IH (q + 2 ^ j)) as (p2 & k2 & Hm2 & Hk2 & Hl2 & Hr2);
      [split_and!; [lia..| |lia]; by apply Z.divide_add_r|intros f ?; apply Hf, Hh; auto|].
    pose proof (wf_free_block a p1 k1 W Hm1) as (Hkr1 & Hp1 & Hdp1 & _).
    pose proof (wf_free_block a p2 k2 W Hm2) as (Hkr2 & Hp2 & Hdp2 & _).
    destruct (decide (j + 1 <= k1)) as [?|?].
    { exists p1, k1. split_and!; [done..|]. apply aligned_contained; lia || done. }
    destruct (decide (j + 1 <= k2)) as [?|?].
    { assert (p2 <= q) as Hle.
      { destruct (Z.le_gt_cases p2 q); [done|].
        pose proof (aligned_contained q (j + 1) p2 (j + 1)) as Hcon.
        assert (2 ^ (j + 1) | p2) as Hdd.
        { etrans; [|exact Hdp2]. exists (2 ^ (k2 - (j + 1))). rewrite <- Z.pow_add_r by lia. f_equal. lia. }
        rewrite pow2_succ in Hcon by done. rewrite pow2_succ in Hdd by done.
        specialize (Hcon ltac:(lia)). rewrite pow2_succ in Hd by done. specialize (Hcon Hd Hdd). lia. }
      exists p2, k2. split_and!; [done..|]. apply aligned_contained; [lia|done..|lia]. }
    assert (k1 = j) as -> by lia. assert (k2 = j) as -> by lia. exfalso.
    assert (p1 = q) as -> by (destruct Hdp1 as [m1 ->], Hd' as [m ->]; nia).
    assert (p2 = q + 2 ^ j) as -> by (destruct Hdp2 as [m2 ->], Hd' as [m ->]; nia).
    apply (C q j); [lia|done|]. destruct (buddy_xor q j Hj Hq0 Hd') as (m & Hm & [[_ ->]|[E _]]); [done|].
    rewrite pow2_succ in Hd, E by done. destruct Hd as [n' Hn'].
    assert ((2 * (n' - m) - 1) * 2 ^ j = 0) as [?|?]%Z.mul_eq_0 by lia; lia.
Qed.

(** Coalesced allocators with the same free frames have the same free blocks. *)
Lemma coalesced_canonical a a' p k :
  wf a -> wf a' -> coalesced a -> coalesced a' -> nr_frames a' = nr_frames a ->
  (forall f, free_in a f <-> free_in a' f) ->
  meta a p = Some (Free, k) -> meta a' p = Some (Free, k).
Proof.
  intros W W' C C' Hnr Hf Hm. pose proof (wf_free_block _ _ _ W Hm) as Hb.
  pose proof Hb as (Hk & Hp & Hd & Hn). pose proof (pow2_pos k ltac:(lia)).
  destruct (coalesced_covers a' (Z.to_nat k) p W' C') as (q & j & Hq & Hj & Hl & Hr);
    rewrite ?Z2Nat.id, ?Hnr by lia; [done| |].
  { intros f Hfb. apply Hf. by exists p, k. }
  rewrite Z2Nat.id in * by lia. pose proof (wf_free_block _ _ _ W' Hq) as Hb'.
  rewrite Hnr in Hb'. pose proof Hb' as (Hjr & _).
  destruct (coalesced_covers a (Z.to_nat j) q W C) as (p2 & k2 & Hp2 & Hk2 & Hl2 & Hr2);
    rewrite ?Z2Nat.id by lia; [done| |].
  { intros f Hfb. apply Hf. by exists q, j. }
  rewrite Z2Nat.id in * by lia. pose proof (pow2_pos j ltac:(lia)).
  destruct (wf_free_inj a p k p2 k2 p W Hm Hp2) as [-> ->]; [unfold in_block; lia..|].
  assert (j = k2) as -> by lia. assert (q = p2) as -> by lia. done.
Qed.

(** The free frames, listed once each, are as many as the counter says. *)
Lemma wf_free_list a :
  wf a -> exists l, NoDup l /\ (forall f, f ∈ l <-> free_in a f) /\ lenz l = free_frames a.
Proof.
  intros (fl & I & Hm). exists (frames_of fl). split_and!.
  - eapply frames_of_NoDup; [apply I| |by apply (inv_NoDup I)].
    intros k p Hk Hp. by apply (inv_member I).
  - intros f. by rewrite (free_in_frame _ _ _ f I), elem_of_frames_of.
  - by rewrite lenz_frames_of, Hm.
Qed.

(* ------------------------------------------------------------------------- *)
(** ** The fresh allocator *)

Section fresh.
Context {P : Profile}.

Lemma mark_all_reserved_ok l :
  exists l', mark_all_reserved l = Ok l' /\ lenz l' = lenz l /\
    forall i q, getz l' i = Some q -> pi_state q = Reserved.
Proof.
  induction l as [|p l (l' & IH & Hlen & Hall)]; cbn [mark_all_reserved].
  - exists []. split_and!; [done..|]. intros i q [? Hr]%getz_Some_range. unfold lenz in Hr. cbn in Hr. lia.
  - unfold PageInfo_mark_reserved. rewrite PageInfo_set_next_ok by eauto with buddy. cbn [obind].
    rewrite PageInfo_set_prev_ok by eauto with buddy. cbn [obind]. rewrite IH. cbn [obind].
    eexists. split_and!; [done|unfold lenz in *; cbn [length]; lia|].
    intros i q Hi. pose proof (getz_Some_range _ _ _ Hi) as [Hi0 _]. unfold getz in Hi.
    destruct (Z.leb_spec 0 i); [|done]. destruct (decide (i = 0)) as [->|].
    + change (Z.to_nat 0) with O in Hi. cbn in Hi. by injection Hi as <-.
    + apply (Hall (i - 1)). unfold getz. destruct (Z.leb_spec 0 (i - 1)); [|lia].
      replace (Z.to_nat i) with (S (Z.to_nat (i - 1))) in Hi by lia. done.
Qed.

Lemma new_ok pgs base nr :
  0 <= nr <= lenz pgs -> nr <= RAW_NONE ->
  exists a, BuddyAllocator_new pgs base nr = Ok a /\ wf a /\ (forall p, heads a p = None) /\
    free_frames a = 0 /\ dram_base a = base /\ nr_frames a = nr /\ lenz (pages a) = lenz pgs.
Proof.
  intros Hnr Hraw. unfold BuddyAllocator_new. rewrite debug_assert_true by lia. cbn [obind].
  destruct (mark_all_reserved_ok pgs) as (pgs' & -> & Hlen & Hres). cbn [obind].
  set (a := mkBuddy _ _ _ _ _).
  assert (forall p, head_of (meta a p) = None) as Hh.
  { intros p. unfold meta. destruct (getz (pages a) p) as [q|] eqn:E; [|done]. cbn.
    by rewrite (Hres _ _ E). }
  exists a. split_and!; try done. exists (fun _ => []). split.
  - constructor.
    + intros k Hk. split_and!; [|done|constructor|set_solver]. cbn.
      rewrite getz_replicate. change (Z.of_nat (Z.to_nat MAX_ORDER)) with MAX_ORDER.
      by replace ((0 <=? k) && (k <? MAX_ORDER)) with true by lia.
    + split; intros *; unfold heads; by rewrite Hh.
    + cbn. lia.
    + done.
    + intros p k _ Hm. specialize (Hh p). by rewrite Hm in Hh.
    + set_solver.
  - cbn. symmetry. by vm_compute.
Qed.

Lemma no_heads_no_free a p k : (forall p, heads a p = None) -> meta a p <> Some (Free, k).
Proof. intros H Hm. specialize (H p). unfold heads in H. by rewrite Hm in H. Qed.

Lemma no_heads_clear a s e : (forall p, heads a p = None) -> range_clear (heads a) s e.
Proof. intros H p o Hp. by rewrite H in Hp. Qed.
End fresh.
