(* ===== verification/BuddyProps.v ===== *)
(** * Buddy allocator: its contract

    The client-level theorems: what [alloc], [free], [free_range] and [new] do on
    every branch, the abstract allocator they implement ([AbsState], [spec_step]),
    safety of every reachable state, completeness of allocation, and the address
    arithmetic.  Each holds in both build profiles. *)

From S2P Require Import Prelude FrameTypes Layout Buddy BuddyInv BuddyGeom BuddyWf BuddySteps BuddyCore BuddyFree BuddyRange BuddyCanon.

(* ------------------------------------------------------------------------- *)
(** ** The abstract allocator *)

(** Which frames are free, and which blocks are handed out. *)
Record AbsState := mkAbs {
  ab_free : Z -> Prop;
  ab_alloc : Z -> option Z;
}.

Definition abs (a : BuddyAllocator) : AbsState := mkAbs (free_in a) (allocated a).

Inductive request :=
  | ReqAlloc (order : Z)
  | ReqFree (pfn order : Z)
  | ReqFreeRange (start count : Z).

(** What a client may ask: release only what it holds, and hand over only
    frames that nothing owns. *)
Definition legal (nr : Z) (s : AbsState) (r : request) : Prop :=
  match r with
  | ReqAlloc o => 0 <= o < MAX_ORDER
  | ReqFree p o => ab_alloc s p = Some o
  | ReqFreeRange s0 n =>
      0 <= s0 /\ 0 < n /\ s0 + n <= nr /\
      (forall f, s0 <= f < s0 + n -> ~ ab_free s f) /\
      (forall p o f, ab_alloc s p = Some o -> in_block p o f -> ~ s0 <= f < s0 + n)
  end.

Inductive spec_step (nr : Z) (s : AbsState) : request -> option Z -> AbsState -> Prop :=
  | spec_grant o p s' :
      block_ok nr p o -> (forall f, in_block p o f -> ab_free s f) ->
      (forall f, ab_free s' f <-> ab_free s f /\ ~ in_block p o f) ->
      (forall x, ab_alloc s' x = (<[p := Some o]> (ab_alloc s)) x) ->
      spec_step nr s (ReqAlloc o) (Some p) s'
  | spec_refuse o s' :
      (forall f, ab_free s' f <-> ab_free s f) -> (forall x, ab_alloc s' x = ab_alloc s x) ->
      spec_step nr s (ReqAlloc o) None s'
  | spec_release p o s' :
      (forall f, ab_free s' f <-> ab_free s f \/ in_block p o f) ->
      (forall x, ab_alloc s' x = (<[p := None]> (ab_alloc s)) x) ->
      spec_step nr s (ReqFree p o) None s'
  | spec_range s0 n s' :
      (forall f, ab_free s' f <-> ab_free s f \/ s0 <= f < s0 + n) ->
      (forall x, ab_alloc s' x = ab_alloc s x) ->
      spec_step nr s (ReqFreeRange s0 n) None s'.

Section props.
Context {P : Profile}.
Implicit Types a : BuddyAllocator.

(** The concrete allocator serving a request. *)
Definition serve a (r : request) : outcome (option Z * BuddyAllocator) :=
  match r with
  | ReqAlloc o => BuddyAllocator_alloc a o
  | ReqFree p o => let! a := BuddyAllocator_free a p o in Ok (None, a)
  | ReqFreeRange s n => let! a := BuddyAllocator_free_range a s n in Ok (None, a)
  end.

(** States reached from a fresh allocator by legal requests. *)
Inductive reachable : BuddyAllocator -> Prop :=
  | reach_new pgs base nr a :
      0 <= nr <= lenz pgs -> nr <= RAW_NONE ->
      BuddyAllocator_new pgs base nr = Ok a -> reachable a
  | reach_serve a r x a' :
      reachable a -> legal (nr_frames a) (abs a) r -> serve a r = Ok (x, a') -> reachable a'.

(* ----------------------------------------------------------------------- *)
(** ** Helpers *)

Lemma wf_range_clear a s n :
  wf a -> legal (nr_frames a) (abs a) (ReqFreeRange s n) -> range_clear (heads a) s (s + n).
Proof.
  intros W (Hs & Hn & He & Hf & Ha) p o Hp. cbn [abs ab_free ab_alloc] in *.
  assert (forall f, in_block p o f -> ~ s <= f < s + n) as Hd.
  { intros f Hfb Hr. unfold heads, head_of in Hp. destruct (meta a p) as [[[] k]|] eqn:E; simplify_eq.
    - apply (Hf f Hr). by exists p, o.
    - eapply (Ha p o f); [|done|done]. unfold allocated. by rewrite E. }
  destruct W as (fl & I & _). destruct (inv_block I _ _ Hp) as (? & _).
  pose proof (pow2_pos o ltac:(lia)). pose proof (Hd p) as H1. pose proof (Hd s) as H2.
  pose proof (Hd (s + n - 1)) as H3. unfold in_block in *. lia.
Qed.

Lemma reachable_wf a : reachable a -> wf a.
Proof.
  induction 1 as [pgs base nr a Hnr Hraw Hnew|a r x a' _ W Hl Hs].
  - destruct (new_ok pgs base nr Hnr Hraw) as (a1 & E & W & _). congruence.
  - destruct r as [o|p o|s n]; cbn [serve] in Hs.
    + destruct (alloc_cases a o W Hl) as [(p & a1 & E & H)|[E _]]; rewrite E in Hs; simplify_eq;
        [apply H|done].
    + destruct (free_ok a p o W) as (a1 & E & H); [by apply allocated_releasable|].
      rewrite E in Hs. cbn in Hs. simplify_eq. apply H.
    + pose proof Hl as (? & ? & ? & _).
      destruct (free_range_ok a s n W) as (a1 & E & HR); [lia..|by apply wf_range_clear|].
      rewrite E in Hs. cbn in Hs. simplify_eq. apply HR.
Qed.

Lemma wf_block_facts a p o : wf a -> allocated a p = Some o -> block_ok (nr_frames a) p o.
Proof. intros (fl & I & _) Ha. eapply (inv_block I). by apply allocated_heads. Qed.

Lemma wf_allocated_apart a p o q o' :
  wf a -> allocated a p = Some o -> heads a q = Some o' -> p <> q ->
  forall f, in_block p o f -> ~ in_block q o' f.
Proof.
  intros (fl & I & _) Hp Hq Hne f Hf1 Hf2. apply Hne.
  eapply (blocks_share_frame _ _ (inv_geo _ _ _ _ I)); eauto using allocated_heads.
Qed.

Lemma pfn_of_pa_of a p :
  0 <= p < nr_frames a -> nr_frames a <= RAW_NONE -> 0 <= dram_base a ->
  (PAGE_SIZE | dram_base a) -> dram_base a + nr_frames a * PAGE_SIZE < 2 ^ 64 ->
  pa_of a p = Ok (dram_base a + p * PAGE_SIZE) /\
  pfn_of a (dram_base a + p * PAGE_SIZE) = Ok p.
Proof.
  unfold RAW_NONE, PAGE_SIZE. intros Hp Hnr Hb [b Eb] Hsum. split.
  - unfold pa_of. rewrite debug_assert_true by lia. cbn [obind]. unfold PAGE_SIZE.
    rewrite umul_ok by lia. cbn [obind]. by rewrite uadd_ok by lia.
  - unfold pfn_of, PAGE_SIZE. destruct (Z.leb_spec (dram_base a) (dram_base a + p * 4096)); [|lia].
    rewrite umul_ok by lia. cbn [obind]. rewrite uadd_ok by lia. cbn [obind].
    rewrite debug_assert_true by lia. cbn [obind].
    rewrite debug_assert_true by (rewrite Eb; divmod). cbn [obind].
    rewrite usub_ok by lia. cbn [obind]. replace (dram_base a + p * 4096 - dram_base a) with (p * 4096) by lia.
    rewrite Z.div_mul by lia. by rewrite as_u32_small by lia.
Qed.
End props.

(* ------------------------------------------------------------------------- *)
(** ** A small concrete allocator, for the witnesses *)

(** Sixteen frames at [0x4000_0000], all but frame 0 handed over. *)
Definition demo_pages : list PageInfo := replicate 16 (mkPageInfo 0 0 0 0 Reserved 0).
Definition demo_fresh : BuddyAllocator :=
  Eval vm_compute in
    match BuddyAllocator_new (P := release_dev) demo_pages 0x40000000 16 with
    | Ok a => a | Panic _ => mkBuddy [] 0 0 [] 0 end.
Definition demo : BuddyAllocator :=
  Eval vm_compute in
    match BuddyAllocator_free_range (P := release_dev) demo_fresh 1 15 with
    | Ok a => a | Panic _ => mkBuddy [] 0 0 [] 0 end.
(** After handing out a block of four frames. *)
Definition demo_held : BuddyAllocator :=
  Eval vm_compute in
    match BuddyAllocator_alloc (P := release_dev) demo 2 with
    | Ok (_, a) => a | Panic _ => mkBuddy [] 0 0 [] 0 end.

Lemma demo_fresh_new P : BuddyAllocator_new (P := P) demo_pages 0x40000000 16 = Ok demo_fresh.
Proof. by destruct P. Qed.

Lemma demo_fresh_wf : wf demo_fresh /\ forall p, heads demo_fresh p = None.
Proof.
  destruct (new_ok (P := release_dev) demo_pages 0x40000000 16) as (a & E & W & H & _);
    [by vm_compute|by vm_compute|].
  rewrite demo_fresh_new in E. by simplify_eq.
Qed.

Lemma demo_free_range P : BuddyAllocator_free_range (P := P) demo_fresh 1 15 = Ok demo.
Proof. destruct P; by vm_compute. Qed.

Lemma demo_wf : wf demo.
Proof.
  destruct demo_fresh_wf as [W H].
  destruct (free_range_ok (P := release_dev) demo_fresh 1 15 W) as (a & E & R);
    [by vm_compute..|by apply no_heads_clear|].
  rewrite demo_free_range in E. simplify_eq. apply R.
Qed.

Lemma demo_alloc P : BuddyAllocator_alloc (P := P) demo 2 = Ok (Some 4, demo_held).
Proof. destruct P; by vm_compute. Qed.

Lemma demo_held_wf : wf demo_held.
Proof.
  destruct (alloc_cases (P := release_dev) demo 2 demo_wf) as [(p & a & E & H)|[E _]];
    [by vm_compute|rewrite demo_alloc in E; simplify_eq; apply H..].
Qed.

(** Descriptors of a small allocator, looked up one by one. *)
Lemma getz_None_ge {A} (l : list A) p : lenz l <= p -> getz l p = None.
Proof.
  intros. unfold getz. destruct (0 <=? p) eqn:E; [|done]. apply lookup_ge_None. unfold lenz in *. lia.
Qed.

Lemma demo_coalesced : coalesced demo.
Proof.
  intros p k Hk Hm. destruct (meta_Some _ _ _ _ Hm) as (q & Hq & _).
  apply getz_Some_range in Hq. change (lenz (pages demo)) with 16 in Hq.
  assert (p ∈ seqZ 0 16) as Hin by (apply elem_of_seqZ; lia).
  cbv in Hin. revert Hm Hk.
  repeat (apply elem_of_cons in Hin as [->|Hin]; [vm_compute; intros; simplify_eq; vm_compute; congruence|]).
  set_solver.
Qed.

(* ------------------------------------------------------------------------- *)
(** ** Theorems *)

(** C8: [alloc] on every branch.  It never panics.  It grants a block that is
    aligned to its size, in range and wholly free; exactly that block leaves the
    free set, the block becomes the only new allocated one, the counter drops by
    its size and the invariant is kept.  Or it refuses, changing nothing, and
    then no free block has the requested order or a larger one. *)
Theorem alloc_correct {P : Profile} a o :
  wf a -> 0 <= o < MAX_ORDER ->
  (exists p a', BuddyAllocator_alloc a o = Ok (Some p, a') /\ handed_out a a' p o) \/
  (BuddyAllocator_alloc a o = Ok (None, a) /\ forall p k, meta a p = Some (Free, k) -> k < o).
Proof. apply alloc_cases. Qed.

Lemma alloc_correct_witness :
  (exists p a', BuddyAllocator_alloc (P := release_dev) demo 2 = Ok (Some p, a') /\
     handed_out demo a' p 2) \/
  (BuddyAllocator_alloc (P := release_dev) demo 2 = Ok (None, demo) /\
     forall p k, meta demo p = Some (Free, k) -> k < 2).
Proof. apply (alloc_correct (P := release_dev) demo 2 demo_wf). by vm_compute. Defined.

(** C9: [free] of an allocated block never panics, returns exactly its frames to
    the free set, forgets the allocation, raises the counter by its size and keeps
    the invariant and coalescing, however far the merging goes. *)
Theorem free_correct {P : Profile} a p o :
  wf a -> allocated a p = Some o ->
  exists a', BuddyAllocator_free a p o = Ok a' /\ taken_back a a' p o.
Proof. intros W Ha. by apply free_ok, allocated_releasable. Qed.

Lemma free_correct_witness :
  exists a', BuddyAllocator_free (P := release_dev) demo_held 4 2 = Ok a' /\ taken_back demo_held a' 4 2.
Proof. apply (free_correct (P := release_dev) demo_held 4 2 demo_held_wf). reflexivity. Defined.

(** C10: [free_range] over frames that belong to no block returns in every
    profile, frees exactly the range, leaves allocated blocks alone, raises the
    counter by [count] and keeps the invariant. *)
Theorem free_range_correct {P : Profile} a s n :
  wf a -> 0 <= s -> 0 <= n -> s + n <= nr_frames a -> range_clear (heads a) s (s + n) ->
  exists a', BuddyAllocator_free_range a s n = Ok a' /\ range_freed a a' s (s + n).
Proof. apply free_range_ok. Qed.

Lemma free_range_correct_witness :
  exists a', BuddyAllocator_free_range (P := release_dev) demo_fresh 1 15 = Ok a' /\
    range_freed demo_fresh a' 1 16.
Proof.
  destruct demo_fresh_wf as [W H].
  apply (free_range_correct (P := release_dev) demo_fresh 1 15 W); [by vm_compute..|].
  by apply no_heads_clear.
Defined.

(** Refinement.  In any well-formed state every legal request of a client is
    served without panicking, the new state is well-formed, and what the client
    sees is a step of the abstract allocator. *)
Theorem serve_refines_spec {P : Profile} a r :
  wf a -> legal (nr_frames a) (abs a) r ->
  exists x a', serve a r = Ok (x, a') /\ wf a' /\ nr_frames a' = nr_frames a /\
    spec_step (nr_frames a) (abs a) r x (abs a').
Proof.
  intros W Hl. destruct r as [o|p o|s n]; cbn [serve].
  - destruct (alloc_cases a o W Hl) as [(p & a' & E & H)|[E _]]; rewrite E.
    + exists (Some p), a'. split_and!; [done|apply H|apply H|]. constructor; apply H.
    + exists None, a. split_and!; [done..|]. by constructor.
  - destruct (free_ok a p o W (allocated_releasable a p o W Hl)) as (a' & E & H). rewrite E.
    exists None, a'. split_and!; [done|apply H|apply H|]. constructor; apply H.
  - pose proof Hl as (? & ? & ? & _).
    destruct (free_range_ok a s n W) as (a' & E & HR); [lia..|by apply wf_range_clear|]. rewrite E.
    exists None, a'. split_and!; [done|apply HR|apply HR|]. constructor; apply HR.
Qed.

Lemma serve_refines_spec_witness :
  exists x a', serve (P := release) demo (ReqAlloc 3) = Ok (x, a') /\ wf a' /\
    nr_frames a' = nr_frames demo /\ spec_step (nr_frames demo) (abs demo) (ReqAlloc 3) x (abs a').
Proof. apply (serve_refines_spec (P := release) demo (ReqAlloc 3) demo_wf). by vm_compute. Defined.

(** C7: safety of every state reached from a fresh allocator by legal requests:
    live blocks are in range, aligned and pairwise disjoint, and no frame of a
    live block is free, so no frame is ever handed out twice; and the counter is exact,
    [free_frames] being the number of distinct free frames. *)
Theorem reachable_never_overlaps {P : Profile} a :
  reachable a ->
  (forall p o, allocated a p = Some o ->
     block_ok (nr_frames a) p o /\
     (forall f, in_block p o f -> ~ free_in a f) /\
     (forall q o' f, allocated a q = Some o' -> p <> q -> in_block p o f -> ~ in_block q o' f)) /\
  exists l, NoDup l /\ (forall f, f ∈ l <-> free_in a f) /\ lenz l = free_frames a.
Proof.
  intros W%reachable_wf. split; [|by apply wf_free_list]. intros p o Hp. split_and!.
  - by eapply wf_block_facts.
  - intros f Hf (q & k & Hq & Hfq). eapply (wf_allocated_apart a p o q k); [done|done| | |exact Hf|done].
    + unfold heads. by rewrite Hq.
    + intros ->. unfold allocated in Hp. by rewrite Hq in Hp.
  - intros q o' f Hq Hne Hf.
    apply (wf_allocated_apart a p o q o'); [done|done|by apply allocated_heads|done..].
Qed.

Lemma reachable_never_overlaps_witness :
  reachable (P := release_dev) demo_held /\ allocated demo_held 4 = Some 2 /\
  (forall f, in_block 4 2 f -> ~ free_in demo_held f) /\
  exists l, NoDup l /\ (forall f, f ∈ l <-> free_in demo_held f) /\ lenz l = free_frames demo_held.
Proof.
  assert (reachable (P := release_dev) demo_held) as R.
  { eapply (reach_serve demo (ReqAlloc 2)); [|by vm_compute|apply demo_alloc].
    eapply (reach_serve demo_fresh (ReqFreeRange 1 15));
      [eapply reach_new; [| |apply demo_fresh_new]; by vm_compute
      | |cbn; by rewrite demo_free_range].
    destruct demo_fresh_wf as [W H]. cbn. split_and!; try lia.
    - intros f _ (p & k & Hm & _). by eapply no_heads_no_free.
    - intros p o f Ha%allocated_heads. by rewrite H in Ha. }
  split; [done|]. split; [reflexivity|].
  destruct (reachable_never_overlaps (P := release_dev) demo_held R) as [Hall Hcount].
  split; [|exact Hcount]. by apply (Hall 4 2).
Defined.

(** C26: allocating a block and releasing it restores the allocator.  From any
    well-formed state the same frames are free, the same blocks are allocated and the
    counter is back.  When no two free buddies were left unmerged, as they can be after
    [free_range], the free blocks too are the same ones. *)
Theorem free_undoes_alloc {P : Profile} a o p a1 :
  wf a -> 0 <= o < MAX_ORDER -> BuddyAllocator_alloc a o = Ok (Some p, a1) ->
  exists a2, BuddyAllocator_free a1 p o = Ok a2 /\ wf a2 /\
    (forall f, free_in a2 f <-> free_in a f) /\
    (forall q, allocated a2 q = allocated a q) /\ free_frames a2 = free_frames a /\
    (coalesced a -> forall q k, meta a2 q = Some (Free, k) <-> meta a q = Some (Free, k)).
Proof.
  intros W Ho E.
  destruct (alloc_cases a o W Ho) as [(p' & a' & E' & H)|[E' _]]; rewrite E' in E; simplify_eq.
  assert (allocated a1 p = Some o) as Hp by by rewrite (ho_alloc _ _ _ _ H), fn_lookup_insert.
  destruct (free_ok a1 p o (ho_wf _ _ _ _ H)) as (a2 & E2 & T);
    [by apply allocated_releasable, Hp; apply H|].
  assert (nr_frames a2 = nr_frames a) as Hnr by (rewrite (tb_nr _ _ _ _ T); apply H).
  assert (forall f, free_in a2 f <-> free_in a f) as Hf.
  { intros f. rewrite (tb_free _ _ _ _ T), (ho_rest _ _ _ _ H). pose proof (ho_free _ _ _ _ H f) as Hb.
    assert (in_block p o f \/ ~ in_block p o f) by (unfold in_block; lia). tauto. }
  pose proof (tb_wf _ _ _ _ T) as W2. exists a2. split_and!; [done..| | |].
  - intros q. rewrite (tb_alloc _ _ _ _ T). destruct (decide (q = p)) as [->|].
    + rewrite fn_lookup_insert. symmetry. apply H.
    + rewrite fn_lookup_insert_ne, (ho_alloc _ _ _ _ H) by done. by rewrite fn_lookup_insert_ne.
  - rewrite (tb_count _ _ _ _ T), (ho_count _ _ _ _ H). lia.
  - intros C q k. assert (coalesced a2) as C2 by by apply (tb_co _ _ _ _ T), H.
    split; apply coalesced_canonical; congruence || done.
Qed.

Lemma free_undoes_alloc_witness :
  exists a2, BuddyAllocator_free (P := release_dev) demo_held 4 2 = Ok a2 /\
    (forall f, free_in a2 f <-> free_in demo f) /\ free_frames a2 = free_frames demo /\
    forall q k, meta a2 q = Some (Free, k) <-> meta demo q = Some (Free, k).
Proof.
  destruct (free_undoes_alloc (P := release_dev) demo 2 4 demo_held demo_wf) as (a2 & E & _ & Hf & _ & Hc & Hco);
    [by vm_compute|apply demo_alloc|].
  exists a2. split_and!; [exact E|exact Hf|exact Hc|by apply Hco, demo_coalesced].
Defined.

(** Completeness.  When nothing is left uncoalesced, [alloc] refuses only if
    no aligned block of the requested size is wholly free. *)
Theorem alloc_refuses_only_when_full {P : Profile} a o q :
  wf a -> coalesced a -> 0 <= o < MAX_ORDER -> BuddyAllocator_alloc a o = Ok (None, a) ->
  block_ok (nr_frames a) q o -> ~ (forall f, in_block q o f -> free_in a f).
Proof.
  intros W C Ho E Hb Hf.
  destruct (alloc_cases a o W Ho) as [(p' & a' & E' & H)|[_ Hn]]; [congruence|].
  destruct (coalesced_covers a (Z.to_nat o) q W C) as (p & k & Hm & Hk & _);
    rewrite ?Z2Nat.id by lia; [done..|].
  rewrite Z2Nat.id in Hk by lia. specialize (Hn p k Hm). lia.
Qed.

Lemma alloc_refuses_only_when_full_witness :
  BuddyAllocator_alloc (P := release) demo 4 = Ok (None, demo) /\
  ~ (forall f, in_block 0 4 f -> free_in demo f).
Proof.
  split; [by vm_compute|].
  apply (alloc_refuses_only_when_full (P := release) demo 4 0 demo_wf demo_coalesced); [by vm_compute..|].
  split_and!; try by vm_compute. exists 0. reflexivity.
Defined.

(** The counter is exact: [free_frames] is the number of distinct free frames. *)
Theorem free_frames_counts_free_frames a :
  wf a -> exists l, NoDup l /\ (forall f, f ∈ l <-> free_in a f) /\ lenz l = free_frames a.
Proof. apply wf_free_list. Qed.

Lemma free_frames_counts_free_frames_witness :
  free_frames demo = 15 /\
  exists l, NoDup l /\ (forall f, f ∈ l <-> free_in demo f) /\ lenz l = free_frames demo.
Proof. split; [reflexivity|]. apply (free_frames_counts_free_frames demo demo_wf). Defined.

(** A fresh allocator is well-formed, owns every frame and gives none: every
    request is refused until [free_range] hands frames over. *)
Theorem new_owns_everything {P : Profile} pgs base nr o :
  0 <= nr <= lenz pgs -> nr <= RAW_NONE -> 0 <= o < MAX_ORDER ->
  exists a, BuddyAllocator_new pgs base nr = Ok a /\ wf a /\ coalesced a /\
    (forall f, ~ free_in a f) /\ free_frames a = 0 /\ BuddyAllocator_alloc a o = Ok (None, a).
Proof.
  intros Hnr Hraw Ho. destruct (new_ok pgs base nr Hnr Hraw) as (a & E & W & Hh & Hff & _).
  exists a. split_and!; [done..| | |done|].
  - intros p k _ Hm. by destruct (no_heads_no_free a p k Hh).
  - intros f (p & k & Hm & _). by eapply no_heads_no_free.
  - destruct (alloc_cases a o W Ho) as [(p & a' & _ & H)|[? _]]; [exfalso|done].
    pose proof (ho_block _ _ _ _ H) as (Hok & _).
    destruct (ho_free _ _ _ _ H p) as (q & k & Hm & _); [unfold in_block; lia|].
    by eapply no_heads_no_free.
Qed.

Lemma new_owns_everything_witness :
  exists a, BuddyAllocator_new (P := release) demo_pages 0x40000000 16 = Ok a /\ wf a /\ coalesced a /\
    (forall f, ~ free_in a f) /\ free_frames a = 0 /\
    BuddyAllocator_alloc (P := release) a 0 = Ok (None, a).
Proof. apply (new_owns_everything (P := release) demo_pages 0x40000000 16 0); by vm_compute. Defined.

(** The physical interface.  [alloc_pages] gives the address of a granted
    block, aligned to the block's size when the base is, and [free_pages] of that
    address takes the same block back. *)
Theorem alloc_pages_free_pages {P : Profile} a o pa a1 :
  wf a -> 0 <= o < MAX_ORDER -> 0 <= dram_base a -> (2 ^ o * PAGE_SIZE | dram_base a) ->
  dram_base a + nr_frames a * PAGE_SIZE < 2 ^ 64 ->
  BuddyAllocator_alloc_pages a o = Ok (Some pa, a1) ->
  (2 ^ o * PAGE_SIZE | pa) /\
  dram_base a <= pa /\ pa + 2 ^ o * PAGE_SIZE <= dram_base a + nr_frames a * PAGE_SIZE /\
  (exists p, pa = dram_base a + p * PAGE_SIZE /\ handed_out a a1 p o /\
     exists a2, BuddyAllocator_free_pages a1 pa o = Ok a2 /\ taken_back a1 a2 p o).
Proof.
  intros W Ho Hb Hal Hsum E. unfold BuddyAllocator_alloc_pages in E.
  destruct (alloc_cases a o W Ho) as [(p & a' & E' & H)|[E' _]]; rewrite E' in E; [|done].
  cbn [obind] in E. pose proof (ho_block _ _ _ _ H) as (_ & Hp & Hd & Hn).
  pose proof (pow2_pos o ltac:(lia)) as Hpos. pose proof W as (fl & I & _).
  destruct (inv_nr _ _ _ _ I) as [[Hnr0 Hnr] _].
  destruct (pfn_of_pa_of a' p) as [Epa Epfn];
    [by rewrite ?(ho_nr _ _ _ _ H), ?(ho_base _ _ _ _ H); try lia..| | |].
  { rewrite (ho_base _ _ _ _ H). etrans; [|exact Hal]. apply Z.divide_factor_r. }
  { by rewrite (ho_nr _ _ _ _ H), (ho_base _ _ _ _ H). }
  rewrite Epa in E. cbn [obind] in E. simplify_eq. rewrite (ho_base _ _ _ _ H) in *.
  split_and!; [|unfold PAGE_SIZE in *; nia..|].
  - apply Z.divide_add_r; [done|]. by apply Z.mul_divide_mono_r.
  - exists p. split_and!; [done..|]. unfold BuddyAllocator_free_pages. rewrite Epfn. cbn [obind].
    apply free_ok; [apply H|]. apply allocated_releasable; [apply H|].
    by rewrite (ho_alloc _ _ _ _ H), fn_lookup_insert.
Qed.

Lemma alloc_pages_free_pages_witness :
  BuddyAllocator_alloc_pages (P := release_dev) demo 2 = Ok (Some 0x40004000, demo_held) /\
  (2 ^ 2 * PAGE_SIZE | 0x40004000).
Proof.
  assert (BuddyAllocator_alloc_pages (P := release_dev) demo 2 = Ok (Some 0x40004000, demo_held)) as E
    by by vm_compute.
  split; [done|]. eapply (alloc_pages_free_pages (P := release_dev) demo 2 _ _ demo_wf);
    [by vm_compute..| | |exact E]; [exists (0x40000000 / (4 * 4096)); reflexivity|by vm_compute].
Defined.

(** [max_order_at] picks the largest order whose block is aligned at [pfn],
    fits in what remains and is below [MAX_ORDER]. *)
Theorem max_order_at_largest {P : Profile} pfn remaining o :
  0 < pfn < 2 ^ 32 -> 0 < remaining < 2 ^ 64 ->
  exists k, max_order_at pfn remaining = Ok k /\
    (0 <= o <= k <-> 0 <= o < MAX_ORDER /\ (2 ^ o | pfn) /\ 2 ^ o <= remaining).
Proof.
  intros Hp Hr. rewrite max_order_at_ok by lia. eexists. split; [done|].
  destruct (carve_order_fits pfn remaining ltac:(lia) ltac:(lia)) as [Hd Hf].
  pose proof (carve_order_range pfn remaining) as Hk. split.
  - intros Ho. split_and!; [lia..| |].
    + etrans; [|exact Hd]. exists (2 ^ (carve_order pfn remaining - o)).
      rewrite <- Z.pow_add_r by lia. f_equal. lia.
    + etrans; [|exact Hf]. apply Z.pow_le_mono_r; lia.
  - intros (Ho & Hdo & Hfo). split; [lia|]. unfold carve_order.
    assert (o <= trailing_zeros 32 pfn) by (apply trailing_zeros_largest; lia || done).
    assert (o <= Z.log2 remaining) by (apply Z.log2_le_pow2; lia). lia.
Qed.

Lemma max_order_at_largest_witness :
  exists k, max_order_at (P := release) 12 100 = Ok k /\
    (0 <= 2 <= k <-> 0 <= 2 < MAX_ORDER /\ (2 ^ 2 | 12) /\ 2 ^ 2 <= 100).
Proof. apply (max_order_at_largest (P := release) 12 100 2); lia. Defined.

(** [memmap_frames] is the least number of frames that holds one descriptor
    per frame. *)
Theorem memmap_frames_tight {P : Profile} nr :
  0 <= nr -> nr * SIZEOF_PageInfo < 2 ^ 64 ->
  exists m, memmap_frames nr = Ok m /\ nr * SIZEOF_PageInfo <= m * PAGE_SIZE /\
    forall m', nr * SIZEOF_PageInfo <= m' * PAGE_SIZE -> m <= m'.
Proof.
  unfold memmap_frames. intros. rewrite umul_ok by (unfold SIZEOF_PageInfo in *; lia). cbn [obind].
  eexists. split; [done|]. pose proof (div_ceil_spec (nr * SIZEOF_PageInfo) PAGE_SIZE ltac:(done)) as [? ?].
  split; [done|]. intros m' Hm'. unfold PAGE_SIZE in *. nia.
Qed.

Lemma memmap_frames_tight_witness :
  exists m, memmap_frames (P := release) 32768 = Ok m /\ 32768 * SIZEOF_PageInfo <= m * PAGE_SIZE /\
    forall m', 32768 * SIZEOF_PageInfo <= m' * PAGE_SIZE -> m <= m'.
Proof. apply (memmap_frames_tight (P := release) 32768); by vm_compute. Defined.

(** [buddy_pfn] of an aligned in-range frame never panics and is an involution
    that names the other half of the enclosing block. *)
Theorem buddy_pfn_involutive {P : Profile} a p o b :
  0 <= o < MAX_ORDER -> 0 <= p < nr_frames a -> nr_frames a <= RAW_NONE -> (2 ^ o | p) ->
  buddy_pfn a p o = Ok (Some b) ->
  buddy_pfn a b o = Ok (Some p) /\ b < nr_frames a /\ (2 ^ o | b) /\
  (2 ^ (o + 1) | Z.min p b) /\ Z.max p b = Z.min p b + 2 ^ o.
Proof.
  intros Ho Hp Hnr Hd. pose proof (pow2_pos o ltac:(lia)) as Hpos.
  unfold buddy_pfn. rewrite !debug_assert_true by lia. cbn [obind].
  rewrite ushl_one_ok by (unfold MAX_ORDER in *; lia). cbn [obind].
  destruct (Z.leb_spec (nr_frames a) (Z.lxor p (2 ^ o))) as [?|Hlt]; intros [= <-].
  rewrite buddy_xor_involutive by lia. destruct (Z.leb_spec (nr_frames a) p); [lia|].
  destruct (buddy_xor p o ltac:(lia) ltac:(lia) Hd) as (m & _ & Hm).
  split_and!; [done..| | |lia].
  - destruct Hm as [[_ ->]|[_ ->]]; [apply Z.divide_add_r|apply Z.divide_sub_r]; done.
  - exists m. lia.
Qed.

Lemma buddy_pfn_involutive_witness :
  buddy_pfn (P := release_dev) demo 4 2 = Ok (Some 0) /\ 0 < nr_frames demo /\ (2 ^ 2 | 0) /\
  (2 ^ (2 + 1) | Z.min 4 0) /\ Z.max 4 0 = Z.min 4 0 + 2 ^ 2.
Proof.
  split; [by vm_compute|].
  apply (buddy_pfn_involutive (P := release_dev) demo 4 2 0); [by vm_compute..| |by vm_compute].
  exists 1. reflexivity.
Defined.
