(* ===== verification/BuddyAddr.v ===== *)
(** * Buddy allocator: blocks as ranges of the linear map

    The physical-address interface used by the kernel's own clients (the page
    source, the slab, the per-CPU stacks): an allocator placed inside the linear
    window, and what [alloc_pages] and [free_pages] do there, as byte ranges. *)

From S2P Require Import Prelude FrameTypes Layout Buddy BuddyInv BuddyGeom BuddyWf BuddySteps BuddyCore BuddyFree BuddyRange BuddyCanon BuddyProps.

(** A well-formed allocator over page-aligned RAM that the linear map covers. *)
Record placed (b : BuddyAllocator) : Prop := {
  pl_wf : wf b;
  pl_base : 0 <= dram_base b;
  pl_align : (PAGE_SIZE | dram_base b);
  pl_span : dram_base b + nr_frames b * PAGE_SIZE <= LINEAR_SPAN;
}.

(** The linear address of frame [f], and the bytes of a block. *)
Definition frame_va (b : BuddyAllocator) (f : Z) : Z :=
  dram_base b + f * PAGE_SIZE + KERNEL_LINEAR_BASE.
Definition block_bytes (o : Z) : Z := 2 ^ o * PAGE_SIZE.

Lemma block_bytes_pos o : 0 <= o -> PAGE_SIZE <= block_bytes o.
Proof. intros. unfold block_bytes, PAGE_SIZE. pose proof (pow2_pos o). lia. Qed.

Lemma frame_va_base b b' f : dram_base b' = dram_base b -> frame_va b' f = frame_va b f.
Proof. unfold frame_va. by intros ->. Qed.

Section addr.
Context {P : Profile}.

Lemma handed_out_placed b b' p o : placed b -> handed_out b b' p o -> placed b'.
Proof.
  intros [W Hb Hal Hs] H. split; rewrite ?(ho_base _ _ _ _ H), ?(ho_nr _ _ _ _ H); try done. apply H.
Qed.

Lemma taken_back_placed b b' p o : placed b -> taken_back b b' p o -> placed b'.
Proof.
  intros [W Hb Hal Hs] H. split; rewrite ?(tb_base _ _ _ _ H), ?(tb_nr _ _ _ _ H); try done. apply H.
Qed.

Lemma placed_nr b : placed b -> nr_frames b <= RAW_NONE.
Proof. intros [(fl & I & _) _ _ _]. apply I. Qed.

(** Frames of [b] convert both ways without panic. *)
Lemma placed_convert b p :
  placed b -> 0 <= p < nr_frames b ->
  pa_of b p = Ok (dram_base b + p * PAGE_SIZE) /\
  pfn_of b (dram_base b + p * PAGE_SIZE) = Ok p /\
  pa_to_linear_va (dram_base b + p * PAGE_SIZE) = Ok (frame_va b p) /\
  linear_va_to_pa (frame_va b p) = Ok (dram_base b + p * PAGE_SIZE).
Proof.
  intros Hpl Hp. pose proof Hpl as [W Hb Hal Hs].
  destruct (pfn_of_pa_of b p) as [? ?]; [done|by apply placed_nr|done|done|unfold_layout; lia|].
  split_and!; [done..| |]; unfold frame_va.
  - apply pa_to_linear_va_ok. unfold_layout. lia.
  - rewrite linear_va_to_pa_ok by (unfold_layout; lia). f_equal. lia.
Qed.

Lemma alloc_pages_cases b o :
  placed b -> 0 <= o < MAX_ORDER ->
  (exists p b', BuddyAllocator_alloc_pages b o = Ok (Some (dram_base b + p * PAGE_SIZE), b') /\
     handed_out b b' p o /\
     pa_to_linear_va (dram_base b + p * PAGE_SIZE) = Ok (frame_va b p)) \/
  (BuddyAllocator_alloc_pages b o = Ok (None, b) /\ forall p k, meta b p = Some (Free, k) -> k < o).
Proof.
  intros Hpl Ho. pose proof Hpl as [W Hb Hal Hs]. unfold BuddyAllocator_alloc_pages.
  destruct (alloc_cases b o W Ho) as [(p & b' & -> & H)|[-> Hn]]; [left|by right].
  cbn [obind]. pose proof (ho_block _ _ _ _ H) as (_ & Hp & _ & Hn). pose proof (pow2_pos o ltac:(lia)).
  destruct (placed_convert b' p) as (-> & _); [by eapply handed_out_placed|rewrite (ho_nr _ _ _ _ H); lia|].
  cbn [obind]. rewrite (ho_base _ _ _ _ H). exists p, b'. split_and!; [done..|].
  apply placed_convert; [done|lia].
Qed.

(** A request larger than every free block is refused. *)
Lemma alloc_pages_refused b o :
  wf b -> 0 <= o -> (forall p k, meta b p = Some (Free, k) -> k < o) -> BuddyAllocator_alloc_pages b o = Ok (None, b).
Proof.
  intros (fl & W) Ho Hn. unfold BuddyAllocator_alloc_pages. rewrite (alloc_none b fl o W Ho); [done|].
  intros k Hk. destruct (fl k) as [|p l] eqn:El; [done|]. exfalso.
  destruct (inv_member (wf_inv _ _ W) k p) as (_ & Hm & _); [lia|rewrite El; by left|]. specialize (Hn p k Hm). lia.
Qed.

(** No list holds an order outside the allocator's. *)
Lemma alloc_pages_too_large b o : MAX_ORDER <= o -> BuddyAllocator_alloc_pages b o = Ok (None, b).
Proof.
  intros Ho. unfold BuddyAllocator_alloc_pages, BuddyAllocator_alloc.
  by rewrite seqZ_nil by lia.
Qed.

Lemma free_pages_ok b p o :
  placed b -> allocated b p = Some o ->
  exists b', BuddyAllocator_free_pages b (dram_base b + p * PAGE_SIZE) o = Ok b' /\ taken_back b b' p o.
Proof.
  intros Hpl Ha. pose proof Hpl as [W Hb Hal Hs]. unfold BuddyAllocator_free_pages.
  destruct (wf_block_facts _ _ _ W Ha) as (Ho & Hp & _ & Hn). pose proof (pow2_pos o ltac:(lia)).
  destruct (placed_convert b p) as (_ & -> & _); [done|lia|]. cbn [obind].
  apply free_ok; [done|]. by apply allocated_releasable.
Qed.

(** Two allocated blocks are apart as byte ranges. *)
Lemma allocated_bytes_apart b p o q k :
  wf b -> allocated b p = Some o -> allocated b q = Some k -> p <> q ->
  frame_va b p + block_bytes o <= frame_va b q \/ frame_va b q + block_bytes k <= frame_va b p.
Proof.
  intros W Hp Hq Hne. pose proof (wf_allocated_apart b p o q k W Hp (allocated_heads _ _ _ Hq) Hne) as Hd.
  destruct (wf_block_facts _ _ _ W Hp) as (Ho & _). destruct (wf_block_facts _ _ _ W Hq) as (Hk & _).
  pose proof (pow2_pos o ltac:(lia)). pose proof (pow2_pos k ltac:(lia)).
  unfold frame_va, block_bytes, in_block, PAGE_SIZE in *.
  destruct (Z.le_gt_cases (p + 2 ^ o) q); [left; lia|].
  destruct (Z.le_gt_cases (q + 2 ^ k) p); [right; lia|].
  exfalso. apply (Hd (Z.max p q)); lia.
Qed.

Lemma frame_va_pos b p : placed b -> 0 <= p -> 0 < frame_va b p.
Proof. intros [_ ? _ _] ?. unfold frame_va. unfold_layout. lia. Qed.

Lemma frame_va_page b p : placed b -> (PAGE_SIZE | frame_va b p).
Proof.
  intros [_ _ ? _]. unfold frame_va. apply Z.divide_add_r; [apply Z.divide_add_r; [done|apply Z.divide_factor_r]|].
  by exists (KERNEL_LINEAR_BASE / PAGE_SIZE).
Qed.
End addr.

(* ------------------------------------------------------------------------- *)
(** ** What clients draw from an allocator *)

(** [b'] is [b] after some blocks have been handed out. *)
Record drawn (b b' : BuddyAllocator) : Prop := {
  dr_placed : placed b -> placed b';
  dr_free : forall f, free_in b' f -> free_in b f;
  dr_lost : forall f, free_in b f -> free_in b' f \/ exists p o, allocated b' p = Some o /\ in_block p o f;
  dr_keep : forall p o, allocated b p = Some o -> allocated b' p = Some o;
  dr_new : forall p o f, allocated b' p = Some o -> in_block p o f -> allocated b p = Some o \/ free_in b f;
  dr_base : dram_base b' = dram_base b;
  dr_nr : nr_frames b' = nr_frames b;
}.

#[export] Instance drawn_preorder : PreOrder drawn.
Proof.
  split.
  - intros b. split; try done; by left.
  - intros a b c [H1 H2 HL H3 H4 H5 H6] [G1 G2 GL G3 G4 G5 G6]. split; try congruence; auto.
    + intros f Hf. destruct (HL f Hf) as [Hb|(p & o & Hp & Ho)]; [by apply GL|right; exists p, o; auto].
    + intros p o f Hp Hf. destruct (G4 p o f Hp Hf) as [Hb|Hb]; [by apply H4|right; by apply H2].
Qed.

Lemma handed_out_drawn b b' p o : handed_out b b' p o -> drawn b b'.
Proof.
  intros H. split; [by intros Hb; eapply handed_out_placed| | | | |apply H|apply H].
  - intros f Hf. by apply (ho_rest _ _ _ _ H).
  - intros f Hf. destruct (decide (p <= f < p + 2 ^ o)) as [Hin|Hin].
    + right. exists p, o. by rewrite (ho_alloc _ _ _ _ H), fn_lookup_insert.
    + left. by apply (ho_rest _ _ _ _ H).
  - intros x k Hx. rewrite (ho_alloc _ _ _ _ H), fn_lookup_insert_ne; [done|]. intros <-.
    by rewrite (ho_fresh _ _ _ _ H) in Hx.
  - intros x k f. rewrite (ho_alloc _ _ _ _ H). destruct (decide (x = p)) as [->|Hne].
    + rewrite fn_lookup_insert. intros [= <-] Hf. right. by apply H.
    + rewrite fn_lookup_insert_ne by done. by left.
Qed.
