(* ===== verification/BuddyTypes.v ===== *)
(** * Buddy allocator: every field keeps the type the code gives it

    The model holds the code's [u8], [u16], [u32] and [u64] values as [Z].  Here is the
    type of each field, and that every operation keeps it, in both profiles and from any
    state of that type, well formed or not: where [release] wraps, it wraps into the type. *)

From S2P Require Import Prelude FrameTypes Layout Buddy BuddyInv BuddyGeom BuddyWf BuddySteps BuddyCore BuddyFree BuddyRange BuddyCanon BuddyProps.

(** [m] gives a [Q] when it returns. *)
Definition ensures {A} (m : outcome A) (Q : A -> Prop) : Prop :=
  match m with Ok x => Q x | Panic _ => True end.

Section ensures.
Context {A B : Type}.

Lemma ensures_Ok (x : A) (Q : A -> Prop) : Q x -> ensures (Ok x) Q.
Proof. done. Qed.

Lemma ensures_bind (m : outcome A) (k : A -> outcome B) R (Q : B -> Prop) :
  ensures m R -> (forall x, R x -> ensures (k x) Q) -> ensures (obind m k) Q.
Proof. destruct m; simpl; auto. Qed.

(** What is bound is not looked at. *)
Lemma ensures_any (m : outcome A) (k : A -> outcome B) (Q : B -> Prop) :
  (forall x, ensures (k x) Q) -> ensures (obind m k) Q.
Proof. destruct m; simpl; auto. Qed.

Lemma ensures_weaken (m : outcome A) (Q R : A -> Prop) : ensures m Q -> (forall x, Q x -> R x) -> ensures m R.
Proof. destruct m; simpl; auto. Qed.

End ensures.

Section loops.
Context {A B : Type}.

Lemma ensures_while (I : A -> Prop) cond body fuel s :
  (forall s, I s -> cond s = true -> ensures (body s) I) -> I s -> ensures (while fuel cond body s) I.
Proof.
  intros Hb. revert s. induction fuel as [|n IH]; intros s Hs; simpl; destruct (cond s) eqn:Hc; try done.
  eapply ensures_bind; [by apply Hb|exact IH].
Qed.

Lemma ensures_loop (I : A -> Prop) (Q : B -> Prop) body fuel s :
  (forall s, I s -> ensures (body s) (fun r => match r with inl s => I s | inr r => Q r end)) -> I s ->
  ensures (loop fuel body s) Q.
Proof.
  intros Hb. revert s. induction fuel as [|n IH]; intros s Hs; simpl; [done|].
  eapply ensures_bind; [by apply Hb|]. intros [s'|r] Hr; [by apply IH|done].
Qed.
End loops.

(* ------------------------------------------------------------------------- *)
(** ** Machine arithmetic *)

Section arithmetic.
Context {P : Profile}.

Lemma arith_typed w x : 0 <= w -> ensures (arith w x) (unsigned w).
Proof. intros Hw. destruct (arith w x) as [y|] eqn:E; [|done]. by eapply arith_range. Qed.

Lemma wrap_typed w x : 0 <= w -> unsigned w (wrap w x).
Proof. intros. unfold unsigned, wrap. apply Z.mod_pos_bound. lia. Qed.

Lemma ushl_typed w x s : 0 <= w -> ensures (ushl w x s) (unsigned w).
Proof.
  intros Hw. unfold ushl. destruct (s <? w); [by apply wrap_typed|]. destruct checked; [done|by apply wrap_typed].
Qed.

Lemma lxor_typed w x y : 0 <= w -> unsigned w x -> unsigned w y -> unsigned w (Z.lxor x y).
Proof.
  intros Hw [Hx0 Hx] [Hy0 Hy]. assert (0 <= Z.lxor x y) as H0 by (by apply Z.lxor_nonneg). split; [done|].
  destruct (Z.eq_dec (Z.lxor x y) 0) as [->|Hne]; [lia|]. apply Z.log2_lt_pow2; [lia|].
  eapply Z.le_lt_trans; [by apply Z.log2_lxor|]. apply Z.max_lub_lt.
  - destruct (Z.eq_dec x 0) as [->|]; [|apply Z.log2_lt_pow2; lia]. change (Z.log2 0) with 0.
    destruct (Z.eq_dec w 0) as [->|]; [|lia]. exfalso. apply Hne. assert (y = 0) as -> by lia. done.
  - destruct (Z.eq_dec y 0) as [->|]; [|apply Z.log2_lt_pow2; lia]. change (Z.log2 0) with 0.
    destruct (Z.eq_dec w 0) as [->|]; [|lia]. exfalso. apply Hne. assert (x = 0) as -> by lia. done.
Qed.
End arithmetic.

(* ------------------------------------------------------------------------- *)
(** ** The types *)

Definition link_typed (l : option Z) : Prop := match l with Some p => unsigned 32 p | None => True end.

Record PageInfo_typed (p : PageInfo) : Prop := {
  ty_next : unsigned 32 (pi_next p);
  ty_prev : unsigned 32 (pi_prev p);
  ty_count : unsigned 32 (pi_count p);
  ty_order : unsigned 8 (pi_order p);
  ty_flags : unsigned 16 (pi_flags p);
}.

Record BuddyAllocator_typed (a : BuddyAllocator) : Prop := {
  ty_pages : Forall PageInfo_typed (pages a);
  ty_base : unsigned 64 (dram_base a);
  ty_nr : unsigned 64 (nr_frames a);
  ty_area : Forall link_typed (free_area a) /\ lenz (free_area a) = MAX_ORDER;
  ty_free : unsigned 64 (free_frames a);
}.

Section types.
Context {P : Profile}.
Implicit Types (a : BuddyAllocator) (p : PageInfo).

Lemma raw_none_typed : unsigned 32 RAW_NONE.
Proof. unfold unsigned, RAW_NONE. lia. Qed.

Lemma getz_Forall {A} (Q : A -> Prop) l i x : Forall Q l -> getz l i = Some x -> Q x.
Proof.
  unfold getz. destruct (0 <=? i); [|done]. intros Hl Hi. rewrite list.Forall_forall in Hl.
  by eapply Hl, list_elem_of_lookup_2.
Qed.

Lemma setz_Forall {A} (Q : A -> Prop) l i x : Forall Q l -> Q x -> Forall Q (setz l i x).
Proof. unfold setz. destruct (0 <=? i); [|done]. intros Hl Hx. by apply Forall_insert. Qed.

Lemma idx_typed {A} (Q : A -> Prop) l i : Forall Q l -> ensures (idx l i) Q.
Proof. intros Hl. unfold idx. destruct (getz l i) as [x|] eqn:E; [|done]. exact (getz_Forall Q l i x Hl E). Qed.

(** Descriptors. *)
Lemma set_next_typed p l : PageInfo_typed p -> link_typed l -> ensures (PageInfo_set_next p l) PageInfo_typed.
Proof.
  intros [H1 H2 H3 H4 H5] Hl. pose proof raw_none_typed. unfold PageInfo_set_next. destruct l as [q|]; [|by split].
  apply ensures_any. intros _. by split.
Qed.

Lemma set_prev_typed p l : PageInfo_typed p -> link_typed l -> ensures (PageInfo_set_prev p l) PageInfo_typed.
Proof.
  intros [H1 H2 H3 H4 H5] Hl. pose proof raw_none_typed. unfold PageInfo_set_prev. destruct l as [q|]; [|by split].
  apply ensures_any. intros _. by split.
Qed.

Lemma mark_free_typed p o : PageInfo_typed p -> unsigned 8 o -> ensures (PageInfo_mark_free p o) PageInfo_typed.
Proof. intros [H1 H2 H3 H4 H5] Ho. by split. Qed.

(** The marks that also clear the links. *)
Lemma cleared_typed p :
  PageInfo_typed p -> ensures (let! p := PageInfo_set_next p None in PageInfo_set_prev p None) PageInfo_typed.
Proof. intros Hp. eapply ensures_bind; [by apply set_next_typed|]. intros q Hq. by apply set_prev_typed. Qed.

Lemma mark_tail_typed p : PageInfo_typed p -> ensures (PageInfo_mark_tail p) PageInfo_typed.
Proof. intros [H1 H2 H3 H4 H5]. by apply cleared_typed. Qed.

Lemma mark_reserved_typed p : PageInfo_typed p -> ensures (PageInfo_mark_reserved p) PageInfo_typed.
Proof. intros [H1 H2 H3 H4 H5]. by apply cleared_typed. Qed.

Lemma mark_allocated_typed p o : PageInfo_typed p -> unsigned 8 o -> ensures (PageInfo_mark_allocated p o) PageInfo_typed.
Proof. intros [H1 H2 H3 H4 H5] Ho. by apply cleared_typed. Qed.

Lemma next_typed p : PageInfo_typed p -> ensures (PageInfo_next p) link_typed.
Proof. intros [H1 _ _ _ _]. apply ensures_any. intros _. by destruct (pi_next p =? RAW_NONE). Qed.

Lemma prev_typed p : PageInfo_typed p -> ensures (PageInfo_prev p) link_typed.
Proof. intros [_ H2 _ _ _]. apply ensures_any. intros _. by destruct (pi_prev p =? RAW_NONE). Qed.

(** The allocator's fields, one at a time. *)
Lemma page_mut_typed a pfn f :
  BuddyAllocator_typed a -> (forall p, PageInfo_typed p -> ensures (f p) PageInfo_typed) ->
  ensures (page_mut a pfn f) BuddyAllocator_typed.
Proof.
  intros [H1 H2 H3 H4 H5] Hf. eapply ensures_bind; [by apply (idx_typed PageInfo_typed)|]. intros p Hp.
  eapply ensures_bind; [by apply Hf|]. intros q Hq. split; try done. by apply setz_Forall.
Qed.

Lemma set_free_area_typed a o l : BuddyAllocator_typed a -> link_typed l -> ensures (set_free_area a o l) BuddyAllocator_typed.
Proof.
  intros [H1 H2 H3 [H4 H4'] H5] Hl. unfold set_free_area, set_idx. destruct (getz (free_area a) o); [|done].
  split; try done. cbn. split; [by apply setz_Forall|by rewrite lenz_setz].
Qed.

Lemma free_frames_typed a n : BuddyAllocator_typed a -> unsigned 64 n -> BuddyAllocator_typed (with_free_frames a n).
Proof. intros [H1 H2 H3 H4 H5] Hn. by split. Qed.

Lemma page_typed a pfn : BuddyAllocator_typed a -> ensures (page a pfn) PageInfo_typed.
Proof. intros H. apply idx_typed, H. Qed.

(** The lists. *)
Lemma push_front_typed a o pfn :
  BuddyAllocator_typed a -> unsigned 32 pfn -> ensures (push_front a o pfn) BuddyAllocator_typed.
Proof.
  intros Ha Hp. unfold push_front. apply ensures_any. intros p. apply ensures_any. intros _.
  eapply ensures_bind; [apply (idx_typed link_typed), Ha|]. intros h Hh.
  eapply ensures_bind; [apply page_mut_typed; [done|intros; by apply set_prev_typed]|]. intros a1 H1.
  eapply ensures_bind; [apply page_mut_typed; [done|intros; by apply set_next_typed]|]. intros a2 H2.
  eapply (ensures_bind _ _ BuddyAllocator_typed).
  - destruct h as [h|]; [|done]. apply page_mut_typed; [done|]. intros; by apply set_prev_typed.
  - intros a3 H3. by apply set_free_area_typed.
Qed.

Lemma unlink_typed a o pfn : BuddyAllocator_typed a -> ensures (unlink a o pfn) BuddyAllocator_typed.
Proof.
  intros Ha. unfold unlink. eapply ensures_bind; [by apply page_typed|]. intros p Hp.
  eapply ensures_bind; [by apply prev_typed|]. intros prev Hprev.
  eapply ensures_bind; [by apply page_typed|]. intros q Hq.
  eapply ensures_bind; [by apply next_typed|]. intros next Hnext.
  eapply (ensures_bind _ _ BuddyAllocator_typed).
  - destruct prev; [|by apply set_free_area_typed]. apply page_mut_typed; [done|]. intros; by apply set_next_typed.
  - intros a1 H1. destruct next; [|done]. apply page_mut_typed; [done|]. intros; by apply set_prev_typed.
Qed.

Lemma pop_front_typed a o :
  BuddyAllocator_typed a -> ensures (pop_front a o) (fun r => link_typed r.1 /\ BuddyAllocator_typed r.2).
Proof.
  intros Ha. unfold pop_front. eapply ensures_bind; [apply (idx_typed link_typed), Ha|]. intros [h|] Hh; [|done].
  eapply ensures_bind; [by apply unlink_typed|]. intros a1 H1. done.
Qed.

(** [alloc]. *)
Lemma as_u8_typed x : unsigned 8 (as_u8 x).
Proof. by apply wrap_typed. Qed.
Lemma as_u32_typed x : unsigned 32 (as_u32 x).
Proof. by apply wrap_typed. Qed.

Lemma alloc_split_typed block s :
  unsigned 32 block -> BuddyAllocator_typed s.2 ->
  ensures (alloc_split_step block s) (fun s => BuddyAllocator_typed s.2).
Proof.
  destruct s as [k a]. cbn [snd]. intros Hb Ha. unfold alloc_split_step. do 2 (apply ensures_any; intros ?).
  eapply ensures_bind; [by apply arith_typed|]. intros buddy Hbuddy.
  eapply ensures_bind; [apply page_mut_typed; [done|intros; apply mark_free_typed; [done|apply as_u8_typed]]|].
  intros a1 H1. eapply ensures_bind; [by apply push_front_typed|]. intros a2 H2. done.
Qed.

Lemma alloc_typed a order :
  BuddyAllocator_typed a -> unsigned 8 order ->
  ensures (BuddyAllocator_alloc a order) (fun r => link_typed r.1 /\ BuddyAllocator_typed r.2).
Proof.
  intros Ha Ho. unfold BuddyAllocator_alloc. apply ensures_any. intros [k|]; [|done].
  eapply ensures_bind; [by apply pop_front_typed|]. intros [h a1] [Hh H1]. cbn [fst snd] in *.
  eapply (ensures_bind _ _ (unsigned 32)); [by destruct h|]. intros block Hb.
  eapply (ensures_bind _ _ (fun s => BuddyAllocator_typed s.2)).
  { apply ensures_while; [|done]. intros s Hs _. by apply alloc_split_typed. }
  intros [k' a2] H2. cbn [snd] in H2. apply ensures_any. intros size.
  eapply ensures_bind; [by apply arith_typed|]. intros n Hn.
  eapply ensures_bind; [|intros a3 H3; split; [exact Hb|exact H3]].
  apply page_mut_typed; [by apply free_frames_typed|]. intros; by apply mark_allocated_typed.
Qed.

(** [free]. *)
Definition block_typed (s : (Z * Z) * BuddyAllocator) : Prop :=
  unsigned 32 s.1.1 /\ unsigned 8 s.1.2 /\ BuddyAllocator_typed s.2.

Lemma free_merge_typed s :
  block_typed s -> ensures (free_merge_step s) (fun r => match r with inl s => block_typed s | inr s => block_typed s end).
Proof.
  destruct s as [[cur o] a]. intros (Hc & Ho & Ha). cbn [fst snd] in *. unfold free_merge_step. destruct (o <? _); [|done].
  eapply (ensures_bind _ _ link_typed).
  { unfold buddy_pfn. apply ensures_any. intros _. eapply ensures_bind; [by apply ushl_typed|]. intros bit Hbit.
    destruct (nr_frames a <=? _); [done|]. by apply lxor_typed. }
  intros [buddy|] Hb; [|done]. apply ensures_any. intros p. apply ensures_any. intros [|]; [|done]. cbn [negb].
  eapply ensures_bind; [by apply unlink_typed|]. intros a1 H1.
  destruct (cur <? buddy); (eapply ensures_bind; [by apply page_mut_typed; [|apply mark_tail_typed]|]; intros a2 H2;
    eapply ensures_bind; [by apply arith_typed|]; intros o' Ho'; done).
Qed.

Lemma free_typed a pfn order :
  BuddyAllocator_typed a -> unsigned 32 pfn -> unsigned 8 order -> ensures (BuddyAllocator_free a pfn order) BuddyAllocator_typed.
Proof.
  intros Ha Hp Ho. unfold BuddyAllocator_free. apply ensures_any. intros size.
  eapply ensures_bind; [by apply arith_typed|]. intros n Hn.
  eapply (ensures_bind _ _ block_typed).
  { apply (ensures_loop block_typed).
    - intros s. apply free_merge_typed.
    - split_and!; [done..|]. by apply free_frames_typed. }
  intros [[cur o] a1] (H1 & H2 & H3). cbn [fst snd] in *.
  eapply ensures_bind; [apply page_mut_typed; [done|intros; by apply mark_free_typed]|]. intros a2 Ha2. by apply push_front_typed.
Qed.

(** [free_range]. *)
Lemma mark_tail_step_typed pfn s :
  BuddyAllocator_typed s.2 -> ensures (mark_tail_step pfn s) (fun s => BuddyAllocator_typed s.2).
Proof.
  destruct s as [i a]. cbn [snd]. intros Ha. unfold mark_tail_step. apply ensures_any. intros t.
  eapply ensures_bind; [by apply page_mut_typed; [|apply mark_tail_typed]|]. intros a1 H1. apply ensures_any. intros i'. done.
Qed.

Lemma free_range_step_typed lim s :
  unsigned 32 s.1 -> BuddyAllocator_typed s.2 ->
  ensures (free_range_step lim s) (fun s => unsigned 32 s.1 /\ BuddyAllocator_typed s.2).
Proof.
  destruct s as [pfn a]. cbn [fst snd]. intros Hp Ha. unfold free_range_step. apply ensures_any. intros remaining.
  eapply (ensures_bind _ _ (unsigned 8)). { unfold max_order_at. apply ensures_any. intros top. apply as_u8_typed. }
  intros order Ho. apply ensures_any. intros bound.
  eapply (ensures_bind _ _ (fun s => BuddyAllocator_typed s.2)).
  { apply ensures_while; [|done]. intros s Hs _. by apply mark_tail_step_typed. }
  intros [i a1] H1. cbn [snd] in H1.
  eapply ensures_bind; [apply page_mut_typed; [done|intros; by apply mark_free_typed]|]. intros a2 H2.
  eapply ensures_bind; [by apply push_front_typed|]. intros a3 H3. apply ensures_any. intros size.
  eapply ensures_bind; [by apply arith_typed|]. intros n Hn. apply ensures_any. intros st.
  eapply ensures_bind; [by apply arith_typed|]. intros pfn' Hp'. split; [done|]. by apply free_frames_typed.
Qed.

Lemma free_range_typed a start count :
  BuddyAllocator_typed a -> unsigned 32 start -> ensures (BuddyAllocator_free_range a start count) BuddyAllocator_typed.
Proof.
  intros Ha Hs. unfold BuddyAllocator_free_range. do 2 (apply ensures_any; intros ?). apply ensures_any. intros lim.
  eapply (ensures_bind _ _ (fun s => unsigned 32 s.1 /\ BuddyAllocator_typed s.2)); [|by intros [i a1] [_ H1]].
  apply ensures_while; [|done]. intros s [H1 H2] _. by apply free_range_step_typed.
Qed.

(** The physical interface, and construction. *)
Lemma pa_of_typed a pfn : ensures (pa_of a pfn) (unsigned 64).
Proof. unfold pa_of. do 2 (apply ensures_any; intros ?). by apply arith_typed. Qed.

Lemma pfn_of_typed a pa : ensures (pfn_of a pa) (unsigned 32).
Proof. unfold pfn_of. do 4 (apply ensures_any; intros ?). apply as_u32_typed. Qed.

Lemma new_typed raw base nr :
  Forall PageInfo_typed raw -> unsigned 64 base -> unsigned 64 nr -> ensures (BuddyAllocator_new raw base nr) BuddyAllocator_typed.
Proof.
  intros Hr Hb Hn. unfold BuddyAllocator_new. apply ensures_any. intros _.
  eapply (ensures_bind _ _ (Forall PageInfo_typed)).
  - induction Hr as [|p l Hp _ IH]; cbn [mark_all_reserved]; [by constructor|].
    eapply (ensures_bind (PageInfo_mark_reserved p)); [by apply mark_reserved_typed|]. intros q Hq.
    eapply ensures_bind; [exact IH|]. intros l' Hl'. by constructor.
  - intros l Hl. split; cbn; try done. split; [by apply Forall_replicate|done].
Qed.

(** The types hold.  From any state whose fields have the types of [PageInfo]'s and
    [BuddyAllocator]'s declarations, consistent or not, in either profile, every
    operation that returns leaves fields of those types, and gives addresses of 64 bits;
    so does construction on any memory: no arithmetic leaves its width. *)
Theorem buddy_types_preserved a :
  BuddyAllocator_typed a ->
  (forall order r a', unsigned 8 order -> BuddyAllocator_alloc_pages a order = Ok (r, a') ->
     BuddyAllocator_typed a' /\ forall pa, r = Some pa -> unsigned 64 pa) /\
  (forall pa order a', unsigned 8 order -> BuddyAllocator_free_pages a pa order = Ok a' -> BuddyAllocator_typed a') /\
  (forall start count a', unsigned 32 start -> BuddyAllocator_free_range a start count = Ok a' -> BuddyAllocator_typed a') /\
  (forall raw mm base nr a', Forall PageInfo_typed raw -> unsigned 64 base -> unsigned 64 nr ->
     BuddyAllocator_new_at raw mm base nr = Ok a' -> BuddyAllocator_typed a').
Proof.
  intros Ha. split_and!.
  - intros order r a' Ho E.
    assert (ensures (BuddyAllocator_alloc_pages a order) (fun x => BuddyAllocator_typed x.2 /\ forall pa, x.1 = Some pa -> unsigned 64 pa)) as H.
    { eapply ensures_bind; [by apply alloc_typed|]. intros [[p|] a1] [_ H1]; [|done].
      eapply ensures_bind; [apply pa_of_typed|]. intros pa Hpa. split; [done|]. by intros ? [= <-]. }
    rewrite E in H. exact H.
  - intros pa order a' Ho E. assert (ensures (BuddyAllocator_free_pages a pa order) BuddyAllocator_typed) as H.
    { eapply ensures_bind; [apply pfn_of_typed|]. intros pfn Hp. by apply free_typed. }
    rewrite E in H. exact H.
  - intros start count a' Hs E. pose proof (free_range_typed a start count Ha Hs) as H. rewrite E in H. exact H.
  - intros raw mm base nr a' Hr Hb Hn E.
    assert (ensures (BuddyAllocator_new_at raw mm base nr) BuddyAllocator_typed) as H.
    { apply ensures_any. intros va. by apply new_typed. }
    rewrite E in H. exact H.
Qed.
End types.

Lemma demo_typed : BuddyAllocator_typed demo.
Proof.
  assert (forall x w, bool_decide (0 <= x < 2 ^ w) = true -> unsigned w x) as Hu by (by intros x w ?%bool_decide_eq_true).
  split; [|by apply Hu..| |by apply Hu].
  - match goal with |- Forall _ ?l => let v := eval vm_compute in l in change l with v end.
    repeat apply list.Forall_cons_2; [..|constructor]; split; by apply Hu.
  - split; [|reflexivity]. match goal with |- Forall _ ?l => let v := eval vm_compute in l in change l with v end.
    repeat apply list.Forall_cons_2; [..|constructor]; done || by apply Hu.
Qed.

Lemma buddy_types_preserved_witness :
  exists r a, BuddyAllocator_alloc_pages (P := release) demo 2 = Ok (r, a) /\ BuddyAllocator_typed a /\
    exists a', BuddyAllocator_free_pages (P := release) a 0x40004000 2 = Ok a' /\ BuddyAllocator_typed a'.
Proof.
  destruct (BuddyAllocator_alloc_pages (P := release) demo 2) as [[r a]|x] eqn:E; [|vm_compute in E; discriminate E].
  exists r, a. split; [reflexivity|].
  assert (BuddyAllocator_typed a) as Ha by (apply (proj1 (buddy_types_preserved (P := release) demo demo_typed) 2 r a); [vm_compute; split; congruence|exact E]).
  split; [exact Ha|]. vm_compute in E. injection E as <- <-. eexists. split; [vm_compute; reflexivity|].
  eapply (proj1 (proj2 (buddy_types_preserved (P := release) _ Ha)) 0x40004000 2); [vm_compute; split; congruence|vm_compute; reflexivity].
Defined.
