(* ===== verification/KaniBuddy.v ===== *)
(** * kernel/mm/buddy.rs, [mod verification]: the code's own proof harnesses

    Each harness of the file as a function of its symbolic inputs.  [assume]
    discards an execution, as [kani::assume] does; the result [Ok tt] says that no
    assertion of the harness, and no check of the code under it, fails.  A model
    checker runs them with bounded loops; the theorem says they hold for every
    input that the assumptions admit, with loops followed to their end, in both build
    profiles. *)

From S2P Require Import Prelude FrameTypes Layout Buddy BuddyInv BuddyGeom BuddyWf BuddySteps BuddyCore BuddyFree BuddyRange BuddyCanon BuddyProps.

(** The harness's backing store: [const { PageInfo { .. } }; 4]. *)
Definition BLANK : PageInfo := mkPageInfo RAW_NONE RAW_NONE 0 0 Free 0.

Definition math_only (dram_base nr_frames : Z) : BuddyAllocator :=
  mkBuddy [] dram_base nr_frames (replicate (Z.to_nat MAX_ORDER) None) 0.

Definition fresh4 : BuddyAllocator :=
  mkBuddy (replicate 4 BLANK) 0 4 (replicate (Z.to_nat MAX_ORDER) None) 0.

(** [a.page(p).next()] and the other readings the assertions make. *)
Section readings.
Context {P : Profile}.

Definition page_next (a : BuddyAllocator) (p : Z) : outcome (option Z) :=
  let! q := page a p in PageInfo_next q.
Definition page_prev (a : BuddyAllocator) (p : Z) : outcome (option Z) :=
  let! q := page a p in PageInfo_prev q.
Definition page_order (a : BuddyAllocator) (p : Z) : outcome Z :=
  let! q := page a p in PageInfo_get_order q.
Definition page_state (a : BuddyAllocator) (p : Z) : outcome PageState :=
  let! q := page a p in Ok (pi_state q).
Definition head_at (a : BuddyAllocator) (o : Z) : outcome (option Z) := idx (free_area a) o.
End readings.

Section harnesses.
Context {P : Profile}.
Implicit Types (a : BuddyAllocator).

Definition pfn_pa_round_trip (dram nr i : Z) : outcome unit :=
  assume! dram mod PAGE_SIZE =? 0 in
  assume! dram <=? 2 ^ 47 in
  assume! (0 <? nr) && (nr <=? 2 ^ 20) in
  let a := math_only dram nr in
  assume! i <? nr in
  let! pa := pa_of a i in
  assert_eq (pfn_of a pa) i.

Definition buddy_is_involution (nr i order : Z) : outcome unit :=
  assume! (0 <? nr) && (nr <=? 2 ^ 20) in
  let a := math_only 0 nr in
  assume! i <? nr in
  assume! order <? MAX_ORDER in
  let! b := buddy_pfn a i order in
  match b with
  | Some buddy => assert_eq (buddy_pfn a buddy order) (Some i)
  | None => Ok tt
  end.

Definition push_front_links_head (o i1 i2 : Z) : outcome unit :=
  let a := fresh4 in
  assume! o <? MAX_ORDER in
  assume! (i1 <? 4) && (i2 <? 4) && negb (i1 =? i2) in
  let! a := push_front a o i1 in
  let! a := push_front a o i2 in
  let! _ := assert_eq (head_at a o) (Some i2) in
  let! _ := assert_eq (page_prev a i2) None in
  let! _ := assert_eq (page_next a i2) (Some i1) in
  assert_eq (page_prev a i1) (Some i2).

Definition push_pop_round_trip (o i : Z) : outcome unit :=
  let a := fresh4 in
  assume! o <? MAX_ORDER in
  assume! i <? 4 in
  let! a := push_front a o i in
  let! '(r, a) := pop_front a o in
  let! _ := assert_eq (Ok r) (Some i) in
  let! _ := assert_eq (head_at a o) None in
  let! '(r, a) := pop_front a o in
  assert_eq (Ok r) None.

Definition unlink_head (o i0 i1 : Z) : outcome unit :=
  let a := fresh4 in
  assume! o <? MAX_ORDER in
  assume! (i0 <? 4) && (i1 <? 4) && negb (i0 =? i1) in
  let! a := push_front a o i0 in
  let! a := push_front a o i1 in
  let! a := unlink a o i1 in
  let! _ := assert_eq (head_at a o) (Some i0) in
  let! _ := assert_eq (page_prev a i0) None in
  assert_eq (page_next a i0) None.

Definition unlink_tail (o i0 i1 : Z) : outcome unit :=
  let a := fresh4 in
  assume! o <? MAX_ORDER in
  assume! (i0 <? 4) && (i1 <? 4) && negb (i0 =? i1) in
  let! a := push_front a o i0 in
  let! a := push_front a o i1 in
  let! a := unlink a o i0 in
  let! _ := assert_eq (head_at a o) (Some i1) in
  let! _ := assert_eq (page_next a i1) None in
  assert_eq (page_prev a i1) None.

Definition unlink_middle (o i0 i1 i2 : Z) : outcome unit :=
  let a := fresh4 in
  assume! o <? MAX_ORDER in
  assume! (i0 <? 4) && (i1 <? 4) && (i2 <? 4) in
  assume! negb (i0 =? i1) && negb (i1 =? i2) && negb (i0 =? i2) in
  let! a := push_front a o i0 in
  let! a := push_front a o i1 in
  let! a := push_front a o i2 in
  let! a := unlink a o i1 in
  let! _ := assert_eq (head_at a o) (Some i2) in
  let! _ := assert_eq (page_next a i2) (Some i0) in
  let! _ := assert_eq (page_prev a i0) (Some i2) in
  let! _ := assert_eq (page_prev a i2) None in
  assert_eq (page_next a i0) None.

Definition alloc_oom (o : Z) : outcome unit :=
  let a := fresh4 in
  assume! o <? MAX_ORDER in
  let! '(r, _) := BuddyAllocator_alloc a o in
  assert_eq (Ok r) None.

(** The lone free order-2 block three harnesses start from. *)
Definition lone_order_2 (a : BuddyAllocator) : outcome BuddyAllocator :=
  let! a := page_mut a 1 PageInfo_mark_tail in
  let! a := page_mut a 2 PageInfo_mark_tail in
  let! a := page_mut a 3 PageInfo_mark_tail in
  let! a := page_mut a 0 (fun p => PageInfo_mark_free p 2) in
  let! a := push_front a 2 0 in
  Ok (with_free_frames a 4).

Definition alloc_splits_correctly (o : Z) : outcome unit :=
  let! a := lone_order_2 fresh4 in
  assume! o <=? 2 in
  let! '(r, a) := BuddyAllocator_alloc a o in
  let! _ := assert_eq (Ok r) (Some 0) in
  let! _ := assert_eq (page_state a 0) Allocated in
  let! _ := assert_eq (page_order a 0) o in
  let! _ :=
    match o with
    | 2 =>
        let! _ := assert_eq (head_at a 2) None in
        let! _ := assert_eq (head_at a 1) None in
        assert_eq (head_at a 0) None
    | 1 =>
        let! _ := assert_eq (head_at a 1) (Some 2) in
        let! _ := assert_eq (head_at a 0) None in
        let! _ := assert_eq (page_state a 2) Free in
        assert_eq (page_order a 2) 1
    | _ =>
        let! _ := assert_eq (head_at a 1) (Some 2) in
        let! _ := assert_eq (head_at a 0) (Some 1) in
        let! _ := assert_eq (page_order a 2) 1 in
        assert_eq (page_order a 1) 0
    end in
  let! size := ushl 64 1 o in
  let! rest := usub 64 4 size in
  assert_eq (Ok (free_frames a)) rest.

Definition free_no_coalesce : outcome unit :=
  let a := fresh4 in
  let! a := page_mut a 1 PageInfo_mark_reserved in
  let! a := page_mut a 0 (fun p => PageInfo_mark_allocated p 0) in
  let a := with_free_frames a 0 in
  let! a := BuddyAllocator_free a 0 0 in
  let! _ := assert_eq (head_at a 0) (Some 0) in
  let! _ := assert_eq (page_state a 0) Free in
  let! _ := assert_eq (page_order a 0) 0 in
  assert_eq (Ok (free_frames a)) 1.

Definition free_upper_buddy_coalesces : outcome unit :=
  let a := fresh4 in
  let! a := page_mut a 2 PageInfo_mark_reserved in
  let! a := page_mut a 3 PageInfo_mark_reserved in
  let! a := page_mut a 0 (fun p => PageInfo_mark_free p 0) in
  let! a := push_front a 0 0 in
  let! a := page_mut a 1 (fun p => PageInfo_mark_allocated p 0) in
  let a := with_free_frames a 1 in
  let! a := BuddyAllocator_free a 1 0 in
  let! _ := assert_eq (head_at a 1) (Some 0) in
  let! _ := assert_eq (head_at a 0) None in
  let! _ := assert_eq (page_state a 0) Free in
  let! _ := assert_eq (page_order a 0) 1 in
  let! _ := assert_eq (page_state a 1) Tail in
  assert_eq (Ok (free_frames a)) 2.

Definition alloc_free_round_trip (o : Z) : outcome unit :=
  let! a := lone_order_2 fresh4 in
  assume! o <=? 2 in
  let! '(r, a) := BuddyAllocator_alloc a o in
  let! block := unwrap r in
  let! a := BuddyAllocator_free a block o in
  let! _ := assert_eq (head_at a 2) (Some 0) in
  let! _ := assert_eq (head_at a 1) None in
  let! _ := assert_eq (head_at a 0) None in
  let! _ := assert_eq (page_state a 0) Free in
  let! _ := assert_eq (page_order a 0) 2 in
  assert_eq (Ok (free_frames a)) 4.

(** [while i < 4 { a.page_mut(Pfn::new(i)).mark_reserved(); i += 1 }] *)
Definition reserve_all (a : BuddyAllocator) : outcome BuddyAllocator :=
  foldM (fun a i => page_mut a i PageInfo_mark_reserved) (seqZ 0 4) a.

Definition free_range_full_is_one_block : outcome unit :=
  let! a := reserve_all fresh4 in
  let! a := BuddyAllocator_free_range a 0 4 in
  let! _ := assert_eq (head_at a 2) (Some 0) in
  let! _ := assert_eq (head_at a 1) None in
  let! _ := assert_eq (head_at a 0) None in
  let! _ := assert_eq (page_state a 0) Free in
  let! _ := assert_eq (page_order a 0) 2 in
  let! _ := assert_eq (page_state a 1) Tail in
  let! _ := assert_eq (page_state a 2) Tail in
  let! _ := assert_eq (page_state a 3) Tail in
  assert_eq (Ok (free_frames a)) 4.

Definition free_range_unaligned_tail : outcome unit :=
  let! a := reserve_all fresh4 in
  let! a := BuddyAllocator_free_range a 1 3 in
  let! _ := assert_eq (head_at a 0) (Some 1) in
  let! _ := assert_eq (head_at a 1) (Some 2) in
  let! _ := assert_eq (head_at a 2) None in
  let! _ := assert_eq (page_order a 1) 0 in
  let! _ := assert_eq (page_order a 2) 1 in
  let! _ := assert_eq (page_state a 3) Tail in
  assert_eq (Ok (free_frames a)) 3.

Definition free_range_conserves_mass (start count : Z) : outcome unit :=
  let! a := reserve_all fresh4 in
  assume! (1 <=? count) && (count <=? 4) in
  let! sum := uadd 64 start count in
  assume! sum <=? 4 in
  let! a := BuddyAllocator_free_range a start count in
  assert_eq (Ok (free_frames a)) count.

Definition new_starts_reserved : outcome unit :=
  let! a := BuddyAllocator_new (replicate 4 BLANK) 0x40000000 4 in
  let! _ := foldM (fun _ i => assert_eq (page_state a i) Reserved) (seqZ 0 4) tt in
  let! _ := assert_eq (Ok (free_frames a)) 0 in
  let! '(r, _) := BuddyAllocator_alloc a 0 in
  assert_eq (Ok r) None.

Definition alloc_free_pages_round_trip (o : Z) : outcome unit :=
  let a := mkBuddy (pages fresh4) 0x40000000 (nr_frames fresh4) (free_area fresh4) (free_frames fresh4) in
  let! a := lone_order_2 a in
  assume! o <=? 2 in
  let! '(r, a) := BuddyAllocator_alloc_pages a o in
  let! pa := unwrap r in
  let! _ := assert_eq (Ok pa) 0x40000000 in
  let! _ := assert_eq (urem pa 4096) 0 in
  let! a := BuddyAllocator_free_pages a pa o in
  let! _ := assert_eq (head_at a 2) (Some 0) in
  assert_eq (Ok (free_frames a)) 4.

Definition memmap_frames_is_enough (n : Z) : outcome unit :=
  assume! n <=? 2 ^ 30 in
  let! m := memmap_frames n in
  let! have := umul 64 m PAGE_SIZE in
  let! need := umul 64 n SIZEOF_PageInfo in
  let! _ := assert_ (need <=? have) in
  let! tight :=
    (if n =? 0 then Ok true
     else
       let! m' := usub 64 m 1 in
       let! less := umul 64 m' PAGE_SIZE in
       let! need := umul 64 n SIZEOF_PageInfo in
       Ok (less <? need)) in
  assert_ tight.
End harnesses.

(* ------------------------------------------------------------------------- *)
(** ** The harnesses pass *)

Section passes.
Context {P : Profile}.

Lemma pfn_pa_round_trip_ok dram nr i :
  0 <= dram -> 0 <= i -> pfn_pa_round_trip dram nr i = Ok tt.
Proof.
  intros Hd Hi. unfold pfn_pa_round_trip. cbv zeta. assumptions.
  destruct (pfn_of_pa_of (math_only dram nr) i) as [-> E];
    unfold math_only, PAGE_SIZE, RAW_NONE in *; cbn [dram_base nr_frames] in *; try lia.
  - by apply Z.mod_divide.
  - cbn [obind]. rewrite E. apply assert_eq_ok.
Qed.

Lemma buddy_is_involution_ok nr i o :
  0 <= i -> 0 <= o -> buddy_is_involution nr i o = Ok tt.
Proof.
  intros Hi Ho. unfold buddy_is_involution. cbv zeta. assumptions.
  unfold buddy_pfn. rewrite !debug_assert_true by lia. cbn [obind math_only nr_frames].
  rewrite ushl_one_ok by (unfold MAX_ORDER in *; lia). cbn [obind].
  destruct (_ <=? _); [done|]. cbn [obind].
  rewrite Z.lxor_assoc, Z.lxor_nilpotent, Z.lxor_0_r.
  destruct (Z.leb_spec nr i); [lia|]. apply assert_eq_ok.
Qed.

Lemma memmap_frames_is_enough_ok n : 0 <= n -> memmap_frames_is_enough n = Ok tt.
Proof.
  intros Hn. unfold memmap_frames_is_enough. assumptions.
  unfold memmap_frames, PAGE_SIZE, SIZEOF_PageInfo.
  rewrite umul_ok by lia. cbn [obind].
  pose proof (div_ceil_spec (n * 16) 4096 ltac:(done)) as Hm.
  pose proof (div_ceil_nonneg (n * 16) 4096 ltac:(done) ltac:(lia)).
  set (m := div_ceil (n * 16) 4096) in *. rewrite umul_ok by lia. cbn [obind].
  rewrite assert_true by lia. cbn [obind].
  destruct (Z.eqb_spec n 0); [done|].
  rewrite usub_ok by lia. cbn [obind]. rewrite umul_ok by lia. cbn [obind]. apply assert_true. lia.
Qed.

(** The harnesses whose inputs are an order and frames of the 4-frame store. *)
Lemma list_harnesses_ok o : 0 <= o < 11 -> forall i, 0 <= i < 4 ->
  push_pop_round_trip o i = Ok tt /\
  forall j, 0 <= j < 4 ->
    push_front_links_head o i j = Ok tt /\ unlink_head o i j = Ok tt /\ unlink_tail o i j = Ok tt /\
    forall k, 0 <= k < 4 -> unlink_middle o i j k = Ok tt.
Proof. revert o. destruct P; run_decision. Qed.

Lemma four_frame_harnesses_ok :
  (forall o, 0 <= o < 11 -> alloc_oom o = Ok tt) /\
  (forall o, 0 <= o < 3 -> alloc_splits_correctly o = Ok tt /\ alloc_free_round_trip o = Ok tt /\
     alloc_free_pages_round_trip o = Ok tt) /\
  (forall start, 0 <= start < 5 -> forall count, 0 <= count < 5 ->
     free_range_conserves_mass start count = Ok tt).
Proof. destruct P; run_decision. Qed.

(** Outside the assumed ranges the harness discards the execution. *)
Ltac discarded := cbv zeta; assumptions; unfold MAX_ORDER in *; lia.

Lemma reserve_all_ok : exists a, reserve_all fresh4 = Ok a.
Proof. destruct P; eexists; by vm_compute. Qed.

Lemma lone_order_2_ok : (exists a, lone_order_2 fresh4 = Ok a) /\
  exists a, lone_order_2 (mkBuddy (pages fresh4) 0x40000000 (nr_frames fresh4) (free_area fresh4)
    (free_frames fresh4)) = Ok a.
Proof. destruct P; split; eexists; by vm_compute. Qed.

Lemma list_harnesses_pass o i j k :
  0 <= o -> 0 <= i -> 0 <= j -> 0 <= k ->
  push_pop_round_trip o i = Ok tt /\ push_front_links_head o i j = Ok tt /\
  unlink_head o i j = Ok tt /\ unlink_tail o i j = Ok tt /\ unlink_middle o i j k = Ok tt.
Proof.
  intros Ho Hi Hj Hk.
  assert (o < 11 -> i < 4 -> _) as H by (intros; exact (list_harnesses_ok o ltac:(lia) i ltac:(lia))).
  split_and!.
  - destruct (decide (o < 11 /\ i < 4)); [by apply H; lia|]. unfold push_pop_round_trip. discarded.
  - destruct (decide (o < 11 /\ i < 4 /\ j < 4)); [by apply H; lia|]. unfold push_front_links_head. discarded.
  - destruct (decide (o < 11 /\ i < 4 /\ j < 4)); [by apply H; lia|]. unfold unlink_head. discarded.
  - destruct (decide (o < 11 /\ i < 4 /\ j < 4)); [by apply H; lia|]. unfold unlink_tail. discarded.
  - destruct (decide (o < 11 /\ i < 4 /\ j < 4 /\ k < 4)); [by apply H; lia|]. unfold unlink_middle. discarded.
Qed.

Lemma four_frame_harnesses_pass o start count :
  0 <= o -> 0 <= start < 2 ^ 32 -> 0 <= count < 2 ^ 64 ->
  alloc_oom o = Ok tt /\ alloc_splits_correctly o = Ok tt /\ alloc_free_round_trip o = Ok tt /\
  alloc_free_pages_round_trip o = Ok tt /\ free_range_conserves_mass start count = Ok tt.
Proof.
  intros Ho Hs Hc. destruct four_frame_harnesses_ok as (H1 & H2 & H3).
  destruct lone_order_2_ok as [[a Ea] [b Eb]], reserve_all_ok as [c Ec].
  split_and!.
  - destruct (decide (o < 11)); [by apply H1|]. unfold alloc_oom. discarded.
  - destruct (decide (o < 3)); [by apply H2|]. unfold alloc_splits_correctly. rewrite Ea. cbn [obind]. discarded.
  - destruct (decide (o < 3)); [by apply H2|]. unfold alloc_free_round_trip. rewrite Ea. cbn [obind]. discarded.
  - destruct (decide (o < 3)); [by apply H2|]. unfold alloc_free_pages_round_trip. cbv zeta. rewrite Eb.
    cbn [obind]. discarded.
  - destruct (decide (count < 5 /\ start < 5)); [by apply H3; lia|].
    unfold free_range_conserves_mass. rewrite Ec. cbn [obind]. apply assume_ok. intros ?.
    rewrite uadd_ok by lia. cbn [obind]. discarded.
Qed.

(** Every harness of the module on one choice of symbolic inputs. *)
Definition buddy_harnesses (dram nr n count i0 i1 i2 start o : Z) : list (outcome unit) :=
  [ pfn_pa_round_trip dram nr i0; buddy_is_involution nr i0 o; push_front_links_head o i0 i1;
    push_pop_round_trip o i0; unlink_head o i0 i1; unlink_tail o i0 i1; unlink_middle o i0 i1 i2;
    alloc_oom o; alloc_splits_correctly o; free_no_coalesce; free_upper_buddy_coalesces;
    alloc_free_round_trip o; free_range_full_is_one_block; free_range_unaligned_tail;
    free_range_conserves_mass start count; new_starts_reserved; alloc_free_pages_round_trip o;
    memmap_frames_is_enough n ].


(** C39: the harnesses of the buddy allocator pass on every input they admit, which is
    what their [kani::assume]s leave of the declared types (at most 2^20 frames, a base of
    at most 2^47, a mem-map of at most 2^30 frames; the list, alloc and free ones on their
    allocator of four frames), with loops followed to their end: no assertion fails and
    nothing under them panics. *)
Theorem buddy_harnesses_pass dram nr n count i0 i1 i2 start o :
  unsigned 64 dram -> unsigned 64 nr -> unsigned 64 n -> unsigned 64 count -> unsigned 32 i0 ->
  unsigned 32 i1 -> unsigned 32 i2 -> unsigned 32 start -> unsigned 8 o ->
  Forall (fun r => r = Ok tt) (buddy_harnesses dram nr n count i0 i1 i2 start o).
Proof.
  unfold unsigned. intros.
  pose proof (list_harnesses_pass o i0 i1 i2) as (? & ? & ? & ? & ?); [lia..|].
  pose proof (four_frame_harnesses_pass o start count) as (? & ? & ? & ? & ?); [lia..|].
  unfold buddy_harnesses. repeat apply list.Forall_cons_2; [..|apply list.Forall_nil_2].
  all: first [assumption | apply pfn_pa_round_trip_ok; lia | apply buddy_is_involution_ok; lia
             | apply memmap_frames_is_enough_ok; lia | destruct P; by vm_compute].
Qed.
End passes.

Lemma buddy_harnesses_pass_witness :
  Forall (fun r => r = Ok tt)
    (buddy_harnesses (P := release_dev) 0x40000000 32768 32768 3 1 2 3 1 2).
Proof. apply (buddy_harnesses_pass (P := release_dev)); unfold unsigned; lia. Defined.
