(* ===== verification/Bootmem.v ===== *)
(** * kernel/mm/bootmem.rs: the boot-time interval allocator, as the code runs it

    Two fixed-capacity arrays of frame intervals with their lengths.  [for_each_free]
    takes the closure as a state transformer, so [alloc]'s search and the hand-off
    to the buddy allocator are the same fold the code runs. *)

From S2P Require Import Prelude FrameTypes Layout.

Record Region := mkRegion { base : Z; frames : Z }.

#[export] Instance Region_eq_dec : EqDecision Region.
Proof. solve_decision. Defined.

Definition Region_ZERO : Region := mkRegion 0 0.

Definition NR_REGIONS : Z := 128.

Record BootMem := mkBootMem {
  memory : list Region;
  n_memory : Z;
  reserved : list Region;
  n_reserved : Z;
}.

Definition BootMem_new : BootMem :=
  mkBootMem (replicate (Z.to_nat NR_REGIONS) Region_ZERO) 0
            (replicate (Z.to_nat NR_REGIONS) Region_ZERO) 0.

(** [&xs[..n]]: a prefix slice; too long a prefix panics. *)
Definition prefix {A} (xs : list A) (n : Z) : outcome (list A) :=
  if n <=? lenz xs then Ok (take (Z.to_nat n) xs) else Panic IndexOutOfBounds.

Section bootmem.
Context {P : Profile}.
Implicit Types (b : BootMem) (r o : Region).

Definition Region_end r : outcome Z :=
  let! s := uadd 64 (base r) (frames r) in Ok (as_u32 s).

Definition Region_overlaps r o : outcome bool :=
  let! oe := Region_end o in
  if base r <? oe then
    let! re := Region_end r in Ok (base o <? re)
  else Ok false.

(** [for m in &self.memory[..self.n_memory] { lo = ..; hi = .. }] *)
Definition ram_span_step (s : Z * Z) (m : Region) : outcome (Z * Z) :=
  let '(lo, hi) := s in
  let! me := Region_end m in
  Ok (Z.min lo (base m), Z.max hi me).

Definition ram_span b : outcome (Z * Z) :=
  let! _ := assert_ (0 <? n_memory b) in
  let! ms := prefix (memory b) (n_memory b) in
  let! '(lo, hi) := foldM ram_span_step ms (2 ^ 32 - 1, 0) in
  let! n := usub 32 hi lo in
  Ok (lo, n).

Definition add_memory b (bs fs : Z) : outcome BootMem :=
  let! _ := debug_assert (1 <=? fs) in
  let! _ := assert_ (n_memory b <? NR_REGIONS) in
  let! ms := set_idx (memory b) (n_memory b) (mkRegion bs fs) in
  let! n := uadd 64 (n_memory b) 1 in
  Ok (mkBootMem ms n (reserved b) (n_reserved b)).

(** [i > 0 && self.reserved[i - 1].base > base] *)
Definition reserve_shifts (bs : Z) (s : Z * list Region) : outcome bool :=
  let '(i, rs) := s in
  if 0 <? i then
    let! j := usub 64 i 1 in
    let! r := idx rs j in
    Ok (bs <? base r)
  else Ok false.

(** One turn of the insertion loop; [inr] is leaving it. *)
Definition reserve_step (bs : Z) (s : Z * list Region)
  : outcome ((Z * list Region) + (Z * list Region)) :=
  let '(i, rs) := s in
  let! go := reserve_shifts bs s in
  if go then
    let! j := usub 64 i 1 in
    let! r := idx rs j in
    let! rs := set_idx rs i r in
    let! i := usub 64 i 1 in
    Ok (inl (i, rs))
  else Ok (inr s).

Definition reserve b (bs fs : Z) : outcome BootMem :=
  let! _ := debug_assert (1 <=? fs) in
  let! _ := assert_ (n_reserved b <? NR_REGIONS) in
  let! '(i, rs) :=
    loop (S (Z.to_nat NR_REGIONS)) (reserve_step bs) (n_reserved b, reserved b) in
  let! rs := set_idx rs i (mkRegion bs fs) in
  let! n := uadd 64 (n_reserved b) 1 in
  Ok (mkBootMem (memory b) (n_memory b) rs n).

Definition reserve_bytes b (base_pa end_pa : Z) : outcome BootMem :=
  let bs := base_pa / PAGE_SIZE in
  let e := div_ceil end_pa PAGE_SIZE in
  let! n := usub 64 e bs in
  reserve b (as_u32 bs) n.

Definition add_memory_bytes b (base_pa end_pa : Z) : outcome BootMem :=
  let bs := div_ceil base_pa PAGE_SIZE in
  let e := end_pa / PAGE_SIZE in
  if bs <? e then
    let! n := usub 64 e bs in
    add_memory b (as_u32 bs) n
  else Ok b.

(** The body of the inner loop of [for_each_free]: [cursor] and the closure's
    state after one reserved region. *)
Definition carve_step {S} (f : S -> Region -> outcome S) (m : Region)
    (st : Z * S) (r : Region) : outcome (Z * S) :=
  let '(cursor, s) := st in
  let! re := Region_end r in
  let! skip :=
    (if re <=? cursor then Ok true
     else let! me := Region_end m in Ok (me <=? base r)) in
  if skip then Ok (cursor, s)
  else
    let! s :=
      (if cursor <? base r then
         let! n := usub 64 (base r) cursor in
         f s (mkRegion cursor n)
       else Ok s) in
    let! re := Region_end r in
    Ok (Z.max cursor re, s).

Definition for_each_free_in {S} (f : S -> Region -> outcome S) (rs : list Region)
    (s : S) (m : Region) : outcome S :=
  let! '(cursor, s) := foldM (carve_step f m) rs (base m, s) in
  let! me := Region_end m in
  if cursor <? me then
    let! me := Region_end m in
    let! n := usub 64 me cursor in
    f s (mkRegion cursor n)
  else Ok s.

Definition for_each_free {S} b (f : S -> Region -> outcome S) (s : S) : outcome S :=
  let! ms := prefix (memory b) (n_memory b) in
  foldM (fun s m =>
    let! rs := prefix (reserved b) (n_reserved b) in
    for_each_free_in f rs s m) ms s.

(** The closure of [alloc]: keep the highest aligned base that fits. *)
Definition alloc_candidate (fs align : Z) (best : option Z) (hole : Region) : outcome (option Z) :=
  if fs <=? frames hole then
    let! he := Region_end hole in
    let! top := usub 64 he fs in
    let top := as_u32 top in
    let! rem := urem top align in
    let! cand := usub 32 top rem in
    if (base hole <=? cand) && match best with None => true | Some b => b <? cand end
    then Ok (Some cand) else Ok best
  else Ok best.

Definition BootMem_alloc b (fs align : Z) : outcome (option Z * BootMem) :=
  let! _ := debug_assert ((1 <=? fs) && (1 <=? align)) in
  let! best := for_each_free b (alloc_candidate fs align) None in
  match best with
  | None => Ok (None, b)
  | Some bs =>
      let! b := reserve b bs fs in
      Ok (Some bs, b)
  end.
End bootmem.
