(* ===== verification/BootmemProps.v ===== *)
(** * Boot-time interval allocator: invariant and contract

    [bm_ok] is the invariant: in-range, non-empty regions, the reserved ones
    sorted by base.  [carve] is the reference definition of the hole computation;
    the loops of [for_each_free] are proved equal to a fold over it, and its holes
    to be exactly the maximal runs of unreserved RAM. *)

From stdpp Require Import sorting.
From S2P Require Import Prelude FrameTypes Layout Bootmem.

(* ------------------------------------------------------------------------- *)
(** ** Frames of regions *)

Definition rend (r : Region) : Z := base r + frames r.
Definition in_region (r : Region) (f : Z) : Prop := base r <= f < rend r.

(** A region whose end is a frame number: no sum wraps. *)
Definition region_ok (r : Region) : Prop := 0 <= base r /\ 1 <= frames r /\ rend r < 2 ^ 32.

Definition by_base (r o : Region) : Prop := base r <= base o.

Definition mem_regions (b : BootMem) : list Region := take (Z.to_nat (n_memory b)) (memory b).
Definition res_regions (b : BootMem) : list Region := take (Z.to_nat (n_reserved b)) (reserved b).

Record bm_ok (b : BootMem) : Prop := {
  bm_mem_len : lenz (memory b) = NR_REGIONS;
  bm_res_len : lenz (reserved b) = NR_REGIONS;
  bm_n_mem : 0 <= n_memory b <= NR_REGIONS;
  bm_n_res : 0 <= n_reserved b <= NR_REGIONS;
  bm_mem : Forall region_ok (mem_regions b);
  bm_res : Forall region_ok (res_regions b);
  bm_sorted : StronglySorted by_base (res_regions b);
}.

(** RAM, reserved and free frames. *)
Definition is_ram (b : BootMem) (f : Z) : Prop := exists m, m ∈ mem_regions b /\ in_region m f.
Definition is_reserved (b : BootMem) (f : Z) : Prop := exists r, r ∈ res_regions b /\ in_region r f.
Definition is_free (b : BootMem) (f : Z) : Prop := is_ram b f /\ ~ is_reserved b f.

(* ------------------------------------------------------------------------- *)
(** ** The holes of one memory region *)

Fixpoint carve (e cursor : Z) (rs : list Region) : list Region :=
  match rs with
  | [] => if cursor <? e then [mkRegion cursor (e - cursor)] else []
  | r :: rs =>
      if (rend r <=? cursor) || (e <=? base r) then carve e cursor rs
      else (if cursor <? base r then [mkRegion cursor (base r - cursor)] else [])
           ++ carve e (Z.max cursor (rend r)) rs
  end.

Definition holes (b : BootMem) : list Region :=
  mem_regions b ≫= fun m => carve (rend m) (base m) (res_regions b).

Lemma sorted_after r rs o :
  StronglySorted by_base (r :: rs) -> o ∈ rs -> base r <= base o.
Proof. intros [_ H]%StronglySorted_inv Ho. rewrite list.Forall_forall in H. by apply H. Qed.

Lemma carve_exact e c rs f :
  StronglySorted by_base rs ->
  (exists h, h ∈ carve e c rs /\ in_region h f) <->
  c <= f < e /\ forall r, r ∈ rs -> ~ in_region r f.
Proof.
  revert c. induction rs as [|r rs IH]; intros c Hs; cbn [carve].
  - destruct (Z.ltb_spec c e); split.
    + intros (h & ->%list_elem_of_singleton & Hf). unfold in_region, rend in Hf. cbn in Hf. 
      split; [lia|set_solver].
    + intros [? _]. eexists. split; [by apply list_elem_of_singleton|]. unfold in_region, rend. cbn. lia.
    + set_solver.
    + lia.
  - pose proof (fun o => sorted_after r rs o Hs) as Hr. apply StronglySorted_inv in Hs as [Hs _].
    destruct ((rend r <=? c) || (e <=? base r)) eqn:Hskip.
    + rewrite IH by done. split; intros [Hf Hn]; split; try done; [|set_solver].
      intros o [->|Ho]%elem_of_cons; [|by apply Hn]. unfold in_region. lia.
    + assert ((exists h, h ∈ carve e (Z.max c (rend r)) rs /\ in_region h f) <->
        Z.max c (rend r) <= f < e /\ forall o, o ∈ rs -> ~ in_region o f) as IH' by by apply IH.
      unfold in_region in *. destruct (Z.ltb_spec c (base r)) as [Hc|Hc]; cbn [app].
      * split.
        -- intros (h & [->|Hh]%elem_of_cons & Hf).
           ++ unfold rend in Hf. cbn in Hf. split; [lia|].
              intros o [->|Ho]%elem_of_cons; [lia|]. specialize (Hr o Ho). lia.
           ++ destruct (proj1 IH') as [? Hn]; [eauto|]. split; [lia|].
              intros o [->|Ho]%elem_of_cons; [lia|by apply Hn].
        -- intros [Hf Hn]. destruct (Z.lt_ge_cases f (base r)).
           ++ eexists. split; [by left|]. unfold rend. cbn. lia.
           ++ pose proof (Hn r ltac:(set_solver)). destruct (proj2 IH') as (h & ? & ?).
              { split; [lia|]. intros o Ho. apply Hn. by right. }
              exists h. split; [by right|done].
      * rewrite IH'. split; intros [Hf Hn]; (split; [|]).
        -- lia.
        -- intros o [->|Ho]%elem_of_cons; [lia|by apply Hn].
        -- pose proof (Hn r ltac:(set_solver)). lia.
        -- intros o Ho. apply Hn. by right.
Qed.

(** A run of unreserved frames lies in one hole. *)
Lemma carve_covers e c rs x n :
  StronglySorted by_base rs -> 1 <= n -> c <= x -> x + n <= e ->
  (forall f r, x <= f < x + n -> r ∈ rs -> ~ in_region r f) -> Forall region_ok rs ->
  exists h, h ∈ carve e c rs /\ base h <= x /\ x + n <= rend h.
Proof.
  revert c. induction rs as [|r rs IH]; intros c Hs Hn Hc He Hf Hok; cbn [carve].
  - destruct (Z.ltb_spec c e); [|lia]. eexists. split; [by apply list_elem_of_singleton|].
    unfold rend. cbn. lia.
  - apply StronglySorted_inv in Hs as [Hs _]. apply list.Forall_cons in Hok as [(? & ? & ?) Hok].
    assert (forall f o, x <= f < x + n -> o ∈ rs -> ~ in_region o f) as Hf' by set_solver.
    destruct (_ || _) eqn:Hskip; [by apply IH|].
    assert (x + n <= base r \/ rend r <= x) as Hside.
    { pose proof (fun f Hx => Hf f r Hx ltac:(set_solver)) as Hr. unfold in_region, rend in *.
      pose proof (Hr x ltac:(lia)). pose proof (Hr (x + n - 1) ltac:(lia)).
      destruct (Z.le_gt_cases (base r) x), (Z.le_gt_cases x (base r)); try lia.
      destruct (Z.le_gt_cases (x + n) (base r)); [lia|].
      pose proof (Hr (base r) ltac:(lia)). lia. }
    destruct Hside.
    + destruct (Z.ltb_spec c (base r)); [|lia]. eexists. split; [by left|]. unfold rend. cbn. lia.
    + destruct (IH (Z.max c (rend r))) as (h & Hh & ?); [done|done|lia|done..|].
      exists h. split; [|done]. apply elem_of_app. by right.
Qed.

(** Holes are non-empty, in range, and strictly separated. *)
Lemma carve_holes e c rs :
  Forall region_ok rs ->
  StronglySorted (fun h h' => rend h < base h') (carve e c rs) /\
  forall h, h ∈ carve e c rs -> c <= base h /\ 1 <= frames h /\ rend h <= e.
Proof.
  revert c. induction rs as [|r rs IH]; intros c Hok; cbn [carve].
  - destruct (Z.ltb_spec c e); split; try by repeat constructor.
    + intros h ->%list_elem_of_singleton. unfold rend. cbn. lia.
    + set_solver.
  - apply list.Forall_cons in Hok as [(? & ? & ?) Hok]. destruct (_ || _) eqn:Hskip; [by apply IH|].
    destruct (IH (Z.max c (rend r)) Hok) as [HS HR]. unfold rend in *.
    destruct (Z.ltb_spec c (base r)); cbn [app].
    + split.
      * constructor; [done|]. apply list.Forall_forall. intros h Hh. specialize (HR h Hh). cbn. lia.
      * intros h [->|Hh]%elem_of_cons; [cbn; lia|]. specialize (HR h Hh). lia.
    + split; [done|]. intros h Hh. specialize (HR h Hh). lia.
Qed.

Lemma foldM_app {A S} (f : S -> A -> outcome S) l1 l2 s :
  foldM f (l1 ++ l2) s = obind (foldM f l1 s) (foldM f l2).
Proof. revert s. induction l1; intros s; cbn; [done|]. destruct (f s a); cbn; auto. Qed.

Lemma foldM_bind {A B S} (f : S -> A -> outcome S) (g : B -> list A) l s :
  foldM f (l ≫= g) s = foldM (fun s m => foldM f (g m) s) l s.
Proof.
  revert s. induction l as [|m l IH]; intros s; csimpl; [done|].
  rewrite foldM_app. destruct (foldM f (g m) s); cbn; auto.
Qed.

Lemma foldM_ext {A S} (f g : S -> A -> outcome S) l s :
  (forall s x, x ∈ l -> f s x = g s x) -> foldM f l s = foldM g l s.
Proof.
  revert s. induction l as [|x l IH]; intros s H; cbn; [done|].
  rewrite H by set_solver. destruct (g s x); cbn; [|done]. apply IH. set_solver.
Qed.

Section loops.
Context {P : Profile}.
Implicit Types b : BootMem.

Lemma Region_end_ok r : region_ok r -> Region_end r = Ok (rend r).
Proof.
  intros (? & ? & ?). unfold Region_end, rend in *. rewrite uadd_ok by lia. cbn [obind].
  by rewrite as_u32_small by lia.
Qed.

Lemma carve_step_eq {S} (f : S -> Region -> outcome S) m c s r :
  region_ok m -> region_ok r -> 0 <= c ->
  carve_step f m (c, s) r =
  if (rend r <=? c) || (rend m <=? base r) then Ok (c, s)
  else let! s := (if c <? base r then f s (mkRegion c (base r - c)) else Ok s) in
       Ok (Z.max c (rend r), s).
Proof.
  intros Hm Hr Hc. pose proof Hr as (? & ? & ?). unfold rend in *. unfold carve_step.
  rewrite (Region_end_ok r Hr), (Region_end_ok m Hm). cbn [obind].
  replace (if rend r <=? c then Ok true else Ok (rend m <=? base r))
    with (Ok ((rend r <=? c) || (rend m <=? base r))) by by destruct (rend r <=? c).
  cbn [obind]. unfold rend. destruct (_ || _); [done|].
  destruct (Z.ltb_spec c (base r)); [|done]. by rewrite usub_ok by lia.
Qed.

Lemma for_each_free_in_eq {S} (f : S -> Region -> outcome S) m rs c s :
  region_ok m -> Forall region_ok rs -> 0 <= c < 2 ^ 32 ->
  (let! '(c, s) := foldM (carve_step f m) rs (c, s) in
   let! me := Region_end m in
   if c <? me then
     let! me := Region_end m in let! n := usub 64 me c in f s (mkRegion c n)
   else Ok s)
  = foldM f (carve (rend m) c rs) s.
Proof.
  intros Hm. revert c s. pose proof Hm as (? & ? & ?). rewrite (Region_end_ok m Hm). cbn [obind].
  induction rs as [|r rs IH]; intros c s Hok Hc; cbn [foldM carve obind].
  - destruct (Z.ltb_spec c (rend m)); [|done]. rewrite usub_ok by lia. cbn [obind foldM].
    by destruct (f s _).
  - apply list.Forall_cons in Hok as [Hr Hok]. pose proof Hr as (? & ? & ?).
    rewrite carve_step_eq by (done || lia).
    destruct (_ || _) eqn:Hskip; cbn [obind]; [by apply IH|]. unfold rend in *.
    destruct (Z.ltb_spec c (base r)); cbn [app foldM obind].
    + destruct (f s _); cbn [obind]; [|done]. apply IH; [done|lia].
    + apply IH; [done|lia].
Qed.

Lemma prefix_ok {A} (xs : list A) n : 0 <= n <= lenz xs -> prefix xs n = Ok (take (Z.to_nat n) xs).
Proof. intros. unfold prefix. by destruct (Z.leb_spec n (lenz xs)); [|lia]. Qed.

(** The loops of [for_each_free] are a fold over the holes. *)
Lemma for_each_free_holes {S} b (f : S -> Region -> outcome S) s :
  bm_ok b -> for_each_free b f s = foldM f (holes b) s.
Proof.
  intros [? ? ? ? Hm Hr _]. unfold for_each_free. rewrite !prefix_ok by lia. cbn [obind].
  fold (mem_regions b). fold (res_regions b). unfold holes. rewrite foldM_bind. apply foldM_ext.
  intros s' m Hin. unfold for_each_free_in. rewrite list.Forall_forall in Hm.
  specialize (Hm m Hin). apply for_each_free_in_eq; [done..|]. destruct Hm as (? & ? & ?).
  unfold rend in *. lia.
Qed.
End loops.

(* ------------------------------------------------------------------------- *)
(** ** Sorted insertion *)

Section reserve.
Context {P : Profile}.
Implicit Types b : BootMem.

(** Invariant of the insertion loop: the tail of the prefix has moved up by one. *)
Definition shifting (old : list Region) (n bs : Z) (s : Z * list Region) : Prop :=
  0 <= s.1 <= n /\ lenz s.2 = lenz old /\
  (forall j, 0 <= j < s.1 -> getz s.2 j = getz old j) /\
  (forall j, s.1 < j <= n -> getz s.2 j = getz old (j - 1)) /\
  (forall j o, s.1 <= j < n -> getz old j = Some o -> bs < base o).

Lemma shift_loop old n bs :
  0 <= n < lenz old -> lenz old = NR_REGIONS ->
  exists i rs, loop (S (Z.to_nat NR_REGIONS)) (reserve_step bs) (n, old) = Ok (i, rs) /\
    shifting old n bs (i, rs) /\ (forall r, 0 < i -> getz old (i - 1) = Some r -> base r <= bs).
Proof.
  intros Hn Hlen. unfold NR_REGIONS in *.
  destruct (loop_rule (shifting old n bs)
    (fun s => shifting old n bs s /\ forall r, 0 < s.1 -> getz old (s.1 - 1) = Some r -> base r <= bs)
    fst (reserve_step bs)) with (fuel := S (Z.to_nat 128)) (s := (n, old))
    as ([i rs] & E & H); [| |cbn; lia|by exists i, rs].
  - intros [i rs] (Hi & Hl & Hlo & Hhi & Hb). cbn [fst snd] in *. split; [lia|].
    unfold reserve_step, reserve_shifts. destruct (Z.ltb_spec 0 i).
    2: { right. eexists. split; [done|]. split; [done|]. cbn. lia. }
    rewrite usub_ok by lia. cbn [obind]. destruct (getz_is_Some rs (i - 1)) as [r Hr]; [lia|].
    pose proof Hr as Hr0. rewrite Hlo in Hr0 by lia.
    rewrite (idx_ok _ _ _ Hr). cbn [obind]. destruct (Z.ltb_spec bs (base r)); cbn [obind].
    + left. rewrite set_idx_ok by lia. eexists. split; [done|]. cbn. split; [|lia].
      unfold shifting. cbn. split_and!; [lia..|by rewrite lenz_setz| | |].
      * intros j Hj. rewrite getz_setz_ne by lia. apply Hlo. lia.
      * intros j Hj. destruct (decide (i = j)) as [<-|].
        -- rewrite getz_setz_eq by lia. by rewrite Hr0.
        -- rewrite getz_setz_ne by lia. apply Hhi. lia.
      * intros j o Hj Ho. destruct (decide (j = i - 1)) as [->|]; [by simplify_eq|].
        apply (Hb j o); [lia|done].
    + right. eexists. split; [done|]. split; [done|]. cbn. intros r' _ Hr'. congruence.
  - split_and!; cbn; done || lia.
Qed.

Lemma getz_lookup {A} (l : list A) (j : nat) : getz l (Z.of_nat j) = l !! j.
Proof. unfold getz. destruct (Z.leb_spec 0 (Z.of_nat j)); [|lia]. by rewrite Nat2Z.id. Qed.

Lemma shifted_list old n bs i rs r :
  0 <= n < lenz old -> shifting old n bs (i, rs) ->
  take (Z.to_nat (n + 1)) (setz rs i r) =
  take (Z.to_nat i) (take (Z.to_nat n) old) ++ r :: drop (Z.to_nat i) (take (Z.to_nat n) old).
Proof.
  intros Hn (Hi & Hl & Hlo & Hhi & _). cbn [fst snd] in *. unfold lenz in *.
  apply list_eq. intros j. rewrite take_take, Nat.min_l by lia.
  assert (length (take (Z.to_nat i) old) = Z.to_nat i) as Hlt by (rewrite length_take; lia).
  destruct (decide (n < Z.of_nat j)) as [Hj|Hj].
  { rewrite lookup_take_ge by lia. symmetry. apply lookup_ge_None.
    rewrite length_app, Hlt. cbn. rewrite length_drop, length_take. lia. }
  rewrite lookup_take_lt by lia. rewrite <- getz_lookup.
  destruct (Z.lt_total (Z.of_nat j) i) as [?|[?|?]].
  - rewrite getz_setz_ne, Hlo, getz_lookup by lia. rewrite lookup_app_l by lia.
    by rewrite lookup_take_lt by lia.
  - subst i. rewrite getz_setz_eq by (unfold lenz; lia). rewrite lookup_app_r by lia.
    rewrite Hlt, Nat2Z.id, Nat.sub_diag. done.
  - rewrite getz_setz_ne, Hhi by lia. rewrite lookup_app_r, Hlt by lia.
    replace (j - Z.to_nat i)%nat with (S (j - 1 - Z.to_nat i)) by lia.
    rewrite lookup_cons_ne_0 by lia. cbn [pred]. rewrite lookup_drop, lookup_take_lt by lia. rewrite <- getz_lookup. f_equal. lia.
Qed.

Lemma sorted_take_le l n q r :
  StronglySorted by_base l -> l !! n = Some q -> r ∈ take (S n) l -> base r <= base q.
Proof.
  intros Hs Hq. rewrite (take_S_r _ _ _ Hq), elem_of_app. intros [Hr| ->%list_elem_of_singleton]; [|lia].
  rewrite <- (take_drop_middle l n q Hq) in Hs. change (by_base r q).
  eapply StronglySorted_app_1_elem_of; [exact Hs|done|by left].
Qed.

Lemma reserve_ok b bs fs :
  bm_ok b -> n_reserved b < NR_REGIONS -> region_ok (mkRegion bs fs) ->
  exists b', reserve b bs fs = Ok b' /\ bm_ok b' /\
    memory b' = memory b /\ n_memory b' = n_memory b /\ n_reserved b' = n_reserved b + 1 /\
    forall r, r ∈ res_regions b' <-> r = mkRegion bs fs \/ r ∈ res_regions b.
Proof.
  intros [Hml Hrl Hnm Hnr Hm Hr Hs] Hlt Hok. pose proof Hok as (? & Hf & ?). cbn in Hf.
  unfold reserve. rewrite debug_assert_true by lia. cbn [obind].
  unfold assert_. destruct (Z.ltb_spec (n_reserved b) NR_REGIONS); [|lia]. cbn [obind].
  destruct (shift_loop (reserved b) (n_reserved b) bs) as (i & rs & -> & Hsh & Hle); [lia|done|].
  cbn [obind]. pose proof Hsh as (Hi & Hl & _ & _ & Hgt). cbn [fst snd] in *.
  rewrite set_idx_ok by lia. cbn [obind]. unfold NR_REGIONS in *. rewrite uadd_ok by lia. cbn [obind].
  eexists. split; [done|]. set (b' := mkBootMem _ _ _ _).
  assert (res_regions b' = take (Z.to_nat i) (res_regions b) ++ mkRegion bs fs :: drop (Z.to_nat i) (res_regions b))
    as E by (eapply shifted_list; [|exact Hsh]; lia).
  assert (forall r, r ∈ res_regions b' <-> r = mkRegion bs fs \/ r ∈ res_regions b) as Hin.
  { intros r. assert (r ∈ res_regions b <-> r ∈ take (Z.to_nat i) (res_regions b) \/
      r ∈ drop (Z.to_nat i) (res_regions b)) as -> by by rewrite <- elem_of_app, take_drop.
    rewrite E, elem_of_app, elem_of_cons. tauto. }
  split_and!; [|done..|exact Hin]. constructor; [done| |done|unfold NR_REGIONS; cbn; lia|done| |].
  - cbn. rewrite lenz_setz. unfold NR_REGIONS. lia.
  - apply list.Forall_forall. intros r [->|?]%Hin; [done|]. rewrite list.Forall_forall in Hr. auto.
  - rewrite E. pose proof Hs as Hs'. rewrite <- (take_drop (Z.to_nat i) (res_regions b)) in Hs'.
    apply StronglySorted_app in Hs' as (H12 & HS1 & HS2).
    assert (forall r, r ∈ drop (Z.to_nat i) (res_regions b) -> bs < base r) as Hdr.
    { intros r (j & Hj)%list_elem_of_lookup. rewrite lookup_drop in Hj.
      apply lookup_take_Some in Hj as [Hj Hjn]. apply (Hgt (Z.of_nat (Z.to_nat i + j))); [lia|].
      by rewrite getz_lookup. }
    assert (forall r, r ∈ take (Z.to_nat i) (res_regions b) -> base r <= bs) as Htk.
    { intros r Hin1. destruct (decide (i = 0)) as [->|Hi0]; [set_solver|].
      destruct (getz_is_Some (reserved b) (i - 1)) as [q Hq]; [lia|].
      specialize (Hle q ltac:(lia) Hq). etrans; [|exact Hle].
      apply (sorted_take_le (res_regions b) (Z.to_nat (i - 1))); [done| |].
      - unfold res_regions. rewrite lookup_take_lt by lia. rewrite <- getz_lookup.
        by rewrite Z2Nat.id by lia.
      - by replace (S (Z.to_nat (i - 1))) with (Z.to_nat i) by lia. }
    apply StronglySorted_app_2; [|done|].
    + intros x y Hx [->|Hy]%elem_of_cons; [by apply Htk|]. by apply H12.
    + constructor; [done|]. apply list.Forall_forall. intros r Hr'. specialize (Hdr r Hr').
      unfold by_base. cbn. lia.
Qed.
End reserve.

(* ------------------------------------------------------------------------- *)
(** ** The search of [alloc] *)

(** [n] frames at [x], aligned, unreserved, inside one memory region. *)
Definition avail (b : BootMem) (n al x : Z) : Prop :=
  (al | x) /\ exists m, m ∈ mem_regions b /\ base m <= x /\ x + n <= rend m /\
    forall f, x <= f < x + n -> ~ is_reserved b f.

Definition fits (hs : list Region) (n al x : Z) : Prop :=
  (al | x) /\ exists h, h ∈ hs /\ base h <= x /\ x + n <= rend h.

Lemma holes_ok b h : bm_ok b -> h ∈ holes b -> region_ok h /\
  exists m, m ∈ mem_regions b /\ base m <= base h /\ rend h <= rend m.
Proof.
  intros [_ _ _ _ Hm Hr _] (m & Hh & Hin)%list_elem_of_bind.
  destruct (carve_holes (rend m) (base m) (res_regions b) Hr) as [_ HR].
  specialize (HR h Hh) as (? & ? & ?). rewrite list.Forall_forall in Hm.
  specialize (Hm m Hin) as (? & ? & ?). split; [split_and!; lia|eauto].
Qed.

Lemma holes_free b f : bm_ok b -> (exists h, h ∈ holes b /\ in_region h f) <-> is_free b f.
Proof.
  intros B. unfold holes, is_free, is_ram, is_reserved. split.
  - intros (h & (m & Hh & Hm)%list_elem_of_bind & Hf).
    destruct (proj1 (carve_exact (rend m) (base m) (res_regions b) f (bm_sorted b B)))
      as [Hfm Hn]; [eauto|].
    split; [by exists m|]. intros (r & Hr & ?). by eapply Hn.
  - intros [(m & Hm & Hf) Hn].
    destruct (proj2 (carve_exact (rend m) (base m) (res_regions b) f (bm_sorted b B)))
      as (h & Hh & ?); [split; [done|]; naive_solver|].
    exists h. split; [|done]. apply list_elem_of_bind. eauto.
Qed.

Lemma fits_avail b n al x : bm_ok b -> 1 <= n -> fits (holes b) n al x <-> avail b n al x.
Proof.
  intros B Hn. unfold fits, avail. split; intros [Hal H]; (split; [done|]).
  - destruct H as (h & Hh & Hl & Hr). destruct (holes_ok b h B Hh) as (_ & m & Hm & ? & ?).
    exists m. split_and!; [done|lia..|]. intros f Hf.
    apply (proj1 (holes_free b f B)). exists h. split; [done|]. unfold in_region. lia.
  - destruct H as (m & Hm & Hl & Hr & Hf).
    destruct (carve_covers (rend m) (base m) (res_regions b) x n (bm_sorted b B))
      as (h & Hh & ?); [lia..| |apply B|].
    + intros f r Hx Hr' Hin. apply (Hf f Hx). by exists r.
    + exists h. split; [|done]. apply list_elem_of_bind. eauto.
Qed.

Section alloc.
Context {P : Profile}.
Implicit Types b : BootMem.

(** The best candidate of one hole. *)
Lemma alloc_candidate_ok n al best h :
  1 <= n -> 1 <= al -> region_ok h ->
  exists best', alloc_candidate n al best h = Ok best' /\
    (forall x, best' = Some x -> best = Some x \/ fits [h] n al x) /\
    (forall x, best = Some x \/ fits [h] n al x -> exists y, best' = Some y /\ x <= y).
Proof.
  intros Hn Hal Hh. pose proof Hh as (? & ? & ?). unfold alloc_candidate.
  assert (forall x, fits [h] n al x <-> (al | x) /\ base h <= x /\ x + n <= rend h) as Hfit.
  { intros x. unfold fits. set_solver. }
  destruct (Z.leb_spec n (frames h)) as [Hle|Hgt].
  2: { exists best. split; [done|]. split; [by left|]. intros x [->|Hx]; [eauto with lia|].
       apply Hfit in Hx. unfold rend in *. lia. }
  rewrite (Region_end_ok h Hh). cbn [obind]. unfold rend in *. rewrite usub_ok by lia. cbn [obind].
  rewrite as_u32_small by lia. unfold urem. destruct (Z.eqb_spec al 0); [lia|]. cbn [obind].
  set (top := base h + frames h - n) in *.
  pose proof (Z.mod_pos_bound top al ltac:(lia)) as Hmod.
  pose proof (Z.div_mod top al ltac:(lia)) as Hdm. pose proof (Z.div_pos top al ltac:(lia) ltac:(lia)).
  rewrite usub_ok by nia. cbn [obind]. set (cand := top - top mod al).
  assert ((al | cand)) as Hc by (exists (top / al); lia).
  assert (forall x, (al | x) -> x <= top -> x <= cand) as Hmax.
  { intros x [k ->] Hx. enough (k <= top / al) by nia. apply Z.div_le_lower_bound; lia. }
  destruct (Z.leb_spec (base h) cand) as [Hb|Hb]; cbn [andb].
  - destruct (match best with None => true | Some c => c <? cand end) eqn:Hbest.
    + exists (Some cand). split; [done|]. split.
      * intros x [= <-]. right. apply Hfit. split_and!; [done..|]. lia.
      * intros x Hx. exists cand. split; [done|]. destruct Hx as [->|(? & ? & ?)%Hfit]; [lia|].
        apply Hmax; [done|]. lia.
    + destruct best as [c|]; [|done]. exists (Some c). split; [done|]. split; [by left|].
      intros x [[= <-]|(? & ? & ?)%Hfit]; exists c; (split; [done|]); [lia|].
      assert (x <= cand) by (apply Hmax; [done|lia]). lia.
  - exists best. split; [done|]. split; [by left|]. intros x [->|(? & ? & ?)%Hfit]; [eauto with lia|].
    assert (x <= cand) by (apply Hmax; [done|lia]). lia.
Qed.

Lemma alloc_search_ok n al hs best :
  1 <= n -> 1 <= al -> Forall region_ok hs ->
  exists best', foldM (alloc_candidate n al) hs best = Ok best' /\
    (forall x, best' = Some x -> best = Some x \/ fits hs n al x) /\
    (forall x, best = Some x \/ fits hs n al x -> exists y, best' = Some y /\ x <= y).
Proof.
  intros Hn Hal. revert best. induction hs as [|h hs IH]; intros best Hok; cbn [foldM].
  - exists best. split; [done|]. split; [by left|].
    intros x [->|(_ & h & ? & _)]; [eauto with lia|set_solver].
  - apply list.Forall_cons in Hok as [Hh Hok].
    destruct (alloc_candidate_ok n al best h Hn Hal Hh) as (b1 & -> & H1 & H2). cbn [obind].
    destruct (IH b1 Hok) as (b2 & -> & H3 & H4). exists b2. split; [done|].
    assert (forall x, fits (h :: hs) n al x <-> fits [h] n al x \/ fits hs n al x) as Hf.
    { intros x. unfold fits. set_solver. }
    split.
    + intros x Hx. rewrite Hf. destruct (H3 x Hx) as [Hb|?]; [|tauto].
      destruct (H1 x Hb); tauto.
    + intros x Hx. rewrite Hf in Hx.
      assert ((best = Some x \/ fits [h] n al x) \/ fits hs n al x) as [Hx'|?] by tauto.
      * destruct (H2 x Hx') as (y & -> & ?). destruct (H4 y) as (z & -> & ?); [by left|].
        exists z. split; [done|lia].
      * apply H4. by right.
Qed.
End alloc.

(* ------------------------------------------------------------------------- *)
(** ** Building the lists *)

Lemma BootMem_new_ok : bm_ok BootMem_new.
Proof. constructor; [reflexivity|reflexivity|unfold NR_REGIONS; cbn; lia..| | |]; constructor. Qed.

Lemma take_setz_snoc (l : list Region) n x :
  0 <= n < lenz l -> take (Z.to_nat (n + 1)) (setz l n x) = take (Z.to_nat n) l ++ [x].
Proof.
  intros Hn. replace (Z.to_nat (n + 1)) with (S (Z.to_nat n)) by lia.
  unfold setz, lenz in *. destruct (Z.leb_spec 0 n); [|lia].
  rewrite (take_S_r _ _ x) by (apply list_lookup_insert_eq; lia).
  by rewrite take_insert_ge by lia.
Qed.

Section building.
Context {P : Profile}.
Implicit Types b : BootMem.

Lemma add_memory_ok b bs fs :
  bm_ok b -> n_memory b < NR_REGIONS -> region_ok (mkRegion bs fs) ->
  exists b', add_memory b bs fs = Ok b' /\ bm_ok b' /\
    mem_regions b' = mem_regions b ++ [mkRegion bs fs] /\ res_regions b' = res_regions b /\
    n_memory b' = n_memory b + 1 /\ n_reserved b' = n_reserved b.
Proof.
  intros [Hml Hrl Hnm Hnr Hm Hr Hs] Hlt Hok. pose proof Hok as (? & Hf & ?). cbn in Hf.
  unfold add_memory. rewrite debug_assert_true by lia. cbn [obind].
  unfold assert_. destruct (Z.ltb_spec (n_memory b) NR_REGIONS); [|lia]. cbn [obind].
  rewrite set_idx_ok by lia. cbn [obind]. unfold NR_REGIONS in *. rewrite uadd_ok by lia. cbn [obind].
  eexists. split; [done|]. set (b' := mkBootMem _ _ _ _).
  assert (mem_regions b' = mem_regions b ++ [mkRegion bs fs]) as E by (apply take_setz_snoc; lia).
  split_and!; try done. constructor; try done.
  - cbn. by rewrite lenz_setz.
  - unfold NR_REGIONS. cbn. lia.
  - rewrite E. apply Forall_app. by split; [|constructor].
Qed.
End building.

(** A 128 MiB machine with its image and a device tree reserved. *)
Definition boot_demo : BootMem :=
  Eval vm_compute in
    match (let! b := add_memory_bytes (P := release_dev) BootMem_new 0x40000000 0x48000000 in
           let! b := reserve_bytes (P := release_dev) b 0x40080000 0x40200000 in
           reserve_bytes (P := release_dev) b 0x48000000 0x48000001) with
    | Ok b => b | Panic _ => BootMem_new end.

Lemma boot_demo_mem : mem_regions boot_demo = [mkRegion 0x40000 0x8000].
Proof. reflexivity. Qed.
Lemma boot_demo_res :
  res_regions boot_demo = [mkRegion 0x40080 0x180; mkRegion 0x48000 1].
Proof. reflexivity. Qed.

Lemma boot_demo_ok : bm_ok boot_demo.
Proof.
  constructor; rewrite ?boot_demo_mem, ?boot_demo_res; [reflexivity|reflexivity|unfold NR_REGIONS; cbn; lia..| | |].
  all: repeat constructor; unfold rend, by_base; cbn; lia.
Qed.

Lemma BootMem_alloc_cases {P : Profile} b n al :
  bm_ok b -> 1 <= n -> 1 <= al -> n_reserved b < NR_REGIONS ->
  (exists x b', BootMem_alloc b n al = Ok (Some x, b') /\ avail b n al x /\
     (forall y, avail b n al y -> y <= x) /\ bm_ok b' /\ mem_regions b' = mem_regions b /\
     (forall f, is_free b' f <-> is_free b f /\ ~ x <= f < x + n)) \/
  (BootMem_alloc b n al = Ok (None, b) /\ forall x, ~ avail b n al x).
Proof.
  intros B Hn Hal Hlt. unfold BootMem_alloc. rewrite debug_assert_true by lia. cbn [obind].
  rewrite (for_each_free_holes b _ _ B).
  destruct (alloc_search_ok n al (holes b) None Hn Hal) as (best & -> & Hsound & Hmax).
  { apply list.Forall_forall. intros h Hh. by apply (holes_ok b h B). }
  cbn [obind]. destruct best as [x|].
  - left. destruct (Hsound x eq_refl) as [?|Hx]; [done|].
    pose proof Hx as (_ & h & Hh & ? & ?). destruct (holes_ok b h B Hh) as ((? & ? & ?) & _).
    destruct (reserve_ok b x n B Hlt) as (b' & -> & B' & Em & Enm & _ & Hin).
    { split_and!; unfold rend in *; cbn; lia. }
    exists x, b'. split; [done|]. rewrite <- fits_avail by done. split_and!; try done.
    + intros y Hy%fits_avail; [|done..]. destruct (Hmax y) as (z & [= <-] & ?); [by right|done].
    + unfold mem_regions. by rewrite Em, Enm.
    + intros f. unfold is_free, is_ram, is_reserved, mem_regions. rewrite Em, Enm.
      assert ((exists r, r ∈ res_regions b' /\ in_region r f) <->
        (exists r, r ∈ res_regions b /\ in_region r f) \/ x <= f < x + n) as ->; [|tauto].
      setoid_rewrite Hin. unfold in_region, rend. split.
      * intros (r & [->|Hr] & Hf); [by right|left; eauto].
      * intros [(r & Hr & Hf)|Hf]; [eauto|]. eexists. split; [by left|]. done.
  - right. split; [done|]. intros x Hx%fits_avail; [|done..].
    destruct (Hmax x) as (? & [=] & _). by right.
Qed.

(* ------------------------------------------------------------------------- *)
(** ** Theorems *)

(** C19: [alloc] on every branch.  It never panics while a reserved slot is left;
    it grants the highest aligned run of free frames inside one memory region and
    reserves exactly that run, or refuses, unchanged, when there is none. *)
Theorem BootMem_alloc_correct {P : Profile} b n al :
  bm_ok b -> 1 <= n -> 1 <= al -> n_reserved b < NR_REGIONS ->
  (exists x b', BootMem_alloc b n al = Ok (Some x, b') /\ avail b n al x /\
     (forall y, avail b n al y -> y <= x) /\ bm_ok b' /\
     (forall f, is_free b' f <-> is_free b f /\ ~ x <= f < x + n)) \/
  (BootMem_alloc b n al = Ok (None, b) /\ forall x, ~ avail b n al x).
Proof.
  intros B Hn Hal Hlt.
  destruct (BootMem_alloc_cases b n al B Hn Hal Hlt) as [(x & b' & ? & ? & ? & ? & _ & ?)|?]; [left|by right].
  exists x, b'. done.
Qed.

Lemma BootMem_alloc_correct_witness :
  BootMem_alloc (P := release_dev) boot_demo 128 1 <> Ok (None, boot_demo) /\
  ((exists x b', BootMem_alloc (P := release_dev) boot_demo 128 1 = Ok (Some x, b') /\
      avail boot_demo 128 1 x /\ (forall y, avail boot_demo 128 1 y -> y <= x) /\ bm_ok b' /\
      (forall f, is_free b' f <-> is_free boot_demo f /\ ~ x <= f < x + 128)) \/
   (BootMem_alloc (P := release_dev) boot_demo 128 1 = Ok (None, boot_demo) /\
      forall x, ~ avail boot_demo 128 1 x)).
Proof.
  split; [by vm_compute|].
  apply (BootMem_alloc_correct (P := release_dev) boot_demo 128 1 boot_demo_ok); by vm_compute.
Defined.

(** [for_each_free] calls its closure, in order, on a list of holes that
    depends on the allocator only: non-empty intervals whose union is exactly the
    RAM that is not reserved, each inside one memory region and strictly apart
    from the next of its region. *)
Theorem for_each_free_exact {P : Profile} b :
  bm_ok b ->
  (forall S (f : S -> Region -> outcome S) s, for_each_free b f s = foldM f (holes b) s) /\
  (forall f, (exists h, h ∈ holes b /\ in_region h f) <-> is_free b f) /\
  (forall h, h ∈ holes b -> region_ok h) /\
  (forall m, m ∈ mem_regions b ->
     StronglySorted (fun h h' => rend h < base h') (carve (rend m) (base m) (res_regions b))).
Proof.
  intros B. split_and!.
  - intros. by apply for_each_free_holes.
  - intros f. by apply holes_free.
  - intros h Hh. by apply (holes_ok b h B).
  - intros m _. apply carve_holes, B.
Qed.

Lemma for_each_free_exact_witness :
  holes boot_demo = [mkRegion 0x40000 0x80; mkRegion 0x40200 0x7e00] /\
  (forall f, (exists h, h ∈ holes boot_demo /\ in_region h f) <-> is_free boot_demo f).
Proof. split; [by vm_compute|]. apply (for_each_free_exact (P := release) boot_demo boot_demo_ok). Defined.

(** C27: [reserve] keeps the list sorted and adds exactly the region's frames; when
    the 128 slots are taken it stops with a panic instead of dropping a region. *)
Theorem reserve_correct {P : Profile} b bs fs :
  bm_ok b -> region_ok (mkRegion bs fs) ->
  (n_reserved b < NR_REGIONS /\ exists b', reserve b bs fs = Ok b' /\ bm_ok b' /\
     mem_regions b' = mem_regions b /\ n_reserved b' = n_reserved b + 1 /\
     forall f, is_reserved b' f <-> is_reserved b f \/ bs <= f < bs + fs) \/
  (n_reserved b = NR_REGIONS /\ reserve b bs fs = Panic AssertFailed).
Proof.
  intros B Hok. pose proof (bm_n_res b B). destruct (Z.lt_ge_cases (n_reserved b) NR_REGIONS).
  - left. split; [done|]. destruct (reserve_ok b bs fs B) as (b' & E & B' & Em & En & Enr & Hin); [done..|].
    exists b'. split_and!; try done.
    + unfold mem_regions. by rewrite Em, En.
    + intros f. unfold is_reserved. setoid_rewrite Hin. unfold in_region, rend. split.
      * intros (r & [->|Hr] & Hf); [by right|left; eauto].
      * intros [(r & Hr & Hf)|Hf]; [eauto|]. eexists. split; [by left|]. done.
  - right. split; [lia|]. unfold reserve. destruct Hok as (? & Hf & ?). cbn in Hf.
    rewrite debug_assert_true by lia. cbn [obind]. unfold assert_.
    by destruct (Z.ltb_spec (n_reserved b) NR_REGIONS); [lia|].
Qed.

Lemma reserve_correct_witness :
  (n_reserved boot_demo < NR_REGIONS /\ exists b', reserve (P := release) boot_demo 0x41000 16 = Ok b' /\
     bm_ok b' /\ mem_regions b' = mem_regions boot_demo /\ n_reserved b' = n_reserved boot_demo + 1 /\
     forall f, is_reserved b' f <-> is_reserved boot_demo f \/ 0x41000 <= f < 0x41000 + 16) \/
  (n_reserved boot_demo = NR_REGIONS /\ reserve (P := release) boot_demo 0x41000 16 = Panic AssertFailed).
Proof.
  apply (reserve_correct (P := release) boot_demo 0x41000 16 boot_demo_ok).
  split_and!; vm_compute; congruence.
Defined.

(** Byte ranges round the safe way.  [reserve_bytes] reserves every frame that
    holds a byte of the range; [add_memory_bytes] adds only frames that lie wholly
    in it. *)
Theorem byte_rounding_safe {P : Profile} b lo hi :
  bm_ok b -> 0 <= lo < hi -> hi <= (2 ^ 32 - 1) * PAGE_SIZE ->
  n_reserved b < NR_REGIONS -> n_memory b < NR_REGIONS ->
  (exists b1, reserve_bytes b lo hi = Ok b1 /\ bm_ok b1 /\
     forall x, lo <= x < hi -> is_reserved b1 (x / PAGE_SIZE)) /\
  (exists b2, add_memory_bytes b lo hi = Ok b2 /\ bm_ok b2 /\
     forall f, is_ram b2 f -> is_ram b f \/ (lo <= f * PAGE_SIZE /\ (f + 1) * PAGE_SIZE <= hi)).
Proof.
  intros B Hlo Hhi Hnr Hnm. change PAGE_SIZE with 4096 in *. unfold reserve_bytes, add_memory_bytes.
  change PAGE_SIZE with 4096 in *.
  pose proof (div_ceil_spec hi 4096 ltac:(lia)) as Hce. pose proof (div_ceil_spec lo 4096 ltac:(lia)) as Hcl.
  assert (lo / 4096 * 4096 <= lo < (lo / 4096 + 1) * 4096) as Hl by divmod.
  assert (hi / 4096 * 4096 <= hi < (hi / 4096 + 1) * 4096) as Hh by divmod. split.
  - rewrite usub_ok by lia. cbn [obind]. rewrite as_u32_small by lia.
    destruct (reserve_ok b (lo / 4096) (div_ceil hi 4096 - lo / 4096) B Hnr)
      as (b1 & -> & B1 & _ & _ & _ & Hin); [split_and!; unfold rend; cbn; lia|].
    exists b1. split_and!; [done..|]. intros x Hx. eexists. split; [apply Hin; by left|].
    unfold in_region, rend. cbn. split; [divmod|]. enough (x / 4096 < div_ceil hi 4096) by lia.
    apply Z.div_lt_upper_bound; lia.
  - destruct (Z.ltb_spec (div_ceil lo 4096) (hi / 4096)).
    2: { exists b. split_and!; [done..|]. intros f Hf. by left. }
    rewrite usub_ok by lia. cbn [obind]. rewrite as_u32_small by lia.
    destruct (add_memory_ok b (div_ceil lo 4096) (hi / 4096 - div_ceil lo 4096) B Hnm)
      as (b2 & -> & B2 & Em & _); [split_and!; unfold rend; cbn; lia|].
    exists b2. split_and!; [done..|]. intros f (m & Hm & Hf). rewrite Em in Hm.
    apply elem_of_app in Hm as [Hm| ->%list_elem_of_singleton]; [left; by exists m|right].
    unfold in_region, rend in Hf. cbn in Hf. lia.
Qed.

Lemma byte_rounding_safe_witness :
  exists b1, reserve_bytes (P := release_dev) boot_demo 0x41000010 0x41001001 = Ok b1 /\ bm_ok b1 /\
    forall x, 0x41000010 <= x < 0x41001001 -> is_reserved b1 (x / PAGE_SIZE).
Proof.
  apply (byte_rounding_safe (P := release_dev) boot_demo 0x41000010 0x41001001 boot_demo_ok);
    by vm_compute.
Defined.

(* ------------------------------------------------------------------------- *)
(** ** The span of RAM *)

Section span.
Context {P : Profile}.

Lemma span_fold ms lo hi :
  Forall region_ok ms ->
  exists lo' hi', foldM ram_span_step ms (lo, hi) = Ok (lo', hi') /\
    lo' <= lo /\ hi <= hi' /\ (forall m, m ∈ ms -> lo' <= base m /\ rend m <= hi') /\
    (lo' = lo \/ exists m, m ∈ ms /\ base m = lo') /\ (hi' = hi \/ exists m, m ∈ ms /\ rend m = hi').
Proof.
  revert lo hi. induction ms as [|m ms IH]; intros lo hi Hok; cbn [foldM].
  - exists lo, hi. split_and!; [done|lia..|set_solver|by left|by left].
  - apply list.Forall_cons in Hok as [Hm Hok]. cbn [ram_span_step].
    rewrite (Region_end_ok m Hm). cbn [obind].
    destruct (IH (Z.min lo (base m)) (Z.max hi (rend m)) Hok) as (lo' & hi' & -> & ? & ? & Hb & Hl & Hh).
    exists lo', hi'. split_and!; [done|lia..| | |].
    + intros o [->|Ho]%elem_of_cons; [lia|by apply Hb].
    + destruct Hl as [->|(o & ? & <-)]; [|right; exists o; by split; [right|]].
      destruct (Z.min_spec lo (base m)) as [[_ ->]|[_ ->]]; [by left|right].
      exists m. by split; [left|].
    + destruct Hh as [->|(o & ? & <-)]; [|right; exists o; by split; [right|]].
      destruct (Z.max_spec hi (rend m)) as [[_ ->]|[_ ->]]; [right|by left].
      exists m. by split; [left|].
Qed.

Lemma ram_span_ok b :
  bm_ok b -> 0 < n_memory b ->
  exists lo n, ram_span b = Ok (lo, n) /\ 0 <= lo /\ 1 <= n /\ lo + n < 2 ^ 32 /\
    (forall m, m ∈ mem_regions b -> lo <= base m /\ rend m <= lo + n) /\
    is_ram b lo /\ is_ram b (lo + n - 1).
Proof.
  intros B Hn. pose proof (bm_n_mem b B). pose proof (bm_mem_len b B). pose proof (bm_mem b B) as Hok.
  unfold ram_span, assert_. destruct (Z.ltb_spec 0 (n_memory b)); [|lia]. cbn [obind].
  rewrite prefix_ok by lia. cbn [obind]. fold (mem_regions b).
  destruct (span_fold (mem_regions b) (2 ^ 32 - 1) 0 Hok)
    as (lo & hi & -> & ? & ? & Hb & Hl & Hh). cbn [obind].
  rewrite list.Forall_forall in Hok.
  assert (exists m, m ∈ mem_regions b) as [m Hm].
  { destruct (getz_is_Some (memory b) 0) as [m Hm]; [lia|]. exists m. unfold mem_regions.
    apply elem_of_take. exists 0%nat. split; [exact Hm|lia]. }
  pose proof (Hok m Hm) as (? & ? & ?). destruct (Hb m Hm). unfold rend in *.
  destruct Hl as [?|(ml & Hml & El)]; [lia|]. destruct Hh as [?|(mh & Hmh & Eh)]; [lia|].
  pose proof (Hok ml Hml) as (? & ? & ?). pose proof (Hok mh Hmh) as (? & ? & ?). unfold rend in *.
  rewrite usub_ok by lia. cbn [obind]. exists lo, (hi - lo). split_and!; [done|lia..| | |].
  - intros o Ho. destruct (Hb o Ho). lia.
  - exists ml. split; [done|]. unfold in_region, rend. lia.
  - exists mh. split; [done|]. unfold in_region, rend. lia.
Qed.
End span.

(** C20: [ram_span] is the hull of the RAM regions.  Without a region it panics on its
    assertion; with one it returns the least interval that holds all RAM: every RAM frame
    is in it, and its first and its last frames are RAM. *)
Theorem ram_span_tight {P : Profile} b :
  bm_ok b ->
  (n_memory b = 0 -> ram_span b = Panic AssertFailed) /\
  (0 < n_memory b -> exists lo n, ram_span b = Ok (lo, n) /\ (forall f, is_ram b f -> lo <= f < lo + n) /\
     is_ram b lo /\ is_ram b (lo + n - 1)).
Proof.
  intros B. split; [intros Hn; unfold ram_span; by rewrite Hn|]. intros Hn.
  destruct (ram_span_ok b B Hn) as (lo & n & E & _ & _ & _ & Hm & Hlo & Hhi).
  exists lo, n. split_and!; [done| |done..]. intros f (m & Hin & Hf). specialize (Hm m Hin).
  unfold in_region in Hf. lia.
Qed.

Lemma ram_span_tight_witness :
  ram_span (P := release) boot_demo = Ok (0x40000, 0x8000) /\
  exists lo n, ram_span (P := release) boot_demo = Ok (lo, n) /\
    (forall f, is_ram boot_demo f -> lo <= f < lo + n) /\
    is_ram boot_demo lo /\ is_ram boot_demo (lo + n - 1).
Proof.
  split; [reflexivity|]. apply (ram_span_tight (P := release) boot_demo boot_demo_ok). reflexivity.
Defined.
