(* ===== verification/KaniBootmem.v ===== *)
(** * kernel/mm/bootmem.rs, [mod verification]: the code's own proof harnesses

    The harnesses of the boot-time interval allocator, as functions of their
    symbolic inputs (see [KaniBuddy] for the reading of [assume] and [Ok tt]).
    Closures that fill a local array are the same state transformers the
    allocator's own callers use. *)

From S2P Require Import Prelude FrameTypes Layout Bootmem BootmemProps.

Definition empty_bootmem : BootMem :=
  mkBootMem (replicate (Z.to_nat NR_REGIONS) (mkRegion 0 0)) 0 (replicate (Z.to_nat NR_REGIONS) (mkRegion 0 0)) 0.

(** [bm.memory[i] = r] and [bm.reserved[i] = r], at constant indices. *)
Definition set_memory (b : BootMem) (i : Z) (r : Region) : BootMem :=
  mkBootMem (setz (memory b) i r) (n_memory b) (reserved b) (n_reserved b).
Definition set_n_memory (b : BootMem) (n : Z) : BootMem :=
  mkBootMem (memory b) n (reserved b) (n_reserved b).
Definition set_reserved (b : BootMem) (i : Z) (r : Region) : BootMem :=
  mkBootMem (memory b) (n_memory b) (setz (reserved b) i r) (n_reserved b).
Definition set_n_reserved (b : BootMem) (n : Z) : BootMem :=
  mkBootMem (memory b) (n_memory b) (reserved b) n.

(** RAM [0,8) with [2,4) reserved. *)
Definition two_holes_bootmem : BootMem :=
  set_n_reserved (set_reserved
    (set_n_memory (set_memory empty_bootmem 0 (mkRegion 0 8)) 1) 0 (mkRegion 2 2)) 1.

Section harnesses.
Context {P : Profile}.

(** [any_region]: the two symbolic fields and what is assumed of them. *)
Definition any_region (bs fs : Z) (k : Region -> outcome unit) : outcome unit :=
  assume! 1 <=? fs in
  assume! bs + fs <=? 2 ^ 32 - 1 in
  k (mkRegion bs fs).

Definition overlaps_is_symmetric (b1 f1 b2 f2 : Z) : outcome unit :=
  any_region b1 f1 (fun a => any_region b2 f2 (fun b =>
    let! x := Region_overlaps a b in
    let! y := Region_overlaps b a in
    assert_ (bool_decide (x = y)))).

Definition overlaps_matches_definition (b1 f1 b2 f2 : Z) : outcome unit :=
  any_region b1 f1 (fun a => any_region b2 f2 (fun b =>
    let lo := Z.max (base a) (base b) in
    let! ae := Region_end a in
    let! be := Region_end b in
    let hi := Z.min ae be in
    let! x := Region_overlaps a b in
    assert_ (bool_decide (x = (lo <? hi))))).

(** [|r| { holes[n] = r; n += 1; }] *)
Definition collect (s : list Region * Z) (r : Region) : outcome (list Region * Z) :=
  let '(holes, n) := s in
  let! holes := set_idx holes n r in
  let! n := uadd 64 n 1 in
  Ok (holes, n).

Definition hole_is (holes : list Region) (i bs fs : Z) : outcome unit :=
  let! h := idx holes i in assert_ ((base h =? bs) && (frames h =? fs)).

Definition for_each_free_two_holes : outcome unit :=
  let bm := two_holes_bootmem in
  let! '(holes, n) := for_each_free bm collect (replicate 4 Region_ZERO, 0) in
  let! _ := assert_ (n =? 2) in
  let! _ := hole_is holes 0 0 2 in
  hole_is holes 1 4 4.

Definition for_each_free_two_reserved : outcome unit :=
  let bm := set_n_memory (set_memory empty_bootmem 0 (mkRegion 0 8)) 1 in
  let bm := set_reserved (set_reserved bm 0 (mkRegion 1 1)) 1 (mkRegion 4 1) in
  let bm := set_n_reserved bm 2 in
  let! '(holes, n) := for_each_free bm collect (replicate 4 Region_ZERO, 0) in
  let! _ := assert_ (n =? 3) in
  let! _ := hole_is holes 0 0 1 in
  let! _ := hole_is holes 1 2 2 in
  hole_is holes 2 5 3.

Definition for_each_free_conserves_mass (m_frames r_base r_frames : Z) : outcome unit :=
  assume! (1 <=? m_frames) && (m_frames <=? 8) in
  assume! (r_base <=? 8) && (r_frames <=? 8) in
  let bm := set_n_memory (set_memory empty_bootmem 0 (mkRegion 0 m_frames)) 1 in
  let bm := set_n_reserved (set_reserved bm 0 (mkRegion r_base r_frames)) 1 in
  let! freed := for_each_free bm (fun freed r => uadd 32 freed (as_u32 (frames r))) 0 in
  let! e := uadd 32 r_base r_frames in
  let hi := Z.min e m_frames in
  let! overlap := (if r_base <? hi then usub 32 hi r_base else Ok 0) in
  let! want := usub 32 m_frames overlap in
  assert_ (freed =? want).

Definition reserve_keeps_sorted (bs : Z) : outcome unit :=
  let bm := set_reserved (set_reserved empty_bootmem 0 (mkRegion 2 1)) 1 (mkRegion 5 1) in
  let bm := set_n_reserved bm 2 in
  assume! bs <=? 8 in
  let! bm := reserve bm bs 1 in
  let! _ := assert_ (n_reserved bm =? 3) in
  let! '(_, _) :=
    while 3 (fun s => s.1 <? n_reserved bm)
      (fun s =>
         let! j := usub 64 s.1 1 in
         let! lo := idx (reserved bm) j in
         let! hi := idx (reserved bm) s.1 in
         let! _ := assert_ (base lo <=? base hi) in
         let! i := uadd 64 s.1 1 in
         Ok (i, tt)) (1, tt) in
  Ok tt.

Definition add_memory_appends : outcome unit :=
  let! bm := add_memory empty_bootmem 0 4 in
  let! bm := add_memory bm 10 4 in
  let! _ := assert_ (n_memory bm =? 2) in
  let! _ := hole_is (memory bm) 0 0 4 in
  hole_is (memory bm) 1 10 4.

Definition reserve_bytes_rounds_outward (base_pa end_pa : Z) : outcome unit :=
  assume! base_pa <? end_pa in
  assume! end_pa <=? 64 * PAGE_SIZE in
  let! bm := reserve_bytes empty_bootmem base_pa end_pa in
  let! _ := assert_ (n_reserved bm =? 1) in
  let! r := idx (reserved bm) 0 in
  let! lo := umul 64 (base r) PAGE_SIZE in
  let! _ := assert_ (lo <=? base_pa) in
  let! e := Region_end r in
  let! hi := umul 64 e PAGE_SIZE in
  assert_ (end_pa <=? hi).

Definition add_memory_bytes_rounds_inward (base_pa end_pa : Z) : outcome unit :=
  assume! base_pa <? end_pa in
  assume! end_pa <=? 64 * PAGE_SIZE in
  let! bm := add_memory_bytes empty_bootmem base_pa end_pa in
  if n_memory bm =? 1 then
    let! r := idx (memory bm) 0 in
    let! lo := umul 64 (base r) PAGE_SIZE in
    let! _ := assert_ (base_pa <=? lo) in
    let! e := Region_end r in
    let! hi := umul 64 e PAGE_SIZE in
    assert_ (hi <=? end_pa)
  else Ok tt.

Definition alloc_top_down_picks_highest : outcome unit :=
  let! '(r, bm) := BootMem_alloc two_holes_bootmem 2 2 in
  let! bs := unwrap r in
  let! _ := assert_ (bs =? 6) in
  assert_ (n_reserved bm =? 2).

Definition alloc_never_hits_reserved (fs align : Z) : outcome unit :=
  assume! (1 <=? fs) && (fs <=? 8) in
  assume! (align =? 1) || (align =? 2) || (align =? 4) in
  let! '(r, _) := BootMem_alloc two_holes_bootmem fs align in
  match r with
  | Some bs =>
      let! rem := urem bs align in
      let! _ := assert_ (rem =? 0) in
      let! e := uadd 32 bs fs in
      let! _ := assert_ (e <=? 8) in
      let! e := uadd 32 bs fs in
      assert_ ((e <=? 2) || (4 <=? bs))
  | None => Ok tt
  end.

Definition alloc_returns_none_when_too_big : outcome unit :=
  let! '(r, bm) := BootMem_alloc two_holes_bootmem 5 1 in
  let! _ := assert_eq (Ok r) None in
  assert_ (n_reserved bm =? 1).

Definition ram_span_covers_all_regions (b0 f0 b1 f1 : Z) : outcome unit :=
  assume! (1 <=? f0) && (1 <=? f1) in
  assume! (b0 <=? 2 ^ 20) && (f0 <=? 2 ^ 20) in
  assume! (b1 <=? 2 ^ 20) && (f1 <=? 2 ^ 20) in
  let bm := set_memory (set_memory empty_bootmem 0 (mkRegion b0 f0)) 1 (mkRegion b1 f1) in
  let bm := set_n_memory bm 2 in
  let! '(lo, nr) := ram_span bm in
  let! _ := assert_ ((lo <=? b0) && (lo <=? b1)) in
  let! top := uadd 64 lo nr in
  let! e0 := uadd 32 b0 f0 in
  let! _ := assert_ (e0 <=? top) in
  let! top := uadd 64 lo nr in
  let! e1 := uadd 32 b1 f1 in
  assert_ (e1 <=? top).

(** Every harness of the module on one choice of symbolic inputs. *)
Definition bootmem_harnesses (b1 f1 b2 f2 m rb rf fs align lo hi : Z) : list (outcome unit) :=
  [ overlaps_is_symmetric b1 f1 b2 f2; overlaps_matches_definition b1 f1 b2 f2;
    for_each_free_two_holes; for_each_free_two_reserved; for_each_free_conserves_mass m rb rf;
    reserve_keeps_sorted b1; add_memory_appends; reserve_bytes_rounds_outward lo hi;
    add_memory_bytes_rounds_inward lo hi; alloc_top_down_picks_highest;
    alloc_never_hits_reserved fs align; alloc_returns_none_when_too_big;
    ram_span_covers_all_regions b1 f1 b2 f2 ].
End harnesses.

(* ------------------------------------------------------------------------- *)
(** ** The harnesses pass *)

Section passes.
Context {P : Profile}.

Lemma any_region_ok bs fs k :
  0 <= bs -> (forall r, region_ok r -> k r = Ok tt) -> any_region bs fs k = Ok tt.
Proof.
  intros Hb Hk. unfold any_region. assumptions. apply Hk. unfold region_ok, rend. cbn. lia.
Qed.

Lemma Region_overlaps_ok r o :
  region_ok r -> region_ok o -> Region_overlaps r o = Ok ((base r <? rend o) && (base o <? rend r)).
Proof.
  intros Hr Ho. unfold Region_overlaps. rewrite !Region_end_ok by done. cbn [obind].
  by destruct (_ <? _).
Qed.

Lemma overlap_harnesses_ok b1 f1 b2 f2 :
  0 <= b1 -> 0 <= b2 ->
  overlaps_is_symmetric b1 f1 b2 f2 = Ok tt /\ overlaps_matches_definition b1 f1 b2 f2 = Ok tt.
Proof.
  intros H1 H2. split.
  - apply any_region_ok; [done|]. intros a Ha. apply any_region_ok; [done|]. intros b Hb.
    rewrite !Region_overlaps_ok by done. cbn [obind]. apply assert_true, bool_decide_eq_true, andb_comm.
  - apply any_region_ok; [done|]. intros a Ha. apply any_region_ok; [done|]. intros b Hb.
    rewrite Region_overlaps_ok, !Region_end_ok by done. cbn [obind].
    apply assert_true, bool_decide_eq_true. destruct Ha as (_ & ? & _), Hb as (_ & ? & _).
    unfold rend. lia.
Qed.

(** On the empty allocator the first region goes into the first slot. *)
Lemma reserve_empty bs fs :
  1 <= fs -> reserve empty_bootmem bs fs = Ok (set_n_reserved (set_reserved empty_bootmem 0 (mkRegion bs fs)) 1).
Proof. intros. unfold reserve. rewrite debug_assert_true by lia. destruct P; reflexivity. Qed.

Lemma add_memory_empty bs fs :
  1 <= fs -> add_memory empty_bootmem bs fs = Ok (set_n_memory (set_memory empty_bootmem 0 (mkRegion bs fs)) 1).
Proof. intros. unfold add_memory. rewrite debug_assert_true by lia. destruct P; reflexivity. Qed.

Lemma reserve_bytes_rounds_outward_ok lo hi : 0 <= lo -> reserve_bytes_rounds_outward lo hi = Ok tt.
Proof.
  intros Hlo. unfold reserve_bytes_rounds_outward, PAGE_SIZE. assumptions.
  pose proof (div_ceil_spec hi 4096 ltac:(lia)).
  assert (lo / 4096 * 4096 <= lo < (lo / 4096 + 1) * 4096) by divmod.
  unfold reserve_bytes, PAGE_SIZE. rewrite usub_ok by lia. cbn [obind]. rewrite as_u32_small by lia.
  rewrite reserve_empty by lia.
  set (r := mkRegion _ _). cbn [obind n_reserved set_n_reserved]. rewrite assert_true by done.
  change (idx (reserved _) 0) with (Ok r). cbn [obind]. unfold r. cbn [base].
  rewrite umul_ok by lia. cbn [obind]. rewrite assert_true by lia. cbn [obind].
  rewrite Region_end_ok by (unfold region_ok, rend; cbn; lia). unfold rend. cbn [obind base frames].
  rewrite umul_ok by lia. cbn [obind]. apply assert_true. lia.
Qed.

Lemma add_memory_bytes_rounds_inward_ok lo hi : 0 <= lo -> add_memory_bytes_rounds_inward lo hi = Ok tt.
Proof.
  intros Hlo. unfold add_memory_bytes_rounds_inward, PAGE_SIZE. assumptions.
  pose proof (div_ceil_spec lo 4096 ltac:(lia)). assert (hi / 4096 * 4096 <= hi) by divmod.
  unfold add_memory_bytes, PAGE_SIZE. destruct (Z.ltb_spec (div_ceil lo 4096) (hi / 4096)); [|done].
  rewrite usub_ok by lia. cbn [obind]. rewrite as_u32_small by lia. rewrite add_memory_empty by lia.
  set (r := mkRegion _ _). cbn [obind n_memory set_n_memory]. change (1 =? 1) with true. cbn match.
  change (idx (memory _) 0) with (Ok r). cbn [obind]. unfold r. cbn [base].
  rewrite umul_ok by lia. cbn [obind]. rewrite assert_true by lia. cbn [obind].
  rewrite Region_end_ok by (unfold region_ok, rend; cbn; lia). unfold rend. cbn [obind base frames].
  rewrite umul_ok by lia. cbn [obind]. apply assert_true. lia.
Qed.

Lemma ram_span_covers_all_regions_ok b0 f0 b1 f1 :
  0 <= b0 -> 0 <= b1 -> ram_span_covers_all_regions b0 f0 b1 f1 = Ok tt.
Proof.
  intros H0 H1. unfold ram_span_covers_all_regions. assumptions. cbv zeta.
  set (r0 := mkRegion b0 f0). set (r1 := mkRegion b1 f1).
  assert (region_ok r0 /\ region_ok r1) as [Hr0 Hr1] by (unfold region_ok, rend; cbn; lia).
  unfold ram_span. rewrite assert_true by done. cbn [obind].
  change (prefix _ _) with (Ok [r0; r1]). cbn [obind foldM ram_span_step].
  rewrite !Region_end_ok by done. cbn [obind ram_span_step].
  rewrite !Region_end_ok by done. unfold rend. cbn [obind base frames r0 r1].
  rewrite usub_ok by lia. cbn [obind]. rewrite assert_true by lia. cbn [obind].
  rewrite uadd_ok by lia. cbn [obind]. rewrite uadd_ok by lia. cbn [obind].
  rewrite assert_true by lia. cbn [obind]. rewrite uadd_ok by lia. cbn [obind]. apply assert_true. lia.
Qed.

Lemma boot_fixture_harnesses_ok :
  (forall m, 1 <= m < 9 -> forall rb, 0 <= rb < 9 -> forall rf, 0 <= rf < 9 ->
     for_each_free_conserves_mass m rb rf = Ok tt) /\
  (forall bs, 0 <= bs < 9 -> reserve_keeps_sorted bs = Ok tt) /\
  (forall fs, 1 <= fs < 9 -> forall align, 1 <= align < 5 -> alloc_never_hits_reserved fs align = Ok tt).
Proof. destruct P; run_decision. Qed.

Lemma boot_fixture_harnesses_pass m rb rf bs fs align :
  0 <= rb -> 0 <= rf -> 0 <= bs ->
  for_each_free_conserves_mass m rb rf = Ok tt /\ reserve_keeps_sorted bs = Ok tt /\
  alloc_never_hits_reserved fs align = Ok tt.
Proof.
  intros Hrb Hrf Hbs. destruct boot_fixture_harnesses_ok as (H1 & H2 & H3). split_and!.
  - destruct (decide (1 <= m <= 8 /\ rb <= 8 /\ rf <= 8)); [by apply H1; lia|].
    unfold for_each_free_conserves_mass. assumptions. lia.
  - destruct (decide (bs <= 8)); [by apply H2; lia|]. unfold reserve_keeps_sorted. cbv zeta. assumptions. lia.
  - destruct (decide (1 <= fs <= 8 /\ 1 <= align <= 4)); [by apply H3; lia|].
    unfold alloc_never_hits_reserved. assumptions. lia.
Qed.

(** C40: the harnesses of the boot-time allocator pass on every input they admit (what
    their [kani::assume]s leave of the declared types), with loops followed to their end:
    no assertion fails and nothing under them panics. *)
Theorem bootmem_harnesses_pass b1 f1 b2 f2 m rb rf fs align lo hi :
  unsigned 32 b1 -> unsigned 32 f1 -> unsigned 32 b2 -> unsigned 32 f2 -> unsigned 32 m ->
  unsigned 32 rb -> unsigned 32 rf -> unsigned 32 fs -> unsigned 32 align ->
  unsigned 64 lo -> unsigned 64 hi ->
  Forall (fun r => r = Ok tt) (bootmem_harnesses b1 f1 b2 f2 m rb rf fs align lo hi).
Proof.
  unfold unsigned. intros.
  pose proof (overlap_harnesses_ok b1 f1 b2 f2) as [? ?]; [lia..|].
  pose proof (boot_fixture_harnesses_pass m rb rf b1 fs align) as (? & ? & ?); [lia..|].
  unfold bootmem_harnesses. repeat apply list.Forall_cons_2; [..|apply list.Forall_nil_2].
  all: first [assumption | apply reserve_bytes_rounds_outward_ok; lia | apply add_memory_bytes_rounds_inward_ok; lia
             | apply ram_span_covers_all_regions_ok; lia | destruct P; by vm_compute].
Qed.
End passes.

Lemma bootmem_harnesses_pass_witness :
  Forall (fun r => r = Ok tt)
    (bootmem_harnesses (P := release_dev) 2 3 4 5 8 3 2 2 4 5000 90000).
Proof. apply (bootmem_harnesses_pass (P := release_dev)); unfold unsigned; lia. Defined.
