(* ===== verification/Boot.v ===== *)
(** * kernel/core/main.rs: the boot-time memory hand-off

    [build_bootmem], [init_buddy] and [reclaim_trampoline], composed from the
    bootmem and buddy models the way [kmain] composes them, with [mm/ram.rs].
    What they read from outside is an argument: the device tree's memory nodes and
    size, the linker symbols, and the words that happen to lie where the mem-map
    is placed ([raw]). *)

From stdpp Require Import sorting.
From S2P Require Import Prelude FrameTypes Layout Buddy BuddyInv BuddyGeom BuddyWf BuddySteps BuddyCore BuddyFree BuddyRange BuddyCanon BuddyProps Bootmem BootmemProps.

(** [fdt::MemoryRegion]: a start address and an optional size. *)
Record FdtRegion := mkFdtRegion { starting_address : Z; fdt_size : option Z }.

Section boot.
Context {P : Profile}.

(** [ram::for_each_region] *)
Definition for_each_region {S} (fdt : list FdtRegion) (f : S -> Z -> Z -> outcome S) (s : S)
  : outcome S :=
  foldM (fun s r =>
    match fdt_size r with
    | Some size => f s (starting_address r) size
    | None => Ok s
    end) fdt s.

Definition build_bootmem (fdt : list FdtRegion) (total_size dtb stack_top_pa : Z) : outcome BootMem :=
  let! boot :=
    for_each_region fdt (fun boot base size =>
      let! e := uadd 64 base size in
      add_memory_bytes boot base e) BootMem_new in
  let! boot := reserve_bytes boot PHYS_LOAD_BASE stack_top_pa in
  let! fdt_pa := linear_va_to_pa dtb in
  let! fdt_end := uadd 64 fdt_pa total_size in
  reserve_bytes boot fdt_pa fdt_end.

(** The closure of [init_buddy]: absolute frame to relative, then free the hole. *)
Definition hand_over (buddy : BuddyAllocator) (h : Region) : outcome BuddyAllocator :=
  let! pa := umul 64 (base h) PAGE_SIZE in
  let! pfn := pfn_of buddy pa in
  BuddyAllocator_free_range buddy pfn (frames h).

(** [raw mm_pa nr]: the [nr] descriptors' worth of memory found at [mm_pa]. *)
Definition init_buddy (raw : Z -> Z -> list PageInfo) (boot : BootMem) : outcome BuddyAllocator :=
  let! '(base_pfn, nr) := ram_span boot in
  let! dram := umul 64 base_pfn PAGE_SIZE in
  let! mm_frames := memmap_frames nr in
  let! '(got, boot) := BootMem_alloc boot mm_frames 1 in
  let! mm_pfn := unwrap got in
  let! mm_pa := umul 64 mm_pfn PAGE_SIZE in
  let! buddy := BuddyAllocator_new_at (raw mm_pa nr) mm_pa dram nr in
  for_each_free boot hand_over buddy.

Definition reclaim_trampoline (buddy : BuddyAllocator) (bb_start bb_end : Z) : outcome BuddyAllocator :=
  let! len := usub 64 bb_end bb_start in
  let bb_pages := len / PAGE_SIZE in
  let! a := pfn_of buddy bb_start in
  BuddyAllocator_free_range buddy a bb_pages.
End boot.

(* ------------------------------------------------------------------------- *)
(** ** Disjoint regions *)

Definition apart (r o : Region) : Prop := rend r <= base o \/ rend o <= base r.

(** Every two regions of a list are apart. *)
Definition all_apart (l : list Region) : Prop := StronglySorted apart l.

Lemma all_apart_bind (g : Region -> list Region) l :
  all_apart l ->
  (forall m, m ∈ l -> StronglySorted (fun h h' => rend h < base h') (g m)) ->
  (forall m h, m ∈ l -> h ∈ g m -> base m <= base h /\ rend h <= rend m) ->
  all_apart (l ≫= g).
Proof.
  unfold all_apart. induction l as [|m l IH]; intros Ha Hs Hin; csimpl; [constructor|].
  apply StronglySorted_inv in Ha as [Ha Hm]. rewrite list.Forall_forall in Hm.
  apply StronglySorted_app_2.
  - intros x y Hx (m' & Hy & Hm')%list_elem_of_bind.
    destruct (Hin m x ltac:(by left) Hx). destruct (Hin m' y ltac:(by right) Hy).
    destruct (Hm m' Hm'); [left|right]; lia.
  - specialize (Hs m ltac:(by left)). clear -Hs.
    induction Hs as [|h hs _ IH Hh]; constructor; [done|].
    eapply list.Forall_impl; [exact Hh|]. intros o Ho. left. cbn in Ho. lia.
  - apply IH; [done|intros; apply Hs; by right|intros; eapply Hin; [by right|done]].
Qed.

Lemma holes_apart b : bm_ok b -> all_apart (mem_regions b) -> all_apart (holes b).
Proof.
  intros B Ha. apply all_apart_bind; [done|..].
  - intros m _. apply carve_holes, B.
  - intros m h _ Hh. destruct (carve_holes (rend m) (base m) (res_regions b) (bm_res b B)) as [_ HR].
    destruct (HR h Hh) as (? & ? & ?). done.
Qed.

(* ------------------------------------------------------------------------- *)
(** ** Handing the holes over *)

Section hand_over.
Context {P : Profile}.

Definition nothing_allocated (a : BuddyAllocator) : Prop := forall p, allocated a p = None.

(** One hole, whose frames the buddy does not have yet. *)
Lemma hand_over_ok a lo h :
  wf a -> nothing_allocated a -> region_ok h ->
  0 <= lo -> dram_base a = lo * PAGE_SIZE -> lo <= base h -> rend h <= lo + nr_frames a ->
  (forall f, in_region h f -> ~ free_in a (f - lo)) ->
  exists a', hand_over a h = Ok a' /\ range_freed a a' (base h - lo) (rend h - lo).
Proof.
  intros W Hna (? & ? & ?) Hlo Hdb Hlb Hle Hf. unfold hand_over.
  assert (nr_frames a <= RAW_NONE) as Hnr by (destruct W as (fl & I & _); apply I).
  unfold RAW_NONE in *. rewrite umul_ok by (unfold rend, PAGE_SIZE in *; lia). cbn [obind].
  destruct (pfn_of_pa_of a (base h - lo)) as [_ Epfn];
    [unfold rend in *; lia|done|unfold PAGE_SIZE in *; lia|rewrite Hdb; apply Z.divide_factor_r
    |unfold PAGE_SIZE, rend in *; lia|].
  replace (dram_base a + (base h - lo) * PAGE_SIZE) with (base h * PAGE_SIZE) in Epfn
    by (rewrite Hdb; unfold PAGE_SIZE; lia).
  rewrite Epfn. cbn [obind].
  replace (rend h - lo) with (base h - lo + frames h) by (unfold rend; lia).
  unfold rend in *. apply free_range_ok; [done|lia..|]. apply wf_range_clear; [done|].
  cbn. split_and!; [lia..| |].
  - intros f Hfr. replace f with (f + lo - lo) by lia. apply Hf. unfold in_region, rend. lia.
  - intros p o f Ha. by rewrite Hna in Ha.
Qed.

Lemma hand_over_all hs a lo :
  wf a -> nothing_allocated a -> Forall region_ok hs -> all_apart hs ->
  0 <= lo -> dram_base a = lo * PAGE_SIZE ->
  (forall h, h ∈ hs -> lo <= base h /\ rend h <= lo + nr_frames a) ->
  (forall h f, h ∈ hs -> in_region h f -> ~ free_in a (f - lo)) ->
  exists a', foldM hand_over hs a = Ok a' /\ wf a' /\ nothing_allocated a' /\
    dram_base a' = dram_base a /\ nr_frames a' = nr_frames a /\
    forall f, free_in a' f <-> free_in a f \/ exists h, h ∈ hs /\ in_region h (f + lo).
Proof.
  intros W Hna Hok Hap Hlo. revert a W Hna. induction hs as [|h hs IH]; intros a W Hna Hdb Hin Hf.
  - exists a. split_and!; [done..|]. intros f. split; [by left|]. intros [?|(h & ? & _)]; [done|set_solver].
  - apply list.Forall_cons in Hok as [Hh Hok]. apply StronglySorted_inv in Hap as [Hap Hah].
    rewrite list.Forall_forall in Hah. destruct (Hin h ltac:(by left)) as [Hl Hr].
    destruct (hand_over_ok a lo h) as (a1 & E & R); [done..|intros f; apply Hf; by left|].
    cbn [foldM]. rewrite E. cbn [obind].
    destruct (IH Hok Hap a1) as (a2 & -> & W2 & Hna2 & Hdb2 & Hnr2 & Hf2).
    + apply R.
    + intros p. rewrite (rf_alloc _ _ _ _ R). apply Hna.
    + by rewrite (rf_base _ _ _ _ R).
    + rewrite (rf_nr _ _ _ _ R). intros o Ho. apply Hin. by right.
    + intros o f Ho Hfo. rewrite (rf_free _ _ _ _ R). intros [?|?].
      * apply (Hf o f); [by right|done|done].
      * destruct (Hah o Ho); unfold in_region in Hfo; lia.
    + exists a2. split_and!; [done..| | |].
      * by rewrite Hdb2, (rf_base _ _ _ _ R).
      * by rewrite Hnr2, (rf_nr _ _ _ _ R).
      * intros f. rewrite Hf2, (rf_free _ _ _ _ R). split.
        -- intros [[?|?]|(o & ? & ?)]; [by left|right; exists h; split; [by left|unfold in_region; lia]|].
           right. exists o. by split; [right|].
        -- intros [?|(o & [->|Ho]%elem_of_cons & Hfo)]; [by left; left|left; right|right; by exists o].
           unfold in_region in Hfo. lia.
Qed.
End hand_over.

(* ------------------------------------------------------------------------- *)
(** ** Building bootmem *)

(** A memory node the boot code can take: its end is a frame below [2^32]. *)
Definition fdt_ok (r : FdtRegion) : Prop :=
  0 <= starting_address r /\
  forall size, fdt_size r = Some size ->
    0 <= size /\ starting_address r + size <= (2 ^ 32 - 1) * PAGE_SIZE.

(** Frame [f] lies wholly in memory node [r]. *)
Definition fdt_frame (r : FdtRegion) (f : Z) : Prop :=
  exists size, fdt_size r = Some size /\
    starting_address r <= f * PAGE_SIZE /\ (f + 1) * PAGE_SIZE <= starting_address r + size.

Definition fdt_apart (r o : FdtRegion) : Prop := forall f, fdt_frame r f -> ~ fdt_frame o f.

Section build.
Context {P : Profile}.

Lemma add_memory_bytes_ok b lo hi :
  bm_ok b -> 0 <= lo <= hi -> hi <= (2 ^ 32 - 1) * PAGE_SIZE -> n_memory b < NR_REGIONS ->
  exists b' ms, add_memory_bytes b lo hi = Ok b' /\ bm_ok b' /\
    mem_regions b' = mem_regions b ++ ms /\ n_memory b' <= n_memory b + 1 /\
    n_reserved b' = n_reserved b /\ StronglySorted apart ms /\
    forall f, (exists m, m ∈ ms /\ in_region m f) <-> lo <= f * PAGE_SIZE /\ (f + 1) * PAGE_SIZE <= hi.
Proof.
  intros B Hlo Hhi Hnm. unfold add_memory_bytes. change PAGE_SIZE with 4096 in *.
  pose proof (div_ceil_spec lo 4096 ltac:(lia)) as Hcl.
  assert (hi / 4096 * 4096 <= hi < (hi / 4096 + 1) * 4096) as Hh by divmod.
  destruct (Z.ltb_spec (div_ceil lo 4096) (hi / 4096)).
  - rewrite usub_ok by lia. cbn [obind]. rewrite as_u32_small by lia.
    destruct (add_memory_ok b (div_ceil lo 4096) (hi / 4096 - div_ceil lo 4096) B Hnm)
      as (b2 & -> & B2 & Em & _ & ? & ?); [split_and!; unfold rend; cbn; lia|].
    eexists b2, _. split_and!; [done|done|exact Em|lia|done|by repeat constructor|].
    intros f. split.
    + intros (m & ->%list_elem_of_singleton & Hf). unfold in_region, rend in Hf. cbn in Hf. lia.
    + intros ?. eexists. split; [by apply list_elem_of_singleton|]. unfold in_region, rend. cbn. lia.
  - exists b, []. rewrite app_nil_r. split_and!; [done..|lia|done|constructor|].
    intros f. split; [set_solver|lia].
Qed.

(** The memory regions after the nodes [fdt] have been added. *)
Record added (fdt : list FdtRegion) (b : BootMem) : Prop := {
  ad_ok : bm_ok b;
  ad_nm : n_memory b <= lenz fdt;
  ad_nr : n_reserved b = 0;
  ad_apart : all_apart (mem_regions b);
  ad_ram : forall f, is_ram b f <-> exists r, r ∈ fdt /\ fdt_frame r f;
}.

Lemma regions_apart ms ns :
  Forall region_ok ms -> Forall region_ok ns -> all_apart ms -> StronglySorted apart ns ->
  (forall f, (exists m, m ∈ ms /\ in_region m f) -> ~ exists n, n ∈ ns /\ in_region n f) ->
  all_apart (ms ++ ns).
Proof.
  intros Hms Hns H1 H2 Hd. rewrite !list.Forall_forall in *. apply StronglySorted_app_2; [|done..].
  intros m n Hm Hn. destruct (Hms m Hm) as (? & ? & ?), (Hns n Hn) as (? & ? & ?). unfold apart.
  destruct (Z.le_gt_cases (rend m) (base n)); [by left|].
  destruct (Z.le_gt_cases (rend n) (base m)); [by right|exfalso].
  apply (Hd (Z.max (base m) (base n))); [exists m|exists n]; (split; [done|]);
    unfold in_region, rend in *; lia.
Qed.

Lemma add_node_ok seen b r :
  added seen b -> fdt_ok r -> lenz seen < NR_REGIONS -> (forall o, o ∈ seen -> fdt_apart o r) ->
  exists b', match fdt_size r with
             | Some size => let! e := uadd 64 (starting_address r) size in
                            add_memory_bytes b (starting_address r) e
             | None => Ok b
             end = Ok b' /\ added (seen ++ [r]) b'.
Proof.
  intros [B Hnm Hnr Hap Hram] [Hr0 Hr] Hlen Hd. unfold lenz in *.
  destruct (fdt_size r) as [size|] eqn:Esz.
  - destruct (Hr size eq_refl) as [? ?].
    unfold PAGE_SIZE in *. rewrite uadd_ok by lia. cbn [obind].
    destruct (add_memory_bytes_ok b (starting_address r) (starting_address r + size) B)
      as (b' & ms & -> & B' & Em & ? & ? & Hs & Hf); [unfold PAGE_SIZE; lia..|].
    assert (forall f, is_ram b' f <-> is_ram b f \/ fdt_frame r f) as Hram'.
    { intros f. unfold is_ram, fdt_frame. rewrite Em, Esz.
      assert ((exists size0, Some size = Some size0 /\ starting_address r <= f * PAGE_SIZE /\
        (f + 1) * PAGE_SIZE <= starting_address r + size0) <-> exists m, m ∈ ms /\ in_region m f) as ->.
      { rewrite Hf. unfold PAGE_SIZE. split; [intros (? & [= <-] & ?); done|eauto]. }
      setoid_rewrite elem_of_app. split.
      - intros (m & [?|?] & ?); [left|right]; by exists m.
      - intros [(m & ? & ?)|(m & ? & ?)]; exists m; (split; [|done]); [by left|by right]. }
    exists b'. split; [done|]. constructor; [done| |lia| |].
    + unfold lenz. rewrite length_app. cbn. lia.
    + rewrite Em. pose proof (bm_mem b' B') as Hok. rewrite Em in Hok. apply Forall_app in Hok as [? ?].
      apply regions_apart; [done..|]. intros f (o & Ho & Hof)%Hram Hms%Hf.
      apply (Hd o Ho f Hof). unfold fdt_frame. rewrite Esz. eauto.
    + intros f. rewrite Hram', Hram. setoid_rewrite elem_of_app. setoid_rewrite list_elem_of_singleton. split.
      * intros [(o & Ho & Hof)|Hf']; [exists o; by split; [left|]|exists r; by split; [right|]].
      * intros (o & [Ho| ->] & Hf'); [left; by exists o|by right].
  - exists b. split; [done|]. constructor; [done| |done..|].
    + unfold lenz. rewrite length_app. cbn. lia.
    + intros f. rewrite Hram. setoid_rewrite elem_of_app. setoid_rewrite list_elem_of_singleton.
      split; [intros (o & ? & ?); exists o; by split; [left|]|]. intros (o & [?| ->] & Hf); [eauto|]. destruct Hf as (? & E' & _). congruence.
Qed.

Lemma add_nodes_ok rest seen b :
  added seen b -> Forall fdt_ok rest -> StronglySorted fdt_apart (seen ++ rest) ->
  lenz (seen ++ rest) <= NR_REGIONS ->
  exists b', for_each_region rest (fun boot base size =>
      let! e := uadd 64 base size in add_memory_bytes boot base e) b = Ok b' /\
    added (seen ++ rest) b'.
Proof.
  unfold for_each_region. revert seen b. induction rest as [|r rest IH]; intros seen b A Hok Hs Hlen.
  - exists b. rewrite app_nil_r. by split.
  - apply list.Forall_cons in Hok as [Hr Hok]. cbn [foldM].
    destruct (add_node_ok seen b r A Hr) as (b1 & -> & A1).
    + unfold lenz in *. rewrite length_app in Hlen. cbn in Hlen. lia.
    + intros o Ho. eapply StronglySorted_app_1_elem_of; [exact Hs|done|by left].
    + cbn [obind]. destruct (IH (seen ++ [r]) b1 A1 Hok) as (b2 & E & A2);
        rewrite <- ?app_assoc in *; eauto.
Qed.
End build.

(* ------------------------------------------------------------------------- *)
(** ** The hand-off *)

Section init.
Context {P : Profile}.

Lemma holes_in_span b lo n h :
  bm_ok b -> (forall m, m ∈ mem_regions b -> lo <= base m /\ rend m <= lo + n) ->
  h ∈ holes b -> lo <= base h /\ rend h <= lo + n.
Proof.
  intros B Hm Hh. destruct (holes_ok b h B Hh) as (_ & m & Hin & ? & ?). specialize (Hm m Hin). lia.
Qed.

(** The buddy allocator built from a bootmem state, and where its mem-map is. *)
Lemma init_buddy_map_ok raw b :
  (forall pa nr, 0 <= nr -> lenz (raw pa nr) = nr) ->
  bm_ok b -> all_apart (mem_regions b) -> 0 < n_memory b -> n_reserved b < NR_REGIONS ->
  exists lo n, ram_span b = Ok (lo, n) /\
  let m := div_ceil (n * SIZEOF_PageInfo) PAGE_SIZE in
  (exists x b' a, BootMem_alloc b m 1 = Ok (Some x, b') /\ bm_ok b' /\
     init_buddy raw b = Ok a /\ avail b m 1 x /\ wf a /\ nothing_allocated a /\
     dram_base a = lo * PAGE_SIZE /\ nr_frames a = n /\
     forall f, free_in a f <-> is_free b (f + lo) /\ ~ x <= f + lo < x + m) \/
  (init_buddy raw b = Panic UnwrapNone /\ forall x, ~ avail b m 1 x).
Proof.
  intros Hraw B Hap Hn Hlt.
  destruct (ram_span_ok b B Hn) as (lo & n & E & Hlo & Hn1 & Hsum & Hm & _).
  exists lo, n. split; [done|]. intros m. unfold init_buddy. rewrite E. cbn [obind].
  rewrite umul_ok by (unfold PAGE_SIZE; lia). cbn [obind]. unfold memmap_frames.
  rewrite umul_ok by (unfold SIZEOF_PageInfo; lia). cbn [obind]. fold m.
  pose proof (div_ceil_spec (n * SIZEOF_PageInfo) PAGE_SIZE ltac:(done)) as Hce. fold m in Hce.
  assert (1 <= m) as Hm1 by (unfold SIZEOF_PageInfo, PAGE_SIZE in Hce; lia).
  destruct (BootMem_alloc_cases b m 1 B Hm1 ltac:(lia) Hlt)
    as [(x & b' & Ea & Hx & _ & B' & Em & Hf)|[-> Hnone]]; [left|by right].
  rewrite Ea.
  cbn [obind unwrap]. pose proof Hx as (_ & r & Hr & Hxl & Hxr & _).
  pose proof (bm_mem b B) as Hok. rewrite list.Forall_forall in Hok.
  pose proof (Hok r Hr) as (? & ? & ?). destruct (Hm r Hr).
  rewrite umul_ok by (unfold PAGE_SIZE; lia). cbn [obind]. unfold BuddyAllocator_new_at.
  rewrite pa_to_linear_va_ok by (unfold_layout; lia). cbn [obind].
  destruct (new_ok (raw (x * PAGE_SIZE) n) (lo * PAGE_SIZE) n) as (a & -> & W & Hh & _ & Hdb & Hnr & _);
    [rewrite Hraw by lia; lia|unfold RAW_NONE; lia|]. cbn [obind].
  rewrite (for_each_free_holes b' _ _ B').
  destruct (hand_over_all (holes b') a lo W) as (a' & -> & W' & Hna' & Hdb' & Hnr' & Hf'); [| | |done|done| | |].
  - intros p. unfold allocated. specialize (Hh p). unfold heads, head_of in Hh.
    by destruct (meta a p) as [[[] ?]|].
  - apply list.Forall_forall. intros h Hin. by apply (holes_ok b' h B').
  - apply holes_apart; [done|]. by rewrite Em.
  - intros h Hin. rewrite Hnr. apply (holes_in_span b'); [done| |done]. by rewrite Em.
  - intros h f _ _ (p & k & Hp & _). by eapply no_heads_no_free.
  - exists x, b', a'. split_and!; [done..|congruence|congruence|]. intros f. rewrite Hf', holes_free, Hf by done.
    split; [intros [(p & k & Hp & _)|?]|by right]; [|done]. by destruct (no_heads_no_free a p k Hh).
Qed.
(** The buddy allocator built from a bootmem state. *)
Lemma init_buddy_ok raw b :
  (forall pa nr, 0 <= nr -> lenz (raw pa nr) = nr) ->
  bm_ok b -> all_apart (mem_regions b) -> 0 < n_memory b -> n_reserved b < NR_REGIONS ->
  exists lo n, ram_span b = Ok (lo, n) /\
  let m := div_ceil (n * SIZEOF_PageInfo) PAGE_SIZE in
  (exists x a, init_buddy raw b = Ok a /\ avail b m 1 x /\ wf a /\ nothing_allocated a /\
     dram_base a = lo * PAGE_SIZE /\ nr_frames a = n /\
     forall f, free_in a f <-> is_free b (f + lo) /\ ~ x <= f + lo < x + m) \/
  (init_buddy raw b = Panic UnwrapNone /\ forall x, ~ avail b m 1 x).
Proof.
  intros Hraw B Hap Hn Hlt. destruct (init_buddy_map_ok raw b Hraw B Hap Hn Hlt) as (lo & n & E & H).
  exists lo, n. split; [done|]. intros m. destruct H as [(x & b' & a & _ & _ & H)|H]; [left|by right]. by exists x, a.
Qed.
End init.

Section build_ok.
Context {P : Profile}.

Lemma added_nil : added [] BootMem_new.
Proof.
  constructor; [apply BootMem_new_ok|unfold lenz; cbn; lia|done|constructor|].
  intros f. unfold is_ram. cbn. set_solver.
Qed.

Lemma reserve_bytes_ok b lo hi :
  bm_ok b -> 0 <= lo < hi -> hi <= (2 ^ 32 - 1) * PAGE_SIZE -> n_reserved b < NR_REGIONS ->
  exists b', reserve_bytes b lo hi = Ok b' /\ bm_ok b' /\ mem_regions b' = mem_regions b /\
    n_memory b' = n_memory b /\ n_reserved b' = n_reserved b + 1 /\
    (forall f, is_reserved b' f <->
       is_reserved b f \/ (lo < (f + 1) * PAGE_SIZE /\ f * PAGE_SIZE < hi)).
Proof.
  intros B Hlo Hhi Hnr. change PAGE_SIZE with 4096 in *. unfold reserve_bytes.
  change PAGE_SIZE with 4096 in *.
  pose proof (div_ceil_spec hi 4096 ltac:(lia)) as Hce.
  assert (lo / 4096 * 4096 <= lo < (lo / 4096 + 1) * 4096) as Hl by divmod.
  rewrite usub_ok by lia. cbn [obind]. rewrite as_u32_small by lia.
  destruct (reserve_ok b (lo / 4096) (div_ceil hi 4096 - lo / 4096) B Hnr)
    as (b1 & -> & B1 & Em & En & Enr & Hin); [split_and!; unfold rend; cbn; lia|].
  exists b1. split_and!; [done|done|unfold mem_regions; by rewrite Em, En|done..|].
  intros f. unfold is_reserved. setoid_rewrite Hin. split.
  - intros (r & [->|Hr] & Hf); [right|left; by exists r]. unfold in_region, rend in Hf. cbn in Hf. lia.
  - intros [(r & Hr & Hf)|Hf]; [exists r; by split; [right|]|]. eexists. split; [by left|].
    unfold in_region, rend. cbn. lia.
Qed.

Lemma build_bootmem_ok fdt total dtb img_end :
  Forall fdt_ok fdt -> StronglySorted fdt_apart fdt -> lenz fdt <= NR_REGIONS ->
  PHYS_LOAD_BASE < img_end -> img_end <= (2 ^ 32 - 1) * PAGE_SIZE ->
  KERNEL_LINEAR_BASE <= dtb -> 0 < total -> dtb + total <= KERNEL_LINEAR_BASE + (2 ^ 32 - 1) * PAGE_SIZE ->
  exists b, build_bootmem fdt total dtb img_end = Ok b /\ bm_ok b /\ all_apart (mem_regions b) /\
    n_reserved b = 2 /\
    (forall f, is_ram b f <-> exists r, r ∈ fdt /\ fdt_frame r f) /\
    (forall f, is_reserved b f <->
       (PHYS_LOAD_BASE < (f + 1) * PAGE_SIZE /\ f * PAGE_SIZE < img_end) \/
       (dtb - KERNEL_LINEAR_BASE < (f + 1) * PAGE_SIZE /\ f * PAGE_SIZE < dtb - KERNEL_LINEAR_BASE + total)).
Proof.
  intros Hok Hs Hlen Hi1 Hi2 Hd1 Ht Hd2. unfold build_bootmem.
  destruct (add_nodes_ok fdt [] BootMem_new added_nil Hok Hs Hlen) as (b0 & -> & A). cbn [obind app] in *.
  destruct A as [B0 _ Hnr0 Hap Hram].
  destruct (reserve_bytes_ok b0 PHYS_LOAD_BASE img_end B0) as (b1 & -> & B1 & Em1 & _ & Enr1 & Hr1);
    [unfold PHYS_LOAD_BASE in *; lia|done|rewrite Hnr0; done|]. cbn [obind].
  rewrite linear_va_to_pa_ok by (unfold_layout; lia). cbn [obind].
  rewrite uadd_ok by (unfold_layout; lia). cbn [obind].
  destruct (reserve_bytes_ok b1 (dtb - KERNEL_LINEAR_BASE) (dtb - KERNEL_LINEAR_BASE + total) B1)
    as (b2 & -> & B2 & Em2 & _ & Enr2 & Hr2); [lia..|rewrite Enr1, Hnr0; done|].
  exists b2. split_and!; [done|done|by rewrite Em2, Em1|lia| |].
  - intros f. rewrite <- Hram. unfold is_ram. by rewrite Em2, Em1.
  - intros f. rewrite Hr2, Hr1. unfold is_reserved, res_regions. rewrite Hnr0. set_solver.
Qed.
Lemma reclaim_trampoline_ok a lo s e :
  wf a -> 0 <= lo -> dram_base a = lo * PAGE_SIZE ->
  lo <= s -> (s + 1) * PAGE_SIZE <= e -> e <= (lo + nr_frames a) * PAGE_SIZE ->
  (lo + nr_frames a) * PAGE_SIZE < 2 ^ 64 ->
  (forall f, s <= f < e / PAGE_SIZE -> ~ free_in a (f - lo)) ->
  (forall p o f, allocated a p = Some o -> in_block p o (f - lo) -> ~ s <= f < e / PAGE_SIZE) ->
  exists a', reclaim_trampoline a (s * PAGE_SIZE) e = Ok a' /\
    range_freed a a' (s - lo) (e / PAGE_SIZE - lo).
Proof.
  intros W Hlo Hdb Hs He Hn H64 Hf Ha. unfold reclaim_trampoline.
  assert (nr_frames a <= RAW_NONE) as Hnr by (destruct W as (fl & I & _); apply I).
  assert (e / PAGE_SIZE * PAGE_SIZE <= e < (e / PAGE_SIZE + 1) * PAGE_SIZE) as Hq
    by (unfold PAGE_SIZE; divmod).
  assert ((e - s * PAGE_SIZE) / PAGE_SIZE = e / PAGE_SIZE - s) as Ediv by (unfold PAGE_SIZE; divmod).
  set (q := e / PAGE_SIZE) in *. unfold PAGE_SIZE in He, Hn, H64, Hq.
  rewrite usub_ok by (unfold PAGE_SIZE; lia). cbn [obind]. rewrite Ediv.
  destruct (pfn_of_pa_of a (s - lo)) as [_ Epfn];
    [lia|done|unfold PAGE_SIZE in *; lia|rewrite Hdb; apply Z.divide_factor_r|unfold PAGE_SIZE in *; lia|].
  replace (dram_base a + (s - lo) * PAGE_SIZE) with (s * PAGE_SIZE) in Epfn
    by (rewrite Hdb; unfold PAGE_SIZE; lia).
  rewrite Epfn. cbn [obind]. replace (q - lo) with (s - lo + (q - s)) by lia.
  apply free_range_ok; [done|lia..|]. apply wf_range_clear; [done|]. cbn. split_and!; [lia..| |].
  - intros f Hfr. replace f with (f + lo - lo) by lia. apply Hf. lia.
  - intros p o f Hp Hb Hfr. apply (Ha p o (f + lo)); [done|by replace (f + lo - lo) with f by lia|lia].
Qed.
End build_ok.

(* ------------------------------------------------------------------------- *)
(** ** Theorems *)

(** C18: [build_bootmem] on a well-formed device tree never panics; the RAM it
    registers is exactly the frames that lie wholly in a memory node, and it
    reserves exactly the frames that hold a byte of the kernel image or of the
    device tree. *)
Theorem build_bootmem_correct {P : Profile} fdt total dtb img_end :
  Forall fdt_ok fdt -> StronglySorted fdt_apart fdt -> lenz fdt <= NR_REGIONS ->
  PHYS_LOAD_BASE < img_end -> img_end <= (2 ^ 32 - 1) * PAGE_SIZE ->
  KERNEL_LINEAR_BASE <= dtb -> 0 < total -> dtb + total <= KERNEL_LINEAR_BASE + (2 ^ 32 - 1) * PAGE_SIZE ->
  exists b, build_bootmem fdt total dtb img_end = Ok b /\ bm_ok b /\ all_apart (mem_regions b) /\
    n_reserved b = 2 /\
    (forall f, is_ram b f <-> exists r, r ∈ fdt /\ fdt_frame r f) /\
    (forall f, is_reserved b f <->
       (PHYS_LOAD_BASE < (f + 1) * PAGE_SIZE /\ f * PAGE_SIZE < img_end) \/
       (dtb - KERNEL_LINEAR_BASE < (f + 1) * PAGE_SIZE /\ f * PAGE_SIZE < dtb - KERNEL_LINEAR_BASE + total)).
Proof. apply build_bootmem_ok. Qed.

(** QEMU's [virt] machine with 128 MiB and the device tree at the end of RAM. *)
Definition virt_fdt : list FdtRegion :=
  [mkFdtRegion 0x40000000 (Some 0x8000000)].

Lemma virt_fdt_ok : Forall fdt_ok virt_fdt /\ StronglySorted fdt_apart virt_fdt.
Proof.
  split; [|by repeat constructor]. constructor; [|constructor].
  split; [cbn; lia|]. intros size [= <-]. unfold PAGE_SIZE. cbn. lia.
Qed.

Lemma build_bootmem_correct_witness :
  exists b, build_bootmem (P := release_dev) virt_fdt 0x10000 0xFFFF800047000000 0x40200000 = Ok b /\
    bm_ok b /\ all_apart (mem_regions b) /\ n_reserved b = 2 /\
    (forall f, is_ram b f <-> exists r, r ∈ virt_fdt /\ fdt_frame r f) /\
    (forall f, is_reserved b f <->
       (PHYS_LOAD_BASE < (f + 1) * PAGE_SIZE /\ f * PAGE_SIZE < 0x40200000) \/
       (0xFFFF800047000000 - KERNEL_LINEAR_BASE < (f + 1) * PAGE_SIZE /\
        f * PAGE_SIZE < 0xFFFF800047000000 - KERNEL_LINEAR_BASE + 0x10000)).
Proof.
  apply (build_bootmem_correct (P := release_dev)); [apply virt_fdt_ok|apply virt_fdt_ok|..];
    unfold_layout; unfold NR_REGIONS, lenz; cbn; lia.
Defined.

(** C17: the hand-off.  From any well-formed bootmem with disjoint RAM regions,
    [init_buddy] either finds no room for the mem-map and panics there, or returns
    a well-formed buddy allocator over the span of RAM whose free frames are exactly
    the RAM frames that were neither reserved nor taken for the mem-map. *)
Theorem init_buddy_correct {P : Profile} raw b :
  (forall pa nr, 0 <= nr -> lenz (raw pa nr) = nr) ->
  bm_ok b -> all_apart (mem_regions b) -> 0 < n_memory b -> n_reserved b < NR_REGIONS ->
  exists lo n, ram_span b = Ok (lo, n) /\
    let m := div_ceil (n * SIZEOF_PageInfo) PAGE_SIZE in
    (exists x a, init_buddy raw b = Ok a /\ avail b m 1 x /\ wf a /\ nothing_allocated a /\
       dram_base a = lo * PAGE_SIZE /\ nr_frames a = n /\
       forall f, free_in a f <-> is_free b (f + lo) /\ ~ x <= f + lo < x + m) \/
    (init_buddy raw b = Panic UnwrapNone /\ forall x, ~ avail b m 1 x).
Proof. apply init_buddy_ok. Qed.

(** The mem-map's memory: whatever it holds, there are [nr] descriptors of it. *)
Definition blank_raw (_ nr : Z) : list PageInfo := replicate (Z.to_nat nr) (mkPageInfo 7 7 7 7 Tail 7).

(** A four-frame machine, one frame reserved. *)
Definition tiny_boot : BootMem :=
  mkBootMem (<[0%nat := mkRegion 0x40000 4]> (replicate (Z.to_nat NR_REGIONS) Region_ZERO)) 1
            (<[0%nat := mkRegion 0x40001 1]> (replicate (Z.to_nat NR_REGIONS) Region_ZERO)) 1.

Lemma tiny_boot_ok : bm_ok tiny_boot.
Proof.
  assert (mem_regions tiny_boot = [mkRegion 0x40000 4]) as Em by reflexivity.
  assert (res_regions tiny_boot = [mkRegion 0x40001 1]) as Er by reflexivity.
  constructor; rewrite ?Em, ?Er; [reflexivity|reflexivity|unfold NR_REGIONS; cbn; lia..| | |].
  all: repeat constructor; unfold rend, by_base; cbn; lia.
Qed.

Lemma blank_raw_length pa nr : 0 <= nr -> lenz (blank_raw pa nr) = nr.
Proof. intros. unfold lenz, blank_raw. rewrite length_replicate. lia. Qed.

Lemma init_buddy_correct_witness :
  ram_span (P := release_dev) tiny_boot = Ok (0x40000, 4) /\
  exists lo n, ram_span (P := release_dev) tiny_boot = Ok (lo, n) /\
    let m := div_ceil (n * SIZEOF_PageInfo) PAGE_SIZE in
    (exists x a, init_buddy (P := release_dev) blank_raw tiny_boot = Ok a /\ avail tiny_boot m 1 x /\
       wf a /\ nothing_allocated a /\ dram_base a = lo * PAGE_SIZE /\ nr_frames a = n /\
       forall f, free_in a f <-> is_free tiny_boot (f + lo) /\ ~ x <= f + lo < x + m) \/
    (init_buddy (P := release_dev) blank_raw tiny_boot = Panic UnwrapNone /\ forall x, ~ avail tiny_boot m 1 x).
Proof.
  split; [reflexivity|].
  apply (init_buddy_correct (P := release_dev) blank_raw tiny_boot blank_raw_length tiny_boot_ok);
    [repeat constructor|reflexivity|reflexivity].
Defined.

(** [reclaim_trampoline] hands exactly the whole pages of the boot [.bss] to
    the buddy allocator and disturbs no allocation, provided nothing owns them. *)
Theorem reclaim_trampoline_correct {P : Profile} a lo s e :
  wf a -> 0 <= lo -> dram_base a = lo * PAGE_SIZE ->
  lo <= s -> (s + 1) * PAGE_SIZE <= e -> e <= (lo + nr_frames a) * PAGE_SIZE ->
  (lo + nr_frames a) * PAGE_SIZE < 2 ^ 64 ->
  (forall f, s <= f < e / PAGE_SIZE -> ~ free_in a (f - lo)) ->
  (forall p o f, allocated a p = Some o -> in_block p o (f - lo) -> ~ s <= f < e / PAGE_SIZE) ->
  exists a', reclaim_trampoline a (s * PAGE_SIZE) e = Ok a' /\
    range_freed a a' (s - lo) (e / PAGE_SIZE - lo).
Proof. apply reclaim_trampoline_ok. Qed.

Lemma reclaim_trampoline_correct_witness :
  exists a', reclaim_trampoline (P := release) demo_fresh (0x40002 * PAGE_SIZE) 0x40005800 = Ok a' /\
    range_freed demo_fresh a' (0x40002 - 0x40000) (0x40005800 / PAGE_SIZE - 0x40000).
Proof.
  destruct demo_fresh_wf as [W H].
  apply (reclaim_trampoline_correct (P := release) demo_fresh 0x40000 0x40002 0x40005800 W);
    [lia|reflexivity|lia|unfold PAGE_SIZE; lia|vm_compute; congruence|reflexivity| |].
  - intros f _ (p & k & Hm & _). by eapply no_heads_no_free.
  - intros p o f Hp%allocated_heads. by rewrite H in Hp.
Defined.
