(* ===== verification/PageTable.v ===== *)
(** * kernel/mm/page_table.rs: descriptors and the table walker

    Descriptor encodings, [Entry] and its predicates, and [PageTable::map] over an
    explicit physical memory.  A [PageTable] is a reference into the linear map; it
    is held as the physical address of its frame, and its 512 entries are the
    words at [pa + 8 * i].  [FrameAllocator] is the trait of [mm/types.rs]: an
    allocator's own state and the memory go through each call. *)

From S2P Require Import Prelude Arch MmuConfig Layout.

(* ------------------------------------------------------------------------- *)
(** ** Physical memory and the frame source *)

(** The 64-bit word at each physical address. *)
Notation mem := (Z -> Z).

Class FrameAllocator (A : Type) := alloc_page : A -> mem -> outcome (Z * A * mem).

(* ------------------------------------------------------------------------- *)
(** ** Raw bits *)

Definition VALID_BIT : Z := Z.shiftl 1 0.
Definition TABLE_BIT : Z := Z.shiftl 1 1.
Definition TYPE_INVALID : Z := 0.
Definition TYPE_BLOCK : Z := VALID_BIT.
Definition TYPE_TABLE_OR_PAGE : Z := Z.lor VALID_BIT TABLE_BIT.
Definition ATTR_INDX_SHIFT : Z := 2.
Definition AP_SHIFT : Z := 6.
Definition AP_RW_EL1 : Z := Z.shiftl 0 AP_SHIFT.
Definition AP_RW_EL0_EL1 : Z := Z.shiftl 1 AP_SHIFT.
Definition AP_RO_EL1 : Z := Z.shiftl 2 AP_SHIFT.
Definition AP_RO_EL0_EL1 : Z := Z.shiftl 3 AP_SHIFT.
Definition AF : Z := Z.shiftl 1 10.
Definition OUTPUT_ADDR_MASK : Z := 0x0000FFFFFFFFF000.
Definition PXN : Z := Z.shiftl 1 53.
Definition UXN : Z := Z.shiftl 1 54.

(* ------------------------------------------------------------------------- *)
(** ** Typed attributes *)

Inductive Access := KernelReadWrite | KernelReadOnly | SharedReadWrite | SharedReadOnly.

Definition Access_bits (a : Access) : Z :=
  match a with
  | KernelReadWrite => AP_RW_EL1
  | KernelReadOnly => AP_RO_EL1
  | SharedReadWrite => AP_RW_EL0_EL1
  | SharedReadOnly => AP_RO_EL0_EL1
  end.

Inductive Executable := ExecKernel | ExecUser | ExecNone.

Definition Executable_bits (e : Executable) : Z :=
  match e with
  | ExecKernel => UXN
  | ExecUser => PXN
  | ExecNone => Z.lor PXN UXN
  end.

Record LeafAttrs := mkLeafAttrs {
  la_memory : MemoryAttr;
  la_access : Access;
  la_share : Shareability;
  la_execute : Executable;
}.

Definition LeafAttrs_bits (a : LeafAttrs) : Z :=
  Z.lor (Z.lor (Z.lor (Z.lor
    (shl64 (MemoryAttr_index (la_memory a)) ATTR_INDX_SHIFT)
    (Access_bits (la_access a)))
    (shl64 (Shareability_bits (la_share a)) 8))
    (Executable_bits (la_execute a)))
    AF.

(* ------------------------------------------------------------------------- *)
(** ** Entries *)

Definition Entry_invalid : Z := TYPE_INVALID.

Definition Entry_table (next : Z) : Z := Z.lor (Z.land next OUTPUT_ADDR_MASK) TYPE_TABLE_OR_PAGE.

Definition Entry_block (pa : Z) (level : Level) (attrs : LeafAttrs) : outcome Z :=
  let! _ := assert_ (Level_supports_block level) in
  Ok (Z.lor (Z.lor (Z.land pa OUTPUT_ADDR_MASK) (LeafAttrs_bits attrs)) TYPE_BLOCK).

Definition Entry_page (pa : Z) (attrs : LeafAttrs) : Z :=
  Z.lor (Z.lor (Z.land pa OUTPUT_ADDR_MASK) (LeafAttrs_bits attrs)) TYPE_TABLE_OR_PAGE.

Definition Entry_is_valid (e : Z) : bool := negb (Z.land e VALID_BIT =? 0).
Definition Entry_is_table_or_page (e : Z) : bool := Z.land e TYPE_TABLE_OR_PAGE =? TYPE_TABLE_OR_PAGE.
Definition Entry_is_block (e : Z) : bool := Entry_is_valid e && (Z.land e TABLE_BIT =? 0).
Definition Entry_output_addr (e : Z) : Z := Z.land e OUTPUT_ADDR_MASK.

(* ------------------------------------------------------------------------- *)
(** ** Tables *)

(** Address of the entry [va] selects in the table at [t], at [level]. *)
Definition slot (t va : Z) (level : Level) : Z := t + 8 * Level_index_in level va.

Definition PageTable_entry_at (m : mem) (t va : Z) (level : Level) : Z := m (slot t va level).

Section walker.
Context {P : Profile} {A : Type} `{FrameAllocator A}.

(** The reference is only formed; the frame's address stands for it. *)
Definition PageTable_from_phys (pa : Z) : outcome Z :=
  let! _va := pa_to_linear_va pa in
  Ok pa.

(** One turn of the descent of [map]: the table and the level it is at. *)
Definition map_step (va : Z) (s : (Z * Level) * (A * mem)) : outcome ((Z * Level) * (A * mem)) :=
  let '((current, level), (al, m)) := s in
  let entry := m (slot current va level) in
  let! '(al, m) :=
    (if negb (Entry_is_valid entry) then
       let! '((pa, al), m) := alloc_page al m in
       Ok (al, <[slot current va level := Entry_table pa]> m)
     else
       let! _ := assert_ (Entry_is_table_or_page entry) in
       Ok (al, m)) in
  let next_pa := Entry_output_addr (m (slot current va level)) in
  let! next := PageTable_from_phys next_pa in
  let! level := Level_next_level level in
  Ok ((next, level), (al, m)).

Definition map_leaf (pa : Z) (target : Level) (attrs : LeafAttrs) : outcome Z :=
  match target with
  | L3 => Ok (Entry_page pa attrs)
  | _ => Entry_block pa target attrs
  end.

(** [PageTable::map] on the table at [root]. *)
Definition PageTable_map (root va pa : Z) (target : Level) (attrs : LeafAttrs) (s : A * mem)
  : outcome (A * mem) :=
  let! _ := assert_ (negb (bool_decide (target = L0))) in
  let! leaf := map_leaf pa target attrs in
  let! '((current, _), (al, m)) :=
    while 3 (fun s => negb (bool_decide (s.1.2 = target))) (map_step va) ((root, L0), s) in
  Ok (al, <[slot current va target := leaf]> m).
End walker.

(* ------------------------------------------------------------------------- *)
(** ** Encoding lemmas *)

(** A physical address an entry can hold. *)
Definition page_aligned (pa : Z) : Prop := 0 <= pa < 2 ^ 48 /\ (4096 | pa).

Lemma land_mask_aligned pa : page_aligned pa -> Z.land pa OUTPUT_ADDR_MASK = pa.
Proof.
  intros [Hpa [k ->]]. change OUTPUT_ADDR_MASK with (Z.shiftl (Z.ones 36) 12).
  change 4096 with (2 ^ 12). rewrite <- Z.shiftl_mul_pow2 by done. rewrite <- Z.shiftl_land. f_equal.
  rewrite Z.land_ones by done. apply Z.mod_small. lia.
Qed.

Lemma land_mask_low pa k : Z.land OUTPUT_ADDR_MASK k = 0 -> Z.land (Z.land pa OUTPUT_ADDR_MASK) k = 0.
Proof. intros E. by rewrite <- Z.land_assoc, E, Z.land_0_r. Qed.

Lemma LeafAttrs_bits_mask a k :
  k = OUTPUT_ADDR_MASK \/ k = 1 \/ k = 2 \/ k = 3 -> Z.land (LeafAttrs_bits a) k = 0.
Proof.
  destruct a as [[] [] [] []]; intros [->|[->|[->| ->]]]; reflexivity.
Qed.

(** Reading one mask of an entry built from an address, attributes and a type. *)
Lemma entry_land pa at_ ty k :
  Z.land (Z.lor (Z.lor (Z.land pa OUTPUT_ADDR_MASK) at_) ty) k =
  Z.lor (Z.lor (Z.land (Z.land pa OUTPUT_ADDR_MASK) k) (Z.land at_ k)) (Z.land ty k).
Proof. by rewrite !Z.land_lor_distr_l. Qed.

Lemma entry_table_land pa k :
  Z.land (Entry_table pa) k = Z.lor (Z.land (Z.land pa OUTPUT_ADDR_MASK) k) (Z.land TYPE_TABLE_OR_PAGE k).
Proof. unfold Entry_table. by rewrite Z.land_lor_distr_l. Qed.

(** Every table descriptor. *)
Lemma Entry_table_reads pa :
  Entry_is_valid (Entry_table pa) = true /\ Entry_is_table_or_page (Entry_table pa) = true /\
  (page_aligned pa -> Entry_output_addr (Entry_table pa) = pa).
Proof.
  unfold Entry_is_valid, Entry_is_table_or_page, Entry_output_addr. rewrite !entry_table_land.
  rewrite !(land_mask_low pa) by reflexivity. split_and!; [done..|].
  intros Ha. rewrite <- Z.land_assoc, Z.land_diag, land_mask_aligned by done. apply Z.lor_0_r.
Qed.

(** Every leaf: a page or a block. *)
Lemma leaf_reads pa a ty :
  ty = TYPE_BLOCK \/ ty = TYPE_TABLE_OR_PAGE ->
  let e := Z.lor (Z.lor (Z.land pa OUTPUT_ADDR_MASK) (LeafAttrs_bits a)) ty in
  Entry_is_valid e = true /\ Entry_is_table_or_page e = bool_decide (ty = TYPE_TABLE_OR_PAGE) /\
  (page_aligned pa -> Entry_output_addr e = pa).
Proof.
  intros Hty. cbv zeta. unfold Entry_is_valid, Entry_is_table_or_page, Entry_output_addr. rewrite !entry_land.
  rewrite !(LeafAttrs_bits_mask a) by (cbn; tauto). rewrite !(land_mask_low pa) by reflexivity.
  split_and!; [by destruct Hty as [-> | ->]..|].
  intros Ha. rewrite <- Z.land_assoc, Z.land_diag, land_mask_aligned by done.
  destruct Hty as [-> | ->]; rewrite !Z.lor_0_r; done.
Qed.
