(* ===== verification/PageTableProps.v ===== *)
(** * Page tables: what the hardware walks after [map]

    [hw_walk] is the translation-table walk of the architecture for a 4 KiB
    granule and 48-bit addresses, with the descriptor meanings that page_table.rs
    states.  [tree] is the invariant of a table tree; [FrameSource] is the contract
    [map] needs from its frame allocator.  [map] is proved against the contract:
    it installs exactly the requested translation and changes no other. *)

From S2P Require Import Prelude Arch MmuConfig Layout PageTable.

(* ------------------------------------------------------------------------- *)
(** ** The hardware walk *)

(** Walk from the table [t] through the levels [ls]; the leaf descriptor and its level. *)
Fixpoint hw_walk (m : mem) (t va : Z) (ls : list Level) : option (Z * Level) :=
  match ls with
  | [] => None
  | l :: ls =>
      let e := PageTable_entry_at m t va l in
      if negb (Entry_is_valid e) then None
      else if Entry_is_table_or_page e then
        match l with L3 => Some (e, L3) | _ => hw_walk m (Entry_output_addr e) va ls end
      else if Level_supports_block l then Some (e, l) else None
  end.

Definition all_levels : list Level := [L0; L1; L2; L3].

(** The leaf descriptor, and the address, that [va] translates to. *)
Definition leaf_of (m : mem) (root va : Z) : option (Z * Level) := hw_walk m root va all_levels.

Definition translate (m : mem) (root va : Z) : option Z :=
  match leaf_of m root va with
  | Some (e, l) => Some (Entry_output_addr e + va mod 2 ^ Level_index_shift l)
  | None => None
  end.

(* ------------------------------------------------------------------------- *)
(** ** Regions of the address space *)

(** The region of [va] at a level: the bits that select its entry, and above. *)
Definition region (l : Level) (va : Z) : Z := (va mod 2 ^ 48) / 2 ^ Level_index_shift l.

(** The part of it that selects the table. *)
Definition path (l : Level) (va : Z) : Z := (va mod 2 ^ 48) / 2 ^ (Level_index_shift l + 9).

Lemma path_L0 va : path L0 va = 0.
Proof. unfold path. cbn [Level_index_shift]. apply Z.div_small. apply Z.mod_pos_bound. lia. Qed.

Lemma region_path l va : region l va = path l va * 512 + Level_index_in l va.
Proof.
  rewrite Level_index_in_eq. unfold region, path. destruct l; cbn [Level_index_shift];
    change (39 + 9) with 48; change (30 + 9) with 39; change (21 + 9) with 30; change (12 + 9) with 21;
    divmod.
Qed.

Lemma path_next l l' va : Level_next_level l = Ok l' -> path l' va = region l va.
Proof. destruct l; intros [= <-]; reflexivity. Qed.

Lemma same_slot_region l va va' :
  path l va = path l va' -> Level_index_in l va = Level_index_in l va' <-> region l va = region l va'.
Proof. intros. rewrite !region_path. lia. Qed.

(* ------------------------------------------------------------------------- *)
(** ** Trees of tables *)

Definition page_ok (pa : Z) : Prop := 0 <= pa < LINEAR_SPAN /\ (4096 | pa).

Lemma page_ok_aligned pa : page_ok pa -> page_aligned pa.
Proof. intros [? ?]. split; [|done]. unfold_layout. lia. Qed.

(** [T t = Some (l, p)]: the frame [t] is the table of level [l] for the path [p]. *)
Notation tables := (Z -> option (Level * Z)).

Record tree (m : mem) (root : Z) (T : tables) : Prop := {
  tr_root : T root = Some (L0, 0);
  tr_page : forall t l p, T t = Some (l, p) -> page_ok t;
  tr_next : forall t l p l' i, T t = Some (l, p) -> Level_next_level l = Ok l' -> 0 <= i < 512 ->
    Entry_is_table_or_page (m (t + 8 * i)) = true ->
    T (Entry_output_addr (m (t + 8 * i))) = Some (l', p * 512 + i);
  tr_top : forall t p i, T t = Some (L0, p) -> 0 <= i < 512 ->
    Entry_is_valid (m (t + 8 * i)) = true -> Entry_is_table_or_page (m (t + 8 * i)) = true;
}.

(** Entries of different tables, or of different indices, do not share an address. *)
Lemma slot_inj t t' i i' :
  page_ok t -> page_ok t' -> 0 <= i < 512 -> 0 <= i' < 512 -> t + 8 * i = t' + 8 * i' -> t = t' /\ i = i'.
Proof. intros [_ [k ->]] [_ [k' ->]] ? ? ?. lia. Qed.

Lemma table_valid e : Entry_is_table_or_page e = true -> Entry_is_valid e = true.
Proof.
  unfold Entry_is_table_or_page, Entry_is_valid. intros H%Z.eqb_eq.
  assert (Z.land e VALID_BIT = Z.land (Z.land e TYPE_TABLE_OR_PAGE) VALID_BIT) as ->.
  { rewrite <- Z.land_assoc. done. }
  by rewrite H.
Qed.

Lemma valid_zero : Entry_is_valid 0 = false.
Proof. reflexivity. Qed.

(** Levels from [l] down. *)
Definition levels_from (l : Level) : list Level :=
  match l with L0 => [L0; L1; L2; L3] | L1 => [L1; L2; L3] | L2 => [L2; L3] | L3 => [L3] end.

Lemma levels_from_next l l' : Level_next_level l = Ok l' -> levels_from l = l :: levels_from l'.
Proof. destruct l; intros [= <-]; reflexivity. Qed.

(** One level of the walk. *)
Lemma hw_walk_level m t va l l' :
  Level_next_level l = Ok l' ->
  hw_walk m t va (levels_from l) =
  let e := m (slot t va l) in
  if negb (Entry_is_valid e) then None
  else if Entry_is_table_or_page e then hw_walk m (Entry_output_addr e) va (levels_from l')
  else if Level_supports_block l then Some (e, l) else None.
Proof. destruct l; intros [= <-]; reflexivity. Qed.

Lemma hw_walk_L3 m t va :
  hw_walk m t va (levels_from L3) =
  let e := m (slot t va L3) in
  if Entry_is_valid e && Entry_is_table_or_page e then Some (e, L3) else None.
Proof. cbn. destruct (Entry_is_valid _), (Entry_is_table_or_page _); reflexivity. Qed.

(** Two memories that differ in the slot [(t, i)] only, as far as the tables go. *)
Definition agree_but (T : tables) (t i : Z) (m m' : mem) : Prop :=
  forall x y q j, T x = Some (y, q) -> 0 <= j < 512 -> (x, j) <> (t, i) -> m' (x + 8 * j) = m (x + 8 * j).

Section walk_frame.
Context {m m' : mem} {root : Z} {T : tables} {t : Z} {l : Level} {p i va : Z}.
Hypothesis Tr : tree m root T.
Hypothesis Ht : T t = Some (l, p).
Hypothesis Hm : agree_but T t i m m'.

Lemma read_frame y x :
  T x = Some (y, path y va) -> x = t /\ region l va = p * 512 + i \/ m' (slot x va y) = m (slot x va y).
Proof.
  intros Hx. pose proof (Level_index_in_range y va) as Hr.
  destruct (decide ((x, Level_index_in y va) = (t, i))) as [[= -> Hidx]|Hne].
  - left. rewrite Ht in Hx. injection Hx as -> ->. split; [done|]. by rewrite region_path, Hidx.
  - right. by eapply Hm.
Qed.

Lemma next_table y y' x :
  T x = Some (y, path y va) -> Level_next_level y = Ok y' ->
  Entry_is_table_or_page (m (slot x va y)) = true ->
  T (Entry_output_addr (m (slot x va y))) = Some (y', path y' va).
Proof.
  intros Hx Hy Htab. rewrite (path_next y y' va Hy), region_path.
  eapply (tr_next _ _ _ Tr); [done|done|apply Level_index_in_range|done].
Qed.

(** A walk sees the slot only if its address is in the slot's region; then it is
    enough to compare the walks from the slot's table. *)
Hypothesis Hslot : region l va = p * 512 + i ->
  hw_walk m' t va (levels_from l) = hw_walk m t va (levels_from l).

Lemma walk_frame_up y y' :
  Level_next_level y = Ok y' ->
  (forall x, T x = Some (y', path y' va) ->
     hw_walk m' x va (levels_from y') = hw_walk m x va (levels_from y')) ->
  forall x, T x = Some (y, path y va) ->
    hw_walk m' x va (levels_from y) = hw_walk m x va (levels_from y).
Proof.
  intros Hy IH x Hx. destruct (read_frame y x Hx) as [[-> Hreg]|Hread].
  - rewrite Ht in Hx. injection Hx as -> _. by apply Hslot.
  - rewrite !(hw_walk_level _ _ _ _ _ Hy). cbv zeta. rewrite Hread.
    destruct (Entry_is_valid _); [|done]. cbn [negb].
    destruct (Entry_is_table_or_page _) eqn:E; [|done]. by apply IH, next_table.
Qed.

Lemma walk_frame y x :
  T x = Some (y, path y va) -> hw_walk m' x va (levels_from y) = hw_walk m x va (levels_from y).
Proof.
  assert (forall x, T x = Some (L3, path L3 va) ->
    hw_walk m' x va (levels_from L3) = hw_walk m x va (levels_from L3)) as H3.
  { intros z Hz. destruct (read_frame L3 z Hz) as [[-> Hreg]|Hread].
    - rewrite Ht in Hz. injection Hz as -> _. by apply Hslot.
    - rewrite !hw_walk_L3. cbv zeta. by rewrite Hread. }
  pose proof (walk_frame_up L2 L3 eq_refl H3) as H2. pose proof (walk_frame_up L1 L2 eq_refl H2) as H1.
  pose proof (walk_frame_up L0 L1 eq_refl H1) as H0. destruct y; auto.
Qed.

Lemma leaf_frame : leaf_of m' root va = leaf_of m root va.
Proof. apply (walk_frame L0). rewrite path_L0. apply Tr. Qed.
End walk_frame.

(** A walk reads nothing outside the tree's pages. *)
Lemma tree_frame m m' root T va :
  tree m root T -> (forall t l p x, T t = Some (l, p) -> t <= x < t + 4096 -> m' x = m x) ->
  leaf_of m' root va = leaf_of m root va.
Proof.
  intros Tr Hm. apply (leaf_frame (T := T) (t := root) (l := L0) (p := 0) (i := -1) Tr (tr_root _ _ _ Tr)).
  - intros x y q j Hx Hj _. apply (Hm x y q); [done|lia].
  - intros Hreg. exfalso. unfold region in Hreg. cbn [Level_index_shift] in Hreg. divmod.
Qed.

(* ------------------------------------------------------------------------- *)
(** ** Descending to a table *)

Definition depth (l : Level) : Z := match l with L0 => 0 | L1 => 1 | L2 => 2 | L3 => 3 end.

Lemma depth_next l l' : Level_next_level l = Ok l' -> depth l' = depth l + 1.
Proof. destruct l; intros [= <-]; reflexivity. Qed.

Lemma depth_inj l l' : depth l = depth l' -> l = l'.
Proof. destruct l, l'; intros [=]; reflexivity. Qed.

(** The walk of [va] from [root] comes to the table [t] at level [l]. *)
Inductive descends (m : mem) (root va : Z) : Z -> Level -> Prop :=
  | ds_root : descends m root va root L0
  | ds_next t l l' :
      descends m root va t l -> Level_next_level l = Ok l' ->
      Entry_is_table_or_page (m (slot t va l)) = true ->
      descends m root va (Entry_output_addr (m (slot t va l))) l'.

Lemma descends_walk m root va t l :
  descends m root va t l -> leaf_of m root va = hw_walk m t va (levels_from l).
Proof.
  induction 1 as [|t l l' _ IH Hl Htab]; [done|]. rewrite IH, (hw_walk_level _ _ _ _ _ Hl). cbv zeta.
  by rewrite (table_valid _ Htab), Htab.
Qed.

Lemma descends_table m root T va t l :
  tree m root T -> descends m root va t l -> T t = Some (l, path l va).
Proof.
  intros Tr. induction 1 as [|t l l' _ IH Hl Htab]; [rewrite path_L0; apply Tr|].
  by eapply next_table.
Qed.

(** The table depends on the part of the address above its level. *)
Lemma descends_same m root va va' t l :
  descends m root va t l -> path l va' = path l va -> descends m root va' t l.
Proof.
  induction 1 as [|t l l' _ IH Hl Htab]; [constructor|].
  rewrite !(path_next l l' _ Hl), !region_path. intros E.
  pose proof (Level_index_in_range l va). pose proof (Level_index_in_range l va').
  assert (path l va' = path l va) as Hp by lia. assert (Level_index_in l va' = Level_index_in l va) as Hi by lia.
  assert (slot t va l = slot t va' l) as Es by (unfold slot; lia). rewrite Es in Htab |- *.
  eapply ds_next; [by apply IH|done|done].
Qed.

(** Descending reads only tables above its end, so writes to the end do not matter. *)
Lemma descends_frame m m' root T va t l p i x y :
  tree m root T -> T t = Some (l, p) -> agree_but T t i m m' ->
  descends m root va x y -> depth y <= depth l -> descends m' root va x y.
Proof.
  intros Tr Ht Hm D. induction D as [|x y y' D IH Hy Htab]; intros Hd; [constructor|].
  pose proof (depth_next _ _ Hy). pose proof (descends_table _ _ _ _ _ _ Tr D) as Hx.
  assert (m' (slot x va y) = m (slot x va y)) as E.
  { eapply Hm; [exact Hx|apply Level_index_in_range|]. intros [= -> _].
    rewrite Ht in Hx. injection Hx as -> _. lia. }
  rewrite <- E in Htab |- *. eapply ds_next; [apply IH; lia|done|done].
Qed.

Lemma hw_walk_invalid m t va l :
  Entry_is_valid (m (slot t va l)) = false -> hw_walk m t va (levels_from l) = None.
Proof.
  intros E. assert (exists ls, levels_from l = l :: ls) as [ls ->] by (destruct l; eauto).
  cbn [hw_walk]. unfold PageTable_entry_at. by rewrite E.
Qed.

(** A slot's region decides the table and the index. *)
Lemma region_slot l va p i :
  0 <= i < 512 -> region l va = p * 512 + i -> path l va = p /\ Level_index_in l va = i.
Proof. rewrite region_path. pose proof (Level_index_in_range l va). lia. Qed.

(* ------------------------------------------------------------------------- *)
(** ** Installing a fresh table, and a leaf *)

Lemma agree_zeroed (T : tables) t i pa v m m1 :
  (forall x y q, T x = Some (y, q) -> page_ok x) -> T pa = None -> page_ok pa ->
  page_ok t -> 0 <= i < 512 ->
  (forall x, ~ pa <= x < pa + 4096 -> m1 x = m x) ->
  agree_but T t i m (<[t + 8 * i := v]> m1).
Proof.
  intros HT Hpa Hpo Ht Hi Hm1 x y q j Hx Hj Hne. pose proof (HT _ _ _ Hx) as Hxp.
  rewrite fn_lookup_insert_ne.
  - apply Hm1. intros Hin. destruct Hxp as [_ [k ->]], Hpo as [_ [k' ->]].
    assert (k = k') as -> by lia. congruence.
  - intros E. destruct (slot_inj t x i j) as [-> ->]; done.
Qed.

Lemma install_table m m1 root T t l l' p i pa :
  tree m root T -> T t = Some (l, p) -> Level_next_level l = Ok l' -> 0 <= i < 512 ->
  Entry_is_valid (m (t + 8 * i)) = false -> T pa = None -> page_ok pa ->
  (forall x, pa <= x < pa + 4096 -> m1 x = 0) -> (forall x, ~ pa <= x < pa + 4096 -> m1 x = m x) ->
  let m2 := <[t + 8 * i := Entry_table pa]> m1 in
  tree m2 root (<[pa := Some (l', p * 512 + i)]> T) /\
  (forall va, leaf_of m2 root va = leaf_of m root va) /\
  agree_but T t i m m2 /\ (forall j, 0 <= j < 512 -> m2 (pa + 8 * j) = 0).
Proof.
  intros Tr Ht Hl Hi Hinv Hfresh Hpo Hz Hm1 m2.
  pose proof (tr_page _ _ _ Tr _ _ _ Ht) as Htp. pose proof (page_ok_aligned _ Hpo) as Hal.
  assert (t <> pa) as Hne by congruence.
  assert (forall j, 0 <= j < 512 -> m2 (pa + 8 * j) = 0) as Hzero.
  { intros j Hj. unfold m2. rewrite fn_lookup_insert_ne; [apply Hz; lia|].
    intros E. by destruct (slot_inj t pa i j) as [? _]. }
  assert (agree_but T t i m m2) as Hag by (eapply agree_zeroed; [apply Tr|done..]).
  destruct (Entry_table_reads pa) as (Hv & Htab & Hout).
  assert (m2 (t + 8 * i) = Entry_table pa) as Hnew by apply fn_lookup_insert.
  split_and!; [| |done|done].
  - constructor.
    + rewrite fn_lookup_insert_ne by (intros ->; pose proof (tr_root _ _ _ Tr); congruence). apply Tr.
    + intros x y q. destruct (decide (x = pa)) as [->|Hx]; [done|].
      rewrite fn_lookup_insert_ne by done. apply Tr.
    + intros x y q y' j. destruct (decide (x = pa)) as [->|Hx].
      { intros _ _ Hj. rewrite Hzero by done. intros [=]. }
      rewrite fn_lookup_insert_ne by done. intros Hxt Hy Hj.
      destruct (decide ((x, j) = (t, i))) as [[= -> ->]|Hxj].
      * intros _. rewrite Hnew, Hout by done. rewrite fn_lookup_insert. congruence.
      * rewrite (Hag _ _ _ _ Hxt Hj Hxj). intros Htp'.
        pose proof (tr_next _ _ _ Tr _ _ _ _ _ Hxt Hy Hj Htp') as Hn.
        rewrite fn_lookup_insert_ne by congruence. done.
    + intros x q j. destruct (decide (x = pa)) as [->|Hx].
      { intros _ Hj. by rewrite Hzero by done. }
      rewrite fn_lookup_insert_ne by done. intros Hxt Hj.
      destruct (decide ((x, j) = (t, i))) as [[= -> ->]|Hxj]; [by rewrite Hnew|].
      rewrite (Hag _ _ _ _ Hxt Hj Hxj). by eapply (tr_top _ _ _ Tr).
  - intros va. eapply leaf_frame; [exact Tr|exact Ht|exact Hag|].
    intros Hreg. apply region_slot in Hreg as [Hp Hidx]; [|done].
    rewrite (hw_walk_invalid m t va l) by (unfold slot; by rewrite Hidx).
    rewrite (hw_walk_level _ _ _ _ _ Hl). cbv zeta. unfold slot. rewrite Hidx, Hnew, Hv, Htab. cbn [negb].
    rewrite Hout by done. apply hw_walk_invalid. unfold slot.
    rewrite Hzero by apply Level_index_in_range. reflexivity.
Qed.

(** The leaf entries [map] writes, at their level. *)
Lemma map_leaf_ok pa target attrs :
  target <> L0 ->
  exists leaf, map_leaf pa target attrs = Ok leaf /\ Entry_is_valid leaf = true /\
    Entry_is_table_or_page leaf = bool_decide (target = L3) /\
    (page_aligned pa -> Entry_output_addr leaf = pa).
Proof.
  intros Hne. destruct target; [done|..]; eexists; (split; [reflexivity|]); apply leaf_reads; tauto.
Qed.

Lemma install_leaf m root T t target p i leaf :
  tree m root T -> T t = Some (target, p) -> target <> L0 -> 0 <= i < 512 ->
  Entry_is_valid leaf = true -> Entry_is_table_or_page leaf = bool_decide (target = L3) ->
  let m' := <[t + 8 * i := leaf]> m in
  tree m' root T /\
  (forall va, region target va <> p * 512 + i -> leaf_of m' root va = leaf_of m root va) /\
  (forall va, region target va = p * 512 + i -> descends m root va t target ->
     leaf_of m' root va = Some (leaf, target)) /\
  agree_but T t i m m'.
Proof.
  intros Tr Ht Hne Hi Hv Htab m'. pose proof (tr_page _ _ _ Tr _ _ _ Ht) as Htp.
  assert (m' (t + 8 * i) = leaf) as Hnew by apply fn_lookup_insert.
  assert (agree_but T t i m m') as Hag.
  { intros x y q j Hx Hj Hxj. unfold m'. rewrite fn_lookup_insert_ne; [done|].
    intros E. destruct (slot_inj t x i j) as [-> ->]; try done. by eapply (tr_page _ _ _ Tr). }
  split_and!; [..|done].
  - constructor; [apply Tr|apply Tr|..].
    + intros x y q y' j Hx Hy Hj. destruct (decide ((x, j) = (t, i))) as [[= -> ->]|Hxj].
      * rewrite Hnew, Htab. rewrite Ht in Hx. injection Hx as <- <-.
        case_bool_decide; [|done]. subst target. done.
      * rewrite (Hag _ _ _ _ Hx Hj Hxj). by apply (tr_next _ _ _ Tr x y q).
    + intros x q j Hx Hj. rewrite (Hag _ _ _ _ Hx Hj) by congruence. by eapply (tr_top _ _ _ Tr).
  - intros va Hreg. by eapply leaf_frame.
  - intros va Hreg D. pose proof (region_slot _ _ _ _ Hi Hreg) as [Hp Hidx].
    rewrite (descends_walk _ _ _ t target);
      [|by eapply (descends_frame m m' root T va t target); [..|exact D|]].
    destruct target; [done| | |]; rewrite ?hw_walk_L3, ?(hw_walk_level _ _ _ L1 L2 eq_refl),
      ?(hw_walk_level _ _ _ L2 L3 eq_refl); cbv zeta; unfold slot; rewrite Hidx, Hnew, Hv, Htab; reflexivity.
Qed.

(* ------------------------------------------------------------------------- *)
(** ** The contract of the frame source *)

(** [fa_inv n U al m]: the allocator can serve [n] more pages, and the pages at [U]
    belong to its clients. *)
Class FrameSource (A : Type) `{FrameAllocator A} := {
  fa_inv : nat -> (Z -> Prop) -> A -> mem -> Prop;
  fa_alloc n U al m :
    fa_inv (S n) U al m ->
    exists pa al' m', alloc_page al m = Ok (pa, al', m') /\ page_ok pa /\ ~ U pa /\
      (forall x, pa <= x < pa + 4096 -> m' x = 0) /\ (forall x, ~ pa <= x < pa + 4096 -> m' x = m x) /\
      fa_inv n (fun p => p = pa \/ U p) al' m';
  fa_weaken n k U al m : (n <= k)%nat -> fa_inv k U al m -> fa_inv n U al m;
  fa_write n U al m p x v :
    fa_inv n U al m -> U p -> p <= x < p + 4096 -> fa_inv n U al (<[x := v]> m);
}.

(* ------------------------------------------------------------------------- *)
(** ** [map] *)

(** No block lies on the way of [va] from table [t] at level [l] to [target]. *)
Fixpoint path_clear (m : mem) (t va : Z) (target : Level) (ls : list Level) : Prop :=
  match ls with
  | [] => True
  | l :: ls =>
      if decide (l = target) then True
      else let e := m (slot t va l) in
        if Entry_is_valid e then
          Entry_is_table_or_page e = true /\ path_clear m (Entry_output_addr e) va target ls
        else True
  end.

Lemma path_clear_invalid m t va target l :
  Entry_is_valid (m (slot t va l)) = false -> path_clear m t va target (levels_from l).
Proof.
  intros E. assert (exists ls, levels_from l = l :: ls) as [ls ->] by (destruct l; eauto).
  cbn [path_clear]. destruct (decide _); [done|]. by rewrite E.
Qed.

(** Tables still to be made on the way of [va] from [t] to [target]. *)
Fixpoint missing (m : mem) (t va : Z) (target : Level) (ls : list Level) : nat :=
  match ls with
  | [] => 0
  | l :: ls =>
      if decide (l = target) then 0
      else let e := m (slot t va l) in
        if Entry_is_table_or_page e then missing m (Entry_output_addr e) va target ls
        else Z.to_nat (depth target - depth l)
  end.

Lemma missing_here m t va l : missing m t va l (levels_from l) = 0%nat.
Proof. destruct l; cbn [levels_from missing]; by rewrite decide_True. Qed.

Lemma missing_not_table m t va target l :
  Entry_is_table_or_page (m (slot t va l)) = false -> depth l <= depth target ->
  missing m t va target (levels_from l) = Z.to_nat (depth target - depth l).
Proof.
  intros E Hd. assert (exists ls, levels_from l = l :: ls) as [ls ->] by (destruct l; eauto).
  cbn [missing]. case_decide as Hl; [subst; lia|]. by rewrite E.
Qed.

Lemma missing_table m t va target l l' :
  Level_next_level l = Ok l' -> l <> target -> Entry_is_table_or_page (m (slot t va l)) = true ->
  missing m t va target (levels_from l) =
  missing m (Entry_output_addr (m (slot t va l))) va target (levels_from l').
Proof.
  intros Hl Hne E. rewrite (levels_from_next _ _ Hl). cbn [missing]. rewrite decide_False by done. by rewrite E.
Qed.

Lemma missing_le m t va target l :
  depth l <= depth target -> (missing m t va target (levels_from l) <= Z.to_nat (depth target - depth l))%nat.
Proof.
  revert t. assert (forall l l', Level_next_level l = Ok l' ->
    (forall t, depth l' <= depth target ->
       (missing m t va target (levels_from l') <= Z.to_nat (depth target - depth l'))%nat) ->
    forall t, depth l <= depth target ->
      (missing m t va target (levels_from l) <= Z.to_nat (depth target - depth l))%nat) as Hstep.
  { intros y y' Hy IH t Hd. destruct (decide (y = target)) as [->|Hne]; [rewrite missing_here; lia|].
    pose proof (depth_next _ _ Hy). assert (depth y <> depth target) by (intros E; by apply depth_inj in E).
    destruct (Entry_is_table_or_page (m (slot t va y))) eqn:E.
    - rewrite (missing_table m t va target y y') by done. etrans; [apply IH; lia|lia].
    - by rewrite missing_not_table. }
  assert (forall t, depth L3 <= depth target ->
    (missing m t va target (levels_from L3) <= Z.to_nat (depth target - depth L3))%nat) as H3.
  { intros t Hd. destruct target; cbn in Hd; try lia. by rewrite missing_here. }
  pose proof (Hstep L2 L3 eq_refl H3) as H2. pose proof (Hstep L1 L2 eq_refl H2) as H1.
  pose proof (Hstep L0 L1 eq_refl H1). destruct l; auto.
Qed.

(** Once a walk comes to the target's table nothing is missing. *)
Lemma descends_missing m root va target t l :
  descends m root va t l -> depth l <= depth target ->
  missing m root va target all_levels = missing m t va target (levels_from l).
Proof.
  induction 1 as [|t l l' D IH Hl Htab]; intros Hd; [done|]. pose proof (depth_next _ _ Hl).
  rewrite IH by lia. apply missing_table; [done| |done]. intros ->. lia.
Qed.

Section map.
Context {P : Profile} {A : Type} `{FrameSource A}.

(** Invariant of the descent for [va], from the memory [m0] with tables [T0]. *)
Record mapping (m0 : mem) (root va : Z) (T0 : tables) (U0 : Z -> Prop) (target : Level) (n : nat)
  (s : (Z * Level) * (A * mem)) : Prop := {
  mp_depth : depth s.1.2 <= depth target;
  mp_descends : descends s.2.2 root va s.1.1 s.1.2;
  mp_clear : path_clear s.2.2 s.1.1 va target (levels_from s.1.2);
  mp_leaf : forall x, leaf_of s.2.2 root x = leaf_of m0 root x;
  mp_state : exists T U k, tree s.2.2 root T /\ fa_inv k U s.2.1 s.2.2 /\
    (n + missing s.2.2 s.1.1 va target (levels_from s.1.2) <= k)%nat /\
    (forall t, T t <> None -> U t) /\ (forall t, T0 t <> None -> T t = T0 t) /\ (forall t, U0 t -> U t);
}.

Lemma from_phys_ok pa : page_ok pa -> PageTable_from_phys pa = Ok pa.
Proof. intros [? _]. unfold PageTable_from_phys. by rewrite pa_to_linear_va_ok. Qed.

(** A turn where the next table is missing: a fresh one is installed. *)
Lemma map_turn_fresh m0 root va T0 U0 target n t l l' al m :
  mapping m0 root va T0 U0 target n ((t, l), (al, m)) -> depth l < depth target ->
  Level_next_level l = Ok l' -> Entry_is_valid (m (slot t va l)) = false ->
  exists t' al' m', map_step va ((t, l), (al, m)) = Ok ((t', l'), (al', m')) /\
    mapping m0 root va T0 U0 target n ((t', l'), (al', m')).
Proof.
  intros [_ D _ Hleaf (T & U & k & Tr & Hfa & Hk & HTU & HT0 & HU0)] Hlt Hl Hv. cbn [fst snd] in *.
  pose proof (depth_next _ _ Hl) as Hdl.
  pose proof (descends_table _ _ _ _ _ _ Tr D) as Ht.
  pose proof (Level_index_in_range l va) as Hi. unfold map_step. rewrite Hv. cbn [negb].
  rewrite missing_not_table in Hk; [|by destruct (Entry_is_table_or_page _) eqn:Et;
    [rewrite (table_valid _ Et) in Hv|]|lia].
  destruct k as [|k]; [lia|].
  destruct (fa_alloc k U al m Hfa) as (pa & al' & m1 & -> & Hpo & HnU & Hz & Hm1 & Hfa').
  cbn [obind]. assert (T pa = None) as Hfresh.
  { destruct (T pa) eqn:E; [|done]. destruct HnU. apply HTU. congruence. }
  destruct (install_table m m1 root T t l l' _ (Level_index_in l va) pa Tr Ht Hl Hi Hv Hfresh Hpo Hz Hm1)
    as (Tr2 & Hleaf2 & Hag & Hzero).
  fold (slot t va l) in Tr2, Hleaf2, Hag, Hzero. set (m2 := <[slot t va l := _]> m1) in *.
  assert (m2 (slot t va l) = Entry_table pa) as Hnew by apply fn_lookup_insert.
  destruct (Entry_table_reads pa) as (_ & Htab & Hout). specialize (Hout (page_ok_aligned _ Hpo)).
  rewrite Hnew, Hout, from_phys_ok by done. cbn [obind]. rewrite Hl. cbn [obind].
  exists pa, al', m2. split; [done|]. constructor; cbn [fst snd].
  + lia.
  + rewrite <- Hout, <- Hnew. eapply ds_next; [|done|by rewrite Hnew].
    eapply (descends_frame m m2 root T va t l); [done..|lia].
  + apply path_clear_invalid. unfold slot. rewrite Hzero by apply Level_index_in_range. done.
  + intros x. by rewrite Hleaf2.
  + eexists _, (fun p => p = pa \/ U p), k. split; [exact Tr2|]. split.
    { apply fa_write with t; [done| |unfold slot; lia]. right. apply HTU. congruence. }
    split.
    { rewrite missing_not_table; [lia|unfold slot; by rewrite Hzero by apply Level_index_in_range|lia]. }
    split_and!.
    * intros x. destruct (decide (x = pa)) as [->|Hx]; [by left|].
      rewrite fn_lookup_insert_ne by done. intros. right. by apply HTU.
    * intros x Hx. rewrite fn_lookup_insert_ne; [by apply HT0|].
      intros ->. rewrite <- HT0 in Hx by done. done.
    * intros x Hx. right. by apply HU0.
Qed.

Lemma map_turn m0 root va T0 U0 target n t l al m :
  mapping m0 root va T0 U0 target n ((t, l), (al, m)) -> l <> target ->
  exists t' l' al' m', map_step va ((t, l), (al, m)) = Ok ((t', l'), (al', m')) /\
    depth l' = depth l + 1 /\ mapping m0 root va T0 U0 target n ((t', l'), (al', m')).
Proof.
  intros M Hne. pose proof M as [Hd D Hcl Hleaf (T & U & k & Tr & Hfa & Hk & HTU & HT0 & HU0)]. cbn [fst snd] in *.
  assert (depth l < depth target) as Hlt.
  { destruct (Z.eq_dec (depth l) (depth target)) as [E|]; [by apply depth_inj in E|lia]. }
  assert (exists l', Level_next_level l = Ok l') as [l' Hl] by (destruct l; try (eexists; reflexivity);
    destruct target; cbn in Hlt; lia).
  pose proof (depth_next _ _ Hl) as Hdl.
  pose proof (descends_table _ _ _ _ _ _ Tr D) as Ht. pose proof (tr_page _ _ _ Tr _ _ _ Ht) as Htp.
  pose proof (Level_index_in_range l va) as Hi. unfold map_step.
  destruct (Entry_is_valid (m (slot t va l))) eqn:Hv; cbn [negb].
  - (* the next table exists *)
    assert (Entry_is_table_or_page (m (slot t va l)) = true /\
      path_clear m (Entry_output_addr (m (slot t va l))) va target (levels_from l')) as [Htab Hcl'].
    { rewrite (levels_from_next _ _ Hl) in Hcl. cbn [path_clear] in Hcl.
      rewrite decide_False, Hv in Hcl by done. done. }
    rewrite Htab. cbn [assert_ obind].
    assert (T (Entry_output_addr (m (slot t va l))) = Some (l', path l' va)) as Hn by by eapply next_table.
    rewrite from_phys_ok by by eapply (tr_page _ _ _ Tr). cbn [obind]. rewrite Hl. cbn [obind].
    exists (Entry_output_addr (m (slot t va l))), l', al, m. split_and!; [done|lia|].
    constructor; cbn [fst snd]; [lia|by eapply ds_next|done|done|].
    exists T, U, k. split_and!; try done. by rewrite <- (missing_table m t va target l l').
  - destruct (map_turn_fresh _ _ _ _ _ _ _ _ _ _ _ _ M Hlt Hl Hv) as (t' & al' & m' & E & M').
    exists t', l', al', m'. rewrite <- E. unfold map_step. rewrite Hv. split_and!; [done|lia|done].
Qed.

Lemma map_loop m0 root va T0 U0 target n s :
  mapping m0 root va T0 U0 target n s ->
  exists t al m, while 3 (fun s => negb (bool_decide (s.1.2 = target))) (map_step va) s
    = Ok ((t, target), (al, m)) /\ mapping m0 root va T0 U0 target n ((t, target), (al, m)).
Proof.
  intros Hs.
  destruct (while_rule (mapping m0 root va T0 U0 target n) (fun s => depth target - depth s.1.2)
    (fun s => negb (bool_decide (s.1.2 = target))) (map_step va)) with (fuel := 3%nat) (s := s)
    as ([[t l] [al m]] & E & Hs' & Hc); [|done|destruct s as [[? []] ?], target; cbn; lia|].
  - intros [[t l] [al m]] Hm Hc. cbn [fst snd] in *. case_bool_decide as Hl; [done|].
    destruct (map_turn _ _ _ _ _ _ _ _ _ _ _ Hm Hl) as (t' & l' & al' & m' & E & Hd & Hm').
    eexists. split_and!; [exact E|exact Hm'|..]; cbn; destruct Hm' as [Hd' _ _ _ _]; cbn in Hd'; lia.
  - cbn [fst snd] in *. case_bool_decide as Hl; [|done]. subst l. eauto.
Qed.

(** What [map] does to translations: the region of [va] at [target] now leads to
    [pa] with [attrs], and every other address translates as before. *)
Record mapped (m m' : mem) (root va pa : Z) (target : Level) (attrs : LeafAttrs) : Prop := {
  md_leaf : exists leaf, map_leaf pa target attrs = Ok leaf /\
    forall x, region target x = region target va -> leaf_of m' root x = Some (leaf, target);
  md_addr : forall x, region target x = region target va ->
    translate m' root x = Some (pa + x mod 2 ^ Level_index_shift target);
  md_tables : forall x, path target x = path target va -> missing m' root x target all_levels = 0%nat;
  md_other : forall x, region target x <> region target va -> leaf_of m' root x = leaf_of m root x;
}.

(** A table tree in memory whose pages the allocator knows, with [n] pages to spare. *)
Definition ready (n : nat) (root : Z) (s : A * mem) : Prop :=
  exists T U, tree s.2 root T /\ (forall t, T t <> None -> U t) /\ fa_inv n U s.1 s.2.

Lemma map_ok n root va pa target attrs al m :
  ready (n + missing m root va target all_levels) root (al, m) -> target <> L0 -> page_aligned pa ->
  path_clear m root va target all_levels ->
  exists al' m', PageTable_map root va pa target attrs (al, m) = Ok (al', m') /\
    mapped m m' root va pa target attrs /\ ready n root (al', m').
Proof.
  intros (T & U & Tr & HTU & Hfa) Hne Hpa Hcl. cbn [fst snd] in *. unfold PageTable_map. rewrite bool_decide_false by done.
  cbn [negb assert_ obind].
  destruct (map_leaf_ok pa target attrs Hne) as (leaf & El & Hv & Htab & Hout). rewrite El. cbn [obind].
  assert (mapping m root va T U target n ((root, L0), (al, m))) as Hs.
  { constructor; cbn [fst snd]; [destruct target; cbn; lia|constructor|done|done|].
    by exists T, U, (n + missing m root va target all_levels)%nat. }
  destruct (map_loop _ _ _ _ _ _ _ _ Hs) as (t & al' & m1 & -> & [_ D _ Hleaf (T1 & U1 & k & Tr1 & Hfa1 & Hk & HTU1 & HT1 & HU1)]).
  cbn [fst snd obind] in *. pose proof (descends_table _ _ _ _ _ _ Tr1 D) as Ht.
  pose proof (Level_index_in_range target va) as Hi.
  destruct (install_leaf m1 root T1 t target _ _ leaf Tr1 Ht Hne Hi Hv Htab) as (Tr2 & Hoth & Hin & Hag).
  fold (slot t va target) in Tr2, Hoth, Hin, Hag. set (m2 := <[slot t va target := leaf]> m1) in *.
  rewrite <- region_path in Hoth, Hin.
  assert (forall x, region target x = region target va -> leaf_of m2 root x = Some (leaf, target)) as Hlf.
  { intros x Hx. apply Hin; [done|]. eapply descends_same; [done|].
    rewrite !region_path in Hx. pose proof (Level_index_in_range target x). lia. }
  exists al', m2. split_and!; [done| |].
  - constructor; [by exists leaf| | |].
    + intros x Hx. unfold translate. rewrite Hlf by done. by rewrite Hout.
    + intros x Hx. rewrite (descends_missing _ _ _ _ t target); [apply missing_here| |lia].
      eapply (descends_frame m1 m2 root T1 x t target); [done..|by eapply descends_same|lia].
    + intros x Hx. rewrite Hoth by done. apply Hleaf.
  - exists T1, U1. cbn [fst snd]. split_and!; [done..|].
    apply fa_write with t; [apply fa_weaken with k; [lia|done]|apply HTU1; congruence|unfold slot; lia].
Qed.

(** A block in the way stops the descent at the assertion. *)
Lemma map_loop_refuses m root T va target al fuel t l :
  tree m root T -> T t = Some (l, path l va) -> depth l <= depth target ->
  depth target - depth l <= Z.of_nat fuel -> ~ path_clear m t va target (levels_from l) ->
  while fuel (fun s => negb (bool_decide (s.1.2 = target))) (map_step va) ((t, l), (al, m))
  = Panic AssertFailed.
Proof.
  intros Tr. revert t l. induction fuel as [|fuel IH]; intros t l Ht Hd Hf Hcl.
  all: assert (exists ls, levels_from l = l :: ls) as [ls Els] by (destruct l; eauto).
  all: assert (l <> target) as Hne
    by (intros ->; apply Hcl; rewrite Els; cbn [path_clear]; by rewrite decide_True).
  all: assert (depth l <> depth target) by (intros E; by apply depth_inj in E).
  - cbn in Hf. lia.
  - cbn [while fst snd]. rewrite bool_decide_false by done. cbn [negb].
    assert (exists l', Level_next_level l = Ok l') as [l' Hl] by (destruct l; try (eexists; reflexivity);
      destruct target; cbn in *; lia).
    pose proof (depth_next _ _ Hl). rewrite (levels_from_next _ _ Hl) in Hcl. cbn [path_clear] in Hcl.
    rewrite decide_False in Hcl by done. unfold map_step.
    destruct (Entry_is_valid (m (slot t va l))) eqn:Hv; [|by destruct Hcl]. cbn [negb].
    destruct (Entry_is_table_or_page (m (slot t va l))) eqn:Htab; [|done]. cbn [assert_ obind].
    assert (T (Entry_output_addr (m (slot t va l))) = Some (l', path l' va)) as Hn by by eapply next_table.
    rewrite from_phys_ok by by eapply (tr_page _ _ _ Tr). cbn [obind]. rewrite Hl. cbn [obind].
    apply IH; [done|lia|lia|tauto].
Qed.

Lemma map_refuses_ok m root T va pa target attrs al :
  tree m root T -> target = L0 \/ ~ path_clear m root va target all_levels ->
  PageTable_map root va pa target attrs (al, m) = Panic AssertFailed.
Proof.
  intros Tr Hor. unfold PageTable_map. case_bool_decide as Ht; [done|]. cbn [negb assert_ obind].
  destruct Hor as [?|Hcl]; [done|]. destruct (map_leaf_ok pa target attrs Ht) as (leaf & -> & _). cbn [obind].
  rewrite (map_loop_refuses m root T va target al 3 root L0); [done|done|rewrite path_L0; apply Tr|..|done];
    destruct target; cbn; lia.
Qed.
End map.

(* ------------------------------------------------------------------------- *)
(** ** Reading a leaf back *)

Lemma bits_land_mask pa s n :
  bits OUTPUT_ADDR_MASK s n = 0 -> bits (Z.land pa OUTPUT_ADDR_MASK) s n = 0.
Proof. unfold bits. intros E. by rewrite Z.shiftr_land, <- Z.land_assoc, E, Z.land_0_r. Qed.

(** A leaf descriptor loses nothing: the output address, the memory attribute,
    the access permissions, the shareability and the execute-never bits are read
    back from their architectural fields, the access flag is set, and the type bits
    say page at L3 and block at L1 and L2, for every page-aligned 48-bit address
    and every combination of attributes. *)
Theorem leaf_encoding_lossless pa target attrs :
  target <> L0 -> page_aligned pa ->
  exists e, map_leaf pa target attrs = Ok e /\
    Entry_output_addr e = pa /\ Entry_is_valid e = true /\
    Entry_is_table_or_page e = bool_decide (target = L3) /\
    Entry_is_block e = bool_decide (target <> L3) /\
    bits e 2 3 = MemoryAttr_index (la_memory attrs) /\
    bits e 6 2 = bits (Access_bits (la_access attrs)) 6 2 /\
    bits e 8 2 = Shareability_bits (la_share attrs) /\
    bits e 10 1 = 1 /\
    bits e 53 1 = match la_execute attrs with ExecKernel => 0 | _ => 1 end /\
    bits e 54 1 = match la_execute attrs with ExecUser => 0 | _ => 1 end.
Proof.
  intros Hne Hal. destruct (map_leaf_ok pa target attrs Hne) as (e & E & Hv & Htab & Hout).
  exists e. split; [done|]. split; [by apply Hout|]. split; [done|]. split; [done|].
  assert (exists ty, e = Z.lor (Z.lor (Z.land pa OUTPUT_ADDR_MASK) (LeafAttrs_bits attrs)) ty /\
    (ty = TYPE_BLOCK /\ target <> L3 \/ ty = TYPE_TABLE_OR_PAGE /\ target = L3)) as (ty & Ee & Hty).
  { destruct target; [done|..]; injection E as <-; eexists; (split; [reflexivity|]); naive_solver. }
  assert (forall s n, bits OUTPUT_ADDR_MASK s n = 0 ->
    bits e s n = Z.lor (bits (LeafAttrs_bits attrs) s n) (bits ty s n)) as Hb.
  { intros s n Hs. by rewrite Ee, !bits_lor, (bits_land_mask pa s n Hs). }
  split.
  - unfold Entry_is_block. rewrite Hv. cbn [andb]. rewrite Ee, entry_land.
    rewrite (LeafAttrs_bits_mask attrs) by (cbn; tauto). rewrite (land_mask_low pa) by reflexivity.
    by destruct Hty as [[-> Ht]|[-> ->]]; [rewrite bool_decide_true|].
  - rewrite !Hb by reflexivity. destruct attrs as [[] [] [] []], Hty as [[-> _]|[-> _]];
      split_and!; reflexivity.
Qed.

Lemma leaf_encoding_lossless_witness :
  exists e, map_leaf 0x40200000 L2 (mkLeafAttrs Normal KernelReadOnly InnerShareable ExecKernel) = Ok e /\
    Entry_output_addr e = 0x40200000 /\ bits e 8 2 = 3.
Proof.
  destruct (leaf_encoding_lossless 0x40200000 L2
    (mkLeafAttrs Normal KernelReadOnly InnerShareable ExecKernel))
    as (e & E & Ho & _ & _ & _ & _ & _ & Hs & _); [discriminate| |].
  - split; [lia|]. exists 0x40200. reflexivity.
  - exists e. split; [exact E|]. split; [exact Ho|exact Hs].
Defined.
