(* ===== verification/Frame.v ===== *)
(** * kernel/mm/frame.rs: the kernel's page source

    The bump pool of early boot, [alloc_page]'s choice between it and the buddy
    allocator, and [zero_page].  [frame::alloc_page] is an instance of the
    [FrameAllocator] trait (through [KernelMapAllocator]) and is proved to meet the
    contract [FrameSource] that the page-table walker relies on. *)

From S2P Require Import Prelude Arch MmuConfig FrameTypes Layout Buddy BuddyInv BuddyGeom BuddyWf BuddySteps BuddyCore BuddyFree BuddyRange BuddyCanon BuddyProps PageTable PageTableProps.

Definition POOL_PAGES : Z := 32.

(** The statics of frame.rs and buddy.rs: where [POOL] is linked, [NEXT], [BUDDY]. *)
Record FrameState := mkFrameState {
  POOL : Z;
  NEXT : Z;
  BUDDY : option BuddyAllocator;
}.

Section frame.
Context {P : Profile}.

(** [NEXT.fetch_add(1)]: the counter moves whether or not the page is there. *)
Definition bump_alloc_page (st : FrameState) : outcome (Z * FrameState) :=
  let idx := NEXT st in
  let st := mkFrameState (POOL st) (wrap 64 (idx + 1)) (BUDDY st) in
  if POOL_PAGES <=? idx then Panic ExplicitPanic
  else
    let! base_pa := image_va_to_pa (POOL st) in
    let! off := umul 64 idx PAGE_SIZE in
    let! pa := uadd 64 base_pa off in
    Ok (pa, st).

Definition zero_page (pa : Z) (m : mem) : outcome mem :=
  let! _va := pa_to_linear_va pa in
  Ok (fun x => if (pa <=? x) && (x <? pa + PAGE_SIZE) then 0 else m x).

Definition frame_alloc_page (st : FrameState) (m : mem) : outcome (Z * FrameState * mem) :=
  match BUDDY st with
  | Some buddy =>
      let! '(r, buddy) := BuddyAllocator_alloc_page buddy in
      let! pa := unwrap r in
      let! m := zero_page pa m in
      Ok (pa, mkFrameState (POOL st) (NEXT st) (Some buddy), m)
  | None =>
      let! '(pa, st) := bump_alloc_page st in
      Ok (pa, st, m)
  end.

#[export] Instance KernelMapAllocator : FrameAllocator FrameState := frame_alloc_page.
End frame.

(* ------------------------------------------------------------------------- *)
(** ** The page source keeps its contract *)

Definition pool_page (st : FrameState) (i : Z) : Z := POOL st - KERNEL_IMAGE_BASE + IMAGE_PA_BASE + i * PAGE_SIZE.

(** The bump pool: page-aligned, in the image window, its remaining pages zero and
    nobody's. *)
Record pool_inv (n : nat) (U : Z -> Prop) (st : FrameState) (m : mem) : Prop := {
  pi_next_range : 0 <= NEXT st;
  pi_left : NEXT st + Z.of_nat n <= POOL_PAGES;
  pi_image : KERNEL_IMAGE_BASE <= POOL st;
  pi_end : POOL st + POOL_PAGES * PAGE_SIZE < 2 ^ 64;
  pi_align : (4096 | pool_page st 0);
  pi_zero : forall i, NEXT st <= i < POOL_PAGES ->
    ~ U (pool_page st i) /\ forall x, pool_page st i <= x < pool_page st i + 4096 -> m x = 0;
}.

(** The buddy allocator: well-formed, page-aligned, inside the linear map, its free
    frames nobody's. *)
Record buddy_inv (n : nat) (U : Z -> Prop) (b : BuddyAllocator) : Prop := {
  bi_wf : wf b;
  bi_base : 0 <= dram_base b;
  bi_align : (4096 | dram_base b);
  bi_span : dram_base b + nr_frames b * PAGE_SIZE <= LINEAR_SPAN;
  bi_left : Z.of_nat n <= free_frames b;
  bi_free : forall f, free_in b f -> ~ U (dram_base b + f * PAGE_SIZE);
}.

Definition frame_inv (n : nat) (U : Z -> Prop) (st : FrameState) (m : mem) : Prop :=
  (forall p, U p -> (4096 | p)) /\
  match BUDDY st with
  | Some b => buddy_inv n U b
  | None => pool_inv n U st m
  end.

(** A free frame is enough for a page. *)
Lemma alloc_page_ok {P : Profile} b :
  wf b -> 0 < free_frames b -> 0 <= dram_base b -> (4096 | dram_base b) ->
  dram_base b + nr_frames b * PAGE_SIZE <= LINEAR_SPAN ->
  exists f b', BuddyAllocator_alloc_page b = Ok (Some (dram_base b + f * PAGE_SIZE), b') /\
    handed_out b b' f 0.
Proof.
  intros W Hff Hb Hal Hsp. unfold BuddyAllocator_alloc_page, BuddyAllocator_alloc_pages.
  destruct (alloc_cases b 0 W) as [(f & b' & -> & H)|[_ Hn]]; [unfold MAX_ORDER; lia|..].
  - cbn [obind]. pose proof (ho_block _ _ _ _ H) as (_ & Hf & _ & Hfn).
    assert (nr_frames b <= RAW_NONE) as Hnr by (destruct W as (fl & I & _); apply I).
    destruct (pfn_of_pa_of b' f) as [-> _].
    + rewrite (ho_nr _ _ _ _ H). lia.
    + by rewrite (ho_nr _ _ _ _ H).
    + by rewrite (ho_base _ _ _ _ H).
    + by rewrite (ho_base _ _ _ _ H).
    + rewrite (ho_nr _ _ _ _ H), (ho_base _ _ _ _ H). unfold_layout. lia.
    + cbn [obind]. rewrite (ho_base _ _ _ _ H). exists f, b'. by split.
  - exfalso. destruct (wf_free_list b W) as (l & _ & Hl & Hlen).
    destruct l as [|f l]; [unfold lenz in Hlen; cbn in Hlen; lia|].
    destruct (proj1 (Hl f)) as (p & k & Hm & _); [by left|].
    pose proof (Hn p k Hm). destruct (wf_free_block _ _ _ W Hm). lia.
Qed.

Lemma pool_page_shift st st' i : POOL st' = POOL st -> pool_page st' i = pool_page st i.
Proof. unfold pool_page. by intros ->. Qed.

Lemma pool_page_ok n U st m i :
  pool_inv n U st m -> 0 <= i < POOL_PAGES -> page_ok (pool_page st i).
Proof.
  intros [_ _ Him Hend Hal _] Hi. unfold page_ok, pool_page, POOL_PAGES in *. unfold_layout. split.
  - lia.
  - apply Z.divide_add_r; [|by apply Z.divide_factor_r].
    by replace (POOL st - 0xFFFFFFFF80000000 + 0x40000000 + 0 * 4096)
      with (POOL st - 0xFFFFFFFF80000000 + 0x40000000) in Hal by lia.
Qed.

Section contract.
Context {P : Profile}.

(** The pool's next page, as it lies in memory. *)
Lemma bump_alloc_ok n U st m :
  BUDDY st = None -> pool_inv (S n) U st m ->
  frame_alloc_page st m = Ok (pool_page st (NEXT st), mkFrameState (POOL st) (NEXT st + 1) None, m) /\
  0 <= NEXT st < POOL_PAGES /\
  pool_inv n (fun p => p = pool_page st (NEXT st) \/ U p) (mkFrameState (POOL st) (NEXT st + 1) None) m.
Proof.
  intros Hb I. unfold frame_alloc_page. rewrite Hb.
  pose proof I as [Hn0 Hleft Him Hend Hal Hz]. unfold bump_alloc_page.
  destruct (Z.leb_spec POOL_PAGES (NEXT st)); [lia|].
  cbn [POOL]. rewrite image_va_to_pa_ok by (unfold POOL_PAGES, PAGE_SIZE in *; lia). cbn [obind].
  unfold POOL_PAGES in *. rewrite umul_ok by (unfold PAGE_SIZE; lia). cbn [obind].
  rewrite uadd_ok by (unfold_layout; lia). cbn [obind]. fold (pool_page st (NEXT st)).
  rewrite wrap_small by lia. rewrite Hb. split_and!; [done|lia|lia|].
  set (st' := mkFrameState _ _ _). assert (POOL st' = POOL st) as Hpool by done.
  constructor; cbn [NEXT POOL st']; unfold POOL_PAGES; [lia|lia|done|done|by rewrite (pool_page_shift st)|].
  intros i Hi. rewrite (pool_page_shift st) by done. destruct (Hz i) as [? ?]; [lia|].
  split; [|done]. intros [E|?]; [|done]. unfold pool_page, PAGE_SIZE in E. lia.
Qed.

Lemma bump_alloc_contract n U st m :
  BUDDY st = None -> frame_inv (S n) U st m ->
  exists pa st' m', frame_alloc_page st m = Ok (pa, st', m') /\ page_ok pa /\ ~ U pa /\
    (forall x, pa <= x < pa + 4096 -> m' x = 0) /\ (forall x, ~ pa <= x < pa + 4096 -> m' x = m x) /\
    frame_inv n (fun p => p = pa \/ U p) st' m'.
Proof.
  intros Hb [HU I]. rewrite Hb in I. destruct (bump_alloc_ok n U st m Hb I) as (-> & Hn & I').
  pose proof (pi_zero _ _ _ _ I (NEXT st)) as [HnU Hz]; [lia|].
  assert (page_ok (pool_page st (NEXT st))) as Hpo by (eapply pool_page_ok; [exact I|lia]).
  eexists _, _, _. split_and!; [done..|]. split; [|exact I'].
  intros p [->|Hp]; [apply Hpo|by apply HU].
Qed.

Lemma buddy_alloc_contract n U st m b :
  BUDDY st = Some b -> frame_inv (S n) U st m ->
  exists pa st' m', frame_alloc_page st m = Ok (pa, st', m') /\ page_ok pa /\ ~ U pa /\
    (forall x, pa <= x < pa + 4096 -> m' x = 0) /\ (forall x, ~ pa <= x < pa + 4096 -> m' x = m x) /\
    frame_inv n (fun p => p = pa \/ U p) st' m'.
Proof.
  intros Hb [HU I]. unfold frame_alloc_page, frame_inv in *. rewrite Hb in I |- *.
  destruct I as [W Hbase Hal Hspan Hleft Hfree].
  destruct (alloc_page_ok b W) as (f & b' & -> & H); [lia|done..|]. cbn [obind unwrap].
  pose proof (ho_block _ _ _ _ H) as (_ & Hf & _ & Hfn). change (2 ^ 0) with 1 in Hfn.
  assert (page_ok (dram_base b + f * PAGE_SIZE)) as Hpo.
  { unfold PAGE_SIZE in *. split; [lia|]. apply Z.divide_add_r; [done|apply Z.divide_factor_r]. }
  unfold zero_page. rewrite pa_to_linear_va_ok by apply Hpo. cbn [obind].
  assert (in_block f 0 f) as Hin by (unfold in_block; lia).
  eexists _, _, _. split_and!; [done|done|..].
  - apply Hfree. by apply H.
  - intros x Hx. cbv beta. destruct (_ && _) eqn:E; [done|]. unfold PAGE_SIZE in *. lia.
  - intros x Hx. cbv beta. destruct (_ && _) eqn:E; [|done]. exfalso. apply Hx. unfold PAGE_SIZE in *. lia.
  - intros p [->|Hp]; [apply Hpo|by apply HU].
  - cbn [BUDDY]. constructor.
    + apply H.
    + by rewrite (ho_base _ _ _ _ H).
    + by rewrite (ho_base _ _ _ _ H).
    + by rewrite (ho_base _ _ _ _ H), (ho_nr _ _ _ _ H).
    + rewrite (ho_count _ _ _ _ H). lia.
    + intros g Hg. apply (ho_rest _ _ _ _ H) in Hg as [Hg Hng]. rewrite (ho_base _ _ _ _ H).
      intros [E|Hu]; [|by eapply Hfree]. unfold PAGE_SIZE in E. assert (g = f) as -> by lia. done.
Qed.

#[export] Program Instance KernelMapAllocator_source : FrameSource FrameState :=
  {| fa_inv := frame_inv |}.
Next Obligation.
  intros n U st m I. destruct (BUDDY st) eqn:E; [by eapply buddy_alloc_contract|by apply bump_alloc_contract].
Qed.
Next Obligation.
  intros n k U st m Hnk [HU I]. split; [done|].
  destruct (BUDDY st); destruct I; constructor; try done; lia.
Qed.
Next Obligation.
  intros n U st m p x v [HU I] Hp Hx. split; [done|]. destruct (BUDDY st); [done|].
  pose proof I as [? ? ? ? ? Hz]. constructor; try done. intros i Hi. destruct (Hz i Hi) as [HnU Hzi].
  split; [done|]. intros y Hy. rewrite fn_lookup_insert_ne; [by apply Hzi|]. intros ->.
  assert (page_ok (pool_page st i)) as [_ [k Ek]] by (eapply pool_page_ok; [exact I|lia]).
  destruct (HU p Hp) as [j Ej]. apply HnU. replace (pool_page st i) with p by lia. done.
Qed.
End contract.

(* ------------------------------------------------------------------------- *)
(** ** Early boot: the pool alone *)

(** What early boot relies on besides: every page comes from the pool as it was
    linked, and nothing outside the pool is written. *)
Section pool.
Context {P : Profile} (st0 : FrameState) (m0 : mem).

Definition in_pool (p : Z) : Prop := exists i, 0 <= i < POOL_PAGES /\ p = pool_page st0 i.
Definition pool_bytes (x : Z) : Prop := pool_page st0 0 <= x < pool_page st0 POOL_PAGES.

Record pool_source_inv (n : nat) (U : Z -> Prop) (st : FrameState) (m : mem) : Prop := {
  ps_frame : frame_inv n U st m;
  ps_early : BUDDY st = None;
  ps_pool : POOL st = POOL st0;
  ps_pages : forall p, U p -> in_pool p;
  ps_rest : forall x, ~ pool_bytes x -> m x = m0 x;
}.

Lemma in_pool_bytes p x : in_pool p -> p <= x < p + 4096 -> pool_bytes x.
Proof. intros (i & Hi & ->) Hx. unfold pool_bytes, pool_page, POOL_PAGES, PAGE_SIZE in *. lia. Qed.

Program Definition pool_source : FrameSource FrameState := {| fa_inv := pool_source_inv |}.
Next Obligation.
  intros n U st m [[HU I] Hb Hp HUp Hm]. rewrite Hb in I. destruct (bump_alloc_ok n U st m Hb I) as (E & Hn & I').
  pose proof (pi_zero _ _ _ _ I (NEXT st)) as [HnU Hz]; [lia|].
  assert (page_ok (pool_page st (NEXT st))) as Hpo by (eapply pool_page_ok; [exact I|lia]).
  eexists _, _, _. split_and!; [exact E|done..|]. split; try done.
  - split; [|exact I']. intros p [->|?]; [apply Hpo|by apply HU].
  - intros p [->|?]; [|by apply HUp]. exists (NEXT st). split; [done|]. unfold pool_page. by rewrite Hp.
Qed.
Next Obligation.
  intros n k U st m Hnk [I Hb Hp HUp Hm]. split; try done. exact (fa_weaken n k U st m Hnk I).
Qed.
Next Obligation.
  intros n U st m p x v [I Hb Hp HUp Hm] Hu Hx. split; try done; [exact (fa_write n U st m p x v I Hu Hx)|].
  intros y Hy. rewrite fn_lookup_insert_ne; [by apply Hm|]. intros <-. apply Hy. eapply in_pool_bytes; eauto.
Qed.
End pool.
