(* ===== verification/KernelMap.v ===== *)
(** * kernel/mm/kernel_map.rs: the kernel's permanent address space

    [build] and the loops under it, over the page-table model, with the linker
    symbols and the device tree's memory nodes as arguments.  The theorems say what
    the built tables translate: every RAM byte at its linear address, and nothing
    that was mapped before disturbed. *)

From stdpp Require Import sorting.
From S2P Require Import Prelude Arch MmuConfig FrameTypes Layout Uart PageTable PageTableProps.

Definition TEXT_ATTRS : LeafAttrs := mkLeafAttrs Normal KernelReadOnly InnerShareable ExecKernel.
Definition RODATA_ATTRS : LeafAttrs := mkLeafAttrs Normal KernelReadOnly InnerShareable ExecNone.
Definition DATA_ATTRS : LeafAttrs := mkLeafAttrs Normal KernelReadWrite InnerShareable ExecNone.
Definition BSS_ATTRS : LeafAttrs := mkLeafAttrs Normal KernelReadWrite InnerShareable ExecNone.
Definition STACK_ATTRS : LeafAttrs := mkLeafAttrs Normal KernelReadWrite InnerShareable ExecNone.
Definition DEVICE_ATTRS : LeafAttrs := mkLeafAttrs DeviceNGNRE KernelReadWrite NonShareable ExecNone.
Definition LINEAR_RAM : LeafAttrs := mkLeafAttrs Normal KernelReadWrite InnerShareable ExecNone.

Definition BLOCK_1GB : Z := Z.shiftl 1 30.
Definition BLOCK_2MB : Z := Z.shiftl 2 20.

(** The linker's section bounds. *)
Record KernelSymbols := mkSymbols {
  text_start : Z; text_end : Z;
  rodata_start : Z; rodata_end : Z;
  data_start : Z; data_end : Z;
  bss_start : Z; bss_end : Z;
  stack_bottom : Z; stack_top : Z;
}.

Section kernel_map.
Context {P : Profile} {A : Type} `{FrameAllocator A}.

(** One turn of [map_section]. *)
Definition map_section_step (root : Z) (attrs : LeafAttrs) (s : Z * (A * mem)) : outcome (Z * (A * mem)) :=
  let '(va, st) := s in
  let! pa := image_va_to_pa va in
  let! st := PageTable_map root va pa L3 attrs st in
  let! va := uadd 64 va PAGE_SIZE in
  Ok (va, st).

Definition map_section (root va_start va_end : Z) (attrs : LeafAttrs) (st : A * mem) : outcome (A * mem) :=
  let! '(_, st) :=
    while (Z.to_nat (div_ceil (va_end - va_start) PAGE_SIZE)) (fun s => s.1 <? va_end)
      (map_section_step root attrs) (va_start, st) in
  Ok st.

(** The block [map_region] takes next. *)
Definition pick_block (pa remaining : Z) : outcome (Z * Level) :=
  if (pa mod BLOCK_1GB =? 0) && (BLOCK_1GB <=? remaining) then Ok (BLOCK_1GB, L1)
  else if (pa mod BLOCK_2MB =? 0) && (BLOCK_2MB <=? remaining) then Ok (BLOCK_2MB, L2)
  else Panic ExplicitPanic.

Definition map_region_step (root lim : Z) (attrs : LeafAttrs) (s : Z * (A * mem))
  : outcome (Z * (A * mem)) :=
  let '(pa, st) := s in
  let! remaining := usub 64 lim pa in
  let! '(block_size, level) := pick_block pa remaining in
  let! va := pa_to_linear_va pa in
  let! st := PageTable_map root va pa level attrs st in
  let! pa := uadd 64 pa block_size in
  Ok (pa, st).

Definition map_region (root base size : Z) (attrs : LeafAttrs) (st : A * mem) : outcome (A * mem) :=
  let! lim := uadd 64 base size in
  let! '(_, st) :=
    while (Z.to_nat (div_ceil size BLOCK_2MB)) (fun s => s.1 <? lim)
      (map_region_step root lim attrs) (base, st) in
  Ok st.

(** The memory nodes with a size, in order: [ram::for_each_region]. *)
Definition build_linear (root : Z) (ram : list (Z * Z)) (st : A * mem) : outcome (A * mem) :=
  foldM (fun st r => map_region root r.1 r.2 LINEAR_RAM st) ram st.

Definition build_image (root : Z) (k : KernelSymbols) (st : A * mem) : outcome (A * mem) :=
  let! st := map_section root (text_start k) (text_end k) TEXT_ATTRS st in
  let! st := map_section root (rodata_start k) (rodata_end k) RODATA_ATTRS st in
  let! st := map_section root (data_start k) (data_end k) DATA_ATTRS st in
  let! st := map_section root (bss_start k) (bss_end k) BSS_ATTRS st in
  map_section root (stack_bottom k) (stack_top k) STACK_ATTRS st.

Definition build_device (root : Z) (st : A * mem) : outcome (A * mem) :=
  let! device_va := pa_to_device_va UART_PA in
  PageTable_map root device_va UART_PA L3 DEVICE_ATTRS st.

Definition build (ram : list (Z * Z)) (k : KernelSymbols) (st : A * mem) : outcome (Z * (A * mem)) :=
  let! '((root_pa, al), m) := alloc_page st.1 st.2 in
  let! root := PageTable_from_phys root_pa in
  let! st := build_linear root ram (al, m) in
  let! st := build_image root k st in
  let! st := build_device root st in
  Ok (root_pa, st).
End kernel_map.

(* ------------------------------------------------------------------------- *)
(** ** Ranges of the upper half *)

(** Upper-half addresses, where bits [63:48] are ones. *)
Definition UPPER : Z := 2 ^ 64 - 2 ^ 48.
Definition upper (va : Z) : Prop := UPPER <= va < 2 ^ 64.

Lemma upper_mod va : upper va -> va mod 2 ^ 48 = va - UPPER.
Proof. unfold upper, UPPER. intros. divmod. Qed.

(** The region of an aligned upper-half address is a range of addresses. *)
Lemma region_range l va x :
  upper va -> upper x -> (2 ^ Level_index_shift l | va) ->
  region l x = region l va <-> va <= x < va + 2 ^ Level_index_shift l.
Proof.
  intros Hva Hx [k Hk]. unfold region. rewrite !upper_mod by done. unfold upper, UPPER in *.
  destruct l; cbn [Level_index_shift] in *; split; intros; divmod.
Qed.

Lemma region_offset l va x :
  upper va -> upper x -> (2 ^ Level_index_shift l | va) -> va <= x < va + 2 ^ Level_index_shift l ->
  x mod 2 ^ Level_index_shift l = x - va.
Proof.
  intros Hva Hx [k Hk] Hr. unfold upper, UPPER in *. destruct l; cbn [Level_index_shift] in *; divmod.
Qed.

(** [x] translates with the attributes [at]. *)
Definition has_attrs (m : mem) (root x : Z) (attrs : LeafAttrs) : Prop :=
  exists e l pa, leaf_of m root x = Some (e, l) /\ map_leaf pa l attrs = Ok e.

(** [lo, hi) is mapped at the constant distance [off] from its addresses; the rest
    of the upper half translates as before. *)
Record range_mapped (m m' : mem) (root lo hi off : Z) (attrs : LeafAttrs) : Prop := {
  rm_in : forall x, upper x -> lo <= x < hi ->
    translate m' root x = Some (x - off) /\ has_attrs m' root x attrs;
  rm_out : forall x, upper x -> ~ lo <= x < hi -> leaf_of m' root x = leaf_of m root x;
}.

Lemma leaf_same_translate m m' root x :
  leaf_of m' root x = leaf_of m root x -> translate m' root x = translate m root x.
Proof. unfold translate. by intros ->. Qed.

Lemma range_mapped_refl m root lo off attrs : range_mapped m m root lo lo off attrs.
Proof. constructor; [lia|done]. Qed.

Lemma range_mapped_trans m1 m2 m3 root lo mid hi off attrs :
  lo <= mid <= hi -> range_mapped m1 m2 root lo mid off attrs -> range_mapped m2 m3 root mid hi off attrs ->
  range_mapped m1 m3 root lo hi off attrs.
Proof.
  intros Hm [I1 O1] [I2 O2]. constructor.
  - intros x Hx Hr. destruct (Z.lt_ge_cases x mid); [|apply I2; [done|lia]].
    destruct (I1 x Hx ltac:(lia)) as [Ht (e & l & pa & He & Hl)].
    rewrite (leaf_same_translate m2) by (apply O2; [done|lia]). split; [done|].
    exists e, l, pa. split; [|done]. rewrite O2; [done..|lia].
  - intros x Hx Hr. rewrite O2, O1 by (done || lia). done.
Qed.

Section ranges.
Context {P : Profile} {A : Type} `{FrameSource A}.

(** One mapping of an aligned upper-half block is a range. *)
Lemma mapped_range m m' root va pa target attrs :
  mapped m m' root va pa target attrs -> upper va -> (2 ^ Level_index_shift target | va) ->
  range_mapped m m' root va (va + 2 ^ Level_index_shift target) (va - pa) attrs.
Proof.
  intros [(leaf & El & Hleaf) Haddr _ Hother] Hva Hal. constructor.
  - intros x Hx Hr. assert (region target x = region target va) as E by by apply region_range.
    split; [|by exists leaf, target, pa; auto].
    rewrite Haddr, (region_offset target va x) by done. f_equal. lia.
  - intros x Hx Hr. apply Hother. by rewrite region_range.
Qed.

Lemma unmapped_step m t va target l l' :
  Level_next_level l = Ok l' -> hw_walk m t va (levels_from l) = None ->
  Level_supports_block l = true \/
    (Entry_is_valid (m (slot t va l)) = true -> Entry_is_table_or_page (m (slot t va l)) = true) ->
  (forall t', hw_walk m t' va (levels_from l') = None -> path_clear m t' va target (levels_from l')) ->
  path_clear m t va target (levels_from l).
Proof.
  intros Hl. rewrite (hw_walk_level _ _ _ _ _ Hl), (levels_from_next _ _ Hl). cbn [path_clear]. cbv zeta.
  intros Hw Hor IH. case_decide; [done|]. destruct (Entry_is_valid _); [|done]. cbn [negb] in Hw.
  destruct (Entry_is_table_or_page _); [by auto|].
  destruct Hor as [E|E]; [by rewrite E in Hw|by specialize (E eq_refl)].
Qed.

Lemma path_clear_here m t va l : path_clear m t va l (levels_from l).
Proof. destruct l; cbn [levels_from path_clear]; by rewrite decide_True. Qed.

(** Nothing mapped at [va]: no block is in the way. *)
Lemma unmapped_clear m root va target n al :
  ready n root (al, m) -> leaf_of m root va = None -> path_clear m root va target all_levels.
Proof.
  intros (T & U & Tr & _) Hn. cbn [fst snd] in *.
  assert (Entry_is_valid (m (slot root va L0)) = true ->
    Entry_is_table_or_page (m (slot root va L0)) = true) as Htop.
  { unfold slot. apply (tr_top _ _ _ Tr root 0); [apply Tr|apply Level_index_in_range]. }
  destruct target; [by apply (path_clear_here m root va L0)|..].
  all: apply (unmapped_step m root va _ L0 L1 eq_refl Hn (or_intror Htop)); intros t1 H1; try by apply path_clear_here.
  all: apply (unmapped_step m t1 va _ L1 L2 eq_refl H1 (or_introl eq_refl)); intros t2 H2; try by apply path_clear_here.
  apply (unmapped_step m t2 va _ L2 L3 eq_refl H2 (or_introl eq_refl)). intros. by apply path_clear_here.
Qed.

Lemma map_block n root va pa target attrs al m :
  ready (n + missing m root va target all_levels) root (al, m) -> target <> L0 -> page_aligned pa ->
  upper va -> (2 ^ Level_index_shift target | va) -> leaf_of m root va = None ->
  exists al' m', PageTable_map root va pa target attrs (al, m) = Ok (al', m') /\
    range_mapped m m' root va (va + 2 ^ Level_index_shift target) (va - pa) attrs /\
    ready n root (al', m') /\
    (forall x, path target x = path target va -> missing m' root x target all_levels = 0%nat).
Proof.
  intros R Hne Hpa Hva Hal Hn.
  destruct (map_ok n root va pa target attrs al m R Hne Hpa) as (al' & m' & E & M & R');
    [by eapply unmapped_clear|].
  exists al', m'. split_and!; [done| |done|apply M]. by apply mapped_range.
Qed.

Lemma ready_weaken n k root s : (n <= k)%nat -> ready k root s -> ready n root s.
Proof.
  intros Hnk (T & U & Tr & HU & Hfa). exists T, U. split_and!; [done..|]. by eapply fa_weaken.
Qed.

(* ----------------------------------------------------------------------- *)
(** ** Paying for tables *)

(** A loop that maps [pos, lim) in order, at the distance [off], needs new tables
    only when it enters a window of [W] bytes, and then at most [C].  [funded]: there
    are pages for every window still to be entered, and for what is missing in the
    current one. *)
Definition funded (W : Z) (C : nat) (target : Level) (off lim : Z) (n : nat) (root pos : Z) (s : A * mem) : Prop :=
  exists c, ready (n + c + C * Z.to_nat (div_ceil lim W - div_ceil pos W)) root s /\
    ((W | pos) \/ (missing s.2 root (pos + off) target all_levels <= c)%nat).

Definition window_budget (W : Z) (C : nat) (pos lim : Z) : nat :=
  (C + C * Z.to_nat (div_ceil lim W - div_ceil pos W))%nat.

Lemma missing_depth m root x target :
  (missing m root x target all_levels <= Z.to_nat (depth target))%nat.
Proof.
  pose proof (missing_le m root x target L0) as Hm. rewrite Z.sub_0_r in Hm. apply Hm. by destruct target.
Qed.

Lemma funded_start W target off lim n root pos s :
  ready (n + window_budget W (Z.to_nat (depth target)) pos lim) root s ->
  funded W (Z.to_nat (depth target)) target off lim n root pos s.
Proof.
  intros R. exists (Z.to_nat (depth target)). split; [|right; apply missing_depth].
  unfold window_budget in R. by rewrite Nat.add_assoc in R.
Qed.

Lemma div_ceil_window W pos pos' :
  0 < W -> pos < pos' <= (pos / W + 1) * W ->
  div_ceil pos' W = pos / W + 1 /\ (div_ceil pos W = pos / W /\ (W | pos) \/ div_ceil pos W = pos / W + 1).
Proof.
  intros HW Hp. pose proof (Z.mod_pos_bound pos W HW). pose proof (Z.div_mod pos W ltac:(lia)).
  split.
  - pose proof (div_ceil_spec pos' W HW). nia.
  - unfold div_ceil. destruct (Z.eqb_spec (pos mod W) 0); [left|by right].
    split; [done|]. by apply Z.mod_divide; [lia|].
Qed.

(** What the mapping at [pos] may use, and what is left after it. *)
Lemma funded_step W C target off lim n root pos al m need :
  0 < W -> pos < lim -> funded W C target off lim n root pos (al, m) ->
  (need <= C)%nat ->
  ((W | pos) \/ need = missing m root (pos + off) target all_levels) ->
  exists r, ready (r + need) root (al, m) /\
    forall pos' al' m', pos < pos' <= (pos / W + 1) * W -> pos' <= lim -> ready r root (al', m') ->
      ((W | pos') \/ missing m' root (pos' + off) target all_levels = 0%nat) ->
      funded W C target off lim n root pos' (al', m').
Proof.
  intros HW Hlim (c & R & Hc) Hneed Hor. cbn [snd] in *.
  assert (div_ceil pos W <= div_ceil lim W) as Hmono by (apply div_ceil_mono; lia).
  destruct (div_ceil_window W pos ((pos / W + 1) * W) HW) as [_ Hd].
  { pose proof (Z.mod_pos_bound pos W HW). pose proof (Z.div_mod pos W ltac:(lia)). nia. }
  pose proof (Z.mod_pos_bound pos W HW) as Hpm. pose proof (Z.div_mod pos W ltac:(lia)) as Hpd.
  pose proof (div_ceil_spec lim W HW) as Hl.
  assert (pos / W + 1 <= div_ceil lim W) as Hge by nia.
  destruct Hd as [[Ed Hal]|Ed].
  - exists (n + c + C * Z.to_nat (div_ceil lim W - (pos / W + 1)))%nat. split.
    + eapply ready_weaken; [|exact R]. rewrite Ed.
      replace (div_ceil lim W - pos / W) with (1 + (div_ceil lim W - (pos / W + 1))) by lia.
      rewrite Z2Nat.inj_add by lia. change (Z.to_nat 1) with 1%nat. lia.
    + intros pos' al' m' Hp _ R' Hor'. destruct (div_ceil_window W pos pos' HW Hp) as [E' _].
      exists c. rewrite E'. split; [done|]. cbn [snd]. destruct Hor'; [by left|right; lia].
  - assert (~ (W | pos)) as Hnal.
    { intros Hal. apply Z.mod_divide in Hal; [|lia]. unfold div_ceil in Ed. rewrite Hal in Ed. cbn in Ed. lia. }
    destruct Hor as [?|Hneq]; [done|]. destruct Hc as [?|Hc]; [done|].
    exists (n + C * Z.to_nat (div_ceil lim W - (pos / W + 1)))%nat. split.
    + eapply ready_weaken; [|exact R]. rewrite Ed. lia.
    + intros pos' al' m' Hp _ R' Hor'. destruct (div_ceil_window W pos pos' HW Hp) as [E' _].
      exists 0%nat. rewrite E'. cbn [snd]. split; [by rewrite Nat.add_0_r|].
      destruct Hor' as [?|E0]; [by left|right; by rewrite E0].
Qed.

(* ----------------------------------------------------------------------- *)
(** ** [map_region] *)

(** The block taken is aligned, fits, and is at a block level. *)
Lemma pick_block_ok pa remaining :
  0 <= pa -> (BLOCK_2MB | pa) -> BLOCK_2MB <= remaining ->
  exists size l, pick_block pa remaining = Ok (size, l) /\ size = 2 ^ Level_index_shift l /\
    l <> L0 /\ (size | pa) /\ (BLOCK_2MB | size) /\ BLOCK_2MB <= size <= remaining.
Proof.
  intros Hpa Hd Hr. unfold pick_block. destruct (_ && _) eqn:E.
  - apply andb_true_iff in E as [E1%Z.eqb_eq E2%Z.leb_le]. exists BLOCK_1GB, L1.
    split_and!; [done..|by apply Z.mod_divide|by exists 512|done|done].
  - apply Z.mod_divide in Hd; [|done]. rewrite Hd. destruct (Z.leb_spec BLOCK_2MB remaining); [|lia].
    exists BLOCK_2MB, L2. split_and!; [done..|by apply Z.mod_divide|by exists 1|done|done].
Qed.

(** [map_region]'s windows: one level-2 table, and the level-1 table above, for
    each GiB entered. *)
Definition region_funded (lim : Z) := funded BLOCK_1GB 2 L2 KERNEL_LINEAR_BASE lim.
Definition region_budget (base size : Z) : nat := window_budget BLOCK_1GB 2 base (base + size).

(** Invariant of [map_region]'s loop from [base] to [lim], from the memory [m0]. *)
Record region_inv (m0 : mem) (root base lim : Z) (n : nat) (s : Z * (A * mem)) attrs : Prop := {
  ri_pa : base <= s.1 <= lim;
  ri_align : (BLOCK_2MB | s.1);
  ri_map : range_mapped m0 s.2.2 root (base + KERNEL_LINEAR_BASE) (s.1 + KERNEL_LINEAR_BASE)
    KERNEL_LINEAR_BASE attrs;
  ri_ready : region_funded lim n root s.1 s.2;
}.

Lemma linear_upper pa : 0 <= pa < LINEAR_SPAN -> upper (pa + KERNEL_LINEAR_BASE).
Proof. unfold upper, UPPER. unfold_layout. lia. Qed.

(** Linear addresses of one GiB share their level-2 table. *)
Lemma linear_path pa pa' :
  0 <= pa < LINEAR_SPAN -> 0 <= pa' < LINEAR_SPAN -> pa' / BLOCK_1GB = pa / BLOCK_1GB ->
  path L2 (pa' + KERNEL_LINEAR_BASE) = path L2 (pa + KERNEL_LINEAR_BASE).
Proof.
  intros Hp Hp' E. unfold path. rewrite !upper_mod by by apply linear_upper.
  cbn [Level_index_shift]. change (21 + 9) with 30. unfold UPPER, BLOCK_1GB in *.
  change (Z.shiftl 1 30) with (2 ^ 30) in E. unfold_layout. divmod.
Qed.

(** What is missing on the way to the block taken is within a window's share. *)
Lemma pick_block_need m root pa remaining size l :
  pick_block pa remaining = Ok (size, l) ->
  (missing m root (pa + KERNEL_LINEAR_BASE) l all_levels <= 2)%nat /\
  ((BLOCK_1GB | pa) /\ size = BLOCK_1GB \/ l = L2 /\ size = BLOCK_2MB).
Proof.
  unfold pick_block. destruct ((pa mod BLOCK_1GB =? 0) && _) eqn:E1;
    [|destruct ((pa mod BLOCK_2MB =? 0) && _)]; intros ?; simplify_eq.
  - pose proof (missing_depth m root (pa + KERNEL_LINEAR_BASE) L1) as Hm.
    change (Z.to_nat (depth L1)) with 1%nat in Hm.
    apply andb_true_iff in E1 as [E1%Z.eqb_eq _]. apply Z.mod_divide in E1; [|done].
    split; [lia|by left].
  - pose proof (missing_depth m root (pa + KERNEL_LINEAR_BASE) L2) as Hm.
    change (Z.to_nat (depth L2)) with 2%nat in Hm.
    split; [lia|by right].
Qed.

Lemma next_2mb_in_window pa : 0 <= pa -> (BLOCK_2MB | pa) -> pa + BLOCK_2MB <= (pa / BLOCK_1GB + 1) * BLOCK_1GB.
Proof.
  intros Hp [k ->]. change BLOCK_1GB with (512 * 2097152). change BLOCK_2MB with 2097152.
  rewrite Z.div_mul_cancel_r by lia. divmod.
Qed.

Lemma region_turn m0 root base lim n pa al m attrs :
  region_inv m0 root base lim n (pa, (al, m)) attrs -> 0 <= base -> lim <= LINEAR_SPAN ->
  BLOCK_2MB <= lim - pa ->
  (forall x, base + KERNEL_LINEAR_BASE <= x < lim + KERNEL_LINEAR_BASE -> leaf_of m0 root x = None) ->
  exists pa' st', map_region_step root lim attrs (pa, (al, m)) = Ok (pa', st') /\ pa + BLOCK_2MB <= pa' /\
    region_inv m0 root base lim n (pa', st') attrs.
Proof.
  intros [Hpa Hal M R] Hb Hlim Hrem Hn. cbn [fst snd] in *. unfold map_region_step.
  assert (0 < BLOCK_2MB) as H2 by done. assert (0 < BLOCK_1GB) as H1 by done.
  assert (LINEAR_SPAN < 2 ^ 47) as Hs47 by reflexivity.
  rewrite usub_ok by lia. cbn [obind].
  destruct (pick_block_ok pa (lim - pa) ltac:(lia) Hal Hrem) as (size & l & Ep & Esz & Hl & Hsd & H2d & Hsz).
  destruct (pick_block_need m root pa (lim - pa) size l Ep) as [Hneed Hor]. rewrite Ep. cbn [obind].
  rewrite pa_to_linear_va_ok by lia. cbn [obind].
  destruct (funded_step BLOCK_1GB 2 L2 KERNEL_LINEAR_BASE lim n root pa al m _ H1 ltac:(lia) R Hneed)
    as (r & Rr & Hnext); [destruct Hor as [[? _]|[-> _]]; [by left|by right]|].
  destruct (map_block r root (pa + KERNEL_LINEAR_BASE) pa l attrs al m Rr Hl) as (al' & m' & -> & M' & R' & Hmiss).
  - split; [lia|]. etrans; [|exact Hal]. by exists 512.
  - apply linear_upper. lia.
  - rewrite <- Esz. apply Z.divide_add_r; [done|]. rewrite Esz.
    exists (KERNEL_LINEAR_BASE / 2 ^ Level_index_shift l). by destruct l.
  - rewrite (rm_out _ _ _ _ _ _ _ M); [apply Hn; lia|apply linear_upper; lia|lia].
  - cbn [obind]. rewrite uadd_ok by lia. cbn [obind]. eexists _, _. split; [done|]. split; [lia|].
    constructor; cbn [fst snd]; [lia|by apply Z.divide_add_r| |].
    + eapply range_mapped_trans; [|exact M|]; [lia|].
      replace (pa + KERNEL_LINEAR_BASE - pa) with KERNEL_LINEAR_BASE in M' by lia.
      by replace (pa + size + KERNEL_LINEAR_BASE) with (pa + KERNEL_LINEAR_BASE + 2 ^ Level_index_shift l) by lia.
    + destruct Hor as [[Hg ->]|[-> ->]].
      * apply Hnext; [|lia|done|left; apply Z.divide_add_r; [done|by exists 1]].
        destruct Hg as [k ->]. rewrite Z.div_mul by lia. lia.
      * pose proof (next_2mb_in_window pa ltac:(lia) Hal). apply Hnext; [lia|lia|done|].
        destruct (Z.eq_dec ((pa + BLOCK_2MB) / BLOCK_1GB) (pa / BLOCK_1GB)) as [E|E].
        -- destruct (Z.eq_dec (pa + BLOCK_2MB) LINEAR_SPAN) as [->|]; [left; by exists (2 ^ 16)|].
           right. apply Hmiss, linear_path; [lia..|done].
        -- left. exists (pa / BLOCK_1GB + 1). pose proof (Z.div_lt_upper_bound (pa + BLOCK_2MB) BLOCK_1GB (pa / BLOCK_1GB + 1) H1).
           pose proof (Z.div_le_mono pa (pa + BLOCK_2MB) BLOCK_1GB H1 ltac:(lia)). lia.
Qed.

Lemma region_start m0 root base lim n al attrs :
  base <= lim -> (BLOCK_2MB | base) -> ready (n + window_budget BLOCK_1GB 2 base lim) root (al, m0) ->
  region_inv m0 root base lim n (base, (al, m0)) attrs.
Proof.
  intros. constructor; cbn [fst snd]; [lia|done|apply range_mapped_refl|].
  by apply (funded_start BLOCK_1GB L2).
Qed.

Lemma map_region_ok n root base size attrs al m :
  0 <= base -> 0 <= size -> base + size <= LINEAR_SPAN -> (BLOCK_2MB | base) -> (BLOCK_2MB | size) ->
  ready (n + region_budget base size) root (al, m) ->
  (forall x, base + KERNEL_LINEAR_BASE <= x < base + size + KERNEL_LINEAR_BASE -> leaf_of m root x = None) ->
  exists al' m', map_region root base size attrs (al, m) = Ok (al', m') /\
    range_mapped m m' root (base + KERNEL_LINEAR_BASE) (base + size + KERNEL_LINEAR_BASE)
      KERNEL_LINEAR_BASE attrs /\ ready n root (al', m').
Proof.
  intros Hb Hs Hlim Hba Hsa R Hn. unfold map_region.
  rewrite uadd_ok by (unfold_layout; lia). cbn [obind].
  assert (0 < BLOCK_2MB) as H2 by done.
  destruct (while_rule (fun s => region_inv m root base (base + size) n s attrs)
    (fun s => div_ceil (base + size - s.1) BLOCK_2MB) (fun s => s.1 <? base + size)
    (map_region_step root (base + size) attrs)) with
    (fuel := Z.to_nat (div_ceil size BLOCK_2MB)) (s := (base, (al, m)))
    as ([pa [al' m']] & -> & I & Hc).
  - intros [pa [al1 m1]] I Hlt%Z.ltb_lt. pose proof I as [Hpa Hal _ _]. cbn [fst snd] in *.
    assert (BLOCK_2MB <= base + size - pa) as Hrem.
    { assert ((BLOCK_2MB | base + size - pa)) as Hd
        by (apply Z.divide_sub_r; [by apply Z.divide_add_r|done]).
      apply Z.divide_pos_le; [lia|done]. }
    destruct (region_turn m root base (base + size) n pa al1 m1 attrs I Hb Hlim Hrem Hn)
      as (pa' & st' & E & Hpa' & I').
    exists (pa', st'). split_and!; [done..| |]; cbn [fst].
    + apply div_ceil_nonneg; [done|]. pose proof (ri_pa _ _ _ _ _ _ _ I'). cbn in *. lia.
    + pose proof (div_ceil_mono (base + size - pa') (base + size - pa - BLOCK_2MB) BLOCK_2MB H2 ltac:(lia)) as Hm.
      rewrite div_ceil_sub in Hm by done. lia.
  - by apply region_start; [lia|..].
  - cbn [fst]. replace (base + size - base) with size by lia. lia.
  - cbn [obind fst snd] in *. apply Z.ltb_ge in Hc. destruct I as [Hpa _ M R']. cbn [fst snd] in *.
    assert (pa = base + size) as -> by lia. exists al', m'. split_and!; [done..|].
    destruct R' as (c & R' & _). eapply ready_weaken; [|exact R']. lia.
Qed.

(** A region that is not made of 2 MiB blocks stops at its tail. *)
Lemma map_region_unaligned n root base size attrs al m :
  0 <= base -> 0 < size -> base + size <= LINEAR_SPAN -> ~ ((BLOCK_2MB | base) /\ (BLOCK_2MB | size)) ->
  ready (n + region_budget base size) root (al, m) ->
  (forall x, base + KERNEL_LINEAR_BASE <= x < base + size + KERNEL_LINEAR_BASE -> leaf_of m root x = None) ->
  map_region root base size attrs (al, m) = Panic ExplicitPanic.
Proof.
  intros Hb Hs Hlim Hnd R Hn. unfold map_region. rewrite uadd_ok by (unfold_layout; lia). cbn [obind].
  assert (0 < BLOCK_2MB) as H2 by done. assert ((BLOCK_1GB | base) -> (BLOCK_2MB | base)) as Hdiv.
  { intros. etrans; [|done]. by exists 512. }
  assert (forall st, ~ (BLOCK_2MB | base) -> map_region_step root (base + size) attrs (base, st) = Panic ExplicitPanic) as Hbad.
  { intros st Hnb. unfold map_region_step. rewrite usub_ok by (unfold_layout; lia). cbn [obind].
    unfold pick_block. destruct (Z.eqb_spec (base mod BLOCK_1GB) 0) as [E|_]; cbn [andb].
    { apply Z.mod_divide in E; [|done]. by destruct Hnb; apply Hdiv. }
    destruct (Z.eqb_spec (base mod BLOCK_2MB) 0) as [E|_]; [|done].
    by apply Z.mod_divide in E. }
  rewrite (while_panics (fun s => s = (base, (al, m)) \/
      ((BLOCK_2MB | base) /\ region_inv m root base (base + size) n s attrs))
    (fun s => div_ceil (base + size - s.1) BLOCK_2MB) _ _ ExplicitPanic); [done| |by left|].
  2: { cbn [fst]. replace (base + size - base) with size by lia.
       pose proof (div_ceil_nonneg size BLOCK_2MB H2). lia. }
  intros s Hor. assert ((BLOCK_2MB | base) \/ ~ (BLOCK_2MB | base)) as [Hba|Hnb]
    by (rewrite <- (Z.mod_divide base BLOCK_2MB) by done; lia).
  2: { destruct Hor as [->|[? _]]; [|done]. split_and!; [cbn; lia| |left; by apply Hbad].
       cbn [fst]. pose proof (div_ceil_spec (base + size - base) BLOCK_2MB H2). nia. }
  assert (region_inv m root base (base + size) n s attrs) as I.
  { destruct Hor as [->|[_ ?]]; [|done]. by apply region_start; [lia|..]. }
  destruct s as [pa [al1 m1]]. pose proof I as [Hpa Hal _ _]. cbn [fst snd] in *.
  assert (~ (BLOCK_2MB | size)) as Hns by tauto. assert (pa <> base + size) as Hne.
  { intros ->. apply Hns. replace size with (base + size - base) by lia. by apply Z.divide_sub_r. }
  pose proof (div_ceil_spec (base + size - pa) BLOCK_2MB H2) as Hdc.
  split_and!; [lia|nia|]. destruct (Z.le_gt_cases BLOCK_2MB (base + size - pa)) as [Hrem|Htail].
  - right. destruct (region_turn m root base (base + size) n pa al1 m1 attrs I Hb Hlim Hrem Hn)
      as (pa' & st' & E & Hpa' & I'). exists (pa', st'). split_and!; [done|by right|]. cbn [fst].
    pose proof (div_ceil_mono (base + size - pa') (base + size - pa - BLOCK_2MB) BLOCK_2MB H2 ltac:(lia)) as Hm.
    rewrite div_ceil_sub in Hm by done. lia.
  - left. unfold map_region_step. rewrite usub_ok by (unfold_layout; lia). cbn [obind]. unfold pick_block.
    destruct (Z.leb_spec BLOCK_1GB (base + size - pa)) as [?|_].
    { assert (BLOCK_2MB <= BLOCK_1GB) by done. lia. }
    rewrite andb_false_r. destruct (Z.leb_spec BLOCK_2MB (base + size - pa)); [lia|].
    by rewrite andb_false_r.
Qed.

(* ----------------------------------------------------------------------- *)
(** ** [map_section] *)

(** The end of the last page of a section. *)
Definition section_end (lo hi : Z) : Z := lo + div_ceil (hi - lo) PAGE_SIZE * PAGE_SIZE.

(** Distance between an image address and its physical one. *)
Definition IMAGE_OFF : Z := KERNEL_IMAGE_BASE - IMAGE_PA_BASE.

(** [map_section]'s windows: a level-3 table, and those above, for each 2 MiB entered. *)
Definition section_funded (lim : Z) := funded BLOCK_2MB 3 L3 0 lim.
Definition section_budget (lo hi : Z) : nat := window_budget BLOCK_2MB 3 lo (section_end lo hi).

Lemma image_upper va : KERNEL_IMAGE_BASE <= va < 2 ^ 64 -> upper va.
Proof. unfold upper, UPPER. unfold_layout. lia. Qed.

(** Image addresses of one 2 MiB window share their level-3 table. *)
Lemma image_path va va' :
  upper va -> upper va' -> va' / BLOCK_2MB = va / BLOCK_2MB -> path L3 va' = path L3 va.
Proof.
  intros Hva Hva' E. unfold path. rewrite !upper_mod by done. cbn [Level_index_shift].
  change (12 + 9) with 21. change BLOCK_2MB with (2 ^ 21) in E. unfold upper, UPPER in *. divmod.
Qed.

Lemma image_pa_aligned va :
  KERNEL_IMAGE_BASE <= va < 2 ^ 64 -> (PAGE_SIZE | va) -> page_aligned (va - KERNEL_IMAGE_BASE + IMAGE_PA_BASE).
Proof.
  intros Hva [j ->]. split; [unfold_layout; lia|].
  exists (j - 0xFFFFFFFF80000 + 0x40000). unfold_layout. lia.
Qed.

(** Invariant of [map_section]'s loop from [lo] to [lim], from the memory [m0]. *)
Record section_inv (m0 : mem) (root lo lim : Z) (n : nat) (s : Z * (A * mem)) attrs : Prop := {
  si_va : lo <= s.1 <= lim;
  si_align : (PAGE_SIZE | s.1);
  si_map : range_mapped m0 s.2.2 root lo s.1 IMAGE_OFF attrs;
  si_ready : section_funded lim n root s.1 s.2;
}.

Lemma section_turn m0 root lo lim n va al m attrs :
  section_inv m0 root lo lim n (va, (al, m)) attrs -> KERNEL_IMAGE_BASE <= lo -> lim < 2 ^ 64 ->
  (PAGE_SIZE | lim) -> va < lim ->
  (forall x, lo <= x < lim -> leaf_of m0 root x = None) ->
  exists st', map_section_step root attrs (va, (al, m)) = Ok (va + PAGE_SIZE, st') /\
    section_inv m0 root lo lim n (va + PAGE_SIZE, st') attrs.
Proof.
  intros [Hva Hal M R] Hlo Hlim Hlal Hlt Hn. cbn [fst snd] in *.
  assert (va + PAGE_SIZE <= lim) as Hnext.
  { destruct Hal as [k Ek], Hlal as [j Ej]. unfold PAGE_SIZE in *. lia. }
  pose proof (missing_depth m root (va + 0) L3) as Hneed. change (Z.to_nat (depth L3)) with 3%nat in Hneed.
  destruct (funded_step BLOCK_2MB 3 L3 0 lim n root va al m _ ltac:(done) Hlt R Hneed)
    as (r & Rr & Hfund); [by right|].
  rewrite Z.add_0_r in Rr. unfold map_section_step. rewrite image_va_to_pa_ok by lia. cbn [obind].
  destruct (map_block r root va (va - KERNEL_IMAGE_BASE + IMAGE_PA_BASE) L3 attrs al m Rr)
    as (al2 & m2 & -> & M2 & R2 & Hmiss);
    [done|apply image_pa_aligned; [lia|done]|apply image_upper; lia|done| |].
  { rewrite (rm_out _ _ _ _ _ _ _ M); [apply Hn; lia|apply image_upper; lia|lia]. }
  cbn [obind]. assert (PAGE_SIZE = 4096) as Hps by done.
  rewrite uadd_ok by (unfold KERNEL_IMAGE_BASE in *; lia). cbn [obind].
  change (2 ^ Level_index_shift L3) with PAGE_SIZE in M2.
  replace (va - (va - KERNEL_IMAGE_BASE + IMAGE_PA_BASE)) with IMAGE_OFF in M2 by (unfold IMAGE_OFF; lia).
  eexists. split; [done|]. constructor; cbn [fst snd].
  - lia.
  - apply Z.divide_add_r; [done|]. by exists 1.
  - eapply range_mapped_trans; [|exact M|exact M2]. lia.
  - apply Hfund; [|done|done|].
    { destruct Hal as [k ->]. change BLOCK_2MB with (512 * 4096). rewrite Hps.
      rewrite Z.div_mul_cancel_r by lia. divmod. }
    rewrite Z.add_0_r. destruct (Z.eq_dec ((va + PAGE_SIZE) / BLOCK_2MB) (va / BLOCK_2MB)) as [E|E].
    + right. apply Hmiss, image_path; [apply image_upper; lia..|done].
    + left. exists (va / BLOCK_2MB + 1). change BLOCK_2MB with (512 * 4096) in *. rewrite Hps in *.
      destruct Hal as [k ->]. divmod.
Qed.

Lemma map_section_ok n root lo hi attrs al m :
  KERNEL_IMAGE_BASE <= lo -> lo <= hi -> section_end lo hi < 2 ^ 64 -> (PAGE_SIZE | lo) ->
  ready (n + section_budget lo hi) root (al, m) ->
  (forall x, lo <= x < section_end lo hi -> leaf_of m root x = None) ->
  exists al' m', map_section root lo hi attrs (al, m) = Ok (al', m') /\
    range_mapped m m' root lo (section_end lo hi) IMAGE_OFF attrs /\ ready n root (al', m').
Proof.
  intros Hlo Hhi Hend Hal R Hn. unfold map_section, section_budget in *.
  assert (0 < PAGE_SIZE) as Hps by done. pose proof (div_ceil_spec (hi - lo) PAGE_SIZE Hps) as Hdc.
  assert (hi <= section_end lo hi < hi + PAGE_SIZE) as Hse by (unfold section_end; lia).
  assert ((PAGE_SIZE | section_end lo hi)) as Hseal.
  { unfold section_end. apply Z.divide_add_r; [done|apply Z.divide_factor_r]. }
  destruct (while_rule (fun s => section_inv m root lo (section_end lo hi) n s attrs)
    (fun s => div_ceil (hi - s.1) PAGE_SIZE) (fun s => s.1 <? hi) (map_section_step root attrs))
    with (fuel := Z.to_nat (div_ceil (hi - lo) PAGE_SIZE)) (s := (lo, (al, m)))
    as ([va [al' m']] & -> & [Hva Hva2 M R'] & Hc).
  - intros [va [al1 m1]] I Hlt%Z.ltb_lt. cbn [fst snd] in *.
    destruct (section_turn m root lo (section_end lo hi) n va al1 m1 attrs I) as (st' & E & I');
      [done..|lia|done|].
    eexists. split_and!; [exact E|exact I'|..]; cbn [fst];
      replace (hi - (va + PAGE_SIZE)) with (hi - va - PAGE_SIZE) by lia; rewrite div_ceil_sub by done; [|lia].
    pose proof (div_ceil_spec (hi - va) PAGE_SIZE Hps). nia.
  - constructor; cbn [fst snd]; [lia|done|apply range_mapped_refl|]. by apply (funded_start BLOCK_2MB L3).
  - cbn [fst]. pose proof (div_ceil_nonneg (hi - lo) PAGE_SIZE Hps ltac:(lia)). lia.
  - cbn [obind fst snd] in *. apply Z.ltb_ge in Hc.
    assert (va = section_end lo hi) as ->.
    { destruct Hva2 as [k ->], Hseal as [j Ej]. rewrite Ej in *. unfold PAGE_SIZE in *. lia. }
    exists al', m'. split_and!; [done..|]. destruct R' as (c & R' & _). eapply ready_weaken; [|exact R']. lia.
Qed.

(** The UART page. *)
Lemma build_device_ok n root al m :
  ready (n + 3) root (al, m) -> leaf_of m root (UART_PA + KERNEL_DEVICE_BASE) = None ->
  exists al' m', build_device root (al, m) = Ok (al', m') /\
    range_mapped m m' root (UART_PA + KERNEL_DEVICE_BASE) (UART_PA + KERNEL_DEVICE_BASE + PAGE_SIZE)
      KERNEL_DEVICE_BASE DEVICE_ATTRS /\ ready n root (al', m').
Proof.
  intros R Hn. unfold build_device. rewrite pa_to_device_va_ok by done. cbn [obind].
  destruct (map_block n root (UART_PA + KERNEL_DEVICE_BASE) UART_PA L3 DEVICE_ATTRS al m)
    as (al' & m' & -> & M & R' & _); [|done|split; [done|by exists 0x9000]|done| |done|].
  - eapply ready_weaken; [|exact R].
    pose proof (missing_depth m root (UART_PA + KERNEL_DEVICE_BASE) L3) as Hm.
    change (Z.to_nat (depth L3)) with 3%nat in Hm. lia.
  - exists ((UART_PA + KERNEL_DEVICE_BASE) / 4096). reflexivity.
  - exists al', m'. split_and!; [done| |done]. done.
Qed.

(* ----------------------------------------------------------------------- *)
(** ** The plan of an address space *)

(** Ranges mapped so far, with nothing else mapped in the upper half. *)
Record plan_entry := mkPlan { pl_lo : Z; pl_hi : Z; pl_off : Z; pl_attrs : LeafAttrs }.

Definition in_plan (e : plan_entry) (x : Z) : Prop := pl_lo e <= x < pl_hi e.

Definition follows_plan (m : mem) (root : Z) (es : list plan_entry) : Prop :=
  (forall e x, e ∈ es -> upper x -> in_plan e x ->
     translate m root x = Some (x - pl_off e) /\ has_attrs m root x (pl_attrs e)) /\
  (forall x, upper x -> (forall e, e ∈ es -> ~ in_plan e x) -> leaf_of m root x = None).

Lemma plan_extend m m' root es lo hi off attrs :
  follows_plan m root es -> range_mapped m m' root lo hi off attrs ->
  (forall e x, e ∈ es -> in_plan e x -> ~ lo <= x < hi) ->
  follows_plan m' root (mkPlan lo hi off attrs :: es).
Proof.
  intros [Hin Hout] [Min Mout] Hd. split.
  - intros e x [->|He]%elem_of_cons Hx Hex; [by apply Min|].
    assert (leaf_of m' root x = leaf_of m root x) as E by (apply Mout; [done|by eapply Hd]).
    destruct (Hin e x He Hx Hex) as [Ht (en & l & pa & Hl & Ha)].
    rewrite (leaf_same_translate m) by done. split; [done|]. exists en, l, pa. by rewrite E.
  - intros x Hx Hn. rewrite Mout; [apply Hout; [done|]|done|].
    + intros e He. apply Hn. by right.
    + apply (Hn (mkPlan lo hi off attrs)). by left.
Qed.

Lemma follows_plan_frame m m' root es :
  (forall x, leaf_of m' root x = leaf_of m root x) -> follows_plan m root es -> follows_plan m' root es.
Proof.
  intros E [Hin Hout]. split.
  - intros e x He Hx Hex. destruct (Hin e x He Hx Hex) as [Ht (en & l & pa & Hl & Ha)].
    rewrite (leaf_same_translate m) by done. split; [done|]. exists en, l, pa. by rewrite E.
  - intros x Hx Hn. rewrite E. by apply Hout.
Qed.

Lemma plan_free m root es lo hi :
  follows_plan m root es -> (forall e x, e ∈ es -> in_plan e x -> ~ lo <= x < hi) ->
  forall x, upper x -> lo <= x < hi -> leaf_of m root x = None.
Proof. intros [_ Hout] Hd x Hx Hr. apply Hout; [done|]. intros e He Hex. by eapply Hd. Qed.

(* ----------------------------------------------------------------------- *)
(** ** [build] *)

Definition region_good (r : Z * Z) : Prop :=
  0 <= r.1 /\ 0 <= r.2 /\ r.1 + r.2 <= LINEAR_SPAN /\ (BLOCK_2MB | r.1) /\ (BLOCK_2MB | r.2).
Definition regions_disjoint (r o : Z * Z) : Prop := r.1 + r.2 <= o.1 \/ o.1 + o.2 <= r.1.

Definition linear_entry (r : Z * Z) : plan_entry :=
  mkPlan (r.1 + KERNEL_LINEAR_BASE) (r.1 + r.2 + KERNEL_LINEAR_BASE) KERNEL_LINEAR_BASE LINEAR_RAM.

(** Pages the loops may need. *)
Definition linear_budget (ram : list (Z * Z)) : nat :=
  foldr (fun r acc => region_budget r.1 r.2 + acc)%nat 0%nat ram.

Lemma build_linear_ok n root ram seen al m :
  Forall region_good ram -> StronglySorted regions_disjoint (seen ++ ram) ->
  follows_plan m root (rev (map linear_entry seen)) ->
  ready (n + linear_budget ram) root (al, m) ->
  exists al' m', build_linear root ram (al, m) = Ok (al', m') /\
    follows_plan m' root (rev (map linear_entry (seen ++ ram))) /\ ready n root (al', m').
Proof.
  revert seen al m. induction ram as [|[b sz] ram IH]; intros seen al m Hg Hs Hp R.
  - exists al, m. rewrite app_nil_r. cbn in R. rewrite Nat.add_0_r in R. by split_and!.
  - apply list.Forall_cons in Hg as [(Hb & Hsz & Hlim & Hba & Hsa) Hg]. cbn [fst snd] in *.
    assert (forall e x, e ∈ rev (map linear_entry seen) -> in_plan e x ->
      ~ b + KERNEL_LINEAR_BASE <= x < b + sz + KERNEL_LINEAR_BASE) as Hd.
    { intros e x He Hex.
      assert (exists r, e = linear_entry r /\ r ∈ seen) as (r & -> & Hr).
      { apply list_elem_of_In, in_rev, in_map_iff in He as (r & <- & Hr). exists r.
        by rewrite list_elem_of_In. }
      assert (regions_disjoint r (b, sz)) as Hrd
        by (eapply StronglySorted_app_1_elem_of; [exact Hs|done|by left]).
      unfold in_plan, linear_entry, regions_disjoint in *. cbn in *. lia. }
    unfold build_linear. cbn [foldM fst snd].
    destruct (map_region_ok (n + linear_budget ram) root b sz LINEAR_RAM al m) as (al1 & m1 & -> & M1 & R1);
      [done..| | |].
    + eapply ready_weaken; [|exact R].
      change (linear_budget ((b, sz) :: ram)) with
        (region_budget b sz + linear_budget ram)%nat. lia.
    + intros x Hx. eapply plan_free; [exact Hp|exact Hd| |exact Hx].
      unfold upper, UPPER. unfold_layout. lia.
    + cbn [obind]. destruct (IH (seen ++ [(b, sz)]) al1 m1) as (al2 & m2 & E & Hp2 & R2); [done|..|done|].
      * by rewrite <- app_assoc.
      * rewrite map_app, rev_app_distr. cbn. by eapply plan_extend.
      * exists al2, m2. split; [exact E|]. by rewrite <- app_assoc in Hp2.
Qed.

(** *** The image's sections, as a list *)

Definition section : Type := (Z * Z) * LeafAttrs.
Definition image_sections (k : KernelSymbols) : list section :=
  [((text_start k, text_end k), TEXT_ATTRS); ((rodata_start k, rodata_end k), RODATA_ATTRS);
   ((data_start k, data_end k), DATA_ATTRS); ((bss_start k, bss_end k), BSS_ATTRS);
   ((stack_bottom k, stack_top k), STACK_ATTRS)].

Lemma build_image_fold root k st :
  build_image root k st = foldM (fun st s => map_section root s.1.1 s.1.2 s.2 st) (image_sections k) st.
Proof.
  unfold build_image. cbn [foldM image_sections fst snd].
  repeat (destruct (map_section _ _ _ _ _); cbn [obind]; [|done]). done.
Qed.

Definition section_entry (s : section) : plan_entry :=
  mkPlan s.1.1 (section_end s.1.1 s.1.2) IMAGE_OFF s.2.

(** Page-aligned sections in ascending order from [b], below the top. *)
Fixpoint sections_from (b : Z) (ss : list section) : Prop :=
  match ss with
  | [] => True
  | s :: ss =>
      b <= s.1.1 /\ s.1.1 <= s.1.2 /\ (PAGE_SIZE | s.1.1) /\ section_end s.1.1 s.1.2 < 2 ^ 64 /\
      sections_from (section_end s.1.1 s.1.2) ss
  end.

Definition sections_budget (ss : list section) : nat :=
  foldr (fun s acc => section_budget s.1.1 s.1.2 + acc)%nat 0%nat ss.

Lemma section_end_ge lo hi : lo <= hi -> hi <= section_end lo hi.
Proof. intros. unfold section_end. pose proof (div_ceil_spec (hi - lo) PAGE_SIZE ltac:(done)). lia. Qed.

Lemma map_sections_ok n root ss b es al m :
  KERNEL_IMAGE_BASE <= b -> sections_from b ss -> (forall e, e ∈ es -> pl_hi e <= b) ->
  follows_plan m root es -> ready (n + sections_budget ss) root (al, m) ->
  exists al' m',
    foldM (fun st s => map_section root s.1.1 s.1.2 s.2 st) ss (al, m) = Ok (al', m') /\
    follows_plan m' root (rev (map section_entry ss) ++ es) /\ ready n root (al', m').
Proof.
  revert b es al m. induction ss as [|[[lo hi] attrs] ss IH]; intros b es al m Hb Hss Hes Hp R.
  - exists al, m. cbn in R. rewrite Nat.add_0_r in R. by split_and!.
  - destruct Hss as (Hlo & Hhi & Hal & Hend & Hss). cbn [fst snd] in *.
    pose proof (section_end_ge _ _ Hhi).
    assert (forall e x, e ∈ es -> in_plan e x -> ~ lo <= x < section_end lo hi) as Hd.
    { intros e x He Hex. specialize (Hes e He). unfold in_plan in Hex. lia. }
    cbn [foldM fst snd].
    destruct (map_section_ok (n + sections_budget ss) root lo hi attrs al m) as (al1 & m1 & -> & M1 & R1);
      [lia|lia|lia|done| | |].
    + eapply ready_weaken; [|exact R]. change (sections_budget _) with
        (section_budget lo hi + sections_budget ss)%nat at 2. lia.
    + intros x Hx. eapply plan_free; [exact Hp|exact Hd| |exact Hx].
      unfold upper, UPPER. unfold_layout. lia.
    + cbn [obind]. destruct (IH (section_end lo hi) (section_entry ((lo, hi), attrs) :: es) al1 m1)
        as (al2 & m2 & E & Hp2 & R2); [lia|done| |by eapply plan_extend|done|].
      * intros e [->|He]%elem_of_cons; [cbn; lia|]. specialize (Hes e He). lia.
      * exists al2, m2. split_and!; [done| |done]. cbn [map rev]. by rewrite <- app_assoc.
Qed.

(* ----------------------------------------------------------------------- *)
(** *** The whole map *)

Definition device_entry : plan_entry :=
  mkPlan (UART_PA + KERNEL_DEVICE_BASE) (UART_PA + KERNEL_DEVICE_BASE + PAGE_SIZE)
    KERNEL_DEVICE_BASE DEVICE_ATTRS.

(** The address space [build] makes. *)
Definition build_plan (ram : list (Z * Z)) (k : KernelSymbols) : list plan_entry :=
  device_entry :: rev (map section_entry (image_sections k)) ++ rev (map linear_entry ram).

Definition build_budget (ram : list (Z * Z)) (k : KernelSymbols) : nat :=
  (3 + sections_budget (image_sections k) + linear_budget ram)%nat.

Lemma fresh_root n U al m :
  fa_inv (S n) U al m ->
  exists pa al' m', alloc_page al m = Ok (pa, al', m') /\ PageTable_from_phys pa = Ok pa /\
    ready n pa (al', m') /\ follows_plan m' pa [].
Proof.
  intros Hfa. destruct (fa_alloc n U al m Hfa) as (pa & al' & m' & E & Hpo & _ & Hz & _ & Hfa').
  exists pa, al', m'. assert (forall i, 0 <= i < 512 -> m' (pa + 8 * i) = 0) as Hzero.
  { intros i Hi. apply Hz. lia. }
  split_and!; [done|by apply from_phys_ok| |].
  - exists (<[pa := Some (L0, 0)]> (fun _ => None) : tables), (fun p => p = pa \/ U p).
    assert (forall t l p, (<[pa := Some (L0, 0)]> (fun _ => None) : tables) t = Some (l, p) -> t = pa) as Hdom.
    { intros t l p. destruct (decide (t = pa)); [done|]. by rewrite fn_lookup_insert_ne. }
    split_and!; cbn [fst snd]; [|intros t; destruct (decide (t = pa)) as [->|]; [by left|]|done].
    + constructor.
      * apply fn_lookup_insert.
      * intros t l p Ht. by rewrite (Hdom _ _ _ Ht).
      * intros t l p l' i Ht _ Hi. rewrite (Hdom _ _ _ Ht), Hzero by done. intros [=].
      * intros t p i Ht Hi. by rewrite (Hdom _ _ _ Ht), Hzero by done.
    + by rewrite fn_lookup_insert_ne.
  - split; [set_solver|]. intros x _ _. apply (hw_walk_invalid m' pa x L0). unfold slot.
    by rewrite Hzero by apply Level_index_in_range.
Qed.

Lemma in_rev_map {B} (f : B -> plan_entry) l e : e ∈ rev (map f l) -> exists r, e = f r /\ r ∈ l.
Proof.
  intros (r & <- & Hr)%list_elem_of_In%in_rev%in_map_iff. exists r. by rewrite list_elem_of_In.
Qed.

Lemma sections_above b ss e :
  sections_from b ss -> e ∈ rev (map section_entry ss) -> b <= pl_lo e.
Proof.
  intros Hss (s & -> & Hs)%in_rev_map. revert b Hss. induction ss as [|o ss IH]; intros b Hss; [set_solver|].
  destruct Hss as (? & Hle & _ & _ & Hss). pose proof (section_end_ge _ _ Hle).
  apply elem_of_cons in Hs as [->|Hs]; [done|]. specialize (IH Hs _ Hss). lia.
Qed.

(** The plan lies in the upper half. *)
Lemma build_plan_upper ram k e :
  Forall region_good ram -> sections_from KERNEL_IMAGE_BASE (image_sections k) ->
  e ∈ build_plan ram k -> UPPER <= pl_lo e.
Proof.
  intros Hg Hk [->|[He|He]%elem_of_app]%elem_of_cons.
  - vm_compute. discriminate.
  - pose proof (sections_above _ _ _ Hk He). unfold UPPER. unfold_layout. lia.
  - apply in_rev_map in He as (r & -> & Hr). rewrite list.Forall_forall in Hg.
    destruct (Hg r Hr) as (? & ? & ? & _). cbn. unfold UPPER. unfold_layout. lia.
Qed.

Lemma build_ok n U ram k al m :
  Forall region_good ram -> StronglySorted regions_disjoint ram ->
  sections_from KERNEL_IMAGE_BASE (image_sections k) -> fa_inv (S (n + build_budget ram k)) U al m ->
  exists root al' m', build ram k (al, m) = Ok (root, (al', m')) /\
    follows_plan m' root (build_plan ram k) /\ ready n root (al', m').
Proof.
  intros Hg Hs Hk Hfa. unfold build. cbn [fst snd].
  destruct (fresh_root _ U al m Hfa) as (root & al0 & m0 & -> & Er & R0 & P0). cbn [obind].
  rewrite Er. cbn [obind].
  destruct (build_linear_ok (n + 3 + sections_budget (image_sections k)) root ram [] al0 m0)
    as (al1 & m1 & -> & P1 & R1); [done..| |].
  { eapply ready_weaken; [|exact R0]. unfold build_budget. lia. }
  cbn [obind app] in *. rewrite build_image_fold.
  assert (forall e, e ∈ rev (map linear_entry ram) -> pl_hi e <= KERNEL_DEVICE_BASE) as Hlin.
  { intros e (r & -> & Hr)%in_rev_map. rewrite list.Forall_forall in Hg.
    destruct (Hg r Hr) as (? & ? & ? & _). cbn. unfold_layout. lia. }
  destruct (map_sections_ok (n + 3) root (image_sections k) KERNEL_IMAGE_BASE
    (rev (map linear_entry ram)) al1 m1) as (al2 & m2 & -> & P2 & R2); [done|done| |done|done|].
  { intros e He. specialize (Hlin e He). unfold_layout. lia. }
  cbn [obind]. assert (forall e x, e ∈ rev (map section_entry (image_sections k)) ++ rev (map linear_entry ram) ->
    in_plan e x -> ~ UART_PA + KERNEL_DEVICE_BASE <= x < UART_PA + KERNEL_DEVICE_BASE + PAGE_SIZE) as Hd.
  { unfold in_plan. intros e x [He|He]%elem_of_app Hex.
    - pose proof (sections_above _ _ _ Hk He). unfold UART_PA in *. unfold_layout. lia.
    - specialize (Hlin e He). unfold UART_PA in *. unfold_layout. lia. }
  destruct (build_device_ok n root al2 m2 R2) as (al3 & m3 & -> & M3 & R3).
  { eapply plan_free; [exact P2|exact Hd|done|]. unfold PAGE_SIZE. lia. }
  cbn [obind]. exists root, al3, m3. split_and!; [done| |done]. by eapply plan_extend.
Qed.
End ranges.
