(* ===== verification/KernelMapProps.v ===== *)
(** * The kernel's address space: theorems

    The page-table and kernel-map theorems, instantiated by their witnesses with the
    kernel's own page source ([Frame]): the 32-page bump pool of early boot. *)

From stdpp Require Import sorting.
From S2P Require Import Prelude Arch MmuConfig FrameTypes Layout Uart Buddy BuddyInv BuddyGeom BuddyWf BuddyCore BuddyCanon PageTable PageTableProps Frame KernelMap.

(* ------------------------------------------------------------------------- *)
(** ** A fresh machine, for the witnesses *)

(** The witnesses are run in the checked profile. *)
#[local] Instance witness_profile : Profile := release_dev.

(** The pool linked at a page boundary of the image window, nothing taken. *)
Definition boot_frames : FrameState := mkFrameState 0xFFFFFFFF80300000 0 None.
Definition zero_mem : mem := fun _ => 0.

Lemma boot_frames_inv n U :
  (n <= 32)%nat -> (forall p, ~ U p) -> frame_inv n U boot_frames zero_mem.
Proof.
  intros Hn HU. split; [intros p Hp; by destruct (HU p)|]. cbn [BUDDY boot_frames]. constructor.
  - cbn. lia.
  - cbn [NEXT boot_frames]. unfold POOL_PAGES. lia.
  - done.
  - done.
  - by exists 0x40300.
  - intros i _. split; [apply HU|done].
Qed.

(** A kernel of one page per section, at the start of the image window. *)
Definition small_kernel : KernelSymbols :=
  mkSymbols 0xFFFFFFFF80100000 0xFFFFFFFF80101000 0xFFFFFFFF80101000 0xFFFFFFFF80101800
    0xFFFFFFFF80102000 0xFFFFFFFF80102008 0xFFFFFFFF80103000 0xFFFFFFFF80105000
    0xFFFFFFFF80105000 0xFFFFFFFF80109000.

Definition virt_ram : list (Z * Z) := [(0x40000000, 0x8000000)].

Lemma small_kernel_good : sections_from KERNEL_IMAGE_BASE (image_sections small_kernel).
Proof.
  cbn [sections_from image_sections fst snd]. unfold section_end.
  split_and!; try (vm_compute; congruence); try done;
    first [by exists 0xFFFFFFFF80100|by exists 0xFFFFFFFF80101|by exists 0xFFFFFFFF80102
          |by exists 0xFFFFFFFF80103|by exists 0xFFFFFFFF80105].
Qed.

Lemma virt_ram_good : Forall region_good virt_ram /\ StronglySorted regions_disjoint virt_ram.
Proof.
  split; [|by repeat constructor]. constructor; [|constructor]. split_and!; try done.
  - by exists 0x200.
  - by exists 0x40.
Qed.

(** An empty root table in zeroed memory. *)
Lemma empty_root_ready n :
  (n <= 31)%nat -> ready n 0x7000 (boot_frames, zero_mem).
Proof.
  intros Hn. exists (<[0x7000 := Some (L0, 0)]> (fun _ => None)), (fun p => p = 0x7000).
  assert (forall t l p, (<[0x7000 := Some (L0, 0)]> (fun _ => None) : tables) t = Some (l, p) -> t = 0x7000) as Hdom.
  { intros t l p. destruct (decide (t = 0x7000)); [done|]. by rewrite fn_lookup_insert_ne. }
  split_and!; cbn [fst snd].
  - constructor.
    + apply fn_lookup_insert.
    + intros t l p Ht. rewrite (Hdom _ _ _ Ht). split; [done|by exists 7].
    + intros t l p l' i Ht _ Hi. intros [=].
    + intros t p i Ht Hi. intros [=].
  - intros t. destruct (decide (t = 0x7000)) as [->|]; [done|]. by rewrite fn_lookup_insert_ne.
  - split; [intros p ->; by exists 7|]. cbn [BUDDY boot_frames]. constructor.
    + cbn. lia.
    + cbn [NEXT boot_frames]. unfold POOL_PAGES. lia.
    + done.
    + done.
    + by exists 0x40300.
    + intros i Hi. split; [|done]. unfold pool_page, POOL_PAGES in *. cbn in *. unfold_layout. lia.
Qed.

Lemma empty_root_clear va target : path_clear zero_mem 0x7000 va target all_levels.
Proof. apply (path_clear_invalid zero_mem 0x7000 va target L0). reflexivity. Qed.

(* ------------------------------------------------------------------------- *)
(** ** Theorems *)

(** C12: [PageTable::map].  Over any sound table tree, with a page for each table
    that is missing and no block in the way, [map] returns; afterwards exactly the
    target's region (1 GiB, 2 MiB or 4 KiB) translates to [pa] with the requested
    attributes, every other address translates as before, and the tree is sound. *)
Theorem map_correct {P : Profile} {A : Type} `{FrameSource A} n root va pa target attrs al m :
  ready (n + missing m root va target all_levels) root (al, m) -> target <> L0 -> page_aligned pa ->
  path_clear m root va target all_levels ->
  exists al' m', PageTable_map root va pa target attrs (al, m) = Ok (al', m') /\
    mapped m m' root va pa target attrs /\ ready n root (al', m').
Proof. apply map_ok. Qed.

Lemma map_correct_witness :
  exists al' m', PageTable_map (P := release_dev) 0x7000 0xFFFF800040200000 0x40200000 L2 LINEAR_RAM
      (boot_frames, zero_mem) = Ok (al', m') /\
    mapped zero_mem m' 0x7000 0xFFFF800040200000 0x40200000 L2 LINEAR_RAM /\ ready 5 0x7000 (al', m').
Proof.
  apply (map_correct (P := release_dev) 5); [apply empty_root_ready; vm_compute; lia|done| |apply empty_root_clear].
  split; [done|by exists 0x40200].
Defined.

(** C13: [map] never descends through a block: if a valid entry strictly above the
    target's level, on the path of [va], is not a table, or the target is [L0], it panics
    on its assertion.  (What the target's own slot holds is not looked at: a leaf there is
    replaced.) *)
Theorem map_refuses {P : Profile} {A : Type} `{FrameSource A} m root T va pa target attrs al :
  tree m root T -> target = L0 \/ ~ path_clear m root va target all_levels ->
  PageTable_map root va pa target attrs (al, m) = Panic AssertFailed.
Proof. apply map_refuses_ok. Qed.

(** Page 0x7000 as a root whose first entry leads to 0x8000, which has a 1 GiB block. *)
Definition block_mem : mem := <[0x8000 := Z.lor 0x40000000 1]> (<[0x7000 := Entry_table 0x8000]> zero_mem).
Definition block_tables : tables := <[0x8000 := Some (L1, 0)]> (<[0x7000 := Some (L0, 0)]> (fun _ => None)).

Lemma block_mem_tree : tree block_mem 0x7000 block_tables.
Proof.
  assert (forall t l p, block_tables t = Some (l, p) -> (t = 0x7000 /\ l = L0 \/ t = 0x8000 /\ l = L1) /\ p = 0) as Hdom.
  { intros t l p. unfold block_tables. destruct (decide (t = 0x8000)) as [->|]; [rewrite fn_lookup_insert; naive_solver|].
    rewrite fn_lookup_insert_ne by done.
    destruct (decide (t = 0x7000)) as [->|]; [rewrite fn_lookup_insert; naive_solver|by rewrite fn_lookup_insert_ne]. }
  assert (forall t i, block_mem (t + 8 * i) = if decide (t + 8 * i = 0x8000) then Z.lor 0x40000000 1
    else if decide (t + 8 * i = 0x7000) then Entry_table 0x8000 else 0) as Hread.
  { intros t i. unfold block_mem, zero_mem, insert, fn_insert.
    repeat case_decide; congruence. }
  constructor.
  - reflexivity.
  - intros t l p [[[-> _]|[-> _]] _]%Hdom; split; try done; [by exists 7|by exists 8].
  - intros t l p l' i Ht Hl Hi. destruct (Hdom _ _ _ Ht) as [Hor ->]. rewrite Hread.
    repeat case_decide; try done; intros _; destruct Hor as [[-> ->]|[-> ->]]; try lia.
    injection Hl as <-. assert (i = 0) as -> by lia. reflexivity.
  - intros t p i Ht Hi. destruct (Hdom _ _ _ Ht) as [[[-> _]|[_ [=]]] ->]. rewrite Hread.
    repeat case_decide; try done. lia.
Qed.

Lemma map_refuses_witness :
  PageTable_map (P := release_dev) 0x7000 0x1000 0x40200000 L3 LINEAR_RAM (boot_frames, block_mem)
  = Panic AssertFailed.
Proof.
  apply (map_refuses (P := release_dev) block_mem 0x7000 block_tables); [apply block_mem_tree|right].
  vm_compute. intros [_ [[=] _]].
Defined.

(** C11: [build].  With RAM nodes and section bounds the code can take, and enough
    pages in the source, [build] returns, and the tables it made translate the upper
    half exactly as planned: every RAM byte at its linear address, every section at
    its image address with its own permissions, the UART page in the device window,
    and nothing else. *)
Theorem build_correct {P : Profile} {A : Type} `{FrameSource A} n U ram k al m :
  Forall region_good ram -> StronglySorted regions_disjoint ram ->
  sections_from KERNEL_IMAGE_BASE (image_sections k) -> fa_inv (S (n + build_budget ram k)) U al m ->
  exists root al' m', build ram k (al, m) = Ok (root, (al', m')) /\
    follows_plan m' root (build_plan ram k) /\ ready n root (al', m').
Proof. apply build_ok. Qed.

Lemma build_correct_witness :
  exists root al' m', build (P := release_dev) virt_ram small_kernel (boot_frames, zero_mem)
      = Ok (root, (al', m')) /\
    follows_plan m' root (build_plan virt_ram small_kernel) /\ ready 3 root (al', m').
Proof.
  apply (build_correct (P := release_dev) 3 (fun _ => False)); [apply virt_ram_good|apply virt_ram_good
    |apply small_kernel_good|].
  apply boot_frames_inv; [vm_compute; lia|tauto].
Defined.

(** A RAM node that is not made of 2 MiB blocks is never half-described: the
    linear map panics at its tail in every profile. *)
Theorem map_region_refuses_tail {P : Profile} {A : Type} `{FrameSource A} n root base size attrs al m :
  0 <= base -> 0 < size -> base + size <= LINEAR_SPAN -> ~ ((BLOCK_2MB | base) /\ (BLOCK_2MB | size)) ->
  ready (n + region_budget base size) root (al, m) ->
  (forall x, base + KERNEL_LINEAR_BASE <= x < base + size + KERNEL_LINEAR_BASE -> leaf_of m root x = None) ->
  map_region root base size attrs (al, m) = Panic ExplicitPanic.
Proof. apply map_region_unaligned. Qed.

Lemma map_region_refuses_tail_witness :
  map_region (P := release_dev) 0x7000 0x40000000 0x8001000 LINEAR_RAM (boot_frames, zero_mem) = Panic ExplicitPanic.
Proof.
  apply (map_region_refuses_tail (P := release_dev) 0); try done.
  - intros [_ [k Hk]]. change BLOCK_2MB with 0x200000 in Hk. lia.
  - apply empty_root_ready. vm_compute. lia.
Defined.

(** [alloc_page] gives a page-aligned page inside the linear map that no client
    owns, filled with zeroes, changing no other word; by the bump pool before the
    buddy allocator is up and by the buddy allocator after. *)
Theorem frame_alloc_page_fresh {P : Profile} n U st m :
  frame_inv (S n) U st m ->
  exists pa st' m', frame_alloc_page st m = Ok (pa, st', m') /\ page_ok pa /\ ~ U pa /\
    (forall x, pa <= x < pa + 4096 -> m' x = 0) /\ (forall x, ~ pa <= x < pa + 4096 -> m' x = m x) /\
    frame_inv n (fun p => p = pa \/ U p) st' m'.
Proof.
  intros I. destruct (BUDDY st) eqn:E; [by eapply buddy_alloc_contract|by apply bump_alloc_contract].
Qed.

Lemma frame_alloc_page_fresh_witness :
  exists pa st' m', frame_alloc_page (P := release_dev) boot_frames zero_mem = Ok (pa, st', m') /\ page_ok pa /\
    ~ False /\ (forall x, pa <= x < pa + 4096 -> m' x = 0) /\
    (forall x, ~ pa <= x < pa + 4096 -> m' x = zero_mem x) /\
    frame_inv 31 (fun p => p = pa \/ False) st' m'.
Proof.
  apply (frame_alloc_page_fresh (P := release_dev) 31 (fun _ => False) boot_frames zero_mem).
  apply boot_frames_inv; [lia|tauto].
Defined.

(** When it has no page left [alloc_page] panics rather than hand out memory
    twice: the pool after its 32 pages, the buddy allocator when no frame is free. *)
Theorem frame_alloc_page_exhausted {P : Profile} st m :
  match BUDDY st with
  | None => POOL_PAGES <= NEXT st -> frame_alloc_page st m = Panic ExplicitPanic
  | Some b => wf b -> free_frames b = 0 -> frame_alloc_page st m = Panic UnwrapNone
  end.
Proof.
  unfold frame_alloc_page. destruct (BUDDY st) as [b|].
  - intros W Hff. unfold BuddyAllocator_alloc_page, BuddyAllocator_alloc_pages.
    destruct (alloc_cases b 0 W) as [(p & b' & _ & H)|[-> _]]; [unfold MAX_ORDER; lia| |done].
    pose proof (ho_count _ _ _ _ H). destruct (ho_wf _ _ _ _ H) as (fl & W').
    pose proof (wf_with_free_frames _ _ W'). change (2 ^ 0) with 1 in *. lia.
  - intros Hn. unfold bump_alloc_page. by destruct (Z.leb_spec POOL_PAGES (NEXT st)); [|lia].
Qed.

(** The runtime map re-establishes the trampoline's console: the UART's leaf is
    bit for bit the descriptor of boot.s, at the address [UART_BASE] the driver
    writes through. *)
Theorem uart_page_matches_trampoline :
  Entry_page UART_PA DEVICE_ATTRS = 0x006000000900040F /\
  forall P : Profile, pa_to_device_va UART_PA = Ok UART_BASE.
Proof. split; [reflexivity|]. intros P. by rewrite pa_to_device_va_ok. Qed.
