(* ===== verification/Mmu.v ===== *)
(** * kernel/mm/mmu.rs: switching translation regimes at run time

    [switch_ttbr1] and [disable_ttbr0] as instruction sequences on one CPU's
    translation state: the system registers, the values a table walk may still use
    (a register write is certain to be seen only after an [isb]), and the TLB, which
    may be filled by a walk at any moment and is emptied by [tlbi] once a [dsb] has
    completed it.  The walk is [hw_walk] of [PageTableProps] from the root that the
    address's half selects. *)

From stdpp Require Import relations.
From S2P Require Import Prelude Arch MmuConfig Layout PageTable PageTableProps KernelMap.

(* ------------------------------------------------------------------------- *)
(** ** The translation regime *)

Record MmuRegs := mkMmuRegs { TTBR0 : Z; TTBR1 : Z; TCR : Z }.

(** Which root an address selects: [Some true] is TTBR1.  The top byte is ignored
    in a half whose [TBI] bit is set. *)
Definition half (tcr va : Z) : option bool :=
  let top := va / 2 ^ 48 in
  let selects bit value :=
    (if Z.testbit tcr bit then top mod 2 ^ 8 =? value mod 2 ^ 8 else top =? value) in
  if selects TBI1_SHIFT 0xFFFF then Some true
  else if selects TBI0_SHIFT 0 then Some false
  else None.

(** [TCR_EL1.EPD0] *)
Definition TCR_EPD0 : Z := Z.shiftl 1 7.

(** What a table walk finds for [va]; [None] is a translation fault. *)
Definition walk (m : mem) (r : MmuRegs) (va : Z) : option (Z * Level) :=
  match half (TCR r) va with
  | Some true =>
      if Z.testbit (TCR r) EPD1_SHIFT then None else leaf_of m (Z.land (TTBR1 r) OUTPUT_ADDR_MASK) va
  | Some false =>
      if Z.testbit (TCR r) 7 then None else leaf_of m (Z.land (TTBR0 r) OUTPUT_ADDR_MASK) va
  | None => None
  end.

(* ------------------------------------------------------------------------- *)
(** ** The code *)

Inductive mmu_instr :=
  | MsrTtbr0 (v : Z) | MsrTtbr1 (v : Z)
  | MrsTcr | OrrTcr (v : Z) | MsrTcr
  | DsbIsh | TlbiVmalle1is | Isb.

Definition switch_ttbr1 (new_root : Z) : list mmu_instr :=
  [MsrTtbr1 new_root; DsbIsh; TlbiVmalle1is; DsbIsh; Isb].

Definition disable_ttbr0 : list mmu_instr :=
  [MrsTcr; OrrTcr TCR_EPD0; MsrTcr; MsrTtbr0 0; DsbIsh; TlbiVmalle1is; DsbIsh; Isb].

(* ------------------------------------------------------------------------- *)
(** ** One CPU's translation state *)

(** A cached leaf, with the address whose walk found it. *)
Definition cached : Type := Z * (Z * Level).

(** The registers in program order, the scratch register of the code, the values of
    each register a walk may use, and the TLB's entries: those in use, and those
    a [tlbi] has named that are not yet gone. *)
Record Mmu := mkMmu {
  now : MmuRegs;
  scratch : Z;
  live0 : list Z;
  live1 : list Z;
  live_tcr : list Z;
  tlb : list cached;
  doomed : list cached;
}.

Definition set_now (s : Mmu) (r : MmuRegs) : Mmu :=
  mkMmu r (scratch s) (TTBR0 r :: live0 s) (TTBR1 r :: live1 s) (TCR r :: live_tcr s) (tlb s) (doomed s).

Definition exec_mmu (i : mmu_instr) (s : Mmu) : Mmu :=
  match i with
  | MsrTtbr0 v => set_now s (mkMmuRegs v (TTBR1 (now s)) (TCR (now s)))
  | MsrTtbr1 v => set_now s (mkMmuRegs (TTBR0 (now s)) v (TCR (now s)))
  | MrsTcr => mkMmu (now s) (TCR (now s)) (live0 s) (live1 s) (live_tcr s) (tlb s) (doomed s)
  | OrrTcr v => mkMmu (now s) (Z.lor (scratch s) v) (live0 s) (live1 s) (live_tcr s) (tlb s) (doomed s)
  | MsrTcr => set_now s (mkMmuRegs (TTBR0 (now s)) (TTBR1 (now s)) (scratch s))
  | DsbIsh => mkMmu (now s) (scratch s) (live0 s) (live1 s) (live_tcr s) (tlb s) []
  | TlbiVmalle1is => mkMmu (now s) (scratch s) (live0 s) (live1 s) (live_tcr s) [] (tlb s ++ doomed s)
  | Isb => mkMmu (now s) (scratch s) [TTBR0 (now s)] [TTBR1 (now s)] [TCR (now s)] (tlb s) (doomed s)
  end.

(** A walk may use any live value of each register. *)
Definition may_walk (m : mem) (s : Mmu) (va : Z) (x : option (Z * Level)) : Prop :=
  exists t0 t1 tcr, t0 ∈ live0 s /\ t1 ∈ live1 s /\ tcr ∈ live_tcr s /\
    walk m (mkMmuRegs t0 t1 tcr) va = x.

Definition fill (s : Mmu) (va : Z) (leaf : Z * Level) : Mmu :=
  mkMmu (now s) (scratch s) (live0 s) (live1 s) (live_tcr s) ((va, leaf) :: tlb s) (doomed s).

(** The code runs in order; the walker fills the TLB between any two instructions. *)
Inductive mmu_step (m : mem) : list mmu_instr * Mmu -> list mmu_instr * Mmu -> Prop :=
  | step_instr i c s : mmu_step m (i :: c, s) (c, exec_mmu i s)
  | step_fill c s va leaf : may_walk m s va (Some leaf) -> mmu_step m (c, s) (c, fill s va leaf).

(** A cached leaf serves every address of its region. *)
Definition covers (l : Level) (va0 va : Z) : Prop :=
  va0 / 2 ^ Level_index_shift l = va / 2 ^ Level_index_shift l.

(** What an access at [va] may translate to. *)
Definition may_use (m : mem) (s : Mmu) (va : Z) (x : option (Z * Level)) : Prop :=
  (exists va0 e l, (va0, (e, l)) ∈ tlb s ++ doomed s /\ covers l va0 va /\ x = Some (e, l)) \/
  may_walk m s va x.

(** A CPU at rest with the registers [r]: no write in flight, no stale entry. *)
Record at_rest (m : mem) (r : MmuRegs) (s : Mmu) : Prop := {
  ar_now : now s = r;
  ar_live0 : live0 s = [TTBR0 r];
  ar_live1 : live1 s = [TTBR1 r];
  ar_tcr : live_tcr s = [TCR r];
  ar_tlb : forall va leaf, (va, leaf) ∈ tlb s ++ doomed s -> walk m r va = Some leaf;
}.

(* ------------------------------------------------------------------------- *)
(** ** Lemmas *)

Lemma covers_index l l' va0 va :
  covers l va0 va -> Level_index_shift l <= Level_index_shift l' ->
  Level_index_in l' va0 = Level_index_in l' va.
Proof.
  intros Hc Hle. rewrite !Level_index_in_eq. f_equal. unfold covers in Hc.
  assert (forall x, x / 2 ^ Level_index_shift l' =
    x / 2 ^ Level_index_shift l / 2 ^ (Level_index_shift l' - Level_index_shift l)) as Hsplit.
  { intros x. rewrite Z.div_div by (destruct l, l'; cbn in *; done || lia).
    rewrite <- Z.pow_add_r by (destruct l, l'; cbn in *; done || lia). do 2 f_equal. lia. }
  by rewrite !Hsplit, Hc.
Qed.

Lemma covers_half l tcr va0 va : covers l va0 va -> half tcr va0 = half tcr va.
Proof.
  intros Hc. unfold half. replace (va / 2 ^ 48) with (va0 / 2 ^ 48); [done|].
  unfold covers in Hc.
  assert (forall x, x / 2 ^ 48 = x / 2 ^ Level_index_shift l / 2 ^ (48 - Level_index_shift l)) as Hsplit.
  { intros x. destruct l; cbn [Level_index_shift]; by rewrite Z.div_div, <- Z.pow_add_r by lia. }
  by rewrite (Hsplit va0), (Hsplit va), Hc.
Qed.

(** The walk to a leaf does not look at the bits below the leaf's region. *)
Lemma hw_walk_covers m e l va0 va : covers l va0 va ->
  forall t l', hw_walk m t va0 (levels_from l') = Some (e, l) -> hw_walk m t va (levels_from l') = Some (e, l).
Proof.
  intros Hc.
  assert (forall t l' ls, (forall t, hw_walk m t va0 ls = Some (e, l) -> hw_walk m t va ls = Some (e, l)) ->
    (forall t, hw_walk m t va0 ls = Some (e, l) -> Level_index_shift l <= Level_index_shift l') ->
    hw_walk m t va0 (l' :: ls) = Some (e, l) -> hw_walk m t va (l' :: ls) = Some (e, l)) as Hstep.
  { intros t l' ls IH Hsh. cbn [hw_walk]. unfold PageTable_entry_at, slot. cbv zeta.
    destruct (decide (Level_index_shift l <= Level_index_shift l')) as [Hle|Hgt].
    - rewrite (covers_index l l' va0 va Hc Hle). destruct (negb _); [done|].
      destruct (Entry_is_table_or_page _); [|done]. destruct l'; done || apply IH.
    - destruct (negb _); [done|]. destruct (Entry_is_table_or_page _).
      + destruct l'; try (intros H'%Hsh; lia). intros [= <- <-]. cbn in Hgt. lia.
      + destruct (Level_supports_block l'); [|done]. intros [= <- <-]. lia. }
  assert (forall ls t, hw_walk m t va0 ls = Some (e, l) -> l ∈ ls) as Hin.
  { induction ls as [|l' ls IH]; cbn [hw_walk]; [done|]. intros t. destruct (negb _); [done|].
    destruct (Entry_is_table_or_page _).
    - destruct l'; try (intros H'%IH; by right). intros [= <- <-]. by left.
    - destruct (Level_supports_block l'); [|done]. intros [= <- <-]. by left. }
  assert (forall ls' l', (forall l'', l'' ∈ ls' -> Level_index_shift l'' <= Level_index_shift l') ->
    forall t, hw_walk m t va0 ls' = Some (e, l) -> Level_index_shift l <= Level_index_shift l') as Hle
    by (intros ls' l' H' t H''%Hin; by apply H').
  assert (forall t, hw_walk m t va0 [L3] = Some (e, l) -> hw_walk m t va [L3] = Some (e, l)) as H3.
  { intros t. by apply Hstep. }
  assert (forall t, hw_walk m t va0 [L2; L3] = Some (e, l) -> hw_walk m t va [L2; L3] = Some (e, l)) as H2.
  { intros t. apply Hstep; [done|]. apply Hle. set_solver by (cbn; lia). }
  assert (forall t, hw_walk m t va0 [L1; L2; L3] = Some (e, l) -> hw_walk m t va [L1; L2; L3] = Some (e, l)) as H1.
  { intros t. apply Hstep; [done|]. apply Hle. set_solver by (cbn; lia). }
  intros t [| | |]; [|apply H1|apply H2|apply H3]. apply Hstep; [done|]. apply Hle. set_solver by (cbn; lia).
Qed.

Lemma walk_covers m r e l va0 va :
  covers l va0 va -> walk m r va0 = Some (e, l) -> walk m r va = Some (e, l).
Proof.
  intros Hc. unfold walk. rewrite (covers_half l _ va0 va Hc).
  destruct (half _ _) as [[]|]; [..|done]; (destruct (Z.testbit _ _); [done|]);
    apply (hw_walk_covers _ _ _ _ _ Hc _ L0).
Qed.

(* ------------------------------------------------------------------------- *)
(** ** Runs *)

Definition run_of (c : list mmu_instr) (s : Mmu) : Mmu := foldl (fun s i => exec_mmu i s) s c.

(** What only the instructions change. *)
Definition core (s : Mmu) : MmuRegs * Z * list Z * list Z * list Z :=
  (now s, scratch s, live0 s, live1 s, live_tcr s).

Lemma exec_core i s s' : core s = core s' -> core (exec_mmu i s) = core (exec_mmu i s').
Proof. intros [= ? ? ? ? ?]. destruct i; unfold core; cbn; congruence. Qed.

(** Rule induction over runs from [(c, s)]. *)
Lemma run_ind m c s (Q : list mmu_instr -> Mmu -> Prop) :
  Q c s ->
  (forall i c' s', rtc (mmu_step m) (c, s) (i :: c', s') -> Q (i :: c') s' -> Q c' (exec_mmu i s')) ->
  (forall c' s' va leaf, rtc (mmu_step m) (c, s) (c', s') -> may_walk m s' va (Some leaf) ->
     Q c' s' -> Q c' (fill s' va leaf)) ->
  forall c' s', rtc (mmu_step m) (c, s) (c', s') -> Q c' s'.
Proof.
  intros H0 Hi Hf c' s' R. change (Q (c', s').1 (c', s').2). revert R. generalize (c', s') as z. clear c' s'.
  apply rtc_ind_r; [done|]. intros y z R Hstep HQ.
  destruct Hstep; cbn in *; [by apply Hi|by apply Hf].
Qed.

Lemma run_core m c s c' s' :
  rtc (mmu_step m) (c, s) (c', s') -> exists pre, c = pre ++ c' /\ core s' = core (run_of pre s).
Proof.
  revert c' s'. apply run_ind; [by exists []| |].
  - intros i c' s' _ (pre & -> & E). exists (pre ++ [i]). rewrite <- app_assoc.
    split; [done|]. unfold run_of in *. rewrite foldl_app. cbn. by apply exec_core.
  - intros c' s' va leaf _ _ (pre & -> & E). by exists pre.
Qed.

(** The values the walker may use in a state are among [V]. *)
Definition uses (V : list Z * list Z * list Z) (s : Mmu) : Prop :=
  live0 s ⊆ V.1.1 /\ live1 s ⊆ V.1.2 /\ live_tcr s ⊆ V.2.

(** Every cached leaf was found by a walk with values among [V]. *)
Definition sound (m : mem) (V : list Z * list Z * list Z) (s : Mmu) : Prop :=
  forall va leaf, (va, leaf) ∈ tlb s ++ doomed s ->
    exists t0 t1 tcr, t0 ∈ V.1.1 /\ t1 ∈ V.1.2 /\ tcr ∈ V.2 /\ walk m (mkMmuRegs t0 t1 tcr) va = Some leaf.

Lemma exec_sound m V i s : sound m V s -> sound m V (exec_mmu i s).
Proof.
  intros H va leaf Hin. apply H. destruct i; cbn in Hin; try done.
  - rewrite app_nil_r in Hin. apply elem_of_app. by left.
Qed.

Lemma uses_core V s s' : core s = core s' -> uses V s -> uses V s'.
Proof. unfold uses. intros [= _ _ -> -> ->]. done. Qed.

Lemma run_sound m V c s c' s' :
  (forall pre suf, c = pre ++ suf -> uses V (run_of pre s)) -> sound m V s ->
  rtc (mmu_step m) (c, s) (c', s') -> sound m V s' /\ uses V s'.
Proof.
  intros HV Hs. assert (forall c' s', rtc (mmu_step m) (c, s) (c', s') -> uses V s') as Hu.
  { clear c' s'. intros c' s' R. destruct (run_core _ _ _ _ _ R) as (pre & E & Ec).
    eapply uses_core; [symmetry; exact Ec|by eapply HV]. }
  revert c' s'. apply run_ind.
  - split; [done|]. by apply (HV [] c).
  - intros i c' s' R [IH _]. split; [by apply exec_sound|]. eapply Hu, rtc_r; [exact R|apply step_instr].
  - intros c' s' va leaf R Hw [IH Hus]. split; [|done].
    intros va' leaf' [Hin|Hin]%elem_of_cons; [|by apply IH]. injection Hin as -> ->.
    destruct Hus as (H0 & H1 & H2), Hw as (t0 & t1 & tcr & ? & ? & ? & ?). exists t0, t1, tcr.
    split_and!; [by apply H0|by apply H1|by apply H2|done].
Qed.

(** So an access translates as some mixture of those values does. *)
Lemma sound_use m V s va x :
  sound m V s -> uses V s -> may_use m s va x ->
  exists t0 t1 tcr, t0 ∈ V.1.1 /\ t1 ∈ V.1.2 /\ tcr ∈ V.2 /\ walk m (mkMmuRegs t0 t1 tcr) va = x.
Proof.
  intros Hs (H0 & H1 & H2) [(va0 & e & l & Hin & Hc & ->)|(t0 & t1 & tcr & ? & ? & ? & ?)].
  - destruct (Hs _ _ Hin) as (t0 & t1 & tcr & ? & ? & ? & Hw). exists t0, t1, tcr.
    split_and!; [done..|]. by apply (walk_covers _ _ _ _ va0).
  - exists t0, t1, tcr. split_and!; [by apply H0|by apply H1|by apply H2|done].
Qed.

Lemma at_rest_sound m r s V :
  at_rest m r s -> TTBR0 r ∈ V.1.1 -> TTBR1 r ∈ V.1.2 -> TCR r ∈ V.2 -> sound m V s.
Proof.
  intros [_ _ _ _ Ht] H0 H1 H2 va leaf Hin. exists (TTBR0 r), (TTBR1 r), (TCR r).
  destruct r. by split_and!; [..|apply Ht].
Qed.

(** The prefixes of a concrete sequence, one by one. *)
Ltac each_prefix :=
  let pre := fresh "pre" in let suf := fresh "suf" in let E := fresh "E" in
  intros pre suf E;
  repeat (destruct pre as [|? pre]; [|injection E as <- E]);
  try (destruct pre; [|discriminate E]);
  clear E; unfold uses, run_of.

Lemma lor_bit_ne t k n : 0 <= n -> 0 <= k -> n <> k -> Z.testbit (Z.lor t (Z.shiftl 1 k)) n = Z.testbit t n.
Proof.
  intros Hn Hk Hne. rewrite Z.lor_spec, Z.shiftl_1_l, Z.pow2_bits_false by done. apply orb_false_r.
Qed.

(** [EPD0] changes neither the choice of the root nor the upper half. *)
Lemma half_epd0 tcr va : half (Z.lor tcr TCR_EPD0) va = half tcr va.
Proof. unfold half, TCR_EPD0, TBI0_SHIFT, TBI1_SHIFT. by rewrite !lor_bit_ne. Qed.

Lemma walk_upper m t0 t0' t1 tcr tcr' va :
  tcr' = tcr \/ tcr' = Z.lor tcr TCR_EPD0 -> half tcr va = Some true ->
  walk m (mkMmuRegs t0' t1 tcr') va = walk m (mkMmuRegs t0 t1 tcr) va.
Proof.
  intros [->| ->] Hh; unfold walk; cbn [TTBR1 TCR]; rewrite ?half_epd0, Hh; [done|].
  unfold TCR_EPD0, EPD1_SHIFT. by rewrite lor_bit_ne.
Qed.

Lemma walk_epd0 m t0 t1 tcr va :
  half tcr va <> Some true -> walk m (mkMmuRegs t0 t1 (Z.lor tcr TCR_EPD0)) va = None.
Proof.
  intros Hh. unfold walk. cbn [TCR]. rewrite half_epd0. destruct (half tcr va) as [[]|]; [done| |done].
  unfold TCR_EPD0. by rewrite Z.lor_spec, orb_true_r.
Qed.

(* ------------------------------------------------------------------------- *)
(** ** Properties *)

Definition switched (r : MmuRegs) (root : Z) : MmuRegs := mkMmuRegs (TTBR0 r) root (TCR r).
Definition ttbr0_off (r : MmuRegs) : MmuRegs := mkMmuRegs 0 (TTBR1 r) (Z.lor (TCR r) TCR_EPD0).

(** [switch_ttbr1], with table walks and TLB fills at any moment.  During the
    switch and after it every access translates as the old root or the new one does,
    so code and stack that both map alike stay where they are; when it returns the
    register holds the new root and every walk from then on uses it. *)
Theorem switch_ttbr1_safe m r root s c s' va x :
  at_rest m r s -> rtc (mmu_step m) (switch_ttbr1 root, s) (c, s') -> may_use m s' va x ->
  (x = walk m r va \/ x = walk m (switched r root) va) /\
  (c = [] -> now s' = switched r root /\ (may_walk m s' va x -> x = walk m (switched r root) va)).
Proof.
  intros A R Hu. pose proof A as [Hn H0 H1 Ht _]. split.
  - set (V := ([TTBR0 r], [root; TTBR1 r], [TCR r])).
    destruct (run_sound m V (switch_ttbr1 root) s c s') as [Hs Hus]; [| |exact R|].
    { each_prefix; unfold V; cbn; rewrite ?H0, ?H1, ?Ht, ?Hn; set_solver. }
    { eapply at_rest_sound; [exact A|unfold V; cbn; set_solver..]. }
    destruct (sound_use _ _ _ _ _ Hs Hus Hu) as (t0 & t1 & tcr & E0 & E1 & E2 & <-). unfold V in *.
    cbn in *. destruct r. set_solver.
  - intros ->. destruct (run_core _ _ _ _ _ R) as (pre & E & Ec). rewrite app_nil_r in E. subst pre.
    injection Ec as En _ E0 E1 E2. unfold run_of in *. cbn in *. rewrite Hn in *. split; [done|].
    intros (t0 & t1 & tcr & Ht0 & Ht1 & Htcr & <-). rewrite E0 in Ht0. rewrite E1 in Ht1. rewrite E2 in Htcr.
    unfold switched. set_solver.
Qed.

(** C38: [disable_ttbr0], with table walks and TLB fills at any moment.  No access to
    the upper half is disturbed, whatever the walker makes of the half-written
    registers; when it returns, a walk for any address outside the upper half faults,
    whatever the old tables have become. *)
Theorem disable_ttbr0_safe m r s c s' va x :
  at_rest m r s -> rtc (mmu_step m) (disable_ttbr0, s) (c, s') -> may_use m s' va x ->
  (half (TCR r) va = Some true -> x = walk m r va) /\
  (c = [] -> now s' = ttbr0_off r /\
     forall m', half (TCR r) va <> Some true -> may_walk m' s' va x -> x = None).
Proof.
  intros A R Hu. pose proof A as [Hn H0 H1 Ht _]. split.
  - intros Hh. set (V := ([0; TTBR0 r], [TTBR1 r], [TCR r; Z.lor (TCR r) TCR_EPD0])).
    destruct (run_sound m V disable_ttbr0 s c s') as [Hs Hus]; [| |exact R|].
    { each_prefix; unfold V; cbn; rewrite ?H0, ?H1, ?Ht, ?Hn; set_solver. }
    { eapply at_rest_sound; [exact A|unfold V; cbn; set_solver..]. }
    destruct (sound_use _ _ _ _ _ Hs Hus Hu) as (t0 & t1 & tcr & E0 & E1 & E2 & <-). destruct r as [a b d].
    unfold V in *. cbn in *. assert (t1 = b) as -> by set_solver. cbn in *. apply walk_upper; [set_solver|done].
  - intros ->. destruct (run_core _ _ _ _ _ R) as (pre & E & Ec). rewrite app_nil_r in E. subst pre.
    injection Ec as En _ E0 E1 E2. unfold run_of in *. cbn in *. rewrite Hn in *. split; [done|].
    intros m' Hh (t0 & t1 & tcr & Ht0 & Ht1 & Htcr & <-). rewrite E2 in Htcr.
    apply list_elem_of_singleton in Htcr as ->. by apply walk_epd0.
Qed.

(** The entries of the low half may outlive [disable_ttbr0].  Between the [tlbi]
    and the closing [isb] the old register values may still be used by a walk, so any
    low address that was mapped can be cached again and be served after the return. *)
Theorem disable_ttbr0_stale_entry m r s va leaf :
  at_rest m r s -> walk m r va = Some leaf ->
  exists s', rtc (mmu_step m) (disable_ttbr0, s) ([], s') /\ may_use m s' va (Some leaf).
Proof.
  intros [Hn H0 H1 Ht _] Hw. set (c := [MrsTcr; OrrTcr TCR_EPD0; MsrTcr; MsrTtbr0 0; DsbIsh; TlbiVmalle1is; DsbIsh]).
  exists (exec_mmu Isb (fill (run_of c s) va leaf)). split.
  - do 7 (eapply rtc_l; [apply step_instr|]). eapply rtc_l; [apply (step_fill _ _ _ va leaf)|].
    + exists (TTBR0 r), (TTBR1 r), (TCR r). cbn. rewrite H0, H1, Ht, Hn. destruct r. split_and!; [set_solver..|done].
    + eapply rtc_l; [apply step_instr|]. apply rtc_refl.
  - left. exists va, leaf.1, leaf.2. destruct leaf. split_and!; [by left|done..].
Qed.

(* ------------------------------------------------------------------------- *)
(** ** A trampoline, for the witnesses *)

(** An identity map of the second gigabyte by one block, walked from 0x7000. *)
Definition trampoline_mem : mem :=
  <[0x8008 := Z.lor 0x40000000 TYPE_BLOCK]> (<[0x7000 := Entry_table 0x8000]> (fun _ => 0)).
Definition trampoline_regs : MmuRegs := mkMmuRegs 0x7000 0x7000 0x25B5503510.
Definition trampoline_mmu : Mmu :=
  mkMmu trampoline_regs 0 [0x7000] [0x7000] [0x25B5503510] [] [].

Lemma trampoline_at_rest : at_rest trampoline_mem trampoline_regs trampoline_mmu.
Proof. constructor; [done..|]. intros va leaf []%elem_of_nil. Qed.

(** The sequence alone, with no walk in between. *)
Lemma run_alone m c s : rtc (mmu_step m) (c, s) ([], run_of c s).
Proof.
  revert s. induction c as [|i c IH]; intros s; [apply rtc_refl|]. eapply rtc_l; [apply step_instr|]. apply IH.
Qed.

Lemma trampoline_walks : walk trampoline_mem trampoline_regs 0x40080000 = Some (0x40000001, L1).
Proof. by vm_compute. Qed.

Lemma switch_ttbr1_safe_witness :
  let s' := run_of (switch_ttbr1 0x9000) trampoline_mmu in
  now s' = switched trampoline_regs 0x9000 /\ may_use trampoline_mem s' 0x40080000 (Some (0x40000001, L1)).
Proof.
  set (s' := run_of _ _).
  assert (may_use trampoline_mem s' 0x40080000 (Some (0x40000001, L1))) as Hu.
  { right. exists 0x7000, 0x9000, 0x25B5503510. split_and!; [by left..|by vm_compute]. }
  split; [|exact Hu].
  destruct (switch_ttbr1_safe trampoline_mem trampoline_regs 0x9000 trampoline_mmu [] s' 0x40080000 _
    trampoline_at_rest (run_alone _ _ _) Hu) as [_ H].
  by apply H.
Defined.

Lemma disable_ttbr0_safe_witness :
  let s' := run_of disable_ttbr0 trampoline_mmu in
  now s' = mkMmuRegs 0 0x7000 0x25B5503590 /\ may_use trampoline_mem s' 0x40080000 None.
Proof.
  set (s' := run_of _ _).
  assert (may_use trampoline_mem s' 0x40080000 None) as Hu.
  { right. exists 0, 0x7000, 0x25B5503590. split_and!; [by left..|by vm_compute]. }
  split; [|exact Hu].
  destruct (disable_ttbr0_safe trampoline_mem trampoline_regs trampoline_mmu [] s' 0x40080000 _
    trampoline_at_rest (run_alone _ _ _) Hu) as [_ H].
  by apply H.
Defined.

Lemma disable_ttbr0_stale_entry_witness :
  exists s', rtc (mmu_step trampoline_mem) (disable_ttbr0, trampoline_mmu) ([], s') /\
    may_use trampoline_mem s' 0x40080000 (Some (0x40000001, L1)).
Proof.
  apply (disable_ttbr0_stale_entry trampoline_mem trampoline_regs); [apply trampoline_at_rest|apply trampoline_walks].
Defined.

(* ------------------------------------------------------------------------- *)
(** ** The address space of a planned table *)

(** The address a walk gives, and the part of a plan an address is in. *)
Definition address (x : option (Z * Level)) (va : Z) : option Z :=
  match x with Some (e, l) => Some (Entry_output_addr e + va mod 2 ^ Level_index_shift l) | None => None end.

Fixpoint planned (es : list plan_entry) (va : Z) : option Z :=
  match es with
  | [] => None
  | e :: es => if (pl_lo e <=? va) && (va <? pl_hi e) then Some (va - pl_off e) else planned es va
  end.

Lemma planned_cases es va :
  (exists e, e ∈ es /\ in_plan e va /\ planned es va = Some (va - pl_off e)) \/
  (planned es va = None /\ forall e, e ∈ es -> ~ in_plan e va).
Proof.
  induction es as [|e es IH]; [right; split; [done|intros e []%elem_of_nil]|]. cbn [planned]. unfold in_plan in *.
  destruct (Z.leb_spec (pl_lo e) va), (Z.ltb_spec va (pl_hi e)); cbn [andb];
    [left; exists e; split_and!; [by left|lia..|done]|..];
    (destruct IH as [(e' & ? & ? & ->)|[-> Hn]];
      [left; exists e'; split_and!; [by right|lia..|done]|right; split; [done|]; intros e' [->|He']%elem_of_cons; [lia|by apply Hn]]).
Qed.

(** With the boot stub's [TCR_EL1], the upper half is what TTBR1 maps. *)
Lemma half_boot va tcr :
  tcr = 0x25B5503510 -> 0 <= va < 2 ^ 64 -> half tcr va = Some true <-> upper va.
Proof.
  intros -> Hva. unfold half, TBI1_SHIFT, TBI0_SHIFT, upper, UPPER.
  change (Z.testbit 0x25B5503510 38) with false. change (Z.testbit 0x25B5503510 37) with true. cbv iota.
  destruct (Z.eqb_spec (va / 2 ^ 48) 0xFFFF) as [E|E].
  - split; [intros _; divmod|done].
  - split; [by destruct (_ =? _)|]. intros. exfalso. apply E. divmod.
Qed.

(** So a kernel address is walked from TTBR1's root, whatever TTBR0 and [EPD0] are. *)
Lemma walk_root m t0 root tcr va :
  page_aligned root -> upper va -> tcr = 0x25B5503510 \/ tcr = Z.lor 0x25B5503510 TCR_EPD0 ->
  walk m (mkMmuRegs t0 root tcr) va = leaf_of m root va.
Proof.
  intros Hal Hu Ht. assert (half 0x25B5503510 va = Some true) as Hh
    by (apply half_boot; [done| |done]; unfold upper, UPPER in *; lia).
  rewrite (walk_upper m 0 t0 root 0x25B5503510 tcr va) by done.
  unfold walk. cbn [TCR TTBR1]. rewrite Hh.
  change (Z.testbit 0x25B5503510 EPD1_SHIFT) with false. cbv iota. by rewrite land_mask_aligned.
Qed.

(** The low half does not depend on TTBR1. *)
Lemma walk_lower m t0 t1 t1' tcr va :
  half tcr va <> Some true -> walk m (mkMmuRegs t0 t1 tcr) va = walk m (mkMmuRegs t0 t1' tcr) va.
Proof. intros Hh. unfold walk. cbn [TCR TTBR0]. by destruct (half tcr va) as [[]|]. Qed.

(** Kernel addresses translate as the plan of the tables at TTBR1's root. *)
Lemma upper_as_planned m t0 root es tcr va :
  follows_plan m root es -> page_aligned root -> upper va -> tcr = 0x25B5503510 \/ tcr = Z.lor 0x25B5503510 TCR_EPD0 ->
  address (walk m (mkMmuRegs t0 root tcr) va) va = planned es va.
Proof.
  intros [Hin Hout] Hal Hu Ht. rewrite walk_root by done.
  destruct (planned_cases es va) as [(e & He & Hp & ->)|[-> Hn]].
  - by destruct (Hin e va He Hu Hp) as [Hl _].
  - by rewrite Hout.
Qed.

(** Once the low half is off, exactly the planned addresses translate, as planned:
    every other 64-bit address faults. *)
Lemma address_space_complete m root es r va :
  follows_plan m root es -> page_aligned root -> 0 <= va < 2 ^ 64 ->
  (forall e, e ∈ es -> UPPER <= pl_lo e) -> TTBR1 r = root -> TCR r = 0x25B5503510 ->
  address (walk m (ttbr0_off r) va) va = planned es va.
Proof.
  intros Hplan Hal Hva Hes E1 Et. unfold ttbr0_off. rewrite E1, Et.
  destruct (decide (upper va)) as [Hu|Hu]; [apply upper_as_planned; auto|].
  rewrite walk_epd0 by (by rewrite half_boot). destruct (planned_cases es va) as [(e & He & Hp & _)|[-> _]]; [|done].
  specialize (Hes e He). unfold in_plan, upper in *. lia.
Qed.
