(* ===== verification/BootStub.v ===== *)
(** * kernel/core/asm/boot.s: clearing memory and building the trampoline tables

    The part of the boot stub that kmain depends on: the two clearing loops, the
    stores that build the trampoline page tables, and the install of the roots.  The
    MMU is off, so addresses are physical.  [linker.ld] places the twelve tables one
    after the other from [__boot_bss_start]. *)

From S2P Require Import Prelude Arch MmuConfig Layout Uart PageTable PageTableProps KernelMap Mmu.

(* ------------------------------------------------------------------------- *)
(** ** The tables, as [linker.ld] lays them out from [bb] *)

Definition idmap_l0 (bb : Z) : Z := bb.
Definition idmap_l1 (bb : Z) : Z := bb + 0x1000.
Definition idmap_l2_uart (bb : Z) : Z := bb + 0x2000.
Definition idmap_l3_uart (bb : Z) : Z := bb + 0x3000.
Definition idmap_l2_ram (bb : Z) : Z := bb + 0x4000.
Definition kernel_l0 (bb : Z) : Z := bb + 0x5000.
Definition kernel_l1 (bb : Z) : Z := bb + 0x6000.
Definition kernel_l2 (bb : Z) : Z := bb + 0x7000.
Definition image_l1 (bb : Z) : Z := bb + 0x8000.
Definition device_l1 (bb : Z) : Z := bb + 0x9000.
Definition device_l2 (bb : Z) : Z := bb + 0xA000.
Definition device_l3 (bb : Z) : Z := bb + 0xB000.

(* ------------------------------------------------------------------------- *)
(** ** The code *)

(** [cmp x0, x1; b.hs done; str xzr, [x0], #8; b loop] *)
Definition clear_step (s : Z * mem) : outcome (Z * mem) :=
  let '(x0, m) := s in
  Ok (x0 + 8, fun x => if (x0 <=? x) && (x <? x0 + 8) then 0 else m x).

Definition clear_loop (x0 x1 : Z) (m : mem) : outcome mem :=
  let! '(_, m) := while (Z.to_nat (div_ceil (x1 - x0) 8)) (fun s => s.1 <? x1) clear_step (x0, m) in
  Ok m.

(** The four instructions the table code is made of. *)
Inductive boot_instr := LdrX0 (v : Z) | LdrX1 (v : Z) | OrrX1 (v : Z) | StrX1 (off : Z).

Definition exec_boot (s : Z * Z * mem) (i : boot_instr) : Z * Z * mem :=
  let '(x0, x1, m) := s in
  match i with
  | LdrX0 v => (v, x1, m)
  | LdrX1 v => (x0, v, m)
  | OrrX1 v => (x0, Z.lor x1 v, m)
  | StrX1 off => (x0, x1, <[x0 + off := x1]> m)
  end.

Definition UART_LEAF : Z := 0x006000000900040F.
Definition RAM_BLOCK : Z := 0x0040000040000701.

Definition idmap_code (bb : Z) : list boot_instr :=
  [LdrX0 (idmap_l0 bb); LdrX1 (idmap_l1 bb); OrrX1 3; StrX1 0;
   LdrX0 (idmap_l1 bb); LdrX1 (idmap_l2_uart bb); OrrX1 3; StrX1 0;
   LdrX1 (idmap_l2_ram bb); OrrX1 3; StrX1 8;
   LdrX0 (idmap_l2_uart bb); LdrX1 (idmap_l3_uart bb); OrrX1 3; StrX1 (72 * 8);
   LdrX0 (idmap_l3_uart bb); LdrX1 UART_LEAF; StrX1 0;
   LdrX0 (idmap_l2_ram bb); LdrX1 RAM_BLOCK; StrX1 0].

Definition upper_code (bb : Z) : list boot_instr :=
  [LdrX0 (kernel_l0 bb); LdrX1 (kernel_l1 bb); OrrX1 3; StrX1 (256 * 8);
   LdrX0 (kernel_l0 bb); LdrX1 (image_l1 bb); OrrX1 3; StrX1 (511 * 8);
   LdrX0 (image_l1 bb); LdrX1 RAM_BLOCK; StrX1 (510 * 8);
   LdrX0 (kernel_l1 bb); LdrX1 RAM_BLOCK; StrX1 8;
   LdrX0 (kernel_l0 bb); LdrX1 (device_l1 bb); OrrX1 3; StrX1 (384 * 8);
   LdrX0 (device_l1 bb); LdrX1 (device_l2 bb); OrrX1 3; StrX1 0;
   LdrX0 (device_l2 bb); LdrX1 (device_l3 bb); OrrX1 3; StrX1 (72 * 8);
   LdrX0 (device_l3 bb); LdrX1 UART_LEAF; StrX1 0].

Definition build_tables (bb : Z) (m : mem) : mem :=
  (foldl exec_boot (0, 0, m) (idmap_code bb ++ upper_code bb)).2.

(** The words boot.s and secondary.s load into [TCR_EL1] and [MAIR_EL1]. *)
Definition BOOT_TCR : Z := 0x25B5503510.
Definition BOOT_MAIR : Z := 0x040044FF.

(** From the install of [TCR_EL1] to the [isb] before [SCTLR_EL1.M] is set. *)
Definition install_roots (bb : Z) (s : Mmu) : Mmu :=
  let s := set_now s (mkMmuRegs (TTBR0 (now s)) (TTBR1 (now s)) BOOT_TCR) in
  run_of [Isb; MsrTtbr0 (idmap_l0 bb); MsrTtbr1 (kernel_l0 bb); DsbIsh; TlbiVmalle1is; DsbIsh; Isb] s.

(** [.Lel1] to the jump: clear [.bss] and the tables, build them, install the roots,
    and form [kmain]'s argument. *)
Definition boot_stub (bss_lo bss_hi bb fdt : Z) (m : mem) (s : Mmu) : outcome (mem * Mmu * Z) :=
  let! m := clear_loop bss_lo bss_hi m in
  let! m := clear_loop (idmap_l0 bb) (device_l3 bb + 0x1000) m in
  Ok (build_tables bb m, install_roots bb s, Z.lor fdt KERNEL_LINEAR_BASE).

(* ------------------------------------------------------------------------- *)
(** ** The entry: exception levels *)

(** The registers that [_start] looks at and sets; [pstate] has [SPSR]'s layout. *)
Record BootCpu := mkBootCpu {
  CurrentEL : Z; pstate : Z; hcr_el2 : Z; cnthctl_el2 : Z; cntvoff_el2 : Z; cptr_el2 : Z;
  sctlr_el1 : Z; cpacr_el1 : Z; boot_sp : Z;
}.

Definition SPSR_EL1H : Z := 0x3c5.
Definition HCR_RW : Z := Z.shiftl 1 31.

(** [eret]: the level and the state come from [SPSR_EL2]. *)
Definition eret_to (spsr : Z) (c : BootCpu) : BootCpu :=
  mkBootCpu (Z.shiftl (Z.land (Z.shiftr spsr 2) 3) 2) spsr (hcr_el2 c) (cnthctl_el2 c) (cntvoff_el2 c) (cptr_el2 c)
    (sctlr_el1 c) (cpacr_el1 c) (boot_sp c).

(** [.Lel2] *)
Definition el2_drop (c : BootCpu) : BootCpu :=
  eret_to SPSR_EL1H (mkBootCpu (CurrentEL c) (pstate c) HCR_RW (Z.lor (cnthctl_el2 c) 3) 0 0
    (sctlr_el1 c) (cpacr_el1 c) (boot_sp c)).

(** [.Lel1] down to the loops. *)
Definition el1_init (stack_top_pa : Z) (c : BootCpu) : BootCpu :=
  mkBootCpu (CurrentEL c) (pstate c) (hcr_el2 c) (cnthctl_el2 c) (cntvoff_el2 c) (cptr_el2 c)
    (sctlr_el1 c) (Z.lor (cpacr_el1 c) (Z.shiftl 3 20)) stack_top_pa.

(** [SCTLR_EL1.M], and the stack in the upper half. *)
Definition mmu_on (stack_top : Z) (c : BootCpu) : BootCpu :=
  mkBootCpu (CurrentEL c) (pstate c) (hcr_el2 c) (cnthctl_el2 c) (cntvoff_el2 c) (cptr_el2 c)
    (Z.lor (sctlr_el1 c) 1) (cpacr_el1 c) stack_top.

(** The park loops. *)
Inductive parked := UnsupportedEl | BadBootMmu.

(** [_start], up to the jump; [x0] is the device tree's address. *)
Definition start (bss_lo bss_hi bb stack_top_pa stack_top x0 : Z) (c : BootCpu) (m : mem) (s : Mmu)
  : outcome (parked + (BootCpu * (mem * Mmu * Z))) :=
  let lel1 c :=
    if negb (Z.land (sctlr_el1 c) 1 =? 0) then Ok (inl BadBootMmu)
    else
      let c := el1_init stack_top_pa c in
      let! r := boot_stub bss_lo bss_hi bb x0 m s in
      Ok (inr (mmu_on stack_top c, r)) in
  let el := Z.shiftr (CurrentEL c) 2 in
  if el =? 1 then lel1 c
  else if el =? 2 then lel1 (el2_drop c)
  else Ok (inl UnsupportedEl).

(* ------------------------------------------------------------------------- *)
(** ** Lemmas *)

(** The loop ends and has cleared its range. *)
Lemma clear_loop_ok lo hi m :
  exists m', clear_loop lo hi m = Ok m' /\
    (forall x, lo <= x < hi -> m' x = 0) /\
    (forall x, ~ lo <= x < lo + div_ceil (hi - lo) 8 * 8 -> m' x = m x).
Proof.
  unfold clear_loop. destruct (Z.le_gt_cases hi lo) as [Hle|Hlt].
  { exists m. split_and!; [|lia|done]. destruct (Z.to_nat _); cbn [while fst]; (destruct (Z.ltb_spec lo hi); [lia|]); done. }
  destruct (while_rule (fun s : Z * mem => (8 | s.1 - lo) /\ lo <= s.1 <= lo + div_ceil (hi - lo) 8 * 8 /\
      (forall x, lo <= x < s.1 -> s.2 x = 0) /\
      (forall x, ~ lo <= x < lo + div_ceil (hi - lo) 8 * 8 -> s.2 x = m x))
    (fun s => div_ceil (hi - s.1) 8) (fun s => s.1 <? hi) clear_step)
    with (fuel := Z.to_nat (div_ceil (hi - lo) 8)) (s := (lo, m)) as ([p m'] & -> & HI & Hp).
  - intros [p m'] ([k Hk] & Hr & Hz & Ho) Hc. cbn [fst snd] in *. apply Z.ltb_lt in Hc.
    pose proof (div_ceil_spec (hi - lo) 8 ltac:(lia)). unfold clear_step. eexists. split; [done|]. cbn [fst snd]. split_and!.
    + exists (k + 1). lia.
    + lia.
    + lia.
    + intros x Hx. destruct (Z.leb_spec p x), (Z.ltb_spec x (p + 8)); cbn [andb]; try done; apply Hz; lia.
    + intros x Hx. destruct (Z.leb_spec p x), (Z.ltb_spec x (p + 8)); cbn [andb]; try (by apply Ho). lia.
    + replace (hi - (p + 8)) with (hi - p - 8) by lia. rewrite div_ceil_sub by lia.
      pose proof (div_ceil_spec (hi - p) 8 ltac:(lia)). lia.
    + replace (hi - (p + 8)) with (hi - p - 8) by lia. rewrite div_ceil_sub by lia. lia.
  - cbn [fst snd]. pose proof (div_ceil_spec (hi - lo) 8 ltac:(lia)).
    split_and!; [by exists 0; lia|lia|lia|intros; lia|done].
  - cbn [fst]. pose proof (div_ceil_spec (hi - lo) 8 ltac:(lia)). lia.
  - cbn [fst snd] in *. apply Z.ltb_ge in Hp. destruct HI as (_ & _ & Hz & Ho). cbn [obind].
    exists m'. split_and!; [done| |done]. intros x Hx. apply Hz. lia.
Qed.

(** A word of the tables after the stub, by table (its number) and index. *)
Definition trampoline_entry (bb k i : Z) : Z :=
  match k with
  | 0 => if i =? 0 then Z.lor (idmap_l1 bb) 3 else 0
  | 1 => if i =? 0 then Z.lor (idmap_l2_uart bb) 3 else if i =? 1 then Z.lor (idmap_l2_ram bb) 3 else 0
  | 2 => if i =? 72 then Z.lor (idmap_l3_uart bb) 3 else 0
  | 3 => if i =? 0 then UART_LEAF else 0
  | 4 => if i =? 0 then RAM_BLOCK else 0
  | 5 => if i =? 256 then Z.lor (kernel_l1 bb) 3 else if i =? 384 then Z.lor (device_l1 bb) 3
         else if i =? 511 then Z.lor (image_l1 bb) 3 else 0
  | 6 => if i =? 1 then RAM_BLOCK else 0
  | 8 => if i =? 510 then RAM_BLOCK else 0
  | 9 => if i =? 0 then Z.lor (device_l2 bb) 3 else 0
  | 10 => if i =? 72 then Z.lor (device_l3 bb) 3 else 0
  | 11 => if i =? 0 then UART_LEAF else 0
  | _ => 0
  end.

(** The memory holds the trampoline. *)
Definition trampoline_at (bb : Z) (m : mem) : Prop :=
  forall k i, 0 <= k < 12 -> 0 <= i < 512 -> m (bb + 0x1000 * k + 8 * i) = trampoline_entry bb k i.

Lemma build_tables_ok bb m :
  (forall x, bb <= x < bb + 0xC000 -> m x = 0) -> trampoline_at bb (build_tables bb m).
Proof.
  intros Hz k i Hk Hi. unfold build_tables. cbn [foldl app exec_boot idmap_code upper_code snd].
  unfold idmap_l0, idmap_l1, idmap_l2_uart, idmap_l3_uart, idmap_l2_ram, kernel_l0, kernel_l1, image_l1,
    device_l1, device_l2, device_l3.
  assert (k ∈ seqZ 0 12) as Hin by (apply elem_of_seqZ; lia). clear Hk. vm_compute seqZ in Hin.
  repeat (apply elem_of_cons in Hin as [->|Hin]); [..|by apply elem_of_nil in Hin]; cbn [trampoline_entry];
    unfold insert, fn_insert;
    repeat (case_decide; [try lia|]);
    repeat match goal with |- context [i =? ?c] => destruct (Z.eqb_spec i c) end; try lia; try done; apply Hz; lia.
Qed.

Lemma build_tables_frame bb m x : ~ bb <= x < bb + 0xC000 -> build_tables bb m x = m x.
Proof.
  intros Hx. unfold build_tables. cbn [foldl app exec_boot idmap_code upper_code snd].
  unfold idmap_l0, idmap_l1, idmap_l2_uart, idmap_l3_uart, idmap_l2_ram, kernel_l0, kernel_l1, image_l1,
    device_l1, device_l2, device_l3.
  by rewrite !fn_lookup_insert_ne by lia.
Qed.

(* ------------------------------------------------------------------------- *)
(** ** Walking the trampoline *)

Section walk.
Context (bb : Z) (m : mem) (Hbb : page_aligned bb) (Htop : bb + 0xC000 <= 2 ^ 48) (T : trampoline_at bb m).

Lemma table_aligned k : 0 <= k < 12 -> page_aligned (bb + 0x1000 * k).
Proof. destruct Hbb as [? [z ->]]. intros. split; [lia|]. exists (z + k). lia. Qed.

(** A table descriptor leads on, a zero word ends the walk. *)
Lemma step_table k k' va l ls :
  0 <= k < 12 -> 0 <= k' < 12 -> l <> L3 ->
  trampoline_entry bb k (Level_index_in l va) = Z.lor (bb + 0x1000 * k') 3 ->
  hw_walk m (bb + 0x1000 * k) va (l :: ls) = hw_walk m (bb + 0x1000 * k') va ls.
Proof.
  intros Hk Hk' Hl E. cbn [hw_walk]. unfold PageTable_entry_at, slot.
  rewrite !(T k _ Hk (Level_index_in_range l va)), E.
  pose proof (table_aligned k' Hk') as Ha.
  assert (Z.lor (bb + 0x1000 * k') 3 = Entry_table (bb + 0x1000 * k')) as ->
    by (unfold Entry_table; by rewrite land_mask_aligned).
  destruct (Entry_table_reads (bb + 0x1000 * k')) as (Hv & Ht & Ho). rewrite Hv, Ht, Ho by done. by destruct l.
Qed.

Lemma step_leaf k va l ls e :
  0 <= k < 12 -> trampoline_entry bb k (Level_index_in l va) = e ->
  hw_walk m (bb + 0x1000 * k) va (l :: ls) =
  (if negb (Entry_is_valid e) then None
   else if Entry_is_table_or_page e then
     match l with L3 => Some (e, L3) | _ => hw_walk m (Entry_output_addr e) va ls end
   else if Level_supports_block l then Some (e, l) else None).
Proof.
  intros Hk E. cbn [hw_walk]. unfold PageTable_entry_at, slot.
  by rewrite !(T k _ Hk (Level_index_in_range l va)), E.
Qed.

(** What each root's walk finds, by the indices of the address. *)
Definition idmap_leaf (va : Z) : option (Z * Level) :=
  if Level_index_in L0 va =? 0 then
    if Level_index_in L1 va =? 0 then
      if Level_index_in L2 va =? 72 then if Level_index_in L3 va =? 0 then Some (UART_LEAF, L3) else None else None
    else if Level_index_in L1 va =? 1 then if Level_index_in L2 va =? 0 then Some (RAM_BLOCK, L2) else None else None
  else None.

Definition upper_leaf (va : Z) : option (Z * Level) :=
  if Level_index_in L0 va =? 256 then if Level_index_in L1 va =? 1 then Some (RAM_BLOCK, L1) else None
  else if Level_index_in L0 va =? 384 then
    if Level_index_in L1 va =? 0 then
      if Level_index_in L2 va =? 72 then if Level_index_in L3 va =? 0 then Some (UART_LEAF, L3) else None else None
    else None
  else if Level_index_in L0 va =? 511 then if Level_index_in L1 va =? 510 then Some (RAM_BLOCK, L1) else None
  else None.

(** Take the step that the word of table [k] asks for. *)
Ltac read_entry :=
  cbn [trampoline_entry]; repeat match goal with H : (_ =? _) = _ |- _ => rewrite H end; reflexivity.
Ltac leaf_step k := erewrite (step_leaf k) by (first [read_entry | done]); reflexivity.
Ltac table_step k k' := rewrite (step_table k k') by (first [read_entry | done]).

Lemma idmap_walk va : leaf_of m (idmap_l0 bb) va = idmap_leaf va.
Proof.
  unfold leaf_of, all_levels, idmap_leaf. replace (idmap_l0 bb) with (bb + 0x1000 * 0) by (unfold idmap_l0; lia).
  destruct (Level_index_in L0 va =? 0) eqn:E0; [|leaf_step 0]. table_step 0 1.
  destruct (Level_index_in L1 va =? 0) eqn:E1; [table_step 1 2|].
  - destruct (Level_index_in L2 va =? 72) eqn:E2; [|leaf_step 2]. table_step 2 3.
    destruct (Level_index_in L3 va =? 0) eqn:E3; leaf_step 3.
  - destruct (Level_index_in L1 va =? 1) eqn:E1'; [table_step 1 4|leaf_step 1].
    destruct (Level_index_in L2 va =? 0) eqn:E2; leaf_step 4.
Qed.

Lemma upper_walk va : leaf_of m (kernel_l0 bb) va = upper_leaf va.
Proof.
  unfold leaf_of, all_levels, upper_leaf. replace (kernel_l0 bb) with (bb + 0x1000 * 5) by (unfold kernel_l0; lia).
  destruct (Level_index_in L0 va =? 256) eqn:E0; [table_step 5 6|].
  { destruct (Level_index_in L1 va =? 1) eqn:E1; leaf_step 6. }
  destruct (Level_index_in L0 va =? 384) eqn:E0'; [table_step 5 9|].
  - destruct (Level_index_in L1 va =? 0) eqn:E1; [table_step 9 10|leaf_step 9].
    destruct (Level_index_in L2 va =? 72) eqn:E2; [table_step 10 11|leaf_step 10].
    destruct (Level_index_in L3 va =? 0) eqn:E3; leaf_step 11.
  - destruct (Level_index_in L0 va =? 511) eqn:E0''; [table_step 5 8|leaf_step 5].
    destruct (Level_index_in L1 va =? 510) eqn:E1; leaf_step 8.
Qed.
End walk.

(* ------------------------------------------------------------------------- *)
(** ** Properties *)

(** The registers the stub installs, and what the trampoline is to map. *)
Definition boot_regs (bb : Z) : MmuRegs := mkMmuRegs (idmap_l0 bb) (kernel_l0 bb) BOOT_TCR.

Definition TRAMPOLINE_RAM : LeafAttrs := mkLeafAttrs Normal KernelReadWrite InnerShareable ExecKernel.

Definition trampoline_plan : list plan_entry :=
  [mkPlan UART_PA (UART_PA + PAGE_SIZE) 0 DEVICE_ATTRS;
   mkPlan IMAGE_PA_BASE (IMAGE_PA_BASE + BLOCK_2MB) 0 TRAMPOLINE_RAM;
   mkPlan (IMAGE_PA_BASE + KERNEL_LINEAR_BASE) (IMAGE_PA_BASE + BLOCK_1GB + KERNEL_LINEAR_BASE) KERNEL_LINEAR_BASE TRAMPOLINE_RAM;
   mkPlan (UART_PA + KERNEL_DEVICE_BASE) (UART_PA + KERNEL_DEVICE_BASE + PAGE_SIZE) KERNEL_DEVICE_BASE DEVICE_ATTRS;
   mkPlan KERNEL_IMAGE_BASE (KERNEL_IMAGE_BASE + BLOCK_1GB) IMAGE_OFF TRAMPOLINE_RAM].

(** With [TBI0] set, the top byte of a low address is ignored. *)
Definition untagged (va : Z) : Z := if (va / 2 ^ 48) mod 2 ^ 8 =? 0 then va mod 2 ^ 48 else va.

(** Decide, branch by branch, where the walk and the plan put the address. *)
Ltac plan_cases :=
  unfold trampoline_plan, address; rewrite !Level_index_in_eq; cbn [planned pl_lo pl_hi pl_off Level_index_shift];
  change UART_PA with 0x09000000; change PAGE_SIZE with 4096; change BLOCK_2MB with 0x200000;
  change BLOCK_1GB with 0x40000000; unfold IMAGE_OFF; unfold_layout;
  repeat match goal with |- context [if ?a =? ?c then _ else _] => destruct (Z.eqb_spec a c) end;
  cbn [Level_index_shift]; try change (Entry_output_addr UART_LEAF) with 0x09000000;
  try change (Entry_output_addr RAM_BLOCK) with 0x40000000;
  Z.div_mod_to_equations;
  repeat match goal with |- context [(?a <=? ?x) && (?x <? ?b)] =>
    destruct (Z.leb_spec a x); cbn [andb]; try lia; try (destruct (Z.ltb_spec x b); cbn [andb]; try lia) end;
  try done; f_equal; lia.

Lemma idmap_planned va :
  (va / 2 ^ 48) mod 2 ^ 8 = 0 -> 0 <= va < 2 ^ 64 ->
  address (idmap_leaf va) va = planned trampoline_plan (untagged va).
Proof.
  intros Ht Hva. unfold untagged. rewrite Ht. change (0 =? 0) with true. cbv iota. unfold idmap_leaf. plan_cases.
Qed.

Lemma upper_planned va :
  va / 2 ^ 48 = 0xFFFF -> 0 <= va < 2 ^ 64 -> address (upper_leaf va) va = planned trampoline_plan va.
Proof. intros Ht Hva. unfold upper_leaf. plan_cases. Qed.

Lemma hole_planned va :
  va / 2 ^ 48 <> 0xFFFF -> (va / 2 ^ 48) mod 2 ^ 8 <> 0 -> 0 <= va < 2 ^ 64 -> planned trampoline_plan va = None.
Proof.
  intros H1 H2 Hva. destruct (planned_cases trampoline_plan va) as [(e & He & Hp & _)|[? _]]; [exfalso|done].
  unfold trampoline_plan, in_plan in *. change UART_PA with 0x09000000 in *.
  repeat (apply elem_of_cons in He as [->|He]); [..|by apply elem_of_nil in He]; cbn [pl_lo pl_hi] in Hp;
    change PAGE_SIZE with 4096 in *; change BLOCK_2MB with 0x200000 in *; change BLOCK_1GB with 0x40000000 in *;
    unfold_layout; divmod.
Qed.

(** Tables that hold the trampoline translate as its plan, with the stub's registers. *)
Lemma trampoline_walk bb m va :
  page_aligned bb -> bb + 0xC000 <= 2 ^ 48 -> trampoline_at bb m -> 0 <= va < 2 ^ 64 ->
  address (walk m (boot_regs bb) va) va = planned trampoline_plan (untagged va).
Proof.
  intros Hal Htop T Hva. unfold walk, boot_regs. cbn [TCR TTBR0 TTBR1].
  assert (page_aligned (idmap_l0 bb)) as Ha0 by done.
  assert (page_aligned (kernel_l0 bb)) as Ha1.
  { replace (kernel_l0 bb) with (bb + 0x1000 * 5) by (unfold kernel_l0; lia). by apply (table_aligned bb _ Hal Htop T). }
  unfold half, TBI1_SHIFT, TBI0_SHIFT. change (Z.testbit BOOT_TCR 38) with false. change (Z.testbit BOOT_TCR 37) with true.
  change (Z.testbit BOOT_TCR EPD1_SHIFT) with false. change (Z.testbit BOOT_TCR 7) with false. cbv iota.
  change (0 mod 2 ^ 8) with 0. rewrite !land_mask_aligned by done.
  destruct (Z.eqb_spec (va / 2 ^ 48) 0xFFFF) as [E|E].
  - rewrite (upper_walk bb _ Hal Htop T), upper_planned by done. unfold untagged. rewrite E. done.
  - destruct (Z.eqb_spec ((va / 2 ^ 48) mod 2 ^ 8) 0) as [E'|E'].
    + rewrite (idmap_walk bb _ Hal Htop T). by apply idmap_planned.
    + unfold untagged. destruct (Z.eqb_spec ((va / 2 ^ 48) mod 2 ^ 8) 0); [done|]. by rewrite hole_planned.
Qed.

(** The upper half, whatever TTBR0 and [EPD0] are. *)
Lemma trampoline_root m bb t0 tcr va :
  page_aligned bb -> bb + 0xC000 <= 2 ^ 48 -> trampoline_at bb m -> upper va ->
  tcr = BOOT_TCR \/ tcr = Z.lor BOOT_TCR TCR_EPD0 ->
  address (walk m (mkMmuRegs t0 (kernel_l0 bb) tcr) va) va = planned trampoline_plan va.
Proof.
  intros Hal Htop T Hu Ht. assert (0 <= va < 2 ^ 64) as Hva by (unfold upper, UPPER in *; lia).
  assert (page_aligned (kernel_l0 bb)) as Ha1.
  { replace (kernel_l0 bb) with (bb + 0x1000 * 5) by (unfold kernel_l0; lia). by apply (table_aligned bb m Hal Htop T). }
  rewrite walk_root, <- (walk_root m (idmap_l0 bb) _ BOOT_TCR) by (done || by left).
  change (mkMmuRegs _ _ _) with (boot_regs bb). rewrite (trampoline_walk bb m va) by done. unfold untagged.
  replace (va / 2 ^ 48) with 0xFFFF; [done|]. unfold upper, UPPER in *. divmod.
Qed.

Lemma install_roots_at_rest m bb s : at_rest m (boot_regs bb) (install_roots bb s).
Proof. constructor; [done..|]. intros ? ? []%elem_of_nil. Qed.

(** The stub leaves them, and its registers in force. *)
Lemma boot_stub_ok bss_lo bss_hi bb fdt m s :
  exists m', boot_stub bss_lo bss_hi bb fdt m s = Ok (m', install_roots bb s, Z.lor fdt KERNEL_LINEAR_BASE) /\
    at_rest m' (boot_regs bb) (install_roots bb s) /\ trampoline_at bb m' /\
    forall x, bss_lo <= x < bss_hi -> ~ bb <= x < bb + 0xC000 -> m' x = 0.
Proof.
  unfold boot_stub. destruct (clear_loop_ok bss_lo bss_hi m) as (m1 & -> & Hz1 & _). cbn [obind].
  destruct (clear_loop_ok (idmap_l0 bb) (device_l3 bb + 0x1000) m1) as (m2 & -> & Hz2 & Ho2). cbn [obind].
  exists (build_tables bb m2). split_and!; [done|apply install_roots_at_rest| |].
  - apply build_tables_ok. intros x Hx. apply Hz2. unfold idmap_l0, device_l3. lia.
  - intros x Hx Hb. rewrite build_tables_frame by done. rewrite Ho2; [by apply Hz1|].
    unfold idmap_l0, device_l3. replace (bb + 45056 + 4096 - bb) with 49152 by lia. change (div_ceil 49152 8) with 6144. lia.
Qed.

(** C32: the trampoline.  Whatever memory held before, the stub's stores leave tables
    whose walk, with the words it installs in [TCR_EL1] and the two roots, translates
    exactly five ranges: the UART page and the image's first 2 MiB at their own
    addresses, a gigabyte of RAM in the linear window, the UART page in the device
    window, and a gigabyte in the image window; every other address faults. *)
Theorem trampoline_maps bb bss_lo bss_hi fdt m s m' s' dtb va :
  page_aligned bb -> bb + 0xC000 <= 2 ^ 48 -> 0 <= va < 2 ^ 64 ->
  boot_stub bss_lo bss_hi bb fdt m s = Ok (m', s', dtb) ->
  at_rest m' (boot_regs bb) s' /\
  address (walk m' (boot_regs bb) va) va = planned trampoline_plan (untagged va).
Proof.
  intros Hal Htop Hva. destruct (boot_stub_ok bss_lo bss_hi bb fdt m s) as (m0 & -> & A & T & _).
  intros [= <- <- <-]. split; [exact A|by apply trampoline_walk].
Qed.

(** The linker's addresses, with memory full of ones before. *)
Lemma trampoline_maps_witness :
  exists m' s' dtb, boot_stub 0x40130000 0x40180000 0x40081000 0x48000000 (fun _ => 2 ^ 64 - 1) trampoline_mmu = Ok (m', s', dtb) /\
    address (walk m' (boot_regs 0x40081000) 0xFFFFFFFF80101234) 0xFFFFFFFF80101234 = Some 0x40101234.
Proof.
  destruct (boot_stub_ok 0x40130000 0x40180000 0x40081000 0x48000000 (fun _ => 2 ^ 64 - 1) trampoline_mmu) as (m' & E & _).
  eexists _, _, _. split; [exact E|]. eapply trampoline_maps in E as [_ ->]; [by vm_compute|split; [lia|by exists 0x40081]|lia|lia].
Defined.

Lemma lor_field_set x k : 0 <= k -> Z.land (Z.shiftr (Z.lor x (Z.shiftl 3 k)) k) 3 = 3.
Proof.
  intros Hk. rewrite Z.shiftr_lor, Z.shiftr_shiftl_l, Z.sub_diag, Z.shiftl_0_r by done. apply Z.bits_inj'. intros n _.
  rewrite Z.land_spec, Z.lor_spec. destruct (Z.testbit 3 n); by rewrite ?orb_true_r, ?andb_false_r.
Qed.

(** C35: the entry contract.  From EL1 or EL2 with the MMU off, [_start] reaches [kmain]
    at EL1 with floating point enabled, the MMU on and the stack at its upper-half
    address, through what [boot_stub] does; from EL2 it arrives as EL1h with all
    interrupts masked, EL1 executes AArch64 and no trap to EL2 is left set.  A live MMU
    or another level parks the CPU before it has written anything. *)
Theorem start_meets_contract bss_lo bss_hi bb stack_top_pa stack_top x0 c m s :
  0 <= CurrentEL c ->
  let el := Z.land (Z.shiftr (CurrentEL c) 2) 3 in
  CurrentEL c = Z.shiftl el 2 ->
  match start bss_lo bss_hi bb stack_top_pa stack_top x0 c m s with
  | Ok (inr (c', r)) =>
      (el = 1 \/ el = 2) /\ Z.testbit (sctlr_el1 c) 0 = false /\
      boot_stub bss_lo bss_hi bb x0 m s = Ok r /\
      CurrentEL c' = 4 /\ Z.testbit (sctlr_el1 c') 0 = true /\ Z.land (Z.shiftr (cpacr_el1 c') 20) 3 = 3 /\
      boot_sp c' = stack_top /\
      (el = 1 -> pstate c' = pstate c) /\
      (el = 2 -> Spsr_mode (pstate c') = El1h /\ Z.land (Z.shiftr (pstate c') 6) 15 = 15 /\
                 Z.testbit (hcr_el2 c') 31 = true /\ Z.land (cnthctl_el2 c') 3 = 3 /\
                 cntvoff_el2 c' = 0 /\ cptr_el2 c' = 0)
  | Ok (inl BadBootMmu) => (el = 1 \/ el = 2) /\ Z.testbit (sctlr_el1 c) 0 = true
  | Ok (inl UnsupportedEl) => el = 0 \/ el = 3
  | Panic _ => False
  end.
Proof.
  intros Hpos el Hel. assert (0 <= el < 4) as Hr by (unfold el; change 3 with (Z.ones 2); rewrite Z.land_ones by done; divmod).
  assert (Z.shiftr (CurrentEL c) 2 = el) as Hs.
  { rewrite Hel, Z.shiftr_shiftl_l by done. apply Z.shiftl_0_r. }
  assert (forall x, (Z.land x 1 =? 0) = negb (Z.testbit x 0)) as Hbit.
  { intros x. change 1 with (Z.ones 1). rewrite Z.land_ones by done. change (2 ^ 1) with 2.
    rewrite <- Z.bit0_mod. by destruct (Z.testbit x 0). }
  unfold start. rewrite Hs. unfold el2_drop, eret_to. cbn [sctlr_el1]. rewrite !Hbit, !negb_involutive.
  destruct (boot_stub_ok bss_lo bss_hi bb x0 m s) as (m' & -> & _). cbn [obind].
  destruct (Z.eqb_spec el 1) as [E1|E1]; [|destruct (Z.eqb_spec el 2) as [E2|E2]; [|lia]];
    (destruct (Z.testbit (sctlr_el1 c) 0) eqn:Em; [by auto|]);
    cbn [CurrentEL sctlr_el1 cpacr_el1 boot_sp pstate hcr_el2 cnthctl_el2 cntvoff_el2 cptr_el2 el1_init mmu_on].
  all: assert (forall x, Z.testbit (Z.lor x 1) 0 = true) as Hon by (intros; rewrite Z.lor_spec; apply orb_true_r).
  - split_and!; [by left|done..|by rewrite Hel, E1|apply Hon|by apply lor_field_set|done|done|lia].
  - split_and!; [by right|done..|apply Hon|by apply lor_field_set|done|lia|].
    intros _. split_and!; try done. exact (lor_field_set (cnthctl_el2 c) 0 ltac:(done)).
Qed.

(** Handed over by firmware at EL2, with the MMU off. *)
Lemma start_meets_contract_witness :
  exists c' r, start 0x40130000 0x40180000 0x40081000 0x401C0000 0xFFFFFFFF801C0000 0x48000000
      (mkBootCpu 8 0x3c9 0 0 0 0x33ff 0x30d00800 0 0) (fun x => x) trampoline_mmu = Ok (inr (c', r)) /\
    CurrentEL c' = 4 /\ Spsr_mode (pstate c') = El1h.
Proof.
  pose proof (start_meets_contract 0x40130000 0x40180000 0x40081000 0x401C0000 0xFFFFFFFF801C0000 0x48000000
    (mkBootCpu 8 0x3c9 0 0 0 0x33ff 0x30d00800 0 0) (fun x => x) trampoline_mmu ltac:(cbn; lia) eq_refl) as H.
  destruct (start _ _ _ _ _ _ _ _ _) as [[[]|[c' r]]|]; [by destruct H|by destruct H as [_ H]| |by destruct H].
  exists c', r. destruct H as (_ & _ & _ & ? & _ & _ & _ & _ & H2). by destruct (H2 eq_refl).
Defined.
