(* ===== verification/Slab.v ===== *)
(** * kernel/mm/slab.rs: the kernel's global allocator

    Size classes, the intrusive free lists, and the [GlobalAlloc] methods.  A free
    object's first word is the link to the next one, so the lists live in the
    model's memory: [heap] maps the virtual address of a word to its value, and a
    null [Option<NonNull>] is the word 0.  The two locks ([LockedSlab]'s and
    [BUDDY]'s) make each method one atomic step of the [World]. *)

From S2P Require Import Prelude FrameTypes Layout Buddy.

Definition CLASSES : list Z := [8; 16; 32; 64; 128; 256; 512; 1024; 2048].

(** [Slab], the memory its links live in, and the [BUDDY] static. *)
Record World := mkWorld {
  free_lists : list (option Z);
  heap : Z -> Z;
  buddy : option BuddyAllocator;
}.

Definition Slab_new : list (option Z) := replicate (length CLASSES) None.

(** [Option<NonNull<FreeObject>>] as the word that holds it. *)
Definition link_word (l : option Z) : Z := default 0 l.
Definition word_link (w : Z) : option Z := if w =? 0 then None else Some w.

Definition with_list (w : World) (ls : list (option Z)) : World := mkWorld ls (heap w) (buddy w).
Definition with_heap (w : World) (m : Z -> Z) : World := mkWorld (free_lists w) m (buddy w).
Definition with_buddy (w : World) (b : BuddyAllocator) : World :=
  mkWorld (free_lists w) (heap w) (Some b).

Section slab.
Context {P : Profile}.

(** One turn of the search: the first class that is large enough. *)
Definition size_class_step (need i : Z) : outcome (Z + option Z) :=
  if i <? lenz CLASSES then
    let! c := idx CLASSES i in
    if need <=? c then Ok (inr (Some i))
    else let! i := uadd 64 i 1 in Ok (inl i)
  else Ok (inr None).

Definition size_class_index (size align : Z) : outcome (option Z) :=
  let need := Z.max size align in
  loop (S (length CLASSES)) (size_class_step need) 0.

Definition objects_per_page (i : Z) : outcome Z :=
  let! c := idx CLASSES i in
  udiv PAGE_SIZE c.

Definition pages_order (size : Z) : outcome Z :=
  let! p := next_power_of_two (div_ceil size PAGE_SIZE) in
  Ok (as_u8 (trailing_zeros 64 p)).

Definition Slab_push (i ptr : Z) (w : World) : outcome World :=
  let! next := idx (free_lists w) i in
  let w := with_heap w (<[ptr := link_word next]> (heap w)) in
  let! ls := set_idx (free_lists w) i (Some ptr) in
  Ok (with_list w ls).

Definition Slab_pop (i : Z) (w : World) : outcome (option Z * World) :=
  let! head := idx (free_lists w) i in
  match head with
  | None => Ok (None, w)
  | Some node =>
      let next := word_link (heap w node) in
      let! ls := set_idx (free_lists w) i next in
      Ok (Some node, with_list w ls)
  end.

(** The body of [refill]'s loop. *)
Definition refill_step (base size i : Z) (w : World) (k : Z) : outcome World :=
  let! off := umul 64 k size in
  let! p := uadd 64 base off in
  Slab_push i p w.

(** The loop of [refill]: the page at [pa] becomes class-[i] objects. *)
Definition Slab_carve (i pa : Z) (w : World) : outcome World :=
  let! base := pa_to_linear_va pa in
  let! size := idx CLASSES i in
  let! n := objects_per_page i in
  foldM (refill_step base size i) (seqZ 0 n) w.

Definition Slab_refill (i : Z) (w : World) : outcome (option unit * World) :=
  match buddy w with
  | None => Ok (None, w)
  | Some b =>
      let! '(r, b) := BuddyAllocator_alloc_page b in
      let w := with_buddy w b in
      match r with
      | None => Ok (None, w)
      | Some pa => let! w := Slab_carve i pa w in Ok (Some tt, w)
      end
  end.

(** [large_alloc] and [large_dealloc]; the pointer 0 is null. *)
Definition large_alloc (size : Z) (w : World) : outcome (Z * World) :=
  let! order := pages_order size in
  match buddy w with
  | None => Ok (0, w)
  | Some b =>
      let! '(r, b) := BuddyAllocator_alloc_pages b order in
      let w := with_buddy w b in
      match r with
      | Some pa => let! va := pa_to_linear_va pa in Ok (va, w)
      | None => Ok (0, w)
      end
  end.

Definition large_dealloc (ptr size : Z) (w : World) : outcome World :=
  let! pa := linear_va_to_pa ptr in
  match buddy w with
  | Some b =>
      let! order := pages_order size in
      let! b := BuddyAllocator_free_pages b pa order in
      Ok (with_buddy w b)
  | None => Ok w
  end.

(** [GlobalAlloc::alloc] and [dealloc] of [LockedSlab]. *)
Definition LockedSlab_alloc (size align : Z) (w : World) : outcome (Z * World) :=
  let! class := size_class_index size align in
  match class with
  | Some i =>
      let! head := idx (free_lists w) i in
      let! '(ready, w) :=
        match head with
        | None => let! '(r, w) := Slab_refill i w in Ok (bool_decide (is_Some r), w)
        | Some _ => Ok (true, w)
        end in
      if negb ready then Ok (0, w)
      else
        let! '(p, w) := Slab_pop i w in
        Ok (default 0 p, w)
  | None => large_alloc size w
  end.

Definition LockedSlab_dealloc (ptr size align : Z) (w : World) : outcome World :=
  let! class := size_class_index size align in
  match class with
  | Some i =>
      let! p := unwrap (if ptr =? 0 then None else Some ptr) in
      Slab_push i p w
  | None => large_dealloc ptr size w
  end.
End slab.
