(* ===== verification/SlabInv.v ===== *)
(** * Slab allocator: its invariant

    Every byte range the slab knows, cached or lent out, is an [object]; the
    invariant [slab_inv] says the lists in memory hold exactly the cached ones, that
    no two objects overlap, and that each lies in one block the buddy allocator has
    handed out.  The lemmas carry it through every operation. *)

From stdpp Require Import sorting.
From S2P Require Import Prelude FrameTypes Layout Buddy BuddyInv BuddyGeom BuddyWf BuddySteps BuddyCore BuddyFree BuddyRange BuddyCanon BuddyProps BuddyAddr Slab.

(* ------------------------------------------------------------------------- *)
(** ** Objects that do not overlap *)

(** An address and a length in bytes. *)
Notation object := (Z * Z)%type.

Definition obj_apart (o o' : object) : Prop := o.1 + o.2 <= o'.1 \/ o'.1 + o'.2 <= o.1.

Fixpoint pairwise_apart (l : list object) : Prop :=
  match l with
  | [] => True
  | o :: l => Forall (obj_apart o) l /\ pairwise_apart l
  end.

Lemma obj_apart_sym o o' : obj_apart o o' -> obj_apart o' o.
Proof. unfold obj_apart. tauto. Qed.

#[export] Instance pairwise_apart_proper : Proper ((≡ₚ) ==> iff) pairwise_apart.
Proof.
  assert (forall l l', l ≡ₚ l' -> pairwise_apart l -> pairwise_apart l') as H.
  { induction 1 as [|o l l' Hp IH|o o' l|]; simpl; [done| | |tauto].
    - intros [Ho Hl]. split; [by rewrite <- Hp|by apply IH].
    - intros [Ho [Ho' Hl]]. apply list.Forall_cons in Ho as [? ?]. split_and!; [|done..].
      apply list.Forall_cons. split; [by apply obj_apart_sym|done]. }
  intros l l' Hp. split; apply H; [done|by symmetry].
Qed.

Lemma pairwise_apart_app l l' :
  pairwise_apart (l ++ l') <->
  pairwise_apart l /\ pairwise_apart l' /\ forall o o', o ∈ l -> o' ∈ l' -> obj_apart o o'.
Proof.
  induction l as [|x l IH]; simpl.
  - split; [|tauto]. intros. split_and!; [done..|]. intros ? ? []%elem_of_nil.
  - rewrite list.Forall_app, IH, !list.Forall_forall. set_solver.
Qed.

Lemma apart_ne p n q k : 0 < n -> 0 < k -> obj_apart (p, n) (q, k) -> p <> q.
Proof. unfold obj_apart. simpl. lia. Qed.

(* ------------------------------------------------------------------------- *)
(** ** Size classes *)

Notation NR_CLASSES := 9.
(** [CLASSES[i]] *)
Notation class_size i := (2 ^ (i + 3)).

Lemma CLASSES_getz i : 0 <= i < NR_CLASSES -> getz CLASSES i = Some (class_size i).
Proof.
  intros H. assert (i ∈ seqZ 0 9) as Hin by (apply elem_of_seqZ; lia). clear H. revert i Hin.
  apply list.Forall_forall. vm_compute seqZ. repeat constructor.
Qed.

Lemma class_size_range i : 0 <= i < NR_CLASSES -> 8 <= class_size i <= 2048.
Proof.
  intros. change 8 with (2 ^ 3). change 2048 with (2 ^ 11).
  split; apply Z.pow_le_mono_r; lia.
Qed.

(** What [Layout] guarantees: a power-of-two alignment and a size that fits an
    [isize] once rounded up to it. *)
Definition layout_ok (size align : Z) : Prop :=
  (exists k, 0 <= k /\ align = 2 ^ k) /\ 0 <= size /\ size + align <= 2 ^ 63.

Section slab_props.
Context {P : Profile}.

Lemma size_class_step_eq need i :
  0 <= i < NR_CLASSES ->
  size_class_step need i = if need <=? class_size i then Ok (inr (Some i)) else Ok (inl (i + 1)).
Proof.
  intros Hi. unfold size_class_step. change (lenz CLASSES) with 9.
  destruct (Z.ltb_spec i 9); [|lia]. rewrite (idx_ok _ _ _ (CLASSES_getz i Hi)). cbn [obind].
  by rewrite uadd_ok by lia.
Qed.

(** The search returns the least class that is large enough, if there is one. *)
Lemma size_class_cases size align :
  (exists i, size_class_index size align = Ok (Some i) /\ 0 <= i < NR_CLASSES /\
     Z.max size align <= class_size i /\ (i = 0 \/ class_size (i - 1) < Z.max size align)) \/
  (size_class_index size align = Ok None /\ 2048 < Z.max size align).
Proof.
  unfold size_class_index. set (need := Z.max size align).
  destruct (loop_rule (fun i => 0 <= i <= NR_CLASSES /\ (i = 0 \/ class_size (i - 1) < need))
    (fun r => match r with
       | Some i => 0 <= i < NR_CLASSES /\ need <= class_size i /\ (i = 0 \/ class_size (i - 1) < need)
       | None => 2048 < need end)
    (fun i => NR_CLASSES - i) (size_class_step need)) with (fuel := S (length CLASSES)) (s := 0)
    as (r & -> & Hr).
  - intros i [Hi Hlow]. split; [lia|]. destruct (decide (i = 9)) as [->|].
    + right. exists None. split; [done|]. destruct Hlow as [|H]; [lia|]. exact H.
    + rewrite size_class_step_eq by lia. destruct (Z.leb_spec need (class_size i)); [right|left].
      * exists (Some i). split; [done|]. split_and!; [lia..|done|done].
      * exists (i + 1). split; [done|]. split; [|lia]. split; [lia|right].
        by replace (i + 1 - 1) with i by lia.
  - split; [lia|by left].
  - done.
  - destruct r as [i|]; [left; exists i; tauto|right; tauto].
Qed.

Lemma objects_per_page_ok i :
  0 <= i < NR_CLASSES -> objects_per_page i = Ok (2 ^ (9 - i)) /\ 2 ^ (9 - i) * class_size i = PAGE_SIZE.
Proof.
  intros Hi. assert (2 ^ (9 - i) * class_size i = PAGE_SIZE) as E.
  { rewrite <- Z.pow_add_r by lia. by replace (9 - i + (i + 3)) with 12 by lia. }
  split; [|done]. unfold objects_per_page. rewrite (idx_ok _ _ _ (CLASSES_getz i Hi)). cbn [obind].
  unfold udiv. pose proof (class_size_range i Hi). destruct (Z.eqb_spec (class_size i) 0); [lia|].
  rewrite <- E. by rewrite Z.div_mul.
Qed.

Lemma pages_order_cases size :
  0 <= size <= 2 ^ 63 ->
  exists o, pages_order size = Ok o /\ 0 <= o <= 51 /\ size <= block_bytes o /\
            (o = 0 \/ block_bytes (o - 1) < size).
Proof.
  intros Hs. unfold pages_order, block_bytes, PAGE_SIZE. pose proof (div_ceil_spec size 4096 ltac:(lia)) as Hd.
  set (n := div_ceil size 4096) in *. set (o := Z.log2_up n).
  assert (0 <= o) as Ho by apply Z.log2_up_nonneg.
  assert (o <= 51) as Ho'.
  { change 51 with (Z.log2_up (2 ^ 51)). apply Z.log2_up_le_mono. lia. }
  assert (n <= 2 ^ o /\ (o = 0 \/ 2 ^ (o - 1) < n)) as [Hn Hl].
  { destruct (Z.le_gt_cases n 1) as [H|H].
    - assert (o = 0) as -> by (unfold o; by apply Z.log2_up_eqn0). lia.
    - destruct (Z.log2_up_spec n H) as [H1 H2]. fold o in H1, H2. rewrite <- Z.sub_1_r in H1. tauto. }
  exists o. unfold next_power_of_two. fold o.
  assert (2 ^ o < 2 ^ 64) by (apply Z.pow_lt_mono_r; lia).
  destruct (Z.ltb_spec (2 ^ o) (2 ^ 64)); [|lia]. cbn [obind].
  rewrite trailing_zeros_pow2, as_u8_small by lia. split_and!; [done|lia..|].
  destruct Hl as [|Hl]; [by left|right; lia].
Qed.

(** The bytes set aside for a request. *)
Definition usable (size align : Z) : Z :=
  match size_class_index size align, pages_order size with
  | Ok (Some i), _ => class_size i
  | Ok None, Ok o => block_bytes o
  | _, _ => 0
  end.
End slab_props.

(* ------------------------------------------------------------------------- *)
(** ** The invariant *)

(** The list the words of [m] hold, from head [h]. *)
Fixpoint chain (m : Z -> Z) (h : option Z) (l : list Z) : Prop :=
  match l with
  | [] => h = None
  | p :: l => h = Some p /\ 0 < p /\ chain m (word_link (m p)) l
  end.

(** The cached objects of class [i], and of all classes. *)
Definition of_class (i : Z) (l : list Z) : list object := (fun p => (p, class_size i)) <$> l.
Definition listed (fl : Z -> list Z) : list object :=
  seqZ 0 NR_CLASSES ≫= fun i => of_class i (fl i).

(** An object lies in one block of the buddy allocator; it is aligned to its class,
    or is the whole block when it is larger than any class. *)
Definition object_ok (bd : option BuddyAllocator) (o : object) : Prop :=
  8 <= o.2 /\
  exists b p k, bd = Some b /\ allocated b p = Some k /\
    frame_va b p <= o.1 /\ o.1 + o.2 <= frame_va b p + block_bytes k /\
    (o.2 <= 2048 -> (o.2 | o.1)) /\ (2048 < o.2 -> o = (frame_va b p, block_bytes k)).

(** [fl i] is what class [i] caches; [live] is what clients hold. *)
Record slab_inv (fl : Z -> list Z) (live : list object) (w : World) : Prop := {
  si_len : lenz (free_lists w) = NR_CLASSES;
  si_chain : forall i h, getz (free_lists w) i = Some h -> chain (heap w) h (fl i);
  si_apart : pairwise_apart (listed fl ++ live);
  si_object : forall o, o ∈ listed fl ++ live -> object_ok (buddy w) o;
  si_buddy : forall b, buddy w = Some b -> placed b;
}.

Lemma chain_frame m m' h l : (forall p, p ∈ l -> m' p = m p) -> chain m h l -> chain m' h l.
Proof.
  revert h. induction l as [|p l IH]; intros h Hm; simpl; [done|].
  intros (-> & Hp & Hc). split_and!; [done..|]. rewrite Hm by set_solver. apply IH; [set_solver|done].
Qed.

Lemma chain_link m h l : chain m h l -> word_link (link_word h) = h.
Proof.
  destruct l as [|p l]; simpl; [by intros ->|]. intros (-> & Hp & _). unfold word_link, link_word.
  simpl. by destruct (Z.eqb_spec p 0); [lia|].
Qed.

Lemma elem_of_class i l o : o ∈ of_class i l <-> exists p, o = (p, class_size i) /\ p ∈ l.
Proof. unfold of_class. rewrite list_elem_of_fmap. done. Qed.

Lemma elem_of_listed fl i p : 0 <= i < NR_CLASSES -> p ∈ fl i -> (p, class_size i) ∈ listed fl.
Proof.
  intros Hi Hp. apply list_elem_of_bind. exists i. split; [|apply elem_of_seqZ; lia].
  apply elem_of_class. eauto.
Qed.

Lemma bind_insert_ne (js : list Z) i l fl :
  i ∉ js -> (js ≫= fun j => of_class j ((<[i := l]> fl) j)) = js ≫= fun j => of_class j (fl j).
Proof.
  induction js as [|j js IH]; [done|]. intros Hi. csimpl.
  rewrite fn_lookup_insert_ne by set_solver. rewrite IH by set_solver. done.
Qed.

(** Changing one class leaves the others as they are. *)
Lemma listed_insert fl i :
  0 <= i < NR_CLASSES ->
  exists rest, listed fl ≡ₚ of_class i (fl i) ++ rest /\
               forall l, listed (<[i := l]> fl) ≡ₚ of_class i l ++ rest.
Proof.
  intros Hi. unfold listed. pose proof (NoDup_seqZ 0 9) as Hnd.
  destruct (list_elem_of_split (seqZ 0 9) i) as (l1 & l2 & E); [apply elem_of_seqZ; lia|].
  rewrite E in *. apply list.NoDup_app in Hnd as (_ & H1 & H2). apply list.NoDup_cons in H2 as [H2 _].
  exists ((l1 ≫= fun j => of_class j (fl j)) ++ (l2 ≫= fun j => of_class j (fl j))).
  split; [|intros l]; rewrite bind_app; csimpl.
  - by rewrite !(assoc (++)), (comm (++) (l1 ≫= _)).
  - rewrite fn_lookup_insert, !bind_insert_ne by set_solver.
    by rewrite !(assoc (++)), (comm (++) (l1 ≫= _)).
Qed.

Lemma listed_push fl i p live :
  0 <= i < NR_CLASSES ->
  listed (<[i := p :: fl i]> fl) ++ live ≡ₚ listed fl ++ (p, class_size i) :: live.
Proof.
  intros Hi. destruct (listed_insert fl i Hi) as (rest & H1 & H2). rewrite H2, H1. simpl.
  by rewrite <- Permutation_middle.
Qed.

Lemma listed_pop fl i p l live :
  0 <= i < NR_CLASSES -> fl i = p :: l ->
  listed fl ++ live ≡ₚ listed (<[i := l]> fl) ++ (p, class_size i) :: live.
Proof.
  intros Hi E. destruct (listed_insert fl i Hi) as (rest & H1 & H2). rewrite H2, H1, E. simpl.
  by rewrite <- Permutation_middle.
Qed.

(** A fresh world caches nothing. *)
Lemma slab_inv_new m bd :
  (forall b, bd = Some b -> placed b) -> slab_inv (fun _ => []) [] (mkWorld Slab_new m bd).
Proof.
  intros Hb. split; [done| |done|intros ? []%elem_of_nil|done].
  intros i h. cbn [free_lists heap]. unfold Slab_new. rewrite getz_replicate. destruct (_ && _); [|done].
  by intros [= <-].
Qed.

Section operations.
Context {P : Profile}.

Lemma list_present fl live w i :
  slab_inv fl live w -> 0 <= i < NR_CLASSES ->
  exists h, getz (free_lists w) i = Some h /\ chain (heap w) h (fl i).
Proof.
  intros I Hi. destruct (getz_is_Some (free_lists w) i) as [h E]; [by rewrite (si_len _ _ _ I)|].
  exists h. split; [done|by apply I].
Qed.

(** An object given back becomes the head of its class's list. *)
Lemma push_ok fl live w i p :
  0 <= i < NR_CLASSES -> slab_inv fl ((p, class_size i) :: live) w ->
  exists h w', getz (free_lists w) i = Some h /\ Slab_push i p w = Ok w' /\
    w' = mkWorld (setz (free_lists w) i (Some p)) (<[p := link_word h]> (heap w)) (buddy w) /\
    slab_inv (<[i := p :: fl i]> fl) live w'.
Proof.
  intros Hi I. destruct (list_present _ _ _ _ I Hi) as (h & E & Hc).
  exists h, (mkWorld (setz (free_lists w) i (Some p)) (<[p := link_word h]> (heap w)) (buddy w)).
  unfold Slab_push. rewrite (idx_ok _ _ _ E). cbn [obind free_lists with_heap heap].
  rewrite set_idx_ok by (by rewrite (si_len _ _ _ I)). split_and!; [done..|].
  assert (forall j q, 0 <= j < NR_CLASSES -> q ∈ fl j -> q <> p) as Hne.
  { intros j q Hj Hq. destruct I as [_ _ Hap _ _]. apply pairwise_apart_app in Hap as (_ & _ & Hap).
    pose proof (class_size_range i Hi). pose proof (class_size_range j Hj).
    eapply (apart_ne q (class_size j) p (class_size i)); [lia..|]. apply Hap; [by apply elem_of_listed|by left]. }
  split; cbn [free_lists heap buddy].
  - by rewrite lenz_setz, (si_len _ _ _ I).
  - intros j h' Hj. destruct (decide (i = j)) as [<-|Hij].
    + rewrite getz_setz_eq in Hj by (by rewrite (si_len _ _ _ I)). simplify_eq. rewrite fn_lookup_insert.
      destruct (si_object _ _ _ I (p, class_size i)) as (_ & b & q & k & Hb & Ha & Hlo & _); [set_solver|].
      pose proof (si_buddy _ _ _ I b Hb) as Hpl.
      assert (0 < p).
      { destruct (wf_block_facts b q k (pl_wf _ Hpl) Ha) as (_ & ? & _).
        pose proof (frame_va_pos b q Hpl ltac:(lia)). simpl in Hlo. lia. }
      split_and!; [done..|]. rewrite fn_lookup_insert, (chain_link _ _ _ Hc).
      eapply chain_frame; [|exact Hc]. intros q' Hq'. apply fn_lookup_insert_ne. intros <-. by eapply Hne.
    + rewrite getz_setz_ne in Hj by done. rewrite fn_lookup_insert_ne by done.
      pose proof (getz_Some_range _ _ _ Hj) as Hr. rewrite (si_len _ _ _ I) in Hr.
      eapply chain_frame; [|by apply I]. intros q Hq. apply fn_lookup_insert_ne. intros <-. by eapply Hne.
  - rewrite listed_push by done. apply I.
  - intros o. rewrite listed_push by done. apply I.
  - apply I.
Qed.

(** The head of a list is lent out. *)
Lemma pop_ok fl live w i p l :
  0 <= i < NR_CLASSES -> slab_inv fl live w -> fl i = p :: l ->
  exists w', Slab_pop i w = Ok (Some p, w') /\ 0 < p /\
    w' = mkWorld (setz (free_lists w) i (word_link (heap w p))) (heap w) (buddy w) /\
    slab_inv (<[i := l]> fl) ((p, class_size i) :: live) w'.
Proof.
  intros Hi I Hl. destruct (list_present _ _ _ _ I Hi) as (h & E & Hc). rewrite Hl in Hc.
  destruct Hc as (-> & Hp & Hc). eexists. unfold Slab_pop. rewrite (idx_ok _ _ _ E). cbn [obind].
  rewrite set_idx_ok by (by rewrite (si_len _ _ _ I)). cbn [obind]. split_and!; [done..|].
  split; cbn [with_list free_lists heap buddy].
  - by rewrite lenz_setz, (si_len _ _ _ I).
  - intros j h' Hj. destruct (decide (i = j)) as [<-|Hij].
    + rewrite getz_setz_eq in Hj by (by rewrite (si_len _ _ _ I)). simplify_eq. by rewrite fn_lookup_insert.
    + rewrite getz_setz_ne in Hj by done. rewrite fn_lookup_insert_ne by done. by apply I.
  - rewrite <- (listed_pop fl i p l) by done. apply I.
  - intros o. rewrite <- (listed_pop fl i p l) by done. apply I.
  - apply I.
Qed.

(** Blocks the allocator gains leave the objects it already serves in theirs. *)
Lemma object_ok_handed_out b b' p o x :
  handed_out b b' p o -> object_ok (Some b) x -> object_ok (Some b') x.
Proof.
  intros H (Hx & c & q & k & [= <-] & Ha & Hrest). split; [done|]. exists b', q, k.
  rewrite !(frame_va_base b b') by apply H. split_and!; try done; [|by apply Hrest..].
  rewrite (ho_alloc _ _ _ _ H), fn_lookup_insert_ne; [done|]. intros ->.
  by rewrite (ho_fresh _ _ _ _ H) in Ha.
Qed.

(** Objects inside a block handed out just now are apart from all earlier ones. *)
Lemma grow_ok fl live w b b' p o new :
  slab_inv fl live w -> buddy w = Some b -> handed_out b b' p o ->
  pairwise_apart new -> (forall x, x ∈ new -> object_ok (Some b') x) ->
  (forall x, x ∈ new -> frame_va b p <= x.1 /\ x.1 + x.2 <= frame_va b p + block_bytes o) ->
  slab_inv fl (new ++ live) (with_buddy w b').
Proof.
  intros I Hb H Hnew Hok Hin. pose proof (si_buddy _ _ _ I b Hb) as Hpl.
  split; cbn [with_buddy free_lists heap buddy]; [apply I|apply I| | |].
  - rewrite (comm (++) new), (assoc (++)). apply pairwise_apart_app. split_and!; [apply I|done|].
    intros x y Hx Hy. destruct (si_object _ _ _ I x Hx) as (_ & c & q & k & Hc & Ha & Hlo & Hhi & _).
    rewrite Hb in Hc. simplify_eq. destruct (Hin y Hy) as [Hylo Hyhi].
    assert (allocated b' q = Some k /\ allocated b' p = Some o /\ q <> p) as (Ha' & Hp' & Hne).
    { rewrite !(ho_alloc _ _ _ _ H), fn_lookup_insert. rewrite fn_lookup_insert_ne; [|intros ->].
      - split_and!; [done..|]. intros ->. by rewrite (ho_fresh _ _ _ _ H) in Ha.
      - by rewrite (ho_fresh _ _ _ _ H) in Ha. }
    pose proof (allocated_bytes_apart b' q k p o (ho_wf _ _ _ _ H) Ha' Hp' Hne) as Hd.
    rewrite !(frame_va_base c b') in Hd by apply H. unfold obj_apart. lia.
  - intros x. rewrite !elem_of_app. intros [Hx|[Hx|Hx]]; [|by apply Hok|].
    all: eapply object_ok_handed_out; [exact H|]; rewrite <- Hb; apply I, elem_of_app; tauto.
  - intros c [= <-]. by eapply handed_out_placed.
Qed.

(** The slices of a page. *)
Definition slices (base size : Z) (ks : list Z) : list object := (fun k => (base + k * size, size)) <$> ks.

Lemma slices_apart base size s n : 0 < size -> pairwise_apart (slices base size (seqZ s n)).
Proof.
  intros Hs. destruct (Z.le_gt_cases n 0) as [|Hn]; [by rewrite seqZ_nil|].
  remember (Z.to_nat n) as m eqn:Em. assert (n = Z.of_nat m) as -> by lia. clear Em Hn.
  revert s. induction m as [|m IH]; intros s; [done|]. rewrite seqZ_cons by lia.
  replace (Z.pred (Z.of_nat (S m))) with (Z.of_nat m) by lia. cbn. split; [|apply IH].
  apply list.Forall_forall. intros x. unfold slices. rewrite list_elem_of_fmap.
  intros (k & -> & Hk%elem_of_seqZ). left. cbn. nia.
Qed.

(** [refill]'s loop caches every slice, the last on top, and writes nowhere else. *)
Lemma refill_loop base i ks : forall fl live w,
  0 <= i < NR_CLASSES -> slab_inv fl (slices base (class_size i) ks ++ live) w ->
  (forall k, k ∈ ks -> 0 <= k * class_size i < 2 ^ 64 /\ 0 <= base + k * class_size i < 2 ^ 64) ->
  exists fl' w', foldM (refill_step base (class_size i) i) ks w = Ok w' /\ slab_inv fl' live w' /\
    buddy w' = buddy w /\ fl' i = reverse ((fun k => base + k * class_size i) <$> ks) ++ fl i /\
    (forall j, j <> i -> fl' j = fl j) /\
    (forall x, (forall k, k ∈ ks -> x <> base + k * class_size i) -> heap w' x = heap w x).
Proof.
  induction ks as [|k ks IH]; intros fl live w Hi I Hk; simpl.
  - by exists fl, w.
  - destruct (Hk k ltac:(by left)) as [? ?]. unfold refill_step at 1.
    rewrite umul_ok by done. cbn [obind]. rewrite uadd_ok by done. cbn [obind].
    destruct (push_ok fl _ w i _ Hi I) as (h & w1 & _ & -> & -> & I1). cbn [obind].
    destruct (IH _ _ _ Hi I1) as (fl' & w' & -> & I' & Hbd & Hfl & Hoth & Hheap).
    { intros k' ?. apply Hk. by right. }
    exists fl', w'. split_and!; [done..| | |].
    + rewrite Hfl, fn_lookup_insert. csimpl. rewrite reverse_cons. by rewrite <- (assoc (++)).
    + intros j Hj. by rewrite Hoth, fn_lookup_insert_ne.
    + intros x Hx. rewrite Hheap by (intros k' ?; apply Hx; by right). cbn [heap].
      apply fn_lookup_insert_ne. intros <-. by apply (Hx k); [left|].
Qed.

(** The slices of a page below its last, as the list has them. *)
Definition other_slices (base i : Z) : list Z := reverse ((fun k => base + k * class_size i) <$> seqZ 0 (2 ^ (9 - i) - 1)).

(** What carving a page [q] of [b] for class [i] does: the list gets the page's slices. *)
Record refilled (fl fl' : Z -> list Z) (w w' : World) (b b' : BuddyAllocator) (q i : Z) (l : list Z) : Prop := {
  rl_from : buddy w = Some b;
  rl_block : handed_out b b' q 0;
  rl_to : buddy w' = Some b';
  rl_list : fl' i = (frame_va b q + PAGE_SIZE - class_size i) :: l;
  rl_rest : l = other_slices (frame_va b q) i ++ fl i;
  rl_others : forall j, j <> i -> fl' j = fl j;
  rl_heap : forall x, ~ frame_va b q <= x < frame_va b q + PAGE_SIZE -> heap w' x = heap w x;
}.

Lemma last_slice base i :
  0 <= i < NR_CLASSES ->
  reverse ((fun k => base + k * class_size i) <$> seqZ 0 (2 ^ (9 - i))) = (base + PAGE_SIZE - class_size i) :: other_slices base i.
Proof.
  intros Hi. destruct (objects_per_page_ok i Hi) as [_ Hpage].
  pose proof (pow2_pos (9 - i) ltac:(lia)) as Hpow.
  unfold other_slices. set (n := 2 ^ (9 - i)) in *. replace n with (n - 1 + 1) at 1 by lia.
  rewrite seqZ_app, fmap_app, reverse_app by lia. csimpl. f_equal. nia.
Qed.

Lemma refill_ok fl live w i :
  0 <= i < NR_CLASSES -> slab_inv fl live w ->
  (exists fl' w' b b' q l, Slab_refill i w = Ok (Some tt, w') /\ slab_inv fl' live w' /\
     refilled fl fl' w w' b b' q i l) \/
  (Slab_refill i w = Ok (None, w) /\
   match buddy w with Some b => forall p k, meta b p <> Some (Free, k) | None => True end).
Proof.
  intros Hi I. unfold Slab_refill, Slab_carve. destruct (buddy w) as [b|] eqn:Hb; [|by right].
  pose proof (si_buddy _ _ _ I b Hb) as Hpl. unfold BuddyAllocator_alloc_page.
  destruct (alloc_pages_cases b 0 Hpl) as [(p & b' & -> & H & Hva)|[-> Hn]]; [unfold MAX_ORDER; lia|left|right].
  - cbn [obind]. rewrite Hva. cbn [obind]. rewrite (idx_ok _ _ _ (CLASSES_getz i Hi)). cbn [obind].
    destruct (objects_per_page_ok i Hi) as [-> Hpage]. cbn [obind].
    pose proof (class_size_range i Hi) as Hc. pose proof (pow2_pos (9 - i) ltac:(lia)) as Hpow.
    pose proof (frame_va_page b p Hpl) as Hpg. pose proof (ho_block _ _ _ _ H) as (_ & Hp & _ & Hpn).
    assert (0 <= frame_va b p /\ frame_va b p + PAGE_SIZE < 2 ^ 64) as [Hv0 Hv1].
    { destruct Hpl as [_ ? _ ?]. unfold frame_va. unfold_layout. lia. }
    set (new := slices (frame_va b p) (class_size i) (seqZ 0 (2 ^ (9 - i)))).
    assert (forall x, x ∈ new -> exists k, x = (frame_va b p + k * class_size i, class_size i) /\
              0 <= k /\ k * class_size i + class_size i <= PAGE_SIZE) as Hnew.
    { intros x. unfold new, slices. rewrite list_elem_of_fmap. intros (k & -> & Hk%elem_of_seqZ).
      exists k. split; [done|]. rewrite <- Hpage. nia. }
    destruct (refill_loop (frame_va b p) i (seqZ 0 (2 ^ (9 - i))) fl live (with_buddy w b') Hi)
      as (fl' & w' & -> & I' & Hbd & Hfl & Hoth & Hheap).
    + apply (grow_ok fl live w b b' p 0); [done..| | |].
      * apply slices_apart. lia.
      * intros x (k & -> & Hk & Hend)%Hnew. split; cbn [fst snd]; [lia|]. exists b', p, 0.
        rewrite !(frame_va_base b b') by apply H. unfold block_bytes. split_and!; [done| |nia|lia| |lia].
        -- by rewrite (ho_alloc _ _ _ _ H), fn_lookup_insert.
        -- intros _. apply Z.divide_add_r; [|apply Z.divide_factor_r].
           etrans; [|exact Hpg]. rewrite <- Hpage. apply Z.divide_factor_r.
      * intros x (k & -> & Hk & Hend)%Hnew. unfold block_bytes. cbn [fst snd]. nia.
    + intros k Hk%elem_of_seqZ. nia.
    + cbn [obind]. rewrite (last_slice (frame_va b p) i Hi) in Hfl.
      exists fl', w', b, b', p, (other_slices (frame_va b p) i ++ fl i). split_and!; [done..|]. split; try done.
      intros x Hx. rewrite Hheap; [done|]. intros k Hk%elem_of_seqZ ->. apply Hx. nia.
  - cbn [obind]. split; [by destruct w; cbn in *; subst|].
    intros p k Hm. pose proof (Hn p k Hm). pose proof (wf_free_block _ _ _ (pl_wf _ Hpl) Hm) as []. lia.
Qed.
End operations.

(* ------------------------------------------------------------------------- *)
(** ** The methods *)

(** The buddy allocator is not up, or has no free block of order [o] or more. *)
Definition cannot_grant (bd : option BuddyAllocator) (o : Z) : Prop :=
  match bd with
  | Some b => forall p k, meta b p = Some (Free, k) -> k < o
  | None => True
  end.

Section methods.
Context {P : Profile}.

(** An allocation whose class caches nothing: the last slice of a fresh page. *)
Lemma alloc_first fl live w size align i :
  size_class_index size align = Ok (Some i) -> 0 <= i < NR_CLASSES -> slab_inv fl live w -> fl i = [] ->
  (exists w' fl' b b' q l, LockedSlab_alloc size align w = Ok (frame_va b q + PAGE_SIZE - class_size i, w') /\
     refilled fl fl' w w' b b' q i l /\ 0 < frame_va b q + PAGE_SIZE - class_size i /\
     slab_inv (<[i := l]> fl') ((frame_va b q + PAGE_SIZE - class_size i, class_size i) :: live) w') \/
  (LockedSlab_alloc size align w = Ok (0, w) /\ cannot_grant (buddy w) 0).
Proof.
  intros E Hi I Hl. unfold LockedSlab_alloc. rewrite E. cbn [obind].
  destruct (list_present _ _ _ _ I Hi) as (h & Eh & Hc). rewrite Hl in Hc. simpl in Hc. subst h.
  rewrite (idx_ok _ _ _ Eh). cbn [obind].
  destruct (refill_ok fl live w i Hi I) as [(fl' & w' & b & b' & q & l & -> & I' & R)|[-> Hn]].
  - left. cbn [obind]. rewrite bool_decide_true by eauto. cbn [negb].
    destruct (pop_ok fl' live w' i _ l Hi I' (rl_list _ _ _ _ _ _ _ _ _ R)) as (w2 & -> & Hp & -> & I2). cbn [obind].
    exists (mkWorld (setz (free_lists w') i (word_link (heap w' (frame_va b q + PAGE_SIZE - class_size i)))) (heap w') (buddy w')),
      fl', b, b', q, l. destruct R. by split_and!.
  - right. cbn [obind]. rewrite bool_decide_false by (by intros [? [=]]). split; [done|].
    unfold cannot_grant. destruct (buddy w); [|done]. intros p k Hm. by destruct (Hn p k).
Qed.

Lemma alloc_small fl live w size align i :
  size_class_index size align = Ok (Some i) -> 0 <= i < NR_CLASSES -> slab_inv fl live w ->
  match fl i with
  | p :: l => exists w', LockedSlab_alloc size align w = Ok (p, w') /\ 0 < p /\ buddy w' = buddy w /\ heap w' = heap w /\
                slab_inv (<[i := l]> fl) ((p, class_size i) :: live) w'
  | [] =>
      (exists w' fl' b b' q l, LockedSlab_alloc size align w = Ok (frame_va b q + PAGE_SIZE - class_size i, w') /\
         refilled fl fl' w w' b b' q i l /\ 0 < frame_va b q + PAGE_SIZE - class_size i /\
         slab_inv (<[i := l]> fl') ((frame_va b q + PAGE_SIZE - class_size i, class_size i) :: live) w') \/
      (LockedSlab_alloc size align w = Ok (0, w) /\ cannot_grant (buddy w) 0)
  end.
Proof.
  intros E Hi I. destruct (fl i) as [|p l] eqn:Hl; [by apply alloc_first|].
  - unfold LockedSlab_alloc. rewrite E. cbn [obind].
    destruct (list_present _ _ _ _ I Hi) as (h & Eh & Hc). rewrite Hl in Hc. rewrite (idx_ok _ _ _ Eh). cbn [obind].
    destruct Hc as (-> & _). cbn [obind negb].
    destruct (pop_ok fl live w i p l Hi I Hl) as (w2 & -> & Hp & -> & I2). cbn [obind]. eauto 8.
Qed.

Lemma alloc_large fl live w size align o :
  size_class_index size align = Ok None -> pages_order size = Ok o -> 0 <= o -> 2048 < block_bytes o ->
  slab_inv fl live w ->
  (exists b b' q, LockedSlab_alloc size align w = Ok (frame_va b q, with_buddy w b') /\ 0 < frame_va b q /\
     buddy w = Some b /\ handed_out b b' q o /\ ~ cannot_grant (buddy w) o /\
     slab_inv fl ((frame_va b q, block_bytes o) :: live) (with_buddy w b')) \/
  (LockedSlab_alloc size align w = Ok (0, w) /\ (MAX_ORDER <= o \/ cannot_grant (buddy w) o)).
Proof.
  intros E Eo Ho Hbig I. unfold LockedSlab_alloc, large_alloc. rewrite E. cbn [obind]. rewrite Eo. cbn [obind].
  destruct (buddy w) as [b|] eqn:Hb; [|right; split; [done|by right]].
  assert (with_buddy w b = w) as Hw by (destruct w; cbn in *; by subst).
  destruct (Z.lt_ge_cases o MAX_ORDER) as [Hm|Hm].
  - pose proof (si_buddy _ _ _ I b Hb) as Hpl. pose proof (alloc_pages_refused b o (pl_wf _ Hpl) Ho) as Href.
    destruct (alloc_pages_cases b o Hpl) as [(p & b' & E' & H & Hva)|[-> Hn]]; [done|left; rewrite E' in *|right].
    + cbn [obind]. rewrite Hva. cbn [obind]. pose proof (ho_block _ _ _ _ H) as (_ & Hp & _ & Hpn).
      exists b, b', p. split_and!; [done|by apply frame_va_pos|done..| |].
      { cbn [cannot_grant]. intros Hn. by specialize (Href Hn). }
      apply (grow_ok fl live w b b' p o [(frame_va b p, block_bytes o)]); [done..| | |].
      * simpl. split; [constructor|done].
      * intros x ->%list_elem_of_singleton. split; cbn [fst snd]; [lia|]. exists b', p, o.
        rewrite !(frame_va_base b b') by apply H. split_and!; [done| |lia..|done].
        by rewrite (ho_alloc _ _ _ _ H), fn_lookup_insert.
      * intros x ->%list_elem_of_singleton. cbn [fst snd]. lia.
    + cbn [obind]. rewrite Hw. split; [done|by right].
  - right. rewrite alloc_pages_too_large by done. cbn [obind]. rewrite Hw. split; [done|by left].
Qed.

(** The layout's class or page order, and what the reservation covers. *)
Lemma layout_cases size align :
  layout_ok size align ->
  (exists i, size_class_index size align = Ok (Some i) /\ 0 <= i < NR_CLASSES /\
     usable size align = class_size i /\ Z.max size align <= class_size i /\ (align | class_size i)) \/
  (exists o, size_class_index size align = Ok None /\ pages_order size = Ok o /\ 0 <= o <= 51 /\
     usable size align = block_bytes o /\ size <= block_bytes o /\ 2048 < Z.max size align /\
     2048 < block_bytes o).
Proof.
  intros ((k & Hk & ->) & Hs & Hsa). unfold usable.
  destruct (pages_order_cases size) as (o & Eo & Ho & Hle & _); [lia|].
  destruct (size_class_cases size (2 ^ k)) as [(i & E & Hi & Hmax & _)|[E Hmax]]; [left|right].
  - exists i. rewrite E. split_and!; [done || lia..|].
    assert (k <= i + 3) as Hki by (apply (Z.pow_le_mono_r_iff 2); lia).
    exists (2 ^ (i + 3 - k)). rewrite <- Z.pow_add_r by lia. f_equal. lia.
  - exists o. rewrite E, Eo. pose proof (block_bytes_pos o ltac:(lia)). unfold PAGE_SIZE in *.
    split_and!; done || lia.
Qed.

(** What a client may rely on in a live object. *)
Lemma live_object fl live w o :
  slab_inv fl live w -> o ∈ live -> object_ok (buddy w) o.
Proof. intros I Ho. apply (si_object _ _ _ I). set_solver. Qed.

Lemma dealloc_small fl live w size align i p :
  size_class_index size align = Ok (Some i) -> 0 <= i < NR_CLASSES -> 0 < p ->
  slab_inv fl ((p, class_size i) :: live) w ->
  exists h w', getz (free_lists w) i = Some h /\ LockedSlab_dealloc p size align w = Ok w' /\
    w' = mkWorld (setz (free_lists w) i (Some p)) (<[p := link_word h]> (heap w)) (buddy w) /\
    slab_inv (<[i := p :: fl i]> fl) live w'.
Proof.
  intros E Hi Hp I. unfold LockedSlab_dealloc. rewrite E. cbn [obind].
  destruct (Z.eqb_spec p 0); [lia|]. cbn [unwrap obind]. by apply push_ok.
Qed.

(** A whole block goes back to the buddy allocator. *)
Lemma block_back fl live w o p :
  0 <= o -> 2048 < block_bytes o -> slab_inv fl ((p, block_bytes o) :: live) w ->
  exists b q b', buddy w = Some b /\ p = frame_va b q /\ allocated b q = Some o /\
    linear_va_to_pa p = Ok (dram_base b + q * PAGE_SIZE) /\
    BuddyAllocator_free_pages b (dram_base b + q * PAGE_SIZE) o = Ok b' /\ taken_back b b' q o /\
    slab_inv fl live (with_buddy w b').
Proof.
  intros Ho Hbig I.
  destruct (live_object _ _ _ (p, block_bytes o) I) as (_ & b & q & k & Hb & Ha & _ & _ & _ & Hwhole); [by left|].
  cbn [snd] in Hwhole. injection (Hwhole Hbig) as -> Hk. pose proof (si_buddy _ _ _ I b Hb) as Hpl.
  destruct (wf_block_facts b q k (pl_wf _ Hpl) Ha) as (Hk0 & Hq & _ & Hqn). pose proof (pow2_pos k ltac:(lia)) as Hpow.
  assert (o = k) as <-.
  { unfold block_bytes, PAGE_SIZE in Hk. apply (Z.pow_inj_r 2); lia. }
  destruct (placed_convert b q Hpl) as (_ & _ & _ & Hva); [lia|].
  destruct (free_pages_ok b q o Hpl Ha) as (b' & E & H).
  exists b, q, b'. split_and!; [done..|]. destruct I as [Hlen Hch Hap Hob _].
  rewrite <- Permutation_middle in Hap. destruct Hap as [Hfirst Hap]. rewrite list.Forall_forall in Hfirst.
  split; cbn [with_buddy free_lists heap buddy]; [done..| |].
  - intros x Hx. destruct (Hob x) as (Hx8 & c & r & j & Hc & Hr & Hlo & Hhi & Hrest).
    { rewrite <- Permutation_middle. by right. }
    rewrite Hb in Hc. simplify_eq. split; [done|]. exists b', r, j. rewrite !(frame_va_base c b') by apply H.
    split_and!; [done| |done|done|by apply Hrest..].
    rewrite (tb_alloc _ _ _ _ H), fn_lookup_insert_ne; [done|]. intros <-.
    specialize (Hfirst x Hx). unfold obj_apart in Hfirst. simplify_eq. cbn [fst snd] in *. lia.
  - intros c [= <-]. by eapply taken_back_placed.
Qed.

Lemma dealloc_large fl live w size align o p :
  size_class_index size align = Ok None -> pages_order size = Ok o -> 0 <= o -> 2048 < block_bytes o ->
  slab_inv fl ((p, block_bytes o) :: live) w ->
  exists b q b', LockedSlab_dealloc p size align w = Ok (with_buddy w b') /\ buddy w = Some b /\ p = frame_va b q /\
    allocated b q = Some o /\ taken_back b b' q o /\ slab_inv fl live (with_buddy w b').
Proof.
  intros E Eo Ho Hbig I. unfold LockedSlab_dealloc, large_dealloc. rewrite E. cbn [obind].
  destruct (block_back fl live w o p Ho Hbig I) as (b & q & b' & Hb & Hp & Ha & -> & Ef & T & I'). cbn [obind].
  rewrite Hb, Eo. cbn [obind]. rewrite Ef. cbn [obind]. by exists b, q, b'.
Qed.

(** A client writing in its own object touches no list. *)
Lemma client_writes_ok fl live w p n h :
  slab_inv fl live w -> (p, n) ∈ live -> (forall x, ~ p <= x < p + n -> h x = heap w x) ->
  slab_inv fl live (with_heap w h).
Proof.
  intros I Hp Hh. split; cbn [with_heap free_lists heap buddy]; [apply I| |apply I..].
  intros i hd Hi. pose proof (getz_Some_range _ _ _ Hi) as Hr. rewrite (si_len _ _ _ I) in Hr.
  eapply chain_frame; [|by apply I]. intros q Hq. apply Hh. intros Hx.
  destruct I as [_ _ Hap _ _]. apply pairwise_apart_app in Hap as (_ & _ & Hap).
  pose proof (class_size_range i Hr). specialize (Hap _ _ (elem_of_listed _ _ _ Hr Hq) Hp).
  unfold obj_apart in Hap. cbn [fst snd] in Hap. lia.
Qed.

Lemma client_write_ok fl live w p n x v :
  slab_inv fl live w -> (p, n) ∈ live -> p <= x < p + n -> slab_inv fl live (with_heap w (<[x := v]> (heap w))).
Proof.
  intros I Hp Hx. eapply client_writes_ok; [done..|]. intros y Hy. apply fn_lookup_insert_ne. intros <-. lia.
Qed.
End methods.
