(* ===== verification/KaniMm.v ===== *)
(** * kernel/mm: harnesses of page_table.rs, slab.rs and layout.rs

    The [mod verification] of the three files, as functions of their symbolic
    inputs (see [KaniBuddy]).  [BUF] of the slab's harness is linked at some
    address, an input here; what memory held before is one too. *)

From S2P Require Import Prelude Arch MmuConfig FrameTypes Layout Buddy PageTable Slab SlabInv.

(* ------------------------------------------------------------------------- *)
(** ** page_table.rs *)

Section page_table.
Context {P : Profile}.

Definition ATTRS : LeafAttrs := mkLeafAttrs Normal KernelReadWrite InnerShareable ExecNone.

Definition any_page_aligned_pa (raw : Z) (k : Z -> outcome unit) : outcome unit :=
  assume! raw mod 4096 =? 0 in
  assume! raw <? Z.shiftl 1 48 in
  k raw.

Definition page_encoding_round_trip (raw : Z) : outcome unit :=
  any_page_aligned_pa raw (fun pa =>
    let e := Entry_page pa ATTRS in
    let! _ := assert_ (Entry_output_addr e =? pa) in
    let! _ := assert_ (Entry_is_valid e) in
    let! _ := assert_ (Entry_is_table_or_page e) in
    assert_ (negb (Entry_is_block e))).

Definition table_encoding_round_trip (raw : Z) : outcome unit :=
  any_page_aligned_pa raw (fun pa =>
    let e := Entry_table pa in
    let! _ := assert_ (Entry_output_addr e =? pa) in
    let! _ := assert_ (Entry_is_valid e) in
    assert_ (Entry_is_table_or_page e)).

Definition block_encoding_round_trip (raw : Z) (big : bool) : outcome unit :=
  any_page_aligned_pa raw (fun pa =>
    let level := if big then L1 else L2 in
    let! e := Entry_block pa level ATTRS in
    let! _ := assert_ (Entry_output_addr e =? pa) in
    let! _ := assert_ (Entry_is_valid e) in
    let! _ := assert_ (Entry_is_block e) in
    assert_ (negb (Entry_is_table_or_page e))).

Definition invalid_entry_is_inert : outcome unit :=
  let e := Entry_invalid in
  let! _ := assert_ (negb (Entry_is_valid e)) in
  let! _ := assert_ (negb (Entry_is_block e)) in
  assert_ (Entry_output_addr e =? 0).
End page_table.

(* ------------------------------------------------------------------------- *)
(** ** slab.rs *)

Section slab.
Context {P : Profile}.

Definition size_class_is_smallest_fit (size align_shift : Z) : outcome unit :=
  assume! (1 <=? size) && (size <=? 4096) in
  assume! align_shift <=? 12 in
  let! align := ushl 64 1 align_shift in
  let need := Z.max size align in
  let! r := size_class_index size align in
  match r with
  | Some i =>
      let! c := idx CLASSES i in
      let! _ := assert_ ((size <=? c) && (align <=? c)) in
      if 0 <? i then
        let! j := usub 64 i 1 in
        let! c := idx CLASSES j in
        assert_ (c <? need)
      else Ok tt
  | None => assert_ (2048 <? need)
  end.

Definition carving_stays_in_page (i : Z) : outcome unit :=
  assume! i <? lenz CLASSES in
  let! n := objects_per_page i in
  let! _ := assert_ (1 <=? n) in
  let! c := idx CLASSES i in
  let! used := umul 64 n c in
  assert_ (used <=? PAGE_SIZE).

(** [NonNull::new(ptr)] *)
Definition NonNull_new (ptr : Z) : option Z := if ptr =? 0 then None else Some ptr.

Definition push_pop_is_lifo (m : Z -> Z) (BUF : Z) : outcome unit :=
  let slab := mkWorld Slab_new m None in
  let! p0 := unwrap (NonNull_new BUF) in
  let! a1 := uadd 64 BUF 8 in
  let! p1 := unwrap (NonNull_new a1) in
  let! slab := Slab_push 0 p0 slab in
  let! slab := Slab_push 0 p1 slab in
  let! '(r, slab) := Slab_pop 0 slab in
  let! _ := assert_eq (Ok r) (Some p1) in
  let! '(r, slab) := Slab_pop 0 slab in
  let! _ := assert_eq (Ok r) (Some p0) in
  let! '(r, _) := Slab_pop 0 slab in
  assert_eq (Ok r) None.
End slab.

(* ------------------------------------------------------------------------- *)
(** ** layout.rs *)

Section layout.
Context {P : Profile}.

Definition linear_round_trip (raw : Z) : outcome unit :=
  assume! raw <? LINEAR_SPAN in
  let! va := pa_to_linear_va raw in
  let! _ := assert_ (KERNEL_LINEAR_BASE <=? va) in
  let! _ := assert_ (va <? KERNEL_DEVICE_BASE) in
  assert_eq (linear_va_to_pa va) raw.

Definition device_map_in_window (raw : Z) : outcome unit :=
  assume! raw <? 2 ^ 39 in
  let! va := pa_to_device_va raw in
  let! _ := assert_ (KERNEL_DEVICE_BASE <=? va) in
  assert_ (va <? KERNEL_IMAGE_BASE).

Definition image_map_no_underflow (raw : Z) : outcome unit :=
  assume! KERNEL_IMAGE_BASE <=? raw in
  let! pa := image_va_to_pa raw in
  assert_ (IMAGE_PA_BASE <=? pa).

(** Every harness of the three modules on one choice of symbolic inputs. *)
Definition mm_harnesses (raw size shift i : Z) (big : bool) (m : Z -> Z) (BUF : Z) : list (outcome unit) :=
  [ page_encoding_round_trip raw; table_encoding_round_trip raw; block_encoding_round_trip raw big;
    invalid_entry_is_inert; size_class_is_smallest_fit size shift; carving_stays_in_page i;
    push_pop_is_lifo m BUF; linear_round_trip raw; device_map_in_window raw;
    image_map_no_underflow raw ].
End layout.

(* ------------------------------------------------------------------------- *)
(** ** The harnesses pass *)

Section passes.
Context {P : Profile}.

Lemma any_page_aligned_ok raw k :
  0 <= raw -> (page_aligned raw -> k raw = Ok tt) -> any_page_aligned_pa raw k = Ok tt.
Proof.
  intros Hraw Hk. unfold any_page_aligned_pa. assumptions. apply Hk. split.
  - rewrite Z.shiftl_1_l in *. lia.
  - by apply Z.mod_divide.
Qed.

Lemma table_harness_ok raw : 0 <= raw -> table_encoding_round_trip raw = Ok tt.
Proof.
  intros Hraw. apply any_page_aligned_ok; [done|]. intros Hal.
  destruct (Entry_table_reads raw) as (Hv & Ht & Ho).
  cbv beta zeta. by rewrite (Ho Hal), Hv, Ht, Z.eqb_refl.
Qed.

(** A leaf of either kind reads back. *)
Lemma leaf_table_bit pa ty :
  ty = TYPE_BLOCK \/ ty = TYPE_TABLE_OR_PAGE ->
  Z.land (Z.lor (Z.lor (Z.land pa OUTPUT_ADDR_MASK) (LeafAttrs_bits ATTRS)) ty) TABLE_BIT = Z.land ty TABLE_BIT.
Proof.
  intros Hty. rewrite entry_land, (land_mask_low pa) by reflexivity.
  by destruct Hty as [-> | ->].
Qed.

Lemma leaf_harnesses_ok raw big :
  0 <= raw -> page_encoding_round_trip raw = Ok tt /\ block_encoding_round_trip raw big = Ok tt.
Proof.
  intros Hraw. split; (apply any_page_aligned_ok; [done|]); intros Hal.
  - destruct (leaf_reads raw ATTRS TYPE_TABLE_OR_PAGE) as (Hv & Ht & Ho); [by right|].
    cbv beta zeta. unfold Entry_page, Entry_is_block. rewrite (Ho Hal), Hv, Ht, Z.eqb_refl, leaf_table_bit by (by right).
    reflexivity.
  - destruct (leaf_reads raw ATTRS TYPE_BLOCK) as (Hv & Ht & Ho); [by left|].
    cbv beta zeta. unfold Entry_block, Entry_is_block. rewrite assert_true by (by destruct big). cbn [obind].
    rewrite (Ho Hal), Hv, Ht, Z.eqb_refl, leaf_table_bit by (by left). reflexivity.
Qed.

Lemma size_class_is_smallest_fit_ok size shift :
  0 <= shift -> size_class_is_smallest_fit size shift = Ok tt.
Proof.
  intros Hs. unfold size_class_is_smallest_fit. assumptions.
  rewrite ushl_one_ok by lia. cbn [obind].
  destruct (size_class_cases size (2 ^ shift)) as [(i & -> & Hi & Hfit & Hleast)|[-> Hbig]]; cbn [obind].
  - rewrite (idx_ok _ _ _ (CLASSES_getz i Hi)). cbn [obind]. rewrite assert_true by lia. cbn [obind].
    destruct (Z.ltb_spec 0 i); [|done]. rewrite usub_ok by lia. cbn [obind].
    rewrite (idx_ok _ _ _ (CLASSES_getz (i - 1) ltac:(lia))). cbn [obind]. apply assert_true. lia.
  - apply assert_true. lia.
Qed.

Lemma carving_stays_in_page_ok i : 0 <= i -> carving_stays_in_page i = Ok tt.
Proof.
  intros Hi. unfold carving_stays_in_page. change (lenz CLASSES) with 9. assumptions.
  destruct (objects_per_page_ok i ltac:(lia)) as [-> E]. cbn [obind].
  rewrite assert_true by (assert (0 < 2 ^ (9 - i)) by (apply Z.pow_pos_nonneg; lia); lia). cbn [obind].
  rewrite (idx_ok _ _ _ (CLASSES_getz i ltac:(lia))). cbn [obind].
  rewrite umul_ok by (rewrite E; done). cbn [obind]. rewrite E. by apply assert_true.
Qed.

(** [push] and [pop] on the first list. *)
Lemma push_class_0 h ls m b p :
  Slab_push 0 p (mkWorld (h :: ls) m b) = Ok (mkWorld (Some p :: ls) (<[p := link_word h]> m) b).
Proof. reflexivity. Qed.

Lemma pop_class_0 p ls m b :
  Slab_pop 0 (mkWorld (Some p :: ls) m b) = Ok (Some p, mkWorld (word_link (m p) :: ls) m b).
Proof. reflexivity. Qed.

Lemma push_pop_is_lifo_ok m BUF : 0 < BUF -> BUF + 8 < 2 ^ 64 -> push_pop_is_lifo m BUF = Ok tt.
Proof.
  intros H0 H1. unfold push_pop_is_lifo, NonNull_new.
  destruct (Z.eqb_spec BUF 0); [lia|]. cbn [unwrap obind].
  rewrite uadd_ok by lia. cbn [obind]. destruct (Z.eqb_spec (BUF + 8) 0); [lia|]. cbn [unwrap obind].
  change Slab_new with (None :: replicate 8 (@None Z)).
  rewrite push_class_0. cbn [obind]. rewrite push_class_0. cbn [obind].
  rewrite pop_class_0. cbn [obind]. rewrite assert_eq_ok, fn_lookup_insert. cbn [obind].
  change (word_link (link_word (Some BUF))) with (if BUF =? 0 then None else Some BUF). destruct (Z.eqb_spec BUF 0); [lia|].
  rewrite pop_class_0. cbn [obind]. rewrite assert_eq_ok. cbn [obind].
  by rewrite fn_lookup_insert_ne, fn_lookup_insert by lia.
Qed.

Lemma layout_harnesses_ok raw :
  unsigned 64 raw ->
  linear_round_trip raw = Ok tt /\ device_map_in_window raw = Ok tt /\ image_map_no_underflow raw = Ok tt.
Proof.
  unfold unsigned. intros Hraw. split_and!.
  - unfold linear_round_trip. assumptions. rewrite pa_to_linear_va_ok by lia. cbn [obind].
    unfold_layout. rewrite !assert_true by (unfold_layout; lia). cbn [obind].
    rewrite linear_va_to_pa_ok by (unfold_layout; lia). unfold_layout. rewrite Z.add_simpl_r. apply assert_eq_ok.
  - unfold device_map_in_window. assumptions. rewrite pa_to_device_va_ok by (unfold_layout; lia). cbn [obind].
    rewrite !assert_true by (unfold_layout; lia). done.
  - unfold image_map_no_underflow. assumptions. rewrite image_va_to_pa_ok by lia. cbn [obind].
    apply assert_true. unfold_layout. lia.
Qed.

(** The harnesses of the page-table entries, the slab and the address map
    pass on every input of the types they declare, for every address the linker
    gives the test buffer and whatever memory held. *)
Theorem mm_harnesses_pass raw size shift i big m BUF :
  unsigned 64 raw -> unsigned 64 size -> unsigned 32 shift -> unsigned 64 i ->
  0 < BUF -> unsigned 64 (BUF + 8) ->
  Forall (fun r => r = Ok tt) (mm_harnesses raw size shift i big m BUF).
Proof.
  intros Hraw Hsize Hshift Hi HB0 HB1. unfold unsigned in *.
  destruct (layout_harnesses_ok raw Hraw) as (? & ? & ?).
  destruct (leaf_harnesses_ok raw big) as [? ?]; [lia|].
  unfold mm_harnesses. repeat apply list.Forall_cons_2; [..|apply list.Forall_nil_2].
  all: first [assumption | apply table_harness_ok; lia | apply size_class_is_smallest_fit_ok; lia
             | apply carving_stays_in_page_ok; lia | apply push_pop_is_lifo_ok; lia | reflexivity].
Qed.
End passes.

Lemma mm_harnesses_pass_witness :
  Forall (fun r => r = Ok tt)
    (mm_harnesses (P := release_dev) 0x40000000 100 4 3 true (fun _ => 7) 0x40200000).
Proof. apply (mm_harnesses_pass (P := release_dev)); unfold unsigned; lia. Defined.
