(* ===== verification/SlabProps.v ===== *)
(** * Slab allocator: its contract

    What [alloc] and [dealloc] do on every branch, which class and page order a
    request gets, and safety of the heap as a state machine whose steps are calls,
    client writes and the buddy allocator's other clients. *)

From stdpp Require Import sorting relations.
From S2P Require Import Prelude FrameTypes Layout Buddy BuddyInv BuddyGeom BuddyWf BuddySteps BuddyCore BuddyFree BuddyRange BuddyCanon BuddyProps BuddyAddr Slab SlabInv.

(** The order of the pages behind a request: one page for a small one. *)
Definition order_needed {P : Profile} (size align : Z) : Z :=
  match size_class_index size align, pages_order size with
  | Ok None, Ok o => o
  | _, _ => 0
  end.

(* ------------------------------------------------------------------------- *)
(** ** The heap as a state machine *)

(** A state is the world and the objects clients hold. *)
Inductive heap_step {P : Profile} : World * list object -> World * list object -> Prop :=
  | step_alloc size align w live p w' :
      layout_ok size align -> LockedSlab_alloc size align w = Ok (p, w') -> p <> 0 ->
      heap_step (w, live) (w', (p, usable size align) :: live)
  | step_refused size align w live w' :
      layout_ok size align -> LockedSlab_alloc size align w = Ok (0, w') ->
      heap_step (w, live) (w', live)
  | step_dealloc size align w l1 p l2 w' :
      layout_ok size align -> LockedSlab_dealloc p size align w = Ok w' ->
      heap_step (w, l1 ++ (p, usable size align) :: l2) (w', l1 ++ l2)
  | step_write w live p n x v :
      (p, n) ∈ live -> p <= x < p + n -> (8 | x) ->
      heap_step (w, live) (with_heap w (<[x := v]> (heap w)), live)
  | step_pages w live b o pa b' :
      buddy w = Some b -> 0 <= o < MAX_ORDER ->
      BuddyAllocator_alloc_pages b o = Ok (Some pa, b') ->
      heap_step (w, live) (with_buddy w b', live).

(** How [alloc] serves a request, with the pointer it gives, the world and the lists it
    leaves: the head of its class's list, and nothing else moves; the last slice of a
    page taken for the class, whose other slices are then cached; a block of its own; or
    null, which leaves everything as it was. *)
Inductive alloc_case {P : Profile} (fl : Z -> list Z) (w : World) (size align : Z) : Z -> World -> (Z -> list Z) -> Prop :=
  | case_cached i p l w' :
      size_class_index size align = Ok (Some i) -> fl i = p :: l ->
      buddy w' = buddy w -> heap w' = heap w ->
      alloc_case fl w size align p w' (<[i := l]> fl)
  | case_fresh i b b' q w' fl' :
      size_class_index size align = Ok (Some i) -> fl i = [] ->
      buddy w = Some b -> handed_out b b' q 0 -> buddy w' = Some b' ->
      fl' i = other_slices (frame_va b q) i -> (forall j, j <> i -> fl' j = fl j) ->
      (forall x, ~ frame_va b q <= x < frame_va b q + PAGE_SIZE -> heap w' x = heap w x) ->
      alloc_case fl w size align (frame_va b q + PAGE_SIZE - 2 ^ (i + 3)) w' fl'
  | case_pages o b b' q :
      size_class_index size align = Ok None -> pages_order size = Ok o ->
      buddy w = Some b -> handed_out b b' q o ->
      alloc_case fl w size align (frame_va b q) (with_buddy w b') fl
  | case_null : alloc_case fl w size align 0 w fl.

(** The request's class has nothing to reuse. *)
Definition nothing_cached {P : Profile} (fl : Z -> list Z) (size align : Z) : Prop :=
  forall i, size_class_index size align = Ok (Some i) -> fl i = [].

(** What [dealloc] does with object [p]: a small one becomes the head of its class's
    list, with one word of it the link; a block goes back to the buddy allocator. *)
Inductive dealloc_case {P : Profile} (fl : Z -> list Z) (w : World) (size align p : Z) : World -> (Z -> list Z) -> Prop :=
  | case_push i w' :
      size_class_index size align = Ok (Some i) -> buddy w' = buddy w -> (forall x, x <> p -> heap w' x = heap w x) ->
      dealloc_case fl w size align p w' (<[i := p :: fl i]> fl)
  | case_block o b q b' :
      size_class_index size align = Ok None -> pages_order size = Ok o ->
      buddy w = Some b -> p = frame_va b q -> allocated b q = Some o -> taken_back b b' q o ->
      dealloc_case fl w size align p (with_buddy w b') fl.

Lemma slab_inv_perm fl live live' w : live ≡ₚ live' -> slab_inv fl live w -> slab_inv fl live' w.
Proof.
  intros Hp I. split; [apply I|apply I| | |apply I].
  - rewrite <- Hp. apply I.
  - intros o. rewrite <- Hp. apply I.
Qed.

Section props.
Context {P : Profile}.

(** [alloc], whichever path it takes. *)
Lemma alloc_by_case fl live w size align :
  slab_inv fl live w -> layout_ok size align ->
  exists p w' fl', LockedSlab_alloc size align w = Ok (p, w') /\ alloc_case fl w size align p w' fl' /\
    ((p = 0 /\ w' = w /\ nothing_cached fl size align /\ cannot_grant (buddy w) (order_needed size align)) \/
     (0 < p /\ ~ (nothing_cached fl size align /\ cannot_grant (buddy w) (order_needed size align)) /\
      slab_inv fl' ((p, usable size align) :: live) w')).
Proof.
  intros I HL. unfold order_needed, nothing_cached.
  destruct (layout_cases size align HL) as [(i & E & Hi & Hu & _)|(o & E & Eo & Ho & Hu & _ & _ & Hbig)]; rewrite Hu.
  - rewrite E. pose proof (alloc_small fl live w size align i E Hi I) as Ha. destruct (fl i) as [|p l] eqn:El.
    + destruct Ha as [(w' & fl' & b & b' & q & l & -> & R & Hp & I')|[-> Hn]].
      * exists (frame_va b q + PAGE_SIZE - 2 ^ (i + 3)), w', (<[i := l]> fl'). destruct R as [Hb H Hb' _ Hl Ho Hh].
        split_and!; [done|..|right; split_and!; [done| |done]].
        -- eapply case_fresh; [done..| | |done].
           ++ by rewrite fn_lookup_insert, Hl, El, app_nil_r.
           ++ intros j Hj. rewrite fn_lookup_insert_ne by done. auto.
        -- intros [_ Hn]. rewrite Hb in Hn. pose proof (si_buddy _ _ _ I b Hb) as Hpl.
           destruct (ho_free _ _ _ _ H q) as (p & k & Hm & _); [unfold in_block; cbn; lia|].
           pose proof (Hn p k Hm). pose proof (wf_free_block _ _ _ (pl_wf _ Hpl) Hm) as []. lia.
      * exists 0, w, fl. split_and!; [done|constructor|left]. split_and!; [done..| |done]. congruence.
    + destruct Ha as (w' & -> & Hp & Hb & Hh & I'). exists p, w', (<[i := l]> fl).
      split_and!; [done|by eapply case_cached|right]. split_and!; [done| |done]. intros [Hn _]. specialize (Hn i eq_refl). congruence.
  - rewrite E, Eo. destruct (alloc_large fl live w size align o E Eo ltac:(lia) Hbig I) as [(b & b' & q & -> & Hp & Hb & H & Hg & I')|[-> Hn]].
    + exists (frame_va b q), (with_buddy w b'), fl. split_and!; [done|by eapply case_pages|right]. split_and!; [done|tauto|done].
    + exists 0, w, fl. split_and!; [done|constructor|left]. split_and!; [done..|].
      destruct Hn as [Hn|]; [|done]. unfold cannot_grant. destruct (buddy w) as [b|] eqn:Hb; [|done]. intros p k Hm.
      destruct (wf_free_block _ _ _ (pl_wf _ (si_buddy _ _ _ I b Hb)) Hm). lia.
Qed.

Lemma alloc_ok fl live w size align :
  slab_inv fl live w -> layout_ok size align ->
  (exists p w' fl', LockedSlab_alloc size align w = Ok (p, w') /\ 0 < p /\
     slab_inv fl' ((p, usable size align) :: live) w') \/
  (LockedSlab_alloc size align w = Ok (0, w) /\ cannot_grant (buddy w) (order_needed size align)).
Proof.
  intros I HL. destruct (alloc_by_case _ _ _ _ _ I HL) as (p & w' & fl' & E & _ & [(-> & -> & _ & ?)|(? & _ & ?)]); [by right|left].
  by exists p, w', fl'.
Qed.

(** [dealloc] of a held object. *)
Lemma dealloc_by_case fl live w size align p :
  slab_inv fl ((p, usable size align) :: live) w -> layout_ok size align ->
  exists fl' w', LockedSlab_dealloc p size align w = Ok w' /\ dealloc_case fl w size align p w' fl' /\ slab_inv fl' live w'.
Proof.
  intros I HL. destruct (layout_cases size align HL) as [(i & E & Hi & Hu & _)|(o & E & Eo & Ho & Hu & _ & _ & Hbig)];
    rewrite Hu in I.
  - destruct (live_object _ _ _ (p, class_size i) I) as (_ & b & q & k & Hb & Ha & Hlo & _); [by left|].
    pose proof (si_buddy _ _ _ I b Hb) as Hpl. destruct (wf_block_facts b q k (pl_wf _ Hpl) Ha) as (_ & ? & _).
    pose proof (frame_va_pos b q Hpl ltac:(lia)). cbn [fst] in Hlo.
    destruct (dealloc_small fl live w size align i p E Hi ltac:(lia) I) as (h & w' & _ & E' & -> & I').
    eexists _, _. split_and!; [exact E'| |exact I']. apply case_push; [done..|]. intros x Hx. cbn. by rewrite fn_lookup_insert_ne.
  - destruct (dealloc_large fl live w size align o p E Eo ltac:(lia) Hbig I) as (b & q & b' & E' & Hb & Hp & Ha & T & I').
    exists fl, (with_buddy w b'). split_and!; [done|by eapply case_block|done].
Qed.

Lemma dealloc_ok fl live w size align p :
  slab_inv fl ((p, usable size align) :: live) w -> layout_ok size align ->
  exists fl' w', LockedSlab_dealloc p size align w = Ok w' /\ slab_inv fl' live w'.
Proof. intros I HL. destruct (dealloc_by_case _ _ _ _ _ _ I HL) as (fl' & w' & ? & _ & ?). eauto. Qed.

Lemma usable_covers fl live w size align p :
  slab_inv fl ((p, usable size align) :: live) w -> layout_ok size align ->
  size <= usable size align /\ (align <= PAGE_SIZE -> (align | p)).
Proof.
  intros I HL. destruct (live_object _ _ _ (p, usable size align) I) as
    (_ & b & q & k & Hb & _ & _ & _ & Hsmall & Hlarge); [by left|]. cbn [fst snd] in *.
  destruct (layout_cases size align HL) as [(i & _ & Hi & Hu & Hmax & Hd)|(o & _ & _ & Ho & Hu & Hle & _ & Hbig)];
    rewrite Hu in *; (split; [lia|]); intros Hal.
  - pose proof (class_size_range i Hi). etrans; [exact Hd|]. apply Hsmall. lia.
  - injection (Hlarge Hbig) as -> _. destruct HL as ((j & Hj & ->) & _).
    etrans; [|apply frame_va_page; by eapply (si_buddy _ _ _ I)].
    unfold PAGE_SIZE in *. change 4096 with (2 ^ 12) in *.
    assert (j <= 12) by (apply (Z.pow_le_mono_r_iff 2); lia).
    exists (2 ^ (12 - j)). rewrite <- Z.pow_add_r by lia. f_equal. lia.
Qed.

(** Every step keeps the invariant. *)
Lemma heap_step_inv fl w live s' :
  slab_inv fl live w -> heap_step (w, live) s' -> exists fl', slab_inv fl' s'.2 s'.1.
Proof.
  intros I Hs. inversion Hs as [size align w0 l0 p w' HL E Hp|size align w0 l0 w' HL E
    |size align w0 l1 p l2 w' HL E|w0 l0 p n x v Hin Hx _|w0 l0 b o pa b' Hb Ho E]; subst; cbn [fst snd].
  - destruct (alloc_ok _ _ _ _ _ I HL) as [(? & ? & fl' & E' & _ & ?)|[E' _]]; [exists fl'|]; congruence.
  - destruct (alloc_ok _ _ _ _ _ I HL) as [(? & ? & fl' & E' & Hp & _)|[E' _]]; [|exists fl; congruence].
    rewrite E in E'. simplify_eq. lia.
  - apply (slab_inv_perm _ _ ((p, usable size align) :: l1 ++ l2)) in I; [|by rewrite Permutation_middle].
    destruct (dealloc_ok _ _ _ _ _ _ I HL) as (fl' & ? & E' & ?). exists fl'. congruence.
  - exists fl. by eapply client_write_ok.
  - destruct (alloc_pages_cases b o (si_buddy _ _ _ I b Hb) Ho) as [(p & b1 & E' & H & _)|[E' _]]; [|congruence].
    rewrite E in E'. simplify_eq. exists fl. change live with ([] ++ live).
    by eapply (grow_ok fl live w b b1 p o []); [done..|intros ? []%elem_of_nil|intros ? []%elem_of_nil].
Qed.

Lemma heap_reachable_inv m bd s :
  (forall b, bd = Some b -> placed b) -> rtc heap_step (mkWorld Slab_new m bd, []) s ->
  exists fl, slab_inv fl s.2 s.1.
Proof.
  intros Hb Hr. revert s Hr. apply (rtc_ind_r (fun s => exists fl, slab_inv fl s.2 s.1)).
  - exists (fun _ => []). by apply slab_inv_new.
  - intros [w live] s' _ Hs [fl I]. by eapply heap_step_inv.
Qed.
End props.

(* ------------------------------------------------------------------------- *)
(** ** Concrete worlds *)

(** The buddy allocator of [BuddyProps.demo], and nothing cached yet. *)
Definition demo_world : World := mkWorld Slab_new (fun _ => 0) (Some demo).

Lemma demo_placed : placed demo.
Proof.
  split; [apply demo_wf|by vm_compute| |by vm_compute].
  exists (0x40000000 / 4096). reflexivity.
Qed.

Lemma demo_world_inv : slab_inv (fun _ => []) [] demo_world.
Proof. apply slab_inv_new. intros b [= <-]. apply demo_placed. Qed.

(** A first allocation from the demo world that succeeds. *)
Lemma demo_lent {P : Profile} size align :
  (exists k, 0 <= k /\ align = 2 ^ k) -> 0 <= size <= 2 ^ 63 - align ->
  match LockedSlab_alloc size align demo_world with Ok (p, _) => p | Panic _ => 0 end <> 0 ->
  exists p w fl, LockedSlab_alloc size align demo_world = Ok (p, w) /\ 0 < p /\
    slab_inv fl [(p, usable size align)] w /\ layout_ok size align.
Proof.
  intros Hal Hs Hne. assert (layout_ok size align) as HL by (split; [done|lia]).
  destruct (alloc_ok _ _ _ _ _ demo_world_inv HL) as [(p & w & fl & E & Hp & I)|[E _]].
  - by exists p, w, fl.
  - by rewrite E in Hne.
Qed.

Lemma layout_24_8 : layout_ok 24 8.
Proof. split; [by exists 3|lia]. Qed.

(* ------------------------------------------------------------------------- *)
(** ** Properties *)

(** C15: [alloc] on every branch.  It never panics.  A small request takes the head of
    its class's list and touches nothing else; with nothing cached it takes one page,
    gives the last slice and caches the others; a large one takes a block of its own.
    It gives null exactly when nothing is cached for the request and the buddy allocator
    is down or has no block of the order the request needs, and then changes nothing.
    An object it gives is large enough, aligned as the layout asks (up to a page), apart
    from every object a client holds, and the invariant holds with it lent out. *)
Theorem slab_alloc_correct {P : Profile} fl live w size align :
  slab_inv fl live w -> layout_ok size align ->
  exists p w' fl', LockedSlab_alloc size align w = Ok (p, w') /\ alloc_case fl w size align p w' fl' /\
    (p = 0 <-> nothing_cached fl size align /\ cannot_grant (buddy w) (order_needed size align)) /\
    (p = 0 -> w' = w) /\
    (p <> 0 -> 0 < p /\ size <= usable size align /\ (align <= PAGE_SIZE -> (align | p)) /\
       Forall (obj_apart (p, usable size align)) live /\
       slab_inv fl' ((p, usable size align) :: live) w').
Proof.
  intros I HL. destruct (alloc_by_case fl live w size align I HL) as (p & w' & fl' & E & Hc & Hor).
  exists p, w', fl'. split; [done|]. split; [done|]. destruct Hor as [(-> & -> & Hn & Hg)|(Hp & Hn & I')].
  - by split_and!.
  - split_and!; [split; [lia|tauto]|lia|]. intros _. destruct (usable_covers _ _ _ _ _ _ I' HL) as [? ?].
    split_and!; try done. destruct I' as [_ _ Hap _ _]. apply pairwise_apart_app in Hap as (_ & Hap & _). apply Hap.
Qed.

Lemma slab_alloc_correct_witness :
  exists p w', LockedSlab_alloc (P := release_dev) 24 8 demo_world = Ok (p, w') /\
    p = 0xFFFF800040001FE0 /\ usable (P := release_dev) 24 8 = 32.
Proof.
  destruct (slab_alloc_correct (P := release_dev) _ _ demo_world 24 8 demo_world_inv layout_24_8)
    as (p & w' & _ & E & _).
  exists p, w'. split; [exact E|]. split; [|reflexivity].
  assert (fst <$> (match LockedSlab_alloc (P := release_dev) 24 8 demo_world with Ok r => Some r | _ => None end)
          = Some 0xFFFF800040001FE0) as Hv by (vm_compute; reflexivity).
  rewrite E in Hv. by injection Hv.
Defined.

(** C16: [dealloc] of a held object never panics and gives back that object and nothing
    else.  A small one is the new head of its class's list, the other lists and the buddy
    allocator are as they were, and only the object's own first word has changed; the
    pages of a large one are exactly what the buddy allocator gains, and lists and memory
    are as they were.  Every other held object stays held, and the invariant holds. *)
Theorem slab_dealloc_correct {P : Profile} fl l1 p l2 w size align :
  slab_inv fl (l1 ++ (p, usable size align) :: l2) w -> layout_ok size align ->
  exists fl' w', LockedSlab_dealloc p size align w = Ok w' /\ dealloc_case fl w size align p w' fl' /\
    slab_inv fl' (l1 ++ l2) w'.
Proof.
  intros I HL. apply (dealloc_by_case fl); [|done]. eapply slab_inv_perm; [|exact I].
  by rewrite Permutation_middle.
Qed.

Lemma slab_dealloc_correct_witness :
  exists p w, LockedSlab_alloc (P := release_dev) 5000 8 demo_world = Ok (p, w) /\ p <> 0 /\
    exists w', LockedSlab_dealloc (P := release_dev) p 5000 8 w = Ok w'.
Proof.
  destruct (demo_lent (P := release_dev) 5000 8) as (p & w & fl & E & Hp & I & HL);
    [by exists 3|lia|vm_compute; discriminate|].
  exists p, w. split; [exact E|]. split; [lia|].
  destruct (slab_dealloc_correct (P := release_dev) fl [] p [] w 5000 8 I HL) as (fl' & w' & E' & _).
  by exists w'.
Defined.

(** A freed object is cached and is the next one its class gives: releasing and
    asking again with the same layout returns the same address and leaves the lists
    and the buddy allocator as they were; only the object's own first word changed. *)
Theorem slab_reuses_last_freed {P : Profile} fl live w p size align i :
  slab_inv fl ((p, usable size align) :: live) w -> layout_ok size align ->
  size_class_index size align = Ok (Some i) ->
  exists w1 w2, LockedSlab_dealloc p size align w = Ok w1 /\ LockedSlab_alloc size align w1 = Ok (p, w2) /\
    free_lists w2 = free_lists w /\ buddy w2 = buddy w /\ forall x, x <> p -> heap w2 x = heap w x.
Proof.
  intros I HL E. destruct (layout_cases size align HL) as [(j & E' & Hi & Hu & _)|(o & E' & _)];
    rewrite E in E'; simplify_eq. rewrite Hu in I.
  assert (0 < p) as Hp.
  { destruct (live_object _ _ _ (p, class_size j) I) as (_ & b & q & k & Hb & Ha & Hlo & _); [by left|].
    pose proof (si_buddy _ _ _ I b Hb) as Hpl. destruct (wf_block_facts b q k (pl_wf _ Hpl) Ha) as (_ & ? & _).
    pose proof (frame_va_pos b q Hpl ltac:(lia)). cbn [fst] in Hlo. lia. }
  destruct (dealloc_small fl live w size align j p E Hi Hp I) as (h & w1 & Eh & E1 & -> & I1).
  eexists _, _. split; [exact E1|]. unfold LockedSlab_alloc. rewrite E. cbn [obind].
  pose proof (getz_Some_range _ _ _ Eh) as Hr.
  cbn [free_lists]. rewrite (idx_ok _ j (Some p)) by (by apply getz_setz_eq). cbn [obind negb].
  unfold Slab_pop. cbn [free_lists heap]. rewrite (idx_ok _ j (Some p)) by (by apply getz_setz_eq). cbn [obind].
  rewrite set_idx_ok by (by rewrite lenz_setz). cbn [obind]. split; [reflexivity|].
  cbn [with_list free_lists heap buddy]. split_and!; [|done|].
  - rewrite fn_lookup_insert, (chain_link _ _ _ (si_chain _ _ _ I j h Eh)), setz_setz. by apply setz_getz.
  - intros x Hx. by rewrite fn_lookup_insert_ne.
Qed.

Lemma slab_reuses_last_freed_witness :
  exists p w w1 w2, LockedSlab_alloc (P := release_dev) 24 8 demo_world = Ok (p, w) /\ p <> 0 /\
    LockedSlab_dealloc (P := release_dev) p 24 8 w = Ok w1 /\
    LockedSlab_alloc (P := release_dev) 24 8 w1 = Ok (p, w2).
Proof.
  destruct (demo_lent (P := release_dev) 24 8) as (p & w & fl & E & Hp & I & HL);
    [by exists 3|lia|vm_compute; discriminate|].
  destruct (slab_reuses_last_freed (P := release_dev) fl [] w p 24 8 2 I HL) as (w1 & w2 & E1 & E2 & _);
    [reflexivity|].
  exists p, w, w1, w2. split; [exact E|]. split; [lia|]. by split.
Defined.

(** Safety of the heap.  In every state reached from an empty slab by calls,
    client writes and the buddy allocator's other clients, no two held objects share
    a byte, every further [alloc] returns, and every held object can be released. *)
Theorem heap_reachable_sound {P : Profile} m bd w live :
  (forall b, bd = Some b -> placed b) -> rtc heap_step (mkWorld Slab_new m bd, []) (w, live) ->
  pairwise_apart live /\
  (forall size align, layout_ok size align -> exists r, LockedSlab_alloc size align w = Ok r) /\
  (forall size align p, layout_ok size align -> (p, usable size align) ∈ live ->
     exists w', LockedSlab_dealloc p size align w = Ok w').
Proof.
  intros Hb Hr. destruct (heap_reachable_inv m bd _ Hb Hr) as (fl & I). cbn [fst snd] in I. split_and!.
  - destruct I as [_ _ Hap _ _]. by apply pairwise_apart_app in Hap as (_ & Hap & _).
  - intros size align HL. destruct (alloc_ok _ _ _ _ _ I HL) as [(? & ? & ? & -> & _)|[-> _]]; eauto.
  - intros size align p HL (l1 & l2 & ->)%list_elem_of_split.
    apply (slab_inv_perm _ _ ((p, usable size align) :: l1 ++ l2)) in I; [|by rewrite Permutation_middle].
    destruct (dealloc_ok _ _ _ _ _ _ I HL) as (_ & w' & ? & _). eauto.
Qed.

Lemma heap_reachable_sound_witness :
  exists w p, rtc (heap_step (P := release_dev)) (demo_world, []) (w, [(p, 32)]) /\ p <> 0 /\
    exists w', LockedSlab_dealloc (P := release_dev) p 24 8 w = Ok w'.
Proof.
  destruct (demo_lent (P := release_dev) 24 8) as (p & w & fl & E & Hp & I & HL);
    [by exists 3|lia|vm_compute; discriminate|].
  assert (rtc (heap_step (P := release_dev)) (demo_world, []) (w, [(p, 32)])) as Hr.
  { apply rtc_once. change 32 with (usable (P := release_dev) 24 8). by apply step_alloc; [..|lia]. }
  exists w, p. split; [exact Hr|]. split; [lia|].
  apply (heap_reachable_sound (P := release_dev) (fun _ => 0) (Some demo) w [(p, 32)]); [|exact Hr|exact HL|].
  - intros b [= <-]. apply demo_placed.
  - by left.
Defined.

(** The class and the page order of a request are the least that fit: no
    smaller class holds both its size and its alignment, no request that some class
    holds goes to the buddy allocator, and no smaller run of pages holds its size. *)
Theorem size_class_and_order_least {P : Profile} size align :
  0 <= size <= 2 ^ 63 ->
  (match size_class_index size align with
   | Ok (Some i) => exists c, getz CLASSES i = Some c /\ Z.max size align <= c /\
                      forall j d, getz CLASSES j = Some d -> Z.max size align <= d -> i <= j
   | Ok None => forall j d, getz CLASSES j = Some d -> d < Z.max size align
   | Panic _ => False
   end) /\
  exists o, pages_order size = Ok o /\ 0 <= o /\ size <= 2 ^ o * PAGE_SIZE /\
    forall k, 0 <= k -> size <= 2 ^ k * PAGE_SIZE -> o <= k.
Proof.
  intros Hs. split.
  - assert (forall j d, getz CLASSES j = Some d -> 0 <= j < NR_CLASSES /\ d = class_size j) as Hget.
    { intros j d Hj. pose proof (getz_Some_range _ _ _ Hj) as Hr. change (lenz CLASSES) with 9 in Hr.
      rewrite (CLASSES_getz j Hr) in Hj. split; [done|congruence]. }
    destruct (size_class_cases size align) as [(i & -> & Hi & Hmax & Hlow)|[-> Hmax]].
    + exists (class_size i). split_and!; [by apply CLASSES_getz|done|].
      intros j d [Hj ->]%Hget Hd. destruct Hlow as [->|Hlow]; [lia|].
      assert (class_size (i - 1) < class_size j) as Hlt%Z.pow_lt_mono_r_iff by lia; lia.
    + intros j d [Hj ->]%Hget. pose proof (class_size_range j Hj). lia.
  - destruct (pages_order_cases size Hs) as (o & -> & Ho & Hle & Hlow). exists o.
    split_and!; [done|lia|done|]. intros k Hk Hle'. destruct Hlow as [->|Hlow]; [lia|].
    unfold block_bytes, PAGE_SIZE in *. assert (2 ^ (o - 1) < 2 ^ k) as Hlt%Z.pow_lt_mono_r_iff by lia; lia.
Qed.

Lemma size_class_and_order_least_witness :
  exists o, pages_order (P := release_dev) 5000 = Ok o /\ 0 <= o /\ 5000 <= 2 ^ o * PAGE_SIZE /\
    forall k, 0 <= k -> 5000 <= 2 ^ k * PAGE_SIZE -> o <= k.
Proof. apply (size_class_and_order_least (P := release_dev) 5000 8). lia. Defined.

(** The page path drops the layout's alignment: a 4 KiB request with 8 KiB
    alignment, on a sound heap, is given an object that is only page-aligned. *)
Theorem large_alloc_ignores_align {P : Profile} :
  exists w fl p w', slab_inv fl [] w /\ layout_ok 4096 8192 /\
    LockedSlab_alloc 4096 8192 w = Ok (p, w') /\ p <> 0 /\ ~ (8192 | p).
Proof.
  exists demo_world, (fun _ => []).
  assert (exists w', LockedSlab_alloc 4096 8192 demo_world = Ok (0xFFFF800040001000, w')) as (w' & E).
  { eexists. destruct P; vm_compute; reflexivity. }
  exists 0xFFFF800040001000, w'. split_and!; [apply demo_world_inv|split; [by exists 13|lia]|exact E|lia|].
  intros [z Hz]. lia.
Qed.
