(* ===== verification/Exceptions.v ===== *)
(** * kernel/exceptions: the trap frame, the vector path, and the handlers

    The save and restore macros of [asm/ventry.s] are instruction lists run by a
    small machine; [TrapFrame] and the handlers are those of [types.rs],
    [page_fault.rs] and [handlers.rs].  A handler's result is what it
    prints; every one then parks the CPU for good.  The live system registers a
    handler reads are its arguments; [SysReg] has the code that reads them. *)

From stdpp Require Import strings.
From S2P Require Import Prelude Arch.
Open Scope string_scope.
Open Scope Z_scope.

(* ------------------------------------------------------------------------- *)
(** ** The trap frame *)

Record TrapFrame := mkTrapFrame {
  tf_x : list Z;
  tf_sp_el0 : Z;
  tf_elr_el1 : Z;
  tf_spsr_el1 : Z;
}.

Definition X_OFFSET : Z := 0.
Definition SP_EL0_OFFSET : Z := 31 * 8.
Definition ELR_OFFSET : Z := 31 * 8 + 8.
Definition SPSR_OFFSET : Z := 31 * 8 + 16.
Definition TrapFrame_SIZE : Z := 272.

Definition TrapFrame_elr (f : TrapFrame) : Z := tf_elr_el1 f.
Definition TrapFrame_user_sp (f : TrapFrame) : Z := tf_sp_el0 f.
Definition TrapFrame_spsr (f : TrapFrame) : Z := tf_spsr_el1 f.

(** The [repr(C)] view of the words at a frame's byte offsets. *)
Definition frame_at (words : Z -> Z) : TrapFrame :=
  mkTrapFrame ((fun r => words (X_OFFSET + 8 * r)) <$> seqZ 0 31)
    (words SP_EL0_OFFSET) (words ELR_OFFSET) (words SPSR_OFFSET).

(* ------------------------------------------------------------------------- *)
(** ** The vector path of ventry.s *)

Inductive sysreg := SP_EL0 | ELR_EL1 | SPSR_EL1.

#[export] Instance sysreg_eq_dec : EqDecision sysreg.
Proof. solve_decision. Defined.

(** The instructions the macros use; the offset is from the stack pointer. *)
Inductive instr :=
  | Stp (a b off : Z) | Str (a off : Z)
  | Ldp (a b off : Z) | Ldr (a off : Z)
  | Mrs (r : Z) (s : sysreg) | Msr (s : sysreg) (r : Z).

(** General registers, the exception-return registers, the stack pointer, and the
    words of the stack by address. *)
Record Machine := mkMachine {
  gpr : Z -> Z;
  sys : sysreg -> Z;
  msp : Z;
  stack : Z -> Z;
}.

Definition set_gpr (m : Machine) (r v : Z) : Machine :=
  mkMachine (<[r := v]> (gpr m)) (sys m) (msp m) (stack m).
Definition set_sys (m : Machine) (s : sysreg) (v : Z) : Machine :=
  mkMachine (gpr m) (<[s := v]> (sys m)) (msp m) (stack m).
Definition set_word (m : Machine) (off v : Z) : Machine :=
  mkMachine (gpr m) (sys m) (msp m) (<[msp m + off := v]> (stack m)).
Definition set_sp (m : Machine) (v : Z) : Machine := mkMachine (gpr m) (sys m) v (stack m).

Definition exec1 (m : Machine) (i : instr) : Machine :=
  match i with
  | Stp a b off => set_word (set_word m off (gpr m a)) (off + 8) (gpr m b)
  | Str a off => set_word m off (gpr m a)
  | Ldp a b off => set_gpr (set_gpr m a (stack m (msp m + off))) b (stack m (msp m + (off + 8)))
  | Ldr a off => set_gpr m a (stack m (msp m + off))
  | Mrs r s => set_gpr m r (sys m s)
  | Msr s r => set_sys m s (gpr m r)
  end.

Definition exec (m : Machine) (l : list instr) : Machine := foldl exec1 m l.

Definition save_context : list instr :=
  [Stp 0 1 0; Stp 2 3 16; Stp 4 5 32; Stp 6 7 48; Stp 8 9 64; Stp 10 11 80; Stp 12 13 96;
   Stp 14 15 112; Stp 16 17 128; Stp 18 19 144; Stp 20 21 160; Stp 22 23 176; Stp 24 25 192;
   Stp 26 27 208; Stp 28 29 224; Str 30 240;
   Mrs 0 SP_EL0; Mrs 1 ELR_EL1; Mrs 2 SPSR_EL1; Stp 0 1 248; Str 2 264].

Definition restore_context : list instr :=
  [Ldr 2 264; Ldp 0 1 248; Msr SPSR_EL1 2; Msr ELR_EL1 1; Msr SP_EL0 0;
   Ldr 30 240; Ldp 28 29 224; Ldp 26 27 208; Ldp 24 25 192; Ldp 22 23 176; Ldp 20 21 160;
   Ldp 18 19 144; Ldp 16 17 128; Ldp 14 15 112; Ldp 12 13 96; Ldp 10 11 80; Ldp 8 9 64;
   Ldp 6 7 48; Ldp 4 5 32; Ldp 2 3 16; Ldp 0 1 0].

(** [vector_entry] and [impl_handler] up to the call; x0 is the frame's address. *)
Definition trap_entry (m : Machine) : Machine :=
  let m := set_sp m (msp m - 272) in
  let m := exec m save_context in
  set_gpr m 0 (msp m).

(** [common_exit] before [eret]. *)
Definition trap_exit (m : Machine) : Machine :=
  let m := exec m restore_context in
  set_sp m (msp m + 272).

(** The sixteen slots of [vector_table]. *)
Inductive vector :=
  | bad_mode | el1_sync | el1_irq | el1_fiq | el1_serror
  | el0_sync | el0_irq | el0_fiq | el0_serror.

Definition vector_table : list vector :=
  [bad_mode; bad_mode; bad_mode; bad_mode;
   el1_sync; el1_irq; el1_fiq; el1_serror;
   el0_sync; el0_irq; el0_fiq; el0_serror;
   bad_mode; bad_mode; bad_mode; bad_mode].

(* ------------------------------------------------------------------------- *)
(** ** What the handlers print *)

Record Dump := mkDump {
  du_label : string;
  du_class : ExceptionClass;
  du_ec : Z;
  du_reason : string;
  du_esr : Z;
  du_elr : Z;
  du_far : Z;
  du_spsr : Z;
  du_mode : SpsrMode;
  du_sp_el0 : Z;
  du_x : list Z;
}.

Record FaultReport := mkFaultReport {
  fr_status : string;
  fr_level : option Level;
  fr_access : string;
  fr_far : Z;
  fr_far_valid : bool;
  fr_elr : Z;
  fr_esr : Z;
}.

Inductive report := Dumped (d : Dump) | PageFault (r : FaultReport).

(** [dump], with [ESR_EL1] and [FAR_EL1] as read. *)
Definition TrapFrame_dump (f : TrapFrame) (label : string) (esr far : Z) : Dump :=
  mkDump label (Esr_class esr) (Esr_ec_raw esr) (ExceptionClass_description (Esr_class esr)) esr
    (TrapFrame_elr f) far (TrapFrame_spsr f) (Spsr_mode (TrapFrame_spsr f)) (TrapFrame_user_sp f) (tf_x f).

Definition handle_page_fault (f : TrapFrame) (esr far : Z) : outcome FaultReport :=
  let is_far_valid := Esr_far_valid esr in
  let! status := Esr_fault_status esr in
  let access :=
    match Esr_class esr with
    | InstrAbortSameEl | InstrAbortLowerEl => "execute"
    | _ => if Esr_is_write esr then "write" else "read"
    end in
  let elr := TrapFrame_elr f in
  Ok (mkFaultReport (FaultStatus_description status) (FaultStatus_level status) access far
        is_far_valid elr esr).

Definition el1_sync_handler (f : TrapFrame) (esr far : Z) : outcome report :=
  match Esr_class esr with
  | DataAbortSameEl | InstrAbortSameEl =>
      let! r := handle_page_fault f esr far in Ok (PageFault r)
  | _ => Ok (Dumped (TrapFrame_dump f "EL1 SYNC EXCEPTION" esr far))
  end.

(** The Rust handler behind each stub. *)
Definition handler (v : vector) (f : TrapFrame) (esr far : Z) : outcome report :=
  match v with
  | bad_mode => Ok (Dumped (TrapFrame_dump f "BAD MODE" esr far))
  | el1_sync => el1_sync_handler f esr far
  | el1_irq => Ok (Dumped (TrapFrame_dump f "EL1 IRQ (unhandled)" esr far))
  | el1_fiq => Ok (Dumped (TrapFrame_dump f "EL1 FIQ (unhandled)" esr far))
  | el1_serror => Ok (Dumped (TrapFrame_dump f "EL1 SError" esr far))
  | el0_sync => Ok (Dumped (TrapFrame_dump f "EL0 SYNC (unhandled)" esr far))
  | el0_irq => Ok (Dumped (TrapFrame_dump f "EL0 IRQ (unhandled)" esr far))
  | el0_fiq => Ok (Dumped (TrapFrame_dump f "EL0 FIQ (unhandled)" esr far))
  | el0_serror => Ok (Dumped (TrapFrame_dump f "EL0 SError" esr far))
  end.

(* ------------------------------------------------------------------------- *)
(** ** Lemmas *)

Lemma sp_insert (f : Z -> Z) (s a b v : Z) :
  (<[s + a := v]> f) (s + b) = if decide (a = b) then v else f (s + b).
Proof.
  destruct (decide (a = b)) as [->|]; [apply fn_lookup_insert|]. apply fn_lookup_insert_ne. lia.
Qed.




Lemma esr_dfsc_ok esr :
  exists s, Esr_fault_status esr = Ok s /\ FaultStatus_code s = Z.land esr 0x3F /\
            (is_Some (FaultStatus_level s) <-> Z.land esr 0x3F < 16).
Proof.
  assert (0 <= Z.land esr 0x3F < 64) as H.
  { change 0x3F with (Z.ones 6). rewrite Z.land_ones by done. by apply Z.mod_pos_bound. }
  unfold Esr_fault_status, Esr_dfsc. rewrite as_u8_small by lia. apply fault_status_total. lia.
Qed.



(* ------------------------------------------------------------------------- *)
(** ** Properties *)

(** C25: the vector path saves and restores everything.  On entry the stack holds, at
    the address passed to the handler, a [TrapFrame] of the interrupted context;
    whatever the handler does to the registers, on exit the stack pointer is back
    and every register has the value the frame then holds, so a frame left alone
    resumes the interrupted context and an edited field takes effect. *)
Theorem trap_path_round_trip m gpr' sys' stack' :
  let e := trap_entry m in
  let frame := fun off => stack e (gpr e 0 + off) in
  frame_at frame = mkTrapFrame (gpr m <$> seqZ 0 31) (sys m SP_EL0) (sys m ELR_EL1) (sys m SPSR_EL1) /\
  gpr e 0 = msp m - TrapFrame_SIZE /\ msp e = gpr e 0 /\
  let r := trap_exit (mkMachine gpr' sys' (msp e) stack') in
  msp r = msp m /\
  frame_at (fun off => stack' (gpr e 0 + off))
  = mkTrapFrame (gpr r <$> seqZ 0 31) (sys r SP_EL0) (sys r ELR_EL1) (sys r SPSR_EL1).
Proof.
  cbn [trap_entry exec foldl save_context exec1 set_word set_gpr set_sp gpr sys msp stack].
  split_and!; [|done|done|cbn; lia|reflexivity].
  unfold frame_at. f_equal.
  - apply list_fmap_ext. intros i r Hr.
    assert (r ∈ seqZ 0 31) as Hin by (by eapply list_elem_of_lookup_2). clear Hr. revert r Hin.
    apply list.Forall_forall. vm_compute seqZ.
    repeat constructor; rewrite !(fn_lookup_insert _ 0), !sp_insert; reflexivity.
  - rewrite !(fn_lookup_insert _ 0), !sp_insert; reflexivity.
  - rewrite !(fn_lookup_insert _ 0), !sp_insert; reflexivity.
  - rewrite !(fn_lookup_insert _ 0), !sp_insert; reflexivity.
Qed.

