(* ===== verification/Bytes.v ===== *)
(** * Memory as bytes, and structs laid out in it

    A memory gives the byte at each address.  [load_le] and [store_le] are the
    little-endian accesses of a number of bytes; [offsets] is where [repr(C)] puts the
    fields of a struct.  The structs that assembly or raw pointers reach into are here:
    their offsets and sizes are what the code's constants say. *)

From stdpp Require Import strings.
From S2P Require Import Prelude Buddy Exceptions Slab.
Open Scope string_scope.
Open Scope list_scope.
Open Scope Z_scope.

Notation memory := (Z -> Z).

(** The value of the [n] bytes from [a], least significant first. *)
Fixpoint load_le (n : nat) (m : memory) (a : Z) : Z :=
  match n with
  | O => 0
  | S n => m a + 2 ^ 8 * load_le n m (a + 1)
  end.

Fixpoint store_le (n : nat) (m : memory) (a v : Z) : memory :=
  match n with
  | O => m
  | S n => store_le n (<[a := v mod 2 ^ 8]> m) (a + 1) (v / 2 ^ 8)
  end.

(** Every address holds a byte. *)
Definition bytes_ok (m : memory) : Prop := forall x, unsigned 8 (m x).

(** The two memories agree outside the [n] bytes from [a]. *)
Definition same_outside (a n : Z) (m m' : memory) : Prop := forall x, x < a \/ a + n <= x -> m' x = m x.

(* ------------------------------------------------------------------------- *)
(** ** Accesses *)

Lemma store_frame n m a v : same_outside a (Z.of_nat n) m (store_le n m a v).
Proof.
  revert m a v. induction n as [|n IH]; intros m a v x Hx; cbn [store_le]; [done|].
  rewrite IH by lia. apply fn_lookup_insert_ne. lia.
Qed.

Lemma load_ext n m m' a : (forall x, a <= x < a + Z.of_nat n -> m' x = m x) -> load_le n m' a = load_le n m a.
Proof.
  revert a. induction n as [|n IH]; intros a H; cbn [load_le]; [done|]. rewrite H by lia.
  rewrite IH; [done|]. intros x Hx. apply H. lia.
Qed.

(** What is stored is what is loaded. *)
Lemma load_store_same n m a v : unsigned (8 * Z.of_nat n) v -> load_le n (store_le n m a v) a = v.
Proof.
  unfold unsigned. revert m a v. induction n as [|n IH]; intros m a v Hv; cbn [load_le store_le]; [lia|].
  rewrite store_frame by lia. rewrite fn_lookup_insert, IH.
  - pose proof (Z.div_mod v (2 ^ 8)). lia.
  - replace (8 * Z.of_nat (S n)) with (8 * Z.of_nat n + 8) in Hv by lia. rewrite Z.pow_add_r in Hv by lia.
    split; [apply Z.div_pos; lia|apply Z.div_lt_upper_bound; lia].
Qed.

(** A store leaves the bytes beside it. *)
Lemma load_frame k m m' a n b :
  same_outside a n m m' -> b + Z.of_nat k <= a \/ a + n <= b -> load_le k m' b = load_le k m b.
Proof. intros Hs H. apply load_ext. intros x Hx. apply Hs. lia. Qed.

Lemma load_store_other n m a v k b :
  b + Z.of_nat k <= a \/ a + Z.of_nat n <= b -> load_le k (store_le n m a v) b = load_le k m b.
Proof. apply load_frame, store_frame. Qed.

Lemma load_bound n m a : bytes_ok m -> unsigned (8 * Z.of_nat n) (load_le n m a).
Proof.
  intros Hm. unfold unsigned. revert a. induction n as [|n IH]; intros a; cbn [load_le]; [lia|].
  specialize (IH (a + 1)). destruct (Hm a) as [? ?].
  replace (8 * Z.of_nat (S n)) with (8 * Z.of_nat n + 8) by lia. rewrite Z.pow_add_r by lia. lia.
Qed.

Lemma store_bytes_ok n m a v : bytes_ok m -> bytes_ok (store_le n m a v).
Proof.
  revert m a v. induction n as [|n IH]; intros m a v Hm; cbn [store_le]; [done|]. apply IH. intros x.
  destruct (decide (a = x)) as [->|Hne]; [rewrite fn_lookup_insert; apply Z.mod_pos_bound; lia|].
  by rewrite fn_lookup_insert_ne.
Qed.

Lemma same_outside_refl a n m : same_outside a n m m.
Proof. done. Qed.

Lemma same_outside_trans a n m1 m2 m3 : same_outside a n m1 m2 -> same_outside a n m2 m3 -> same_outside a n m1 m3.
Proof. intros H1 H2 x Hx. by rewrite H2, H1. Qed.

Lemma same_outside_weaken a n b k m m' :
  b <= a -> a + n <= b + k -> same_outside a n m m' -> same_outside b k m m'.
Proof. intros ? ? H x Hx. apply H. lia. Qed.

(** A load as the whole-word view of the model's other memories: aligned words never overlap. *)
Lemma aligned_apart k a b : 0 < k -> (k | a) -> (k | b) -> a <> b -> b + k <= a \/ a + k <= b.
Proof.
  intros Hk [x ->] [y ->] Hne. destruct (Z.lt_trichotomy x y) as [?|[->|?]]; [right|done|left]; nia.
Qed.

(* ------------------------------------------------------------------------- *)
(** ** The layout of structs *)

Inductive field_ty := U8 | U16 | U32 | U64 | Array (t : field_ty) (n : Z).

Fixpoint size_of (t : field_ty) : Z :=
  match t with U8 => 1 | U16 => 2 | U32 => 4 | U64 => 8 | Array t n => size_of t * n end.

Fixpoint align_of (t : field_ty) : Z :=
  match t with U8 => 1 | U16 => 2 | U32 => 4 | U64 => 8 | Array t _ => align_of t end.

Definition struct := list (string * field_ty).

Definition round_up (a k : Z) : Z := div_ceil a k * k.

(** Each field at the next offset that suits it, in the order of declaration. *)
Fixpoint offsets (pos : Z) (fs : struct) : list (string * Z) :=
  match fs with
  | [] => []
  | (f, t) :: fs => (f, round_up pos (align_of t)) :: offsets (round_up pos (align_of t) + size_of t) fs
  end.

Fixpoint fields_end (pos : Z) (fs : struct) : Z :=
  match fs with [] => pos | (_, t) :: fs => fields_end (round_up pos (align_of t) + size_of t) fs end.

Definition struct_align (fs : struct) : Z := foldr (fun f => Z.max (align_of f.2)) 1 fs.

(** [size_of] of a [repr(C, align(n))] struct; [n = 1] is plain [repr(C)]. *)
Definition struct_size (n : Z) (fs : struct) : Z := round_up (fields_end 0 fs) (Z.max n (struct_align fs)).

Fixpoint assoc (f : string) (l : list (string * Z)) : Z :=
  match l with [] => 0 | (g, v) :: l => if bool_decide (f = g) then v else assoc f l end.

(** [offset_of!] *)
Definition offset_of (fs : struct) (f : string) : Z := assoc f (offsets 0 fs).

(** The structs of the program that are shared with assembly or with raw memory. *)
Definition PageInfo_layout : struct :=
  [("next", U32); ("prev", U32); ("count", U32); ("order", U8); ("state", U8); ("flags", U16)].
Definition TrapFrame_layout : struct :=
  [("x", Array U64 31); ("sp_el0", U64); ("elr_el1", U64); ("spsr_el1", U64)].
Definition SecondaryBootData_layout : struct :=
  [("percpu_offset", U64); ("stack_top", U64); ("ttbr1_root", U64)].
Definition FreeObject_layout : struct := [("next", U64)].

(** What [ventry.s], [secondary.s] and the const asserts of [buddy.rs] and [slab.rs]
    take for granted about them is so. *)
Lemma layouts_agree :
  struct_size 1 PageInfo_layout = SIZEOF_PageInfo /\ struct_align PageInfo_layout = 4 /\
  offset_of TrapFrame_layout "x" = X_OFFSET /\ offset_of TrapFrame_layout "sp_el0" = SP_EL0_OFFSET /\
  offset_of TrapFrame_layout "elr_el1" = ELR_OFFSET /\ offset_of TrapFrame_layout "spsr_el1" = SPSR_OFFSET /\
  struct_size 1 TrapFrame_layout = TrapFrame_SIZE /\
  offsets 0 SecondaryBootData_layout = [("percpu_offset", 0); ("stack_top", 8); ("ttbr1_root", 16)] /\
  struct_size 16 SecondaryBootData_layout = 32 /\
  exists c, getz CLASSES 0 = Some c /\ struct_size 1 FreeObject_layout <= c.
Proof. split_and!; try (vm_compute; reflexivity). exists 8. by split. Qed.
