(* ===== verification/MemMap.v ===== *)
(** * kernel/mm/buddy.rs: the buddy allocator on the bytes of its mem-map

    [Buddy] holds the descriptors as a list of records; the code holds them as 16-byte
    structs in raw memory, behind a slice that [new_at] makes of an address.  Here every
    access to a descriptor is a load or a store of one field at its [repr(C)] offset.
    A [state] byte that is no [PageState] is undefined behaviour when it is read.  That
    both developments do the same is in [MemMapProps]. *)

From stdpp Require Import strings.
From S2P Require Import Prelude FrameTypes Layout Buddy Bytes.

Definition OFF_next : Z := Eval vm_compute in offset_of PageInfo_layout "next".
Definition OFF_prev : Z := Eval vm_compute in offset_of PageInfo_layout "prev".
Definition OFF_count : Z := Eval vm_compute in offset_of PageInfo_layout "count".
Definition OFF_order : Z := Eval vm_compute in offset_of PageInfo_layout "order".
Definition OFF_state : Z := Eval vm_compute in offset_of PageInfo_layout "state".
Definition OFF_flags : Z := Eval vm_compute in offset_of PageInfo_layout "flags".

(** The discriminants of [PageState]. *)
Definition state_byte (s : PageState) : Z :=
  match s with Reserved => 0 | Free => 1 | Allocated => 2 | Tail => 3 end.
Definition byte_state (b : Z) : outcome PageState :=
  if b =? 0 then Ok Reserved
  else if b =? 1 then Ok Free
  else if b =? 2 then Ok Allocated
  else if b =? 3 then Ok Tail
  else Panic Undefined.

(** The allocator's own fields: the slice as its address and length, and the rest. *)
Record Handle := mkHandle {
  h_at : Z;
  h_len : Z;
  h_base : Z;
  h_nr : Z;
  h_area : list (option Z);
  h_free : Z;
}.

(** Methods that do not look at the descriptors see an allocator with none. *)
Definition math_view (h : Handle) : BuddyAllocator := mkBuddy [] (h_base h) (h_nr h) (h_area h) (h_free h).

Definition with_area (h : Handle) (l : list (option Z)) : Handle :=
  mkHandle (h_at h) (h_len h) (h_base h) (h_nr h) l (h_free h).
Definition with_free (h : Handle) (n : Z) : Handle :=
  mkHandle (h_at h) (h_len h) (h_base h) (h_nr h) (h_area h) n.

(* ------------------------------------------------------------------------- *)
(** ** One descriptor, at address [p] *)

Section descriptor.
Context {P : Profile}.
Implicit Types (m : memory) (p : Z).

(** [debug_assert!] of a condition that is itself evaluated. *)
Definition debug_check (c : outcome bool) : outcome unit :=
  if checked then let! b := c in debug_assert b else Ok tt.

Definition mem_state m p : outcome PageState := byte_state (load_le 1 m (p + OFF_state)).

Definition mem_is_free m p : outcome bool :=
  let! s := mem_state m p in Ok (bool_decide (s = Free)).

Definition mem_is_head m p : outcome bool :=
  let! s := mem_state m p in Ok (match s with Free | Allocated => true | _ => false end).

Definition mem_next m p : outcome (option Z) :=
  let! _ := debug_check (mem_is_free m p) in
  let v := load_le 4 m (p + OFF_next) in
  if v =? RAW_NONE then Ok None else Ok (Some v).

Definition mem_prev m p : outcome (option Z) :=
  let! _ := debug_check (mem_is_free m p) in
  let v := load_le 4 m (p + OFF_prev) in
  if v =? RAW_NONE then Ok None else Ok (Some v).

Definition mem_set_next (link : option Z) m p : outcome memory :=
  match link with
  | Some pfn =>
      let! _ := debug_assert (negb (pfn =? RAW_NONE)) in
      Ok (store_le 4 m (p + OFF_next) pfn)
  | None => Ok (store_le 4 m (p + OFF_next) RAW_NONE)
  end.

Definition mem_set_prev (link : option Z) m p : outcome memory :=
  match link with
  | Some pfn =>
      let! _ := debug_assert (negb (pfn =? RAW_NONE)) in
      Ok (store_le 4 m (p + OFF_prev) pfn)
  | None => Ok (store_le 4 m (p + OFF_prev) RAW_NONE)
  end.

Definition mem_order m p : outcome Z :=
  let! _ := debug_check (mem_is_head m p) in
  Ok (load_le 1 m (p + OFF_order)).

Definition store_state (s : PageState) m p : memory := store_le 1 m (p + OFF_state) (state_byte s).
Definition store_order (o : Z) m p : memory := store_le 1 m (p + OFF_order) o.

Definition mem_mark_free (order : Z) m p : outcome memory :=
  Ok (store_order order (store_state Free m p) p).

Definition mem_clear_links m p : outcome memory :=
  let! m := mem_set_next None m p in
  mem_set_prev None m p.

Definition mem_mark_allocated (order : Z) m p : outcome memory :=
  mem_clear_links (store_order order (store_state Allocated m p) p) p.

Definition mem_mark_tail m p : outcome memory := mem_clear_links (store_state Tail m p) p.

Definition mem_mark_reserved m p : outcome memory := mem_clear_links (store_state Reserved m p) p.
End descriptor.

(* ------------------------------------------------------------------------- *)
(** ** The allocator *)

Section allocator.
Context {P : Profile}.
Implicit Types (m : memory) (h : Handle) (s : memory * Handle) (pfn order : Z).

(** [&self.pages[pfn]]: the address of a descriptor. *)
Definition mem_slot h pfn : outcome Z :=
  if (0 <=? pfn) && (pfn <? h_len h) then Ok (h_at h + SIZEOF_PageInfo * pfn) else Panic IndexOutOfBounds.

Definition mem_page_mut s pfn (f : memory -> Z -> outcome memory) : outcome (memory * Handle) :=
  let! p := mem_slot s.2 pfn in
  let! m := f s.1 p in
  Ok (m, s.2).

Definition mem_set_area s order (head : option Z) : outcome (memory * Handle) :=
  let! fa := set_idx (h_area s.2) order head in
  Ok (s.1, with_area s.2 fa).

Definition mem_new m (at_ len base nr : Z) : outcome (memory * Handle) :=
  let! _ := debug_assert (nr <=? len) in
  let! m := foldM (fun m i => mem_mark_reserved m (at_ + SIZEOF_PageInfo * i)) (seqZ 0 len) m in
  Ok (m, mkHandle at_ len base nr (replicate (Z.to_nat MAX_ORDER) None) 0).

Definition mem_new_at m (mm_pa base nr : Z) : outcome (memory * Handle) :=
  let! va := pa_to_linear_va mm_pa in
  mem_new m va nr base nr.

Definition mem_push_front s order pfn : outcome (memory * Handle) :=
  let! _ := debug_check (let! p := mem_slot s.2 pfn in mem_is_free s.1 p) in
  let! old_head := idx (h_area s.2) order in
  let! s := mem_page_mut s pfn (mem_set_prev None) in
  let! s := mem_page_mut s pfn (mem_set_next old_head) in
  let! s :=
    match old_head with
    | Some h => mem_page_mut s h (mem_set_prev (Some pfn))
    | None => Ok s
    end in
  mem_set_area s order (Some pfn).

Definition mem_unlink s order pfn : outcome (memory * Handle) :=
  let! p := mem_slot s.2 pfn in
  let! prev := mem_prev s.1 p in
  let! p := mem_slot s.2 pfn in
  let! next := mem_next s.1 p in
  let! s :=
    match prev with
    | Some p => mem_page_mut s p (mem_set_next next)
    | None => mem_set_area s order next
    end in
  match next with
  | Some n => mem_page_mut s n (mem_set_prev prev)
  | None => Ok s
  end.

Definition mem_pop_front s order : outcome (option Z * (memory * Handle)) :=
  let! head := idx (h_area s.2) order in
  match head with
  | None => Ok (None, s)
  | Some head =>
      let! s := mem_unlink s order head in
      Ok (Some head, s)
  end.

Definition mem_split_step (block : Z) (t : Z * (memory * Handle)) : outcome (Z * (memory * Handle)) :=
  let '(k, s) := t in
  let! k := usub 64 k 1 in
  let! bit := ushl 32 1 k in
  let! buddy := uadd 32 block bit in
  let! s := mem_page_mut s buddy (mem_mark_free (as_u8 k)) in
  let! s := mem_push_front s (as_u8 k) buddy in
  Ok (k, s).

Definition mem_alloc s order : outcome (option Z * (memory * Handle)) :=
  let! found := find_order (math_view s.2) (seqZ order (MAX_ORDER - order)) in
  match found with
  | None => Ok (None, s)
  | Some k =>
      let! '(head, s) := mem_pop_front s (as_u8 k) in
      let! block := unwrap head in
      let! '(_, s) :=
        while (Z.to_nat MAX_ORDER) (fun t => order <? t.1) (mem_split_step block) (k, s) in
      let! size := ushl 64 1 order in
      let! n := FrameCount_sub_assign (h_free s.2) size in
      let! s := mem_page_mut (s.1, with_free s.2 n) block (mem_mark_allocated order) in
      Ok (Some block, s)
  end.

Definition mem_merge_step (t : (Z * Z) * (memory * Handle))
  : outcome (((Z * Z) * (memory * Handle)) + ((Z * Z) * (memory * Handle))) :=
  let '((cur, cur_order), s) := t in
  if cur_order <? MAX_ORDER - 1 then
    let! b := buddy_pfn (math_view s.2) cur cur_order in
    match b with
    | None => Ok (inr t)
    | Some buddy =>
        let! p := mem_slot s.2 buddy in
        let! free := mem_is_free s.1 p in
        let! mergeable :=
          (if free then
             let! p := mem_slot s.2 buddy in
             let! o := mem_order s.1 p in
             Ok (o =? cur_order)
           else Ok false) in
        if negb mergeable then Ok (inr t)
        else
          let! s := mem_unlink s cur_order buddy in
          let '(head, tail) := if cur <? buddy then (cur, buddy) else (buddy, cur) in
          let! s := mem_page_mut s tail mem_mark_tail in
          let! cur_order := uadd 8 cur_order 1 in
          Ok (inl ((head, cur_order), s))
    end
  else Ok (inr t).

Definition mem_free s pfn order : outcome (memory * Handle) :=
  let! size := ushl 64 1 order in
  let! n := FrameCount_add_assign (h_free s.2) size in
  let! '((cur, cur_order), s) :=
    loop (S (Z.to_nat MAX_ORDER)) mem_merge_step ((pfn, order), (s.1, with_free s.2 n)) in
  let! s := mem_page_mut s cur (mem_mark_free cur_order) in
  mem_push_front s cur_order cur.

Definition mem_mark_tail_step pfn (t : Z * (memory * Handle)) : outcome (Z * (memory * Handle)) :=
  let '(i, s) := t in
  let! x := uadd 32 pfn i in
  let! s := mem_page_mut s x mem_mark_tail in
  let! i := uadd 32 i 1 in
  Ok (i, s).

Definition mem_free_range_step (lim : Z) (t : Z * (memory * Handle)) : outcome (Z * (memory * Handle)) :=
  let '(pfn, s) := t in
  let! remaining := usub 32 lim pfn in
  let! order := max_order_at pfn remaining in
  let! bound := ushl 32 1 order in
  let! '(_, s) :=
    while (Z.to_nat (2 ^ MAX_ORDER)) (fun t => t.1 <? bound) (mem_mark_tail_step pfn) (1, s) in
  let! s := mem_page_mut s pfn (mem_mark_free order) in
  let! s := mem_push_front s order pfn in
  let! size := ushl 64 1 order in
  let! n := FrameCount_add_assign (h_free s.2) size in
  let! step := ushl 32 1 order in
  let! pfn := uadd 32 pfn step in
  Ok (pfn, (s.1, with_free s.2 n)).

Definition mem_free_range s (start count : Z) : outcome (memory * Handle) :=
  let! sum := uadd 64 start count in
  let! _ := debug_assert (sum <=? h_nr s.2) in
  let! lim := uadd 32 start (as_u32 count) in
  let! '(_, s) :=
    while (Z.to_nat count) (fun t => t.1 <? lim) (mem_free_range_step lim) (start, s) in
  Ok s.

Definition mem_alloc_pages s order : outcome (option Z * (memory * Handle)) :=
  let! '(r, s) := mem_alloc s order in
  match r with
  | None => Ok (None, s)
  | Some pfn =>
      let! pa := pa_of (math_view s.2) pfn in
      Ok (Some pa, s)
  end.

Definition mem_alloc_page s : outcome (option Z * (memory * Handle)) := mem_alloc_pages s 0.

Definition mem_free_pages s (pa order : Z) : outcome (memory * Handle) :=
  let! pfn := pfn_of (math_view s.2) pa in
  mem_free s pfn order.
End allocator.
