(* ===== verification/MemMapProps.v ===== *)
(** * The buddy allocator on bytes does what it does on descriptors

    [lockstep] relates two runs: both return related results, or both stop for the same
    reason.  [rel] relates the bytes of the mem-map to the list of descriptors, with
    every other byte as it was; each operation of [MemMap] runs in lockstep with its
    namesake in [Buddy], in both profiles, from any state, legal request or not. *)

From stdpp Require Import strings.
From S2P Require Import Prelude FrameTypes Layout Buddy BuddyInv BuddyGeom BuddyWf BuddySteps BuddyCore BuddyFree BuddyRange BuddyCanon BuddyProps BuddyTypes Bytes MemMap.

Definition lockstep {A B} (R : A -> B -> Prop) (x : outcome A) (y : outcome B) : Prop :=
  match x, y with
  | Ok a, Ok b => R a b
  | Panic r, Panic r' => r = r'
  | _, _ => False
  end.

Section lockstep.
Context {A B C D : Type}.

Lemma lockstep_bind (R : A -> B -> Prop) (Q : C -> D -> Prop) x y k k' :
  lockstep R x y -> (forall a b, R a b -> lockstep Q (k a) (k' b)) -> lockstep Q (obind x k) (obind y k').
Proof. destruct x, y; simpl; [auto|done..]. Qed.

(** The same computation on both sides, of values that satisfy [T]. *)
Lemma lockstep_same (T : A -> Prop) (Q : C -> D -> Prop) x k k' :
  ensures x T -> (forall a, T a -> lockstep Q (k a) (k' a)) -> lockstep Q (obind x k) (obind x k').
Proof. destruct x; simpl; auto. Qed.

Lemma lockstep_weaken (R Q : A -> B -> Prop) x y :
  lockstep R x y -> (forall a b, R a b -> Q a b) -> lockstep Q x y.
Proof. destruct x, y; simpl; auto. Qed.

(** What the second run ensures can be used of its result. *)
Lemma lockstep_ensures (R : A -> B -> Prop) (T : B -> Prop) x y :
  lockstep R x y -> ensures y T -> lockstep (fun a b => R a b /\ T b) x y.
Proof. destruct x, y; simpl; auto. Qed.
End lockstep.

Section loops.
Context {A B C D : Type}.

Lemma lockstep_while (R : A -> B -> Prop) c c' f f' fuel s t :
  (forall s t, R s t -> c s = c' t /\ (c' t = true -> lockstep R (f s) (f' t))) -> R s t ->
  lockstep R (while fuel c f s) (while fuel c' f' t).
Proof.
  intros H. revert s t. induction fuel as [|n IH]; intros s t Hs; simpl;
    destruct (H s t Hs) as [-> Hf]; destruct (c' t); try done.
  eapply lockstep_bind; [by apply Hf|exact IH].
Qed.

Lemma lockstep_loop (R : A -> B -> Prop) (Q : C -> D -> Prop) f f' fuel s t :
  (forall s t, R s t -> lockstep (fun x y => match x, y with
     | inl s, inl t => R s t | inr c, inr d => Q c d | _, _ => False end) (f s) (f' t)) ->
  R s t -> lockstep Q (loop fuel f s) (loop fuel f' t).
Proof.
  intros H. revert s t. induction fuel as [|n IH]; intros s t Hs; simpl; [done|].
  eapply lockstep_bind; [by apply H|]. intros [x|x] [y|y] Hxy; try done. by apply IH.
Qed.
End loops.

Lemma lockstep_any {A C D} (Q : C -> D -> Prop) (x : outcome A) k k' :
  (forall a, lockstep Q (k a) (k' a)) -> lockstep Q (obind x k) (obind x k').
Proof. destruct x; simpl; auto. Qed.

Lemma lockstep_refl {A} (x : outcome A) : lockstep eq x x.
Proof. by destruct x. Qed.

(* ------------------------------------------------------------------------- *)
(** ** One descriptor *)

(** The 16 bytes at [p] are the descriptor [d]. *)
Record holds (m : memory) (p : Z) (d : PageInfo) : Prop := {
  de_next : load_le 4 m (p + OFF_next) = pi_next d;
  de_prev : load_le 4 m (p + OFF_prev) = pi_prev d;
  de_count : load_le 4 m (p + OFF_count) = pi_count d;
  de_order : load_le 1 m (p + OFF_order) = pi_order d;
  de_state : load_le 1 m (p + OFF_state) = state_byte (pi_state d);
  de_flags : load_le 2 m (p + OFF_flags) = pi_flags d;
}.

(** What a change of the descriptor at [p] must keep. *)
Record kept (m0 : memory) (p : Z) (m : memory) (d : PageInfo) : Prop := {
  ke_holds : holds m p d;
  ke_typed : PageInfo_typed d;
  ke_bytes : bytes_ok m;
  ke_frame : same_outside p SIZEOF_PageInfo m0 m;
}.

Lemma byte_state_byte s : byte_state (state_byte s) = Ok s.
Proof. by destruct s. Qed.

Lemma state_byte_typed s : unsigned 8 (state_byte s).
Proof. unfold unsigned. destruct s; cbn; lia. Qed.

Ltac off := unfold OFF_next, OFF_prev, OFF_count, OFF_order, OFF_state, OFF_flags, SIZEOF_PageInfo in *; lia.

(** A field is stored: the others are as they were. *)
Lemma kept_store n m0 m p off v d d' :
  kept m0 p m d -> 0 <= off -> off + Z.of_nat n <= SIZEOF_PageInfo -> PageInfo_typed d' ->
  holds (store_le n m (p + off) v) p d' -> kept m0 p (store_le n m (p + off) v) d'.
Proof.
  intros [Hh Ht Hb Hf] H1 H2 Ht' Hh'. split; [done..|by apply store_bytes_ok|].
  eapply same_outside_trans; [exact Hf|]. eapply same_outside_weaken; [| |apply store_frame]; lia.
Qed.

Ltac fields := split; first [rewrite load_store_same by done; done | rewrite load_store_other by off; done].

Lemma kept_next m0 m p d v : kept m0 p m d -> unsigned 32 v -> kept m0 p (store_le 4 m (p + OFF_next) v) (with_next d v).
Proof.
  intros K Hv. pose proof K as [[] [] ? ?]. eapply kept_store; [done|off|off|by split|]. fields.
Qed.

Lemma kept_prev m0 m p d v : kept m0 p m d -> unsigned 32 v -> kept m0 p (store_le 4 m (p + OFF_prev) v) (with_prev d v).
Proof.
  intros K Hv. pose proof K as [[] [] ? ?]. eapply kept_store; [done|off|off|by split|]. fields.
Qed.

Lemma kept_order m0 m p d o : kept m0 p m d -> unsigned 8 o -> kept m0 p (store_order o m p) (with_order d o).
Proof.
  intros K Hv. pose proof K as [[] [] ? ?]. eapply kept_store; [done|off|off|by split|]. fields.
Qed.

Lemma kept_state m0 m p d s : kept m0 p m d -> kept m0 p (store_state s m p) (with_state d s).
Proof.
  intros K. pose proof K as [[] [] ? ?]. pose proof (state_byte_typed s).
  eapply kept_store; [done|off|off|by split|]. fields.
Qed.

Section descriptor.
Context {P : Profile}.

(** [g] does to the bytes what [f] does to the record. *)
Definition implements (g : memory -> Z -> outcome memory) (f : PageInfo -> outcome PageInfo) : Prop :=
  forall m0 m p d, kept m0 p m d -> lockstep (kept m0 p) (g m p) (f d).

Lemma set_next_implements l : link_typed l -> implements (mem_set_next l) (fun d => PageInfo_set_next d l).
Proof.
  intros Hl m0 m p d K. destruct l as [q|]; cbn.
  - apply lockstep_any. intros _. by apply kept_next.
  - apply kept_next; [done|apply raw_none_typed].
Qed.

Lemma set_prev_implements l : link_typed l -> implements (mem_set_prev l) (fun d => PageInfo_set_prev d l).
Proof.
  intros Hl m0 m p d K. destruct l as [q|]; cbn.
  - apply lockstep_any. intros _. by apply kept_prev.
  - apply kept_prev; [done|apply raw_none_typed].
Qed.

Lemma mark_free_implements o : unsigned 8 o -> implements (mem_mark_free o) (fun d => PageInfo_mark_free d o).
Proof. intros Ho m0 m p d K. by apply kept_order; [apply kept_state|]. Qed.

Lemma clear_links_implements :
  implements mem_clear_links (fun d => let! d := PageInfo_set_next d None in PageInfo_set_prev d None).
Proof.
  intros m0 m p d K. eapply lockstep_bind; [by apply (set_next_implements None)|].
  intros m1 d1 K1. by apply (set_prev_implements None).
Qed.

Lemma mark_allocated_implements o :
  unsigned 8 o -> implements (mem_mark_allocated o) (fun d => PageInfo_mark_allocated d o).
Proof. intros Ho m0 m p d K. apply clear_links_implements. by apply kept_order; [apply kept_state|]. Qed.

Lemma mark_tail_implements : implements mem_mark_tail PageInfo_mark_tail.
Proof. intros m0 m p d K. apply clear_links_implements. by apply kept_state. Qed.

(** Reading. *)
Lemma mem_state_ok m p d : holds m p d -> mem_state m p = Ok (pi_state d).
Proof. intros H. unfold mem_state. rewrite (de_state _ _ _ H). apply byte_state_byte. Qed.

Lemma mem_is_free_ok m p d : holds m p d -> mem_is_free m p = Ok (PageInfo_is_free d).
Proof. intros H. unfold mem_is_free. by rewrite (mem_state_ok m p d H). Qed.

Lemma mem_is_head_ok m p d : holds m p d -> mem_is_head m p = Ok (PageInfo_is_head d).
Proof. intros H. unfold mem_is_head. by rewrite (mem_state_ok m p d H). Qed.

Lemma debug_check_ok b : debug_check (Ok b) = debug_assert b.
Proof. unfold debug_check, debug_assert. cbn. by destruct checked. Qed.

Lemma mem_next_ok m p d : holds m p d -> mem_next m p = PageInfo_next d.
Proof.
  intros H. unfold mem_next, PageInfo_next. by rewrite (mem_is_free_ok m p d H), debug_check_ok, (de_next _ _ _ H).
Qed.

Lemma mem_prev_ok m p d : holds m p d -> mem_prev m p = PageInfo_prev d.
Proof.
  intros H. unfold mem_prev, PageInfo_prev. by rewrite (mem_is_free_ok m p d H), debug_check_ok, (de_prev _ _ _ H).
Qed.

Lemma mem_order_ok m p d : holds m p d -> mem_order m p = PageInfo_get_order d.
Proof.
  intros H. unfold mem_order, PageInfo_get_order.
  by rewrite (mem_is_head_ok m p d H), debug_check_ok, (de_order _ _ _ H).
Qed.
End descriptor.

(* ------------------------------------------------------------------------- *)
(** ** The allocator *)

(** The bytes are the descriptors of [a]; those outside the mem-map are [m0]'s. *)
Record rel (m0 : memory) (va n : Z) (s : memory * Handle) (a : BuddyAllocator) : Prop := {
  re_at : h_at s.2 = va;
  re_len : h_len s.2 = n;
  re_pages : lenz (pages a) = n;
  re_view : math_view s.2 = with_pages a [];
  re_page : forall i d, getz (pages a) i = Some d -> holds s.1 (va + SIZEOF_PageInfo * i) d;
  re_typed : BuddyAllocator_typed a;
  re_bytes : bytes_ok s.1;
  re_frame : same_outside va (SIZEOF_PageInfo * n) m0 s.1;
}.

Section allocator.
Context {P : Profile} (m0 : memory) (va n : Z).
Implicit Types (s : memory * Handle) (a : BuddyAllocator) (pfn order : Z).

Local Abbreviation R := (rel m0 va n).
(** Results that come with a frame number. *)
Local Abbreviation RP := (fun x y => x.1 = y.1 /\ link_typed y.1 /\ R x.2 y.2).
(** Loop states that come with a counter. *)
Local Abbreviation RC := (fun x y => x.1 = y.1 /\ R x.2 y.2).

Lemma re_area s a : R s a -> h_area s.2 = free_area a.
Proof. intros H. exact (f_equal free_area (re_view _ _ _ _ _ H)). Qed.
Lemma re_free s a : R s a -> h_free s.2 = free_frames a.
Proof. intros H. exact (f_equal free_frames (re_view _ _ _ _ _ H)). Qed.
Lemma re_nr s a : R s a -> h_nr s.2 = nr_frames a.
Proof. intros H. exact (f_equal nr_frames (re_view _ _ _ _ _ H)). Qed.

Lemma mem_slot_sim s a pfn :
  R s a -> lockstep (fun p d => p = va + SIZEOF_PageInfo * pfn /\ holds s.1 p d /\ getz (pages a) pfn = Some d /\ 0 <= pfn < n)
             (mem_slot s.2 pfn) (page a pfn).
Proof.
  intros H. unfold mem_slot, page, idx. rewrite (re_at _ _ _ _ _ H), (re_len _ _ _ _ _ H).
  destruct (getz (pages a) pfn) as [d|] eqn:E.
  - pose proof (getz_Some_range _ _ _ E) as Hr. rewrite (re_pages _ _ _ _ _ H) in Hr.
    destruct (Z.leb_spec 0 pfn), (Z.ltb_spec pfn n); try lia. cbn. split_and!; [done| |done|lia..].
    by apply (re_page _ _ _ _ _ H).
  - destruct (Z.leb_spec 0 pfn), (Z.ltb_spec pfn n); try done. cbn.
    destruct (getz_is_Some (pages a) pfn) as [d Hd]; [rewrite (re_pages _ _ _ _ _ H); lia|congruence].
Qed.

(** A changed descriptor is stored in its slot, and no other slot moves. *)
Lemma page_mut_sim s a pfn g f :
  R s a -> implements g f -> lockstep R (mem_page_mut s pfn g) (page_mut a pfn f).
Proof.
  intros H Hg. eapply lockstep_bind; [by apply mem_slot_sim|]. intros p d (-> & Hd & Hget & Hr).
  destruct H as [H1 H2 H3 H4 H5 [T1 T2 T3 T4 T5] H7 H8].
  eapply lockstep_bind; [apply (Hg s.1); split; [done|by eapply getz_Forall|done|apply same_outside_refl]|].
  intros m d' [Hh Ht Hb Hf]. split; cbn [fst snd]; try done.
  - cbn. by rewrite lenz_setz.
  - intros i e He. destruct (decide (pfn = i)) as [<-|Hne].
    + cbn in He. rewrite getz_setz_eq in He by lia. by simplify_eq.
    + cbn in He. rewrite getz_setz_ne in He by done.
      destruct (H5 i e He). split; (erewrite load_frame; [eassumption|exact Hf|off]).
  - split; try done. by apply setz_Forall.
  - eapply same_outside_trans; [exact H8|]. eapply same_outside_weaken; [..|exact Hf]; off.
Qed.

Lemma set_area_sim s a order l :
  R s a -> link_typed l -> lockstep R (mem_set_area s order l) (set_free_area a order l).
Proof.
  intros H Hl. pose proof (set_free_area_typed a order l (re_typed _ _ _ _ _ H) Hl) as Ht. revert Ht.
  unfold mem_set_area, set_free_area. rewrite (re_area s a H). unfold set_idx.
  destruct (getz (free_area a) order); [|done]. intros Ht. cbn in Ht |- *. destruct H as [H1 H2 H3 H4 H5 H6 H7 H8].
  split; try done. unfold math_view in *. cbn in *. injection H4 as -> -> _ ->. done.
Qed.

Lemma with_free_sim s a k : R s a -> unsigned 64 k -> R (s.1, with_free s.2 k) (with_free_frames a k).
Proof.
  intros [H1 H2 H3 H4 H5 H6 H7 H8] Hk. split; try done; [|by apply free_frames_typed].
  unfold math_view in *. cbn in *. injection H4 as -> -> -> _. done.
Qed.

Lemma area_typed a order : BuddyAllocator_typed a -> ensures (idx (free_area a) order) link_typed.
Proof. intros H. apply (idx_typed link_typed), H. Qed.

(** The relinking of an old head, shared by both profiles. *)
Lemma relink_sim s a order pfn :
  R s a -> unsigned 32 pfn ->
  lockstep R
    (let! old := idx (h_area s.2) order in
     let! s := mem_page_mut s pfn (mem_set_prev None) in
     let! s := mem_page_mut s pfn (mem_set_next old) in
     let! s := match old with Some h => mem_page_mut s h (mem_set_prev (Some pfn)) | None => Ok s end in
     mem_set_area s order (Some pfn))
    (let! old := idx (free_area a) order in
     let! a := page_mut a pfn (fun p => PageInfo_set_prev p None) in
     let! a := page_mut a pfn (fun p => PageInfo_set_next p old) in
     let! a := match old with Some h => page_mut a h (fun p => PageInfo_set_prev p (Some pfn)) | None => Ok a end in
     set_free_area a order (Some pfn)).
Proof.
  intros H Hp. rewrite (re_area s a H). eapply lockstep_same; [apply area_typed, H|]. intros old Hold.
  eapply lockstep_bind; [apply page_mut_sim; [done|by apply (set_prev_implements None)]|]. intros s1 a1 H1.
  eapply lockstep_bind; [apply page_mut_sim; [done|by apply set_next_implements]|]. intros s2 a2 H2.
  eapply (lockstep_bind R).
  - destruct old as [h|]; [|done]. apply page_mut_sim; [done|]. by apply (set_prev_implements (Some pfn)).
  - intros s3 a3 H3. by apply set_area_sim.
Qed.

Lemma push_front_sim s a order pfn :
  R s a -> unsigned 32 pfn -> lockstep R (mem_push_front s order pfn) (push_front a order pfn).
Proof.
  intros H Hp. pose proof (relink_sim s a order pfn H Hp) as Hr. pose proof (mem_slot_sim s a pfn H) as Hs.
  unfold mem_push_front, push_front. unfold debug_check at 1. destruct (page a pfn) as [d|r] eqn:E; cbn [obind].
  - destruct (mem_slot s.2 pfn) as [p|]; [|done]. destruct Hs as (-> & Hd & _). cbn [obind].
    rewrite (mem_is_free_ok _ _ _ Hd). cbn [obind]. destruct checked eqn:C.
    + by apply lockstep_any; intros _.
    + unfold debug_assert. rewrite C. exact Hr.
  - destruct (mem_slot s.2 pfn) as [p|] eqn:Es; [done|]. cbn in Hs. subst. destruct checked; [done|]. cbn [obind].
    revert Hr. rewrite (re_area s a H). unfold page_mut at 1. unfold page in E. rewrite E. cbn [obind].
    unfold idx in *. destruct (getz (pages a) pfn); simplify_eq. by destruct (getz (free_area a) order).
Qed.

Lemma unlink_sim s a order pfn :
  R s a -> lockstep R (mem_unlink s order pfn) (unlink a order pfn).
Proof.
  intros H. unfold mem_unlink, unlink. eapply lockstep_bind; [by apply mem_slot_sim|].
  intros p d (-> & Hd & Hget & _). rewrite (mem_prev_ok _ _ _ Hd).
  assert (PageInfo_typed d) as Ht by (eapply getz_Forall; [apply H|done]).
  eapply lockstep_same; [by apply prev_typed|]. intros prev Hprev.
  eapply lockstep_bind; [by apply mem_slot_sim|]. intros p d' (-> & Hd' & Hget' & _). simplify_eq.
  rewrite (mem_next_ok _ _ _ Hd'). eapply lockstep_same; [by apply next_typed|]. intros next Hnext.
  eapply (lockstep_bind R).
  - destruct prev as [q|]; [|by apply set_area_sim]. apply page_mut_sim; [done|by apply set_next_implements].
  - intros s1 a1 H1. destruct next as [q|]; [|done]. apply page_mut_sim; [done|by apply set_prev_implements].
Qed.

Lemma pop_front_sim s a order : R s a -> lockstep RP (mem_pop_front s order) (pop_front a order).
Proof.
  intros H. unfold mem_pop_front, pop_front. rewrite (re_area s a H).
  eapply lockstep_same; [apply area_typed, H|]. intros [h|] Hh; [|done].
  eapply lockstep_bind; [by apply unlink_sim|]. by intros s1 a1 H1.
Qed.

Lemma find_order_view s a ks : R s a -> find_order (math_view s.2) ks = find_order a ks.
Proof.
  intros H. rewrite (re_view _ _ _ _ _ H). induction ks as [|k ks IH]; cbn [find_order]; [done|].
  cbn [with_pages free_area]. destruct (idx _ k) as [[]|]; cbn [obind]; [done|exact IH|done].
Qed.

Lemma split_step_sim block t u :
  unsigned 32 block -> RC t u -> lockstep RC (mem_split_step block t) (alloc_split_step block u).
Proof.
  destruct t as [k s], u as [k' a]. cbn [fst snd]. intros Hb [-> H]. unfold mem_split_step, alloc_split_step.
  apply lockstep_any. intros k. apply lockstep_any. intros bit. eapply lockstep_same; [by apply arith_typed|].
  intros buddy Hbuddy.
  eapply lockstep_bind; [apply page_mut_sim; [done|apply mark_free_implements, as_u8_typed]|]. intros s1 a1 H1.
  eapply lockstep_bind; [by apply push_front_sim|]. by intros s2 a2 H2.
Qed.

Lemma alloc_sim s a order :
  R s a -> unsigned 8 order -> lockstep RP (mem_alloc s order) (BuddyAllocator_alloc a order).
Proof.
  intros H Ho. unfold mem_alloc, BuddyAllocator_alloc. rewrite (find_order_view s a _ H).
  apply lockstep_any. intros [k|]; [|done].
  eapply lockstep_bind; [by apply pop_front_sim|]. intros [h s1] [h' a1] (E & Hh & H1). cbn [fst snd] in *. subst.
  eapply (lockstep_same (unsigned 32)); [by destruct h'|]. intros block Hb.
  eapply (lockstep_bind RC).
  { apply (lockstep_while RC); [|done]. intros t u Htu. split; [by rewrite (proj1 Htu)|]. intros _.
    by apply split_step_sim. }
  intros [k1 s2] [k2 a2] [_ H2]. cbn [fst snd] in *. apply lockstep_any. intros size.
  rewrite (re_free s2 a2 H2). eapply lockstep_same; [by apply arith_typed|]. intros m Hm.
  eapply lockstep_bind; [|by intros s3 a3 H3].
  apply page_mut_sim; [by apply with_free_sim|by apply mark_allocated_implements].
Qed.

(** The state of the coalescing loop: a block and the allocator. *)
Definition block_rel (t : (Z * Z) * (memory * Handle)) (u : (Z * Z) * BuddyAllocator) : Prop :=
  t.1 = u.1 /\ unsigned 32 u.1.1 /\ unsigned 8 u.1.2 /\ R t.2 u.2.

Lemma buddy_pfn_typed a cur o : unsigned 32 cur -> ensures (buddy_pfn a cur o) link_typed.
Proof.
  intros Hc. unfold buddy_pfn. apply ensures_any. intros _. eapply ensures_bind; [by apply ushl_typed|].
  intros bit Hbit. destruct (nr_frames a <=? _); [done|]. by apply lxor_typed.
Qed.

Lemma merge_step_sim t u :
  block_rel t u ->
  lockstep (fun x y => match x, y with inl t, inl u => block_rel t u | inr t, inr u => block_rel t u | _, _ => False end)
    (mem_merge_step t) (free_merge_step u).
Proof.
  destruct t as [[cur o] s], u as [[cur' o'] a]. intros (E & Hc & Ho & H). cbn [fst snd] in *. simplify_eq.
  unfold mem_merge_step, free_merge_step. destruct (o' <? _); [|done].
  rewrite (re_view _ _ _ _ _ H). change (buddy_pfn (with_pages a []) cur' o') with (buddy_pfn a cur' o').
  eapply lockstep_same; [by apply buddy_pfn_typed|]. intros [buddy|] Hb; [|done].
  eapply lockstep_bind; [by apply mem_slot_sim|]. intros p d (-> & Hd & Hget & _).
  rewrite (mem_is_free_ok _ _ _ Hd). cbn [obind]. eapply (lockstep_bind eq).
  { destruct (PageInfo_is_free d); [|done]. eapply lockstep_bind; [by apply mem_slot_sim|].
    intros p e (-> & He & _). rewrite (mem_order_ok _ _ _ He). apply lockstep_refl. }
  intros b _ <-. destruct b; cbn [negb]; [|done].
  eapply lockstep_bind; [by apply unlink_sim|]. intros s1 a1 H1.
  assert (forall hd tl, unsigned 32 hd -> lockstep
    (fun x y => match x, y with inl t, inl u => block_rel t u | inr t, inr u => block_rel t u | _, _ => False end)
    (let! s := mem_page_mut s1 tl mem_mark_tail in let! k := uadd 8 o' 1 in Ok (inl ((hd, k), s)))
    (let! a := page_mut a1 tl PageInfo_mark_tail in let! k := uadd 8 o' 1 in Ok (inl ((hd, k), a)))) as Hgo.
  { intros hd tl Hhd. eapply lockstep_bind; [apply page_mut_sim; [done|apply mark_tail_implements]|].
    intros s2 a2 H2. eapply lockstep_same; [by apply arith_typed|]. by intros k Hk. }
  by destruct (cur' <? buddy); apply Hgo.
Qed.

Lemma free_sim s a pfn order :
  R s a -> unsigned 32 pfn -> unsigned 8 order -> lockstep R (mem_free s pfn order) (BuddyAllocator_free a pfn order).
Proof.
  intros H Hp Ho. unfold mem_free, BuddyAllocator_free. apply lockstep_any. intros size. rewrite (re_free s a H).
  eapply lockstep_same; [by apply arith_typed|]. intros m Hm. eapply (lockstep_bind block_rel).
  { apply (lockstep_loop block_rel); [by apply merge_step_sim|]. split_and!; [done..|]. by apply with_free_sim. }
  intros [[cur o] s1] [[cur' o'] a1] (E & Hc & Hk & H1). cbn [fst snd] in *. simplify_eq.
  eapply lockstep_bind; [apply page_mut_sim; [done|by apply mark_free_implements]|].
  intros s2 a2 H2. by apply push_front_sim.
Qed.

Lemma mark_tail_step_sim pfn t u :
  RC t u -> lockstep RC (mem_mark_tail_step pfn t) (mark_tail_step pfn u).
Proof.
  destruct t as [i s], u as [j a]. intros [E H]. cbn [fst snd] in *. subst. unfold mem_mark_tail_step, mark_tail_step.
  apply lockstep_any. intros x. eapply lockstep_bind; [apply page_mut_sim; [done|apply mark_tail_implements]|].
  intros s1 a1 H1. apply lockstep_any. by intros i.
Qed.

(** Loop states of [free_range], whose counter is a frame number. *)
Definition frame_rel (t : Z * (memory * Handle)) (u : Z * BuddyAllocator) : Prop :=
  t.1 = u.1 /\ unsigned 32 u.1 /\ R t.2 u.2.

Lemma free_range_step_sim lim t u :
  frame_rel t u -> lockstep frame_rel (mem_free_range_step lim t) (free_range_step lim u).
Proof.
  destruct t as [pfn s], u as [pfn' a]. intros (E & Hp & H). cbn [fst snd] in *. subst.
  unfold mem_free_range_step, free_range_step. apply lockstep_any. intros remaining.
  eapply (lockstep_same (unsigned 8)).
  { unfold max_order_at. apply ensures_any. intros top. apply as_u8_typed. }
  intros order Ho. apply lockstep_any. intros bound. eapply (lockstep_bind RC).
  { apply (lockstep_while RC); [|done]. intros t u Htu. split; [by rewrite (proj1 Htu)|]. intros _.
    by apply mark_tail_step_sim. }
  intros [i s1] [j a1] [_ H1]. cbn [fst snd] in *.
  eapply lockstep_bind; [apply page_mut_sim; [done|by apply mark_free_implements]|]. intros s2 a2 H2.
  eapply lockstep_bind; [by apply push_front_sim|]. intros s3 a3 H3. apply lockstep_any. intros size.
  rewrite (re_free s3 a3 H3). eapply lockstep_same; [by apply arith_typed|]. intros m Hm. apply lockstep_any. intros st.
  eapply lockstep_same; [by apply arith_typed|]. intros pfn Hpfn. split; [done|]. split; [done|]. by apply with_free_sim.
Qed.

Lemma free_range_sim s a start count :
  R s a -> unsigned 32 start -> lockstep R (mem_free_range s start count) (BuddyAllocator_free_range a start count).
Proof.
  intros H Hs. unfold mem_free_range, BuddyAllocator_free_range. apply lockstep_any. intros sum.
  rewrite (re_nr s a H). apply lockstep_any. intros ok. apply lockstep_any. intros lim. eapply (lockstep_bind frame_rel).
  - apply (lockstep_while frame_rel); [|done]. intros t u Htu. split; [by rewrite (proj1 Htu)|]. intros _.
    by apply free_range_step_sim.
  - intros [i s1] [j a1] (_ & _ & H1). done.
Qed.

(** The physical interface. *)
Lemma alloc_pages_sim s a order :
  R s a -> unsigned 8 order ->
  lockstep (fun x y => x.1 = y.1 /\ R x.2 y.2) (mem_alloc_pages s order) (BuddyAllocator_alloc_pages a order).
Proof.
  intros H Ho. unfold mem_alloc_pages, BuddyAllocator_alloc_pages. eapply lockstep_bind; [by apply alloc_sim|].
  intros [r s1] [r' a1] (E & _ & H1). cbn [fst snd] in *. subst. destruct r' as [pfn|]; [|done].
  rewrite (re_view _ _ _ _ _ H1). change (pa_of (with_pages a1 []) pfn) with (pa_of a1 pfn).
  apply lockstep_any. by intros pa.
Qed.

Lemma free_pages_sim s a pa order :
  R s a -> unsigned 8 order -> lockstep R (mem_free_pages s pa order) (BuddyAllocator_free_pages a pa order).
Proof.
  intros H Ho. unfold mem_free_pages, BuddyAllocator_free_pages.
  rewrite (re_view _ _ _ _ _ H). change (pfn_of (with_pages a []) pa) with (pfn_of a pa).
  eapply (lockstep_same (unsigned 32)).
  { unfold pfn_of. do 4 (apply ensures_any; intros ?). apply as_u32_typed. }
  intros pfn Hp. by apply free_sim.
Qed.
End allocator.

(* ------------------------------------------------------------------------- *)
(** ** The bytes as descriptors *)

(** A byte that is no [PageState] reads as [Reserved] here; none survives [new_at]. *)
Definition descriptor_at (m : memory) (p : Z) : PageInfo :=
  mkPageInfo (load_le 4 m (p + OFF_next)) (load_le 4 m (p + OFF_prev)) (load_le 4 m (p + OFF_count))
    (load_le 1 m (p + OFF_order))
    (match byte_state (load_le 1 m (p + OFF_state)) with Ok s => s | Panic _ => Reserved end)
    (load_le 2 m (p + OFF_flags)).

Definition raw_at (m : memory) (va n : Z) : list PageInfo :=
  (fun i => descriptor_at m (va + SIZEOF_PageInfo * i)) <$> seqZ 0 n.

(** The allocator that the bytes and the handle are. *)
Definition decode (s : memory * Handle) : BuddyAllocator :=
  mkBuddy (raw_at s.1 (h_at s.2) (h_len s.2)) (h_base s.2) (h_nr s.2) (h_area s.2) (h_free s.2).

Lemma holds_decode m p d : holds m p d -> descriptor_at m p = d.
Proof.
  intros [H1 H2 H3 H4 H5 H6]. unfold descriptor_at. rewrite H1, H2, H3, H4, H5, H6, byte_state_byte. by destruct d.
Qed.

Lemma descriptor_at_ext m m' p :
  (forall x, p <= x < p + SIZEOF_PageInfo -> m' x = m x) -> descriptor_at m' p = descriptor_at m p.
Proof.
  intros H. unfold descriptor_at. rewrite !(load_ext _ m m'); [done|..]; intros x Hx; apply H; off.
Qed.

Lemma descriptor_at_typed m p : bytes_ok m -> PageInfo_typed (descriptor_at m p).
Proof. intros Hm. split; by apply load_bound. Qed.

Lemma getz_fmap_seqZ {A} (f : Z -> A) n i : 0 <= i < n -> getz (f <$> seqZ 0 n) i = Some (f i).
Proof.
  intros Hi. unfold getz. destruct (Z.leb_spec 0 i); [|lia].
  rewrite list_lookup_fmap, lookup_seqZ_lt by lia. cbn. do 2 f_equal. lia.
Qed.

Lemma lenz_fmap_seqZ {A} (f : Z -> A) n : 0 <= n -> lenz (f <$> seqZ 0 n) = n.
Proof. intros Hn. unfold lenz. rewrite length_fmap, length_seqZ. lia. Qed.

Lemma getz_ext {A} (l l' : list A) : lenz l = lenz l' -> (forall i x, getz l i = Some x -> getz l' i = Some x) -> l = l'.
Proof.
  intros Hlen H. apply list_eq_same_length with (length l); [unfold lenz in Hlen; lia|done|].
  intros i x y Hi Hx Hy. specialize (H (Z.of_nat i) x). unfold getz in H.
  destruct (Z.leb_spec 0 (Z.of_nat i)); [|lia]. rewrite Nat2Z.id in H. rewrite (H Hx) in Hy. by simplify_eq.
Qed.

(** Related states determine each other: the bytes are the descriptors. *)
Lemma rel_decode m0 va n s a : 0 <= n -> rel m0 va n s a -> decode s = a.
Proof.
  intros Hn H. pose proof (re_view _ _ _ _ _ H) as Hv. unfold decode, math_view in *. destruct a as [l base nr area free].
  cbn in Hv. injection Hv as -> -> -> ->. f_equal. rewrite (re_at _ _ _ _ _ H), (re_len _ _ _ _ _ H).
  pose proof (re_pages _ _ _ _ _ H) as Hl. cbn in Hl. symmetry. apply getz_ext.
  - unfold raw_at. by rewrite lenz_fmap_seqZ.
  - intros i d Hi. pose proof (getz_Some_range _ _ _ Hi). unfold raw_at. rewrite getz_fmap_seqZ by lia. f_equal.
    apply holds_decode. by apply (re_page _ _ _ _ _ H).
Qed.

Section construction.
Context {P : Profile}.

(** The state is stored before anything is read, so whatever was there will do. *)
Lemma mark_reserved_raw m p :
  bytes_ok m -> lockstep (kept m p) (mem_mark_reserved m p) (PageInfo_mark_reserved (descriptor_at m p)).
Proof.
  intros Hm. apply clear_links_implements. unfold store_state.
  pose proof (descriptor_at_typed m p Hm) as [H1 H2 H3 H4 H5]. pose proof (state_byte_typed Reserved).
  split; [|by split|by apply store_bytes_ok|].
  - fields.
  - eapply same_outside_weaken; [..|apply store_frame]; off.
Qed.

(** What the marking loop does to the [k] descriptors from number [s]. *)
Record marked (m : memory) (va s k : Z) (m' : memory) (l : list PageInfo) : Prop := {
  mk_len : lenz l = k;
  mk_bytes : bytes_ok m';
  mk_frame : same_outside (va + SIZEOF_PageInfo * s) (SIZEOF_PageInfo * k) m m';
  mk_page : forall i d, getz l i = Some d -> holds m' (va + SIZEOF_PageInfo * (s + i)) d /\ PageInfo_typed d;
}.

Lemma getz_cons {A} (x : A) l i : getz (x :: l) i = if i =? 0 then Some x else getz l (i - 1).
Proof.
  unfold getz. destruct (Z.eqb_spec i 0) as [->|Hi]; [done|]. destruct (Z.leb_spec 0 i), (Z.leb_spec 0 (i - 1)); try lia; [|done].
  by replace (Z.to_nat i) with (S (Z.to_nat (i - 1))) by lia.
Qed.

Lemma mark_all_sim va (k : nat) : forall s m,
  bytes_ok m -> lockstep (marked m va s (Z.of_nat k))
    (foldM (fun m i => mem_mark_reserved m (va + SIZEOF_PageInfo * i)) (seqZ s (Z.of_nat k)) m)
    (mark_all_reserved ((fun i => descriptor_at m (va + SIZEOF_PageInfo * i)) <$> seqZ s (Z.of_nat k))).
Proof.
  induction k as [|k IH]; intros s m Hm.
  { split; [done..|]. intros i d Hi%getz_Some_range. change (lenz (@nil PageInfo)) with 0 in Hi. lia. }
  rewrite seqZ_cons by lia. replace (Z.pred (Z.of_nat (S k))) with (Z.of_nat k) by lia. cbn [foldM mark_all_reserved fmap list_fmap].
  eapply lockstep_bind; [by apply mark_reserved_raw|]. intros m1 d1 [Hd Ht Hb Hf].
  replace ((fun i => descriptor_at m (va + SIZEOF_PageInfo * i)) <$> seqZ (Z.succ s) (Z.of_nat k))
    with ((fun i => descriptor_at m1 (va + SIZEOF_PageInfo * i)) <$> seqZ (Z.succ s) (Z.of_nat k)).
  2: { apply list_fmap_ext. intros ? i Hi%list_elem_of_lookup_2%elem_of_seqZ. apply descriptor_at_ext. intros x Hx. apply Hf. off. }
  pose proof (IH (Z.succ s) m1 Hb) as Hrest. destruct (foldM _ _ m1) as [m2|]; destruct (mark_all_reserved _) as [l|]; try done.
  cbn in Hrest |- *. destruct Hrest as [Hl Hb2 Hf2 Hp]. split; [unfold lenz in *; cbn; lia|done| |].
  - eapply same_outside_trans; [eapply same_outside_weaken; [..|exact Hf]|eapply same_outside_weaken; [..|exact Hf2]]; off.
  - intros i d. rewrite getz_cons. destruct (Z.eqb_spec i 0) as [->|Hi].
    + intros [= <-]. split; [|done]. rewrite Z.add_0_r. destruct Hd.
      split; (erewrite load_frame; [eassumption|exact Hf2|off]).
    + intros Hget. destruct (Hp _ _ Hget) as [Hh ?]. split; [|done].
      by replace (s + i) with (Z.succ s + (i - 1)) by lia.
Qed.

(** [new_at] on any bytes: the allocator of whatever descriptors they were. *)
Lemma new_at_sim m mm_pa va base nr :
  pa_to_linear_va mm_pa = Ok va -> bytes_ok m -> unsigned 64 base -> unsigned 64 nr ->
  lockstep (rel m va nr) (mem_new_at m mm_pa base nr) (BuddyAllocator_new_at (raw_at m va nr) mm_pa base nr).
Proof.
  intros Hva Hm Hb [Hn0 Hn]. unfold mem_new_at, BuddyAllocator_new_at. rewrite Hva. cbn [obind].
  unfold mem_new, BuddyAllocator_new. rewrite (lenz_fmap_seqZ _ nr Hn0 : lenz (raw_at m va nr) = nr).
  apply lockstep_any. intros _. pose proof (mark_all_sim va (Z.to_nat nr) 0 m Hm) as Hall.
  rewrite Z2Nat.id in Hall by done. eapply lockstep_bind; [exact Hall|]. intros m1 l [Hl Hb1 Hf Hp].
  rewrite Z.mul_0_r, Z.add_0_r in Hf. split; cbn [fst snd h_at h_len pages]; try done.
  - intros i d Hi. by apply Hp.
  - split; cbn [pages dram_base nr_frames free_area free_frames]; try done.
    + apply Forall_lookup_2. intros i d Hi. apply (Hp (Z.of_nat i)). unfold getz. destruct (Z.leb_spec 0 (Z.of_nat i)); [|lia].
      by rewrite Nat2Z.id.
    + split; [|done]. by apply Forall_replicate.
Qed.
End construction.

(* ------------------------------------------------------------------------- *)
(** ** Properties *)

Section served.
Context {P : Profile}.

(** The allocator on bytes serving a request, and the states it reaches from
    [new_at] by legal requests, whatever the memory held. *)
Definition mem_serve (s : memory * Handle) (r : request) : outcome (option Z * (memory * Handle)) :=
  match r with
  | ReqAlloc o => mem_alloc s o
  | ReqFree p o => let! s := mem_free s p o in Ok (None, s)
  | ReqFreeRange a k => let! s := mem_free_range s a k in Ok (None, s)
  end.

Inductive mem_reachable (m0 : memory) (mm_pa base nr : Z) : memory * Handle -> Prop :=
  | mreach_new s : mem_new_at m0 mm_pa base nr = Ok s -> mem_reachable m0 mm_pa base nr s
  | mreach_serve s r x s' :
      mem_reachable m0 mm_pa base nr s -> legal nr (abs (decode s)) r -> mem_serve s r = Ok (x, s') ->
      mem_reachable m0 mm_pa base nr s'.

Lemma legal_typed a r :
  wf a -> legal (nr_frames a) (abs a) r ->
  match r with ReqAlloc o => unsigned 8 o | ReqFree p o => unsigned 32 p /\ unsigned 8 o | ReqFreeRange s _ => unsigned 32 s end.
Proof.
  intros W Hl. assert (nr_frames a <= RAW_NONE) as Hnr by (destruct W as (fl & I & _); apply I).
  unfold unsigned, RAW_NONE in *. destruct r as [o|p o|s n]; cbn [legal] in Hl.
  - unfold MAX_ORDER in Hl. lia.
  - destruct (wf_block_facts a p o W Hl) as (Ho & Hp & _ & Hn). unfold MAX_ORDER in Ho.
    pose proof (pow2_pos o ltac:(lia)). lia.
  - lia.
Qed.

Lemma mem_serve_sim m0 va n s a r :
  rel m0 va n s a -> wf a -> legal (nr_frames a) (abs a) r ->
  lockstep (fun x y => x.1 = y.1 /\ rel m0 va n x.2 y.2) (mem_serve s r) (serve a r).
Proof.
  intros H W Hl. pose proof (legal_typed a r W Hl) as Ht. destruct r as [o|p o|b k]; cbn [mem_serve serve].
  - eapply lockstep_weaken; [by apply alloc_sim|]. by intros x y (? & _ & ?).
  - eapply lockstep_bind; [by apply free_sim; [done|apply Ht..]|]. done.
  - eapply lockstep_bind; [by apply free_range_sim|]. done.
Qed.

(** A legal request on related states: both return, related, and the invariant holds. *)
Lemma mem_serve_ok m0 va n s a r :
  rel m0 va n s a -> wf a -> legal (nr_frames a) (abs a) r ->
  exists x s' a', mem_serve s r = Ok (x, s') /\ rel m0 va n s' a' /\ serve a r = Ok (x, a') /\ wf a' /\
    nr_frames a' = nr_frames a /\ spec_step (nr_frames a) (abs a) r x (abs a').
Proof.
  intros H W Hl. pose proof (mem_serve_sim m0 va n s a r H W Hl) as Hsim.
  destruct (serve_refines_spec a r W Hl) as (x & a' & E & Hrest). rewrite E in Hsim.
  destruct (mem_serve s r) as [[y s']|]; [|done]. destruct Hsim as [Hx Hr]. cbn [fst snd] in *. subst. eauto 10.
Qed.

Lemma mem_reachable_rel m0 mm_pa va base nr s :
  pa_to_linear_va mm_pa = Ok va -> bytes_ok m0 -> unsigned 64 base -> 0 <= nr <= RAW_NONE ->
  mem_reachable m0 mm_pa base nr s -> exists a, rel m0 va nr s a /\ wf a /\ nr_frames a = nr.
Proof.
  intros Hva Hm Hb Hnr. assert (unsigned 64 nr) as Hu by (unfold unsigned, RAW_NONE in *; lia).
  induction 1 as [s E|s r x s' _ (a & H & W & Hn) Hl E].
  - pose proof (new_at_sim m0 mm_pa va base nr Hva Hm Hb Hu) as Hsim. rewrite E in Hsim.
    unfold BuddyAllocator_new_at in Hsim. rewrite Hva in Hsim. cbn [obind] in Hsim.
    destruct (new_ok (raw_at m0 va nr) base nr) as (a & Ea & W & _ & _ & _ & Hn & _).
    { unfold raw_at. rewrite lenz_fmap_seqZ; lia. }
    { lia. }
    rewrite Ea in Hsim. exists a. by split_and!.
  - rewrite (rel_decode m0 va nr s a) in Hl by (done || lia). rewrite <- Hn in Hl.
    destruct (mem_serve_ok m0 va nr s a r H W Hl) as (y & s1 & a' & E1 & H1 & _ & W1 & Hn1 & _).
    rewrite E in E1. simplify_eq. exists a'. by rewrite Hn1.
Qed.
End served.

(** C6: the allocator that runs on raw bytes is the abstract allocator.  From [new_at] on any
    memory, after any history of legal requests, every legal request is served without
    panic or undefined behaviour, what the client sees is a step of the abstract allocator that the
    bytes denote, and no byte outside the mem-map has changed. *)
Theorem memmap_refines_spec {P : Profile} m0 mm_pa va base nr s r :
  pa_to_linear_va mm_pa = Ok va -> bytes_ok m0 -> unsigned 64 base -> 0 <= nr <= RAW_NONE ->
  mem_reachable m0 mm_pa base nr s -> legal nr (abs (decode s)) r ->
  exists x s', mem_serve s r = Ok (x, s') /\ spec_step nr (abs (decode s)) r x (abs (decode s')) /\
    same_outside va (SIZEOF_PageInfo * nr) m0 s'.1.
Proof.
  intros Hva Hm Hb Hnr Hr Hl. destruct (mem_reachable_rel m0 mm_pa va base nr s Hva Hm Hb Hnr Hr) as (a & H & W & Hn).
  rewrite (rel_decode m0 va nr s a) in Hl |- * by (done || lia). rewrite <- Hn in Hl.
  destruct (mem_serve_ok m0 va nr s a r H W Hl) as (x & s' & a' & E & H' & _ & _ & _ & Hs).
  exists x, s'. rewrite (rel_decode m0 va nr s' a') by (done || lia). rewrite Hn in Hs.
  split_and!; [done..|apply H'].
Qed.

(** Memory as the firmware may leave it. *)
Definition garbage : memory := fun x => (7 * x + 3) mod 256.

Lemma garbage_bytes : bytes_ok garbage.
Proof. intros x. apply (Z.mod_pos_bound (7 * x + 3) 256). lia. Qed.

(** A fresh allocator may be given any of its frames. *)
Lemma new_at_legal {P : Profile} m mm_pa va base nr b k :
  pa_to_linear_va mm_pa = Ok va -> bytes_ok m -> unsigned 64 base -> 0 <= nr <= RAW_NONE ->
  0 <= b -> 0 < k -> b + k <= nr ->
  exists s, mem_new_at m mm_pa base nr = Ok s /\ legal nr (abs (decode s)) (ReqFreeRange b k).
Proof.
  intros Hva Hm Hb Hnr Hb0 Hk Hbk. assert (unsigned 64 nr) as Hu by (unfold unsigned, RAW_NONE in *; lia).
  pose proof (new_at_sim m mm_pa va base nr Hva Hm Hb Hu) as Hsim. unfold BuddyAllocator_new_at in Hsim.
  rewrite Hva in Hsim. cbn [obind] in Hsim.
  destruct (new_ok (raw_at m va nr) base nr) as (a & Ea & W & Hh & _).
  { unfold raw_at. rewrite lenz_fmap_seqZ; lia. }
  { lia. }
  rewrite Ea in Hsim. destruct (mem_new_at m mm_pa base nr) as [s|]; [|done]. exists s. split; [done|].
  rewrite (rel_decode m va nr s a) by (done || lia). split_and!; [lia..| |].
  - intros f _ (p & o & Hp & _). by eapply no_heads_no_free.
  - intros p o f Ha%allocated_heads. by rewrite Hh in Ha.
Qed.

Lemma memmap_refines_spec_witness :
  exists s, mem_reachable (P := release) garbage 0x40000000 0x40000000 16 s /\
    exists x s', mem_serve (P := release) s (ReqAlloc 2) = Ok (x, s') /\
      spec_step 16 (abs (decode s)) (ReqAlloc 2) x (abs (decode s')) /\
      same_outside (0x40000000 + KERNEL_LINEAR_BASE) 256 garbage s'.1.
Proof.
  assert (pa_to_linear_va (P := release) 0x40000000 = Ok (0x40000000 + KERNEL_LINEAR_BASE)) as Hva by reflexivity.
  assert (unsigned 64 0x40000000) as Hb by (unfold unsigned; lia).
  assert (0 <= 16 <= RAW_NONE) as Hnr by (unfold RAW_NONE; lia).
  destruct (new_at_legal (P := release) garbage _ _ _ 16 1 15 Hva garbage_bytes Hb Hnr) as (s0 & E0 & L0); [lia..|].
  assert (mem_reachable (P := release) garbage 0x40000000 0x40000000 16 s0) as R0 by by constructor.
  destruct (mem_reachable_rel (P := release) _ _ _ _ _ _ Hva garbage_bytes Hb Hnr R0) as (a & H & W & Hn).
  pose proof L0 as L1. rewrite (rel_decode _ _ _ _ _ (proj1 Hnr) H), <- Hn in L1.
  destruct (mem_serve_ok (P := release) _ _ _ s0 a _ H W L1) as (x & s & a' & E & _).
  assert (mem_reachable (P := release) garbage 0x40000000 0x40000000 16 s) as R by by eapply mreach_serve.
  exists s. split; [exact R|].
  apply (memmap_refines_spec (P := release) garbage 0x40000000 _ 0x40000000 16 s (ReqAlloc 2) Hva garbage_bytes Hb Hnr R).
  cbn. unfold MAX_ORDER. lia.
Defined.

(** The same run, evaluated: the block is the one at frame 4, its head is marked [Allocated]
    with order 2 and no links, and the byte after the mem-map is as it was. *)
Example memmap_run :
  match (let! s := mem_new_at (P := release_dev) garbage 0x40000000 0x40000000 16 in
         let! s := mem_free_range (P := release_dev) s 1 15 in
         mem_alloc_pages (P := release_dev) s 2) with
  | Ok (r, (m, h)) =>
      let p := 0x40000000 + KERNEL_LINEAR_BASE + 16 * 4 in
      (r, load_le 1 m (p + OFF_state), load_le 1 m (p + OFF_order), load_le 4 m (p + OFF_next), h_free h,
       m (p + 16 * 12) =? garbage (p + 16 * 12))
      = (Some 0x40004000, 2, 2, RAW_NONE, 11, true)
  | Panic _ => False
  end.
Proof. vm_compute. reflexivity. Qed.
