(* ===== verification/HeapMem.v ===== *)
(** * kernel/mm/slab.rs: the heap on the bytes of memory

    [Slab] keeps its links in a memory of words of their own and the buddy allocator's
    descriptors in a list.  Here all of it is one memory of bytes: links are 8-byte
    accesses through the objects' pointers, descriptors those of [MemMap], and clients
    store single bytes.  It starts as [core/main.rs] starts it, with [init_buddy] making the
    mem-map in RAM that holds anything.  [HeapMemProps] shows that the two agree. *)

From S2P Require Import Prelude FrameTypes Layout Buddy Bootmem Slab Bytes MemMap.

(** The lists' heads, memory, and the [BUDDY] static. *)
Record MemWorld := mkMemWorld {
  mw_lists : list (option Z);
  mw_mem : memory;
  mw_buddy : option Handle;
}.

Definition mw_with_list (x : MemWorld) (ls : list (option Z)) : MemWorld := mkMemWorld ls (mw_mem x) (mw_buddy x).
Definition mw_with_mem (x : MemWorld) (m : memory) : MemWorld := mkMemWorld (mw_lists x) m (mw_buddy x).
Definition mw_with_buddy (x : MemWorld) (s : memory * Handle) : MemWorld := mkMemWorld (mw_lists x) s.1 (Some s.2).

Section slab.
Context {P : Profile}.

Definition mem_push (i ptr : Z) (x : MemWorld) : outcome MemWorld :=
  let! next := idx (mw_lists x) i in
  let x := mw_with_mem x (store_le 8 (mw_mem x) ptr (link_word next)) in
  let! ls := set_idx (mw_lists x) i (Some ptr) in
  Ok (mw_with_list x ls).

Definition mem_pop (i : Z) (x : MemWorld) : outcome (option Z * MemWorld) :=
  let! head := idx (mw_lists x) i in
  match head with
  | None => Ok (None, x)
  | Some node =>
      let next := word_link (load_le 8 (mw_mem x) node) in
      let! ls := set_idx (mw_lists x) i next in
      Ok (Some node, mw_with_list x ls)
  end.

Definition mem_refill_step (base size i : Z) (x : MemWorld) (k : Z) : outcome MemWorld :=
  let! off := umul 64 k size in
  let! p := uadd 64 base off in
  mem_push i p x.

Definition mem_carve (i pa : Z) (x : MemWorld) : outcome MemWorld :=
  let! base := pa_to_linear_va pa in
  let! size := idx CLASSES i in
  let! n := objects_per_page i in
  foldM (mem_refill_step base size i) (seqZ 0 n) x.

Definition mem_refill (i : Z) (x : MemWorld) : outcome (option unit * MemWorld) :=
  match mw_buddy x with
  | None => Ok (None, x)
  | Some h =>
      let! '(r, s) := mem_alloc_page (mw_mem x, h) in
      let x := mw_with_buddy x s in
      match r with
      | None => Ok (None, x)
      | Some pa => let! x := mem_carve i pa x in Ok (Some tt, x)
      end
  end.

Definition mem_large_alloc (size : Z) (x : MemWorld) : outcome (Z * MemWorld) :=
  let! order := pages_order size in
  match mw_buddy x with
  | None => Ok (0, x)
  | Some h =>
      let! '(r, s) := mem_alloc_pages (mw_mem x, h) order in
      let x := mw_with_buddy x s in
      match r with
      | Some pa => let! va := pa_to_linear_va pa in Ok (va, x)
      | None => Ok (0, x)
      end
  end.

Definition mem_large_dealloc (ptr size : Z) (x : MemWorld) : outcome MemWorld :=
  let! pa := linear_va_to_pa ptr in
  match mw_buddy x with
  | Some h =>
      let! order := pages_order size in
      let! s := mem_free_pages (mw_mem x, h) pa order in
      Ok (mw_with_buddy x s)
  | None => Ok x
  end.

Definition mem_heap_alloc (size align : Z) (x : MemWorld) : outcome (Z * MemWorld) :=
  let! class := size_class_index size align in
  match class with
  | Some i =>
      let! head := idx (mw_lists x) i in
      let! '(ready, x) :=
        match head with
        | None => let! '(r, x) := mem_refill i x in Ok (bool_decide (is_Some r), x)
        | Some _ => Ok (true, x)
        end in
      if negb ready then Ok (0, x)
      else
        let! '(p, x) := mem_pop i x in
        Ok (default 0 p, x)
  | None => mem_large_alloc size x
  end.

Definition mem_heap_dealloc (ptr size align : Z) (x : MemWorld) : outcome MemWorld :=
  let! class := size_class_index size align in
  match class with
  | Some i =>
      let! p := unwrap (if ptr =? 0 then None else Some ptr) in
      mem_push i p x
  | None => mem_large_dealloc ptr size x
  end.
End slab.

(* ------------------------------------------------------------------------- *)
(** ** The hand-off of [core/main.rs] *)

Section hand_off.
Context {P : Profile}.

Definition mem_hand_over (s : memory * Handle) (r : Region) : outcome (memory * Handle) :=
  let! pa := umul 64 (base r) PAGE_SIZE in
  let! pfn := pfn_of (math_view s.2) pa in
  mem_free_range s pfn (frames r).

Definition mem_init_buddy (m : memory) (boot : BootMem) : outcome (memory * Handle) :=
  let! '(base_pfn, nr) := ram_span boot in
  let! dram := umul 64 base_pfn PAGE_SIZE in
  let! mm_frames := memmap_frames nr in
  let! '(got, boot) := BootMem_alloc boot mm_frames 1 in
  let! mm_pfn := unwrap got in
  let! mm_pa := umul 64 mm_pfn PAGE_SIZE in
  let! s := mem_new_at m mm_pa dram nr in
  for_each_free boot mem_hand_over s.
End hand_off.

(** The heap when [BUDDY] is up and nothing has been asked of it. *)
Definition fresh_heap (s : memory * Handle) : MemWorld := mkMemWorld Slab_new s.1 (Some s.2).
