(* ===== verification/HeapMemProps.v ===== *)
(** * The heap on bytes: one memory for descriptors, links and data

    [hrel] relates the byte memory to the worlds of [Slab]: aligned words outside the
    mem-map are the model's words, the mem-map is the allocator's descriptors.  The
    operations of [HeapMem] run in lockstep with those of [Slab] wherever the heap's
    invariant holds, and [heap_on_bytes] is what follows for clients: an object's bytes
    change by its client's stores and in no other way. *)

From stdpp Require Import sorting relations.
From S2P Require Import Prelude FrameTypes Layout Buddy BuddyInv BuddyGeom BuddyWf BuddySteps BuddyCore BuddyFree BuddyRange BuddyCanon BuddyProps BuddyAddr BuddyTypes Bootmem BootmemProps Boot Slab SlabInv SlabProps Bytes MemMap MemMapProps HeapMem.

(** The frames an allocator disposes of: free, or handed out. *)
Definition owned (b : BuddyAllocator) (f : Z) : Prop :=
  free_in b f \/ exists p o, allocated b p = Some o /\ in_block p o f.

Lemma owned_before_drawn b b' f : drawn b b' -> owned b' f -> owned b f.
Proof.
  intros D [Hf|(p & o & Ha & Hf)]; [left; by apply D|].
  destruct (dr_new _ _ D p o f Ha Hf); [right; by exists p, o|by left].
Qed.

Lemma owned_taken_back b b' p o f : allocated b p = Some o -> taken_back b b' p o -> owned b' f -> owned b f.
Proof.
  intros Ha T [Hf|(q & k & Hq & Hf)].
  - apply (tb_free _ _ _ _ T) in Hf as [Hf|Hf]; [by left|right; by exists p, o].
  - rewrite (tb_alloc _ _ _ _ T) in Hq. right. exists q, k. split; [|done].
    destruct (decide (p = q)) as [->|Hne]; [by rewrite fn_lookup_insert in Hq|by rewrite fn_lookup_insert_ne in Hq].
Qed.

Section heap.
Context {P : Profile} (va n : Z).
Implicit Types (x : MemWorld) (w : World) (b : BuddyAllocator).

(** The bytes from [lo] to [hi] are none of the mem-map's. *)
Definition off_map (lo hi : Z) : Prop := hi <= va \/ va + SIZEOF_PageInfo * n <= lo.

(** The mem-map lies in no frame that the allocator disposes of. *)
Definition map_clear b : Prop :=
  forall f, owned b f -> off_map (frame_va b f) (frame_va b f + PAGE_SIZE).

Definition buddy_rel (m : memory) (h : option Handle) (b : option BuddyAllocator) : Prop :=
  match h, b with
  | Some h, Some b => rel m va n (m, h) b
  | None, None => True
  | _, _ => False
  end.

Record hrel x w : Prop := {
  hr_lists : mw_lists x = free_lists w;
  hr_links : Forall (fun l => match l with Some p => unsigned 64 p | None => True end) (free_lists w);
  hr_bytes : bytes_ok (mw_mem x);
  hr_heap : forall y, (8 | y) -> off_map y (y + 8) -> load_le 8 (mw_mem x) y = heap w y;
  hr_buddy : buddy_rel (mw_mem x) (mw_buddy x) (buddy w);
}.

(** The relation of the descriptors looks only at the mem-map. *)
Lemma rel_move m0 m m' h b :
  rel m0 va n (m, h) b -> bytes_ok m' -> (forall y, va <= y < va + SIZEOF_PageInfo * n -> m' y = m y) -> rel m' va n (m', h) b.
Proof.
  intros H Hm Hy. pose proof (re_pages _ _ _ _ _ H) as Hl. destruct H as [H1 H2 H3 H4 H5 H6 H7 H8].
  split; cbn [fst snd] in *; try done. intros i d Hi. pose proof (getz_Some_range _ _ _ Hi) as Hr.
  destruct (H5 i d Hi). split; (erewrite load_ext; [eassumption|]; intros y Hy'; apply Hy; off).
Qed.

Lemma same_off_load m m' y k :
  same_outside va (SIZEOF_PageInfo * n) m m' -> off_map y (y + Z.of_nat k) -> load_le k m' y = load_le k m y.
Proof. intros Hs Ho. eapply load_frame; [exact Hs|]. unfold off_map in Ho. lia. Qed.

(** The allocator moves on, in the mem-map. *)
Lemma hrel_buddy x w h b s :
  hrel x w -> rel (mw_mem x) va n s b -> mw_buddy x = Some h -> hrel (mw_with_buddy x s) (with_buddy w b).
Proof.
  intros [H1 H2 H3 H4 H5] Hr Hh. destruct s as [m' h']. pose proof (re_bytes _ _ _ _ _ Hr) as Hb.
  split; cbn [mw_with_buddy with_buddy mw_lists mw_mem mw_buddy free_lists heap buddy fst snd] in *; try done.
  - intros y Hy Ho. rewrite <- (H4 y Hy Ho). by eapply same_off_load; [apply Hr|].
  - by eapply rel_move.
Qed.

(** Memory changes outside the mem-map, and the words with it. *)
Lemma hrel_mem x w m hp :
  hrel x w -> bytes_ok m -> (forall y, va <= y < va + SIZEOF_PageInfo * n -> m y = mw_mem x y) ->
  (forall y, (8 | y) -> off_map y (y + 8) -> load_le 8 m y = hp y) ->
  hrel (mw_with_mem x m) (with_heap w hp).
Proof.
  intros [H1 H2 H3 H4 H5] Hm Hmap Hp. split; cbn [mw_with_mem with_heap mw_lists mw_mem mw_buddy free_lists heap buddy]; try done.
  destruct (mw_buddy x), (buddy w); try done. cbn in *. by eapply rel_move.
Qed.

Lemma hrel_lists x w ls :
  hrel x w -> Forall (fun l => match l with Some p => unsigned 64 p | None => True end) ls ->
  hrel (mw_with_list x ls) (with_list w ls).
Proof. intros [H1 H2 H3 H4 H5] Hl. by split. Qed.

(** Lockstep steps also say where memory changed. *)
Definition step_rel (touched : Z -> Prop) x0 w0 x w : Prop :=
  hrel x w /\ buddy w = buddy w0 /\ forall y, ~ touched y -> off_map y (y + 1) -> mw_mem x y = mw_mem x0 y.

Lemma push_sim x w i p :
  hrel x w -> (8 | p) -> off_map p (p + 8) -> unsigned 64 p ->
  lockstep (step_rel (fun y => p <= y < p + 8) x w) (mem_push i p x) (Slab_push i p w).
Proof.
  intros H Hp Ho Hu. pose proof H as [H1 H2 H3 H4 H5]. unfold mem_push, Slab_push. rewrite H1.
  eapply (lockstep_same (fun l => match l with Some p => unsigned 64 p | None => True end)); [by apply (idx_typed (fun l => match l with Some p => unsigned 64 p | None => True end))|].
  intros next Hn. assert (unsigned 64 (link_word next)) as Hw by (destruct next; [done|unfold unsigned; cbn; lia]).
  cbn [mw_with_mem with_heap mw_lists mw_mem free_lists heap]. rewrite H1. unfold set_idx.
  destruct (getz (free_lists w) i); [|done]. cbn [obind lockstep].
  pose proof (store_frame 8 (mw_mem x) p (link_word next)) as Hf. split_and!; [|done|].
  - apply (hrel_lists (mw_with_mem x _) (with_heap w _)); [|by apply setz_Forall].
    apply hrel_mem; [done|by apply store_bytes_ok| |].
    + intros y Hy. apply Hf. unfold off_map in Ho. lia.
    + intros y Hy Hoy. destruct (decide (p = y)) as [<-|Hne].
      * by rewrite fn_lookup_insert, load_store_same.
      * rewrite fn_lookup_insert_ne by done. rewrite load_store_other; [by apply H4|].
        apply (aligned_apart 8); [lia|done..].
  - intros y Hy _. cbn [mw_with_list mw_with_mem mw_mem]. apply Hf. lia.
Qed.

Lemma pop_sim x w i :
  hrel x w -> (forall p, getz (free_lists w) i = Some (Some p) -> (8 | p) /\ off_map p (p + 8)) ->
  lockstep (fun r t => r.1 = t.1 /\ hrel r.2 t.2 /\ mw_mem r.2 = mw_mem x) (mem_pop i x) (Slab_pop i w).
Proof.
  intros H Hp. pose proof H as [H1 H2 H3 H4 H5]. unfold mem_pop, Slab_pop. rewrite H1. unfold idx, set_idx.
  destruct (getz (free_lists w) i) as [[p|]|] eqn:E; cbn [obind lockstep]; [|by split_and!|done].
  destruct (Hp p eq_refl) as [Hal Ho]. rewrite (H4 p Hal Ho). split_and!; cbn [fst snd]; [done| |done].
  apply hrel_lists; [done|]. apply setz_Forall; [done|]. rewrite <- (H4 p Hal Ho). unfold word_link.
  destruct (_ =? 0); [done|]. by apply load_bound.
Qed.

(** The loop of [refill], inside one page. *)
Lemma refill_loop_sim base i ks : forall x w,
  hrel x w -> 0 <= i < NR_CLASSES -> (8 | base) -> off_map base (base + PAGE_SIZE) ->
  0 <= base -> base + PAGE_SIZE < 2 ^ 64 ->
  (forall k, k ∈ ks -> 0 <= k /\ k * class_size i + class_size i <= PAGE_SIZE) ->
  lockstep (step_rel (fun y => base <= y < base + PAGE_SIZE) x w)
    (foldM (mem_refill_step base (class_size i) i) ks x) (foldM (refill_step base (class_size i) i) ks w).
Proof.
  induction ks as [|k ks IH]; intros x w H Hi Hal Ho Hb0 Hb1 Hk; cbn [foldM]; [by split|].
  destruct (Hk k ltac:(by left)) as [Hk0 Hk1]. pose proof (class_size_range i Hi).
  assert (8 | class_size i) as Hdiv by (exists (2 ^ i); rewrite Z.pow_add_r by lia; lia).
  eapply (lockstep_bind (step_rel (fun y => base <= y < base + PAGE_SIZE) x w)).
  - unfold mem_refill_step, refill_step. rewrite umul_ok by (unfold PAGE_SIZE in *; nia). cbn [obind].
    rewrite uadd_ok by nia. cbn [obind].
    eapply lockstep_weaken; [apply push_sim; [done| | |]|].
    + apply Z.divide_add_r; [done|by apply Z.divide_mul_r].
    + unfold off_map in *. nia.
    + unfold unsigned. nia.
    + intros x' w' (H' & Hbd & Hf). split_and!; [done..|]. intros y Hy Hoy. apply Hf; [nia|done].
  - intros x1 w1 (H1 & Hbd1 & Hf1). eapply lockstep_weaken; [by apply IH; [..|intros k' ?; apply Hk; by right]|].
    intros x2 w2 (H2 & Hbd2 & Hf2). split_and!; [done|congruence|]. intros y Hy Hoy. by rewrite Hf2, Hf1.
Qed.

Lemma carve_sim x w b p i :
  hrel x w -> 0 <= i < NR_CLASSES -> placed b -> 0 <= p < nr_frames b -> off_map (frame_va b p) (frame_va b p + PAGE_SIZE) ->
  lockstep (step_rel (fun y => frame_va b p <= y < frame_va b p + PAGE_SIZE) x w)
    (mem_carve i (dram_base b + p * PAGE_SIZE) x) (Slab_carve i (dram_base b + p * PAGE_SIZE) w).
Proof.
  intros H Hi Hpl Hp Ho. unfold mem_carve, Slab_carve. destruct (placed_convert b p Hpl Hp) as (_ & _ & -> & _).
  cbn [obind]. rewrite (idx_ok _ _ _ (CLASSES_getz i Hi)). cbn [obind].
  destruct (objects_per_page_ok i Hi) as [-> Hpage]. cbn [obind]. pose proof (class_size_range i Hi).
  apply refill_loop_sim; [done..| |done| | |].
  - etrans; [|by apply frame_va_page]. by exists 512.
  - pose proof (frame_va_pos b p Hpl). lia.
  - destruct Hpl as [_ ? _ ?]. unfold frame_va. unfold_layout. lia.
  - intros k Hk%elem_of_seqZ. rewrite <- Hpage. nia.
Qed.

(* ------------------------------------------------------------------------- *)
(** ** Where the heap's memory lies *)

(** A word inside a block handed out is not the mem-map's. *)
Lemma block_off b p k y j :
  placed b -> map_clear b -> allocated b p = Some k -> (j | PAGE_SIZE) -> 0 < j -> (j | y) ->
  frame_va b p <= y -> y + j <= frame_va b p + block_bytes k -> off_map y (y + j).
Proof.
  intros Hpl Hc Ha Hj Hj0 Hy Hlo Hhi. remember (y - frame_va b p) as d eqn:Ed.
  assert (j | d mod PAGE_SIZE) as [e He].
  { assert (j | d) by (subst d; apply Z.divide_sub_r; [done|etrans; [exact Hj|by apply frame_va_page]]).
    rewrite Z.mod_eq by done. apply Z.divide_sub_r; [done|]. by apply Z.divide_mul_l. }
  pose proof (Z.mod_pos_bound d PAGE_SIZE ltac:(done)) as Hm. pose proof (Z.div_mod d PAGE_SIZE ltac:(done)) as Hd.
  destruct Hj as [q Hq]. assert (d mod PAGE_SIZE + j <= PAGE_SIZE) as Hend.
  { rewrite He, Hq in *. assert (e + 1 <= q) by nia. nia. }
  destruct (wf_block_facts b p k (pl_wf _ Hpl) Ha) as (Hk & _). pose proof (pow2_pos k ltac:(lia)).
  assert (0 <= d / PAGE_SIZE < 2 ^ k) as Hf.
  { split; [apply Z.div_pos; [lia|done]|apply Z.div_lt_upper_bound; [done|]]. unfold block_bytes in Hhi. lia. }
  destruct (Hc (p + d / PAGE_SIZE)) as [H1|H1].
  - right. exists p, k. split; [done|]. unfold in_block. lia.
  - left. unfold frame_va in *. lia.
  - right. unfold frame_va in *. lia.
Qed.

Lemma object_off fl live w b o y j :
  slab_inv fl live w -> buddy w = Some b -> map_clear b -> object_ok (buddy w) o -> (j | PAGE_SIZE) -> 0 < j -> (j | y) ->
  o.1 <= y -> y + j <= o.1 + o.2 -> off_map y (y + j).
Proof.
  intros I Hb Hc (_ & c & p & k & Hc' & Ha & Hlo & Hhi & _) Hj Hj0 Hy H1 H2. rewrite Hb in Hc'. simplify_eq.
  eapply (block_off c p k); try done; [by apply (si_buddy _ _ _ I)|lia..].
Qed.

(** A cached object's link. *)
Lemma head_off fl live w i p :
  slab_inv fl live w -> (forall b, buddy w = Some b -> map_clear b) -> getz (free_lists w) i = Some (Some p) ->
  (8 | p) /\ off_map p (p + 8).
Proof.
  intros I Hc Hg. pose proof (getz_Some_range _ _ _ Hg) as Hi. rewrite (si_len _ _ _ I) in Hi.
  pose proof (si_chain _ _ _ I i _ Hg) as Hch. destruct (fl i) as [|q l] eqn:E; [done|]. destruct Hch as ([= ->] & _).
  pose proof (class_size_range i Hi) as Hcs.
  assert (object_ok (buddy w) (q, class_size i)) as Hok.
  { apply (si_object _ _ _ I), elem_of_app. left. apply elem_of_listed; [done|]. rewrite E. by left. }
  pose proof Hok as (_ & b & r & k & Hb & _ & _ & _ & Hal & _). cbn [fst snd] in Hal.
  assert (8 | q) as H8. { etrans; [|apply Hal; lia]. exists (2 ^ i). rewrite Z.pow_add_r by lia. lia. }
  split; [done|]. eapply (object_off fl live w b (q, class_size i)); cbn [fst snd]; try done; [by apply Hc|by exists 512|lia..].
Qed.
End heap.

(* ------------------------------------------------------------------------- *)
(** ** The operations *)

(** The heap on bytes is in order: some world of [Slab] that satisfies its invariant is
    what the bytes hold, and the mem-map is no client's. *)
Record heap_ok (va n : Z) (fl : Z -> list Z) (live : list object) (x : MemWorld) (w : World) : Prop := {
  hk_slab : slab_inv fl live w;
  hk_rel : hrel va n x w;
  hk_clear : forall b, buddy w = Some b -> map_clear va n b;
}.

(** The bytes of the objects in [live] are as they were. *)
Definition spares (live : list object) (x x' : MemWorld) : Prop :=
  forall o y, o ∈ live -> o.1 <= y < o.1 + o.2 -> mw_mem x' y = mw_mem x y.

Lemma spares_trans live x1 x2 x3 : spares live x1 x2 -> spares live x2 x3 -> spares live x1 x3.
Proof. intros H1 H2 o y Ho Hy. rewrite (H2 o y Ho Hy). by apply H1 with o. Qed.

Lemma with_buddy_same w b : buddy w = Some b -> with_buddy w b = w.
Proof. intros Hb. destruct w. cbn in Hb. by subst. Qed.

Section operations.
Context {P : Profile} (va n : Z).
Implicit Types (x : MemWorld) (w : World) (b : BuddyAllocator).

Local Abbreviation H := (heap_ok va n).
(** The result of a call on related heaps. *)
Local Abbreviation after live x := (fun x' w' =>
  hrel va n x' w' /\ (forall b, buddy w' = Some b -> map_clear va n b) /\ spares live x x').

Lemma live_off fl live x w o y :
  H fl live x w -> o ∈ live -> o.1 <= y < o.1 + o.2 -> off_map va n y (y + 1).
Proof.
  intros [I _ Hc] Ho Hy. pose proof (live_object _ _ _ o I Ho) as Hok. pose proof Hok as (_ & b & _ & _ & Hb & _).
  eapply (object_off va n fl live w b o); try done; [by apply Hc|by exists 4096|by exists y; lia|lia..].
Qed.

(** What changes nowhere but in the mem-map and a range apart from [live] spares [live]. *)
Lemma step_spares fl live x w w0 x' w' lo k :
  H fl live x w -> step_rel va n (fun y => lo <= y < lo + k) x w0 x' w' -> (forall o, o ∈ live -> obj_apart (lo, k) o) -> spares live x x'.
Proof.
  intros HO (_ & _ & Hf) Hap o y Ho Hy. apply Hf; [|by eapply live_off].
  specialize (Hap o Ho). unfold obj_apart in Hap. cbn [fst snd] in Hap. lia.
Qed.

Lemma buddy_cases fl live x w :
  H fl live x w ->
  (mw_buddy x = None /\ buddy w = None) \/
  exists h b, mw_buddy x = Some h /\ buddy w = Some b /\ rel (mw_mem x) va n (mw_mem x, h) b /\ placed b /\ map_clear va n b.
Proof.
  intros [I R Hc]. pose proof (hr_buddy _ _ _ _ R) as Hb. destruct (mw_buddy x) as [h|], (buddy w) as [b|] eqn:E; try done; [right|by left].
  exists h, b. split_and!; [done..|by apply (si_buddy _ _ _ I)|by apply Hc].
Qed.

(** What the allocator does in the mem-map spares every object. *)
Lemma buddy_after fl live x w h b' s :
  H fl live x w -> mw_buddy x = Some h -> rel (mw_mem x) va n s b' -> map_clear va n b' ->
  after live x (mw_with_buddy x s) (with_buddy w b').
Proof.
  intros HO Hh Hr' Hc'. split_and!; [by eapply hrel_buddy; [apply HO|..]|by intros ? [= <-]|].
  intros o' y Ho' Hy. apply (re_frame _ _ _ _ _ Hr'). pose proof (live_off _ _ _ _ _ _ HO Ho' Hy). unfold off_map in *. lia.
Qed.

(** The allocator serves a block of pages, the same in both. *)
Lemma pages_sim fl live x w h b o :
  H fl live x w -> mw_buddy x = Some h -> buddy w = Some b -> 0 <= o < MAX_ORDER ->
  (exists p b' s, mem_alloc_pages (mw_mem x, h) o = Ok (Some (dram_base b + p * PAGE_SIZE), s) /\
     BuddyAllocator_alloc_pages b o = Ok (Some (dram_base b + p * PAGE_SIZE), b') /\ handed_out b b' p o /\
     pa_to_linear_va (dram_base b + p * PAGE_SIZE) = Ok (frame_va b p) /\
     after live x (mw_with_buddy x s) (with_buddy w b')) \/
  (exists s, mem_alloc_pages (mw_mem x, h) o = Ok (None, s) /\ BuddyAllocator_alloc_pages b o = Ok (None, b) /\
     after live x (mw_with_buddy x s) w).
Proof.
  intros HO Hh Hb Ho. destruct (buddy_cases _ _ _ _ HO) as [[? _]|(h' & b1 & Hh' & Hb' & Hr & Hpl & Hc)]; [congruence|].
  rewrite Hh in Hh'. rewrite Hb in Hb'. simplify_eq.
  pose proof (alloc_pages_sim (mw_mem x) va n _ _ o Hr) as Hsim.
  assert (unsigned 8 o) as Hu by (unfold unsigned, MAX_ORDER in *; lia). specialize (Hsim Hu).
  destruct (alloc_pages_cases b1 o Hpl Ho) as [(p & b' & E & Hho & Hva)|[E _]]; rewrite E in Hsim;
    destruct (mem_alloc_pages _ o) as [[r s]|] eqn:Em; try done; destruct Hsim as [Hv Hr']; cbn [fst snd] in *; subst r; [left|right].
  - exists p, b', s. do 4 (split; [done|]). eapply buddy_after; [done..|]. intros f Hf.
    rewrite (frame_va_base b1 b') by apply Hho. apply Hc. eapply owned_before_drawn; [by eapply handed_out_drawn|done].
  - exists s. do 2 (split; [done|]). destruct (buddy_after fl live x w h' b1 s HO Hh Hr' Hc) as (H1 & H2 & H3).
    assert (with_buddy w b1 = w) as Hw by by apply with_buddy_same. rewrite Hw in H1, H2. by split.
Qed.

(** A block just handed out is apart from every object. *)
Lemma fresh_apart fl live w b b' p o :
  slab_inv fl live w -> buddy w = Some b -> handed_out b b' p o ->
  slab_inv fl ((frame_va b p, block_bytes o) :: live) (with_buddy w b').
Proof.
  intros I Hb Hho. pose proof (ho_block _ _ _ _ Hho) as (Ho & _). pose proof (block_bytes_pos o ltac:(lia)) as Hpos.
  unfold PAGE_SIZE in Hpos. apply (grow_ok fl live w b b' p o [(frame_va b p, block_bytes o)]); [done..| | |].
  - split; [constructor|done].
  - intros x ->%list_elem_of_singleton. split; cbn [fst snd]; [lia|]. exists b', p, o.
    rewrite !(frame_va_base b b') by apply Hho. split_and!; [done| |lia..|done].
    by rewrite (ho_alloc _ _ _ _ Hho), fn_lookup_insert.
  - intros x ->%list_elem_of_singleton. cbn [fst snd]. lia.
Qed.

Lemma slab_inv_tail fl o live w : slab_inv fl (o :: live) w -> slab_inv fl live w.
Proof.
  intros I. split; [apply I|apply I| |intros y Hy; apply (si_object _ _ _ I); set_solver|apply I].
  destruct I as [_ _ Hap _ _]. rewrite <- Permutation_middle in Hap. apply Hap.
Qed.

Lemma live_apart fl o live w : slab_inv fl (o :: live) w -> forall o', o' ∈ live -> obj_apart o o'.
Proof.
  intros I o' Ho'. destruct I as [_ _ Hap _ _]. apply pairwise_apart_app in Hap as (_ & [Hap _] & _).
  rewrite list.Forall_forall in Hap. by apply Hap.
Qed.

Lemma with_buddy_clear w b b' p o :
  map_clear va n b' -> handed_out b b' p o -> off_map va n (frame_va b p) (frame_va b p + PAGE_SIZE).
Proof.
  intros Hc Hho. pose proof (ho_block _ _ _ _ Hho) as (Ho & _). pose proof (pow2_pos o ltac:(lia)).
  specialize (Hc p). rewrite (frame_va_base b b') in Hc by apply Hho. apply Hc. right. exists p, o.
  rewrite (ho_alloc _ _ _ _ Hho), fn_lookup_insert. split; [done|]. unfold in_block. lia.
Qed.

Lemma refill_sim fl live x w i :
  H fl live x w -> 0 <= i < NR_CLASSES ->
  lockstep (fun r t => r.1 = t.1 /\ after live x r.2 t.2) (mem_refill i x) (Slab_refill i w).
Proof.
  intros HO Hi. unfold mem_refill, Slab_refill, mem_alloc_page, BuddyAllocator_alloc_page.
  destruct (buddy_cases _ _ _ _ HO) as [[-> ->]|(h & b & Hh & Hb & _ & Hpl & _)].
  { split_and!; [done|apply HO|apply HO|done]. }
  rewrite Hh, Hb. destruct (pages_sim _ _ _ _ h b 0 HO Hh Hb) as [(p & b' & s & -> & -> & Hho & _ & H1 & Hc & Hsp)|(s & -> & -> & HA)];
    [unfold MAX_ORDER; lia| |]; cbn [obind].
  2: { split; [done|]. cbn [snd]. by rewrite (with_buddy_same w b Hb). }
  pose proof (ho_block _ _ _ _ Hho) as (_ & Hp & _ & Hpn).
  eapply lockstep_bind; [apply (carve_sim va n (mw_with_buddy x s) _ b p i); try done; [lia|]|].
  { eapply (with_buddy_clear w); [by apply Hc|done]. }
  intros x' w' (H2 & Hbd & Hf). split; [done|]. cbn [snd] in *. split_and!; [done|by rewrite Hbd|].
  eapply spares_trans; [exact Hsp|]. eapply (step_spares fl live _ (with_buddy w b')).
  - split; [|done..]. pose proof (fresh_apart fl live w b b' p 0 (hk_slab _ _ _ _ _ _ HO) Hb Hho) as I. by apply slab_inv_tail in I.
  - by split_and!.
  - eapply live_apart. replace PAGE_SIZE with (block_bytes 0) by done. by apply fresh_apart; [apply HO|..].
Qed.

(** Popping a list moves no byte. *)
Lemma pop_after fl live x w i :
  slab_inv fl live w -> hrel va n x w -> (forall b, buddy w = Some b -> map_clear va n b) ->
  lockstep (fun r t => r.1 = t.1 /\ after live x r.2 t.2)
    (let! '(p, x) := mem_pop i x in Ok (default 0 p, x)) (let! '(p, w) := Slab_pop i w in Ok (default 0 p, w)).
Proof.
  intros I R Hc. assert (ensures (Slab_pop i w) (fun t => buddy t.2 = buddy w)) as Hb.
  { unfold Slab_pop. apply ensures_any. intros [q|]; [|done]. apply ensures_any. by intros ls. }
  eapply lockstep_bind.
  - eapply lockstep_ensures; [|exact Hb]. apply pop_sim; [done|]. intros q Hq. by eapply head_off.
  - intros [p x'] [q w'] [(Hpq & Hr & Hm) Hb']. cbn [fst snd lockstep] in *. subst.
    split_and!; [done|done|by rewrite Hb'|]. intros o y _ _. by rewrite Hm.
Qed.

Lemma large_alloc_sim fl live x w size o :
  H fl live x w -> pages_order size = Ok o -> 0 <= o <= 51 ->
  lockstep (fun r t => r.1 = t.1 /\ after live x r.2 t.2) (mem_large_alloc size x) (large_alloc size w).
Proof.
  intros HO Eo Ho. unfold mem_large_alloc, large_alloc. rewrite Eo. cbn [obind].
  destruct (buddy_cases _ _ _ _ HO) as [[-> ->]|(h & b & Hh & Hb & Hr & Hpl & Hc)].
  { split_and!; [done|apply HO|apply HO|done]. }
  rewrite Hh, Hb. destruct (Z.lt_ge_cases o MAX_ORDER) as [Hm|Hm].
  - destruct (pages_sim _ _ _ _ h b o HO Hh Hb) as [(p & b' & s & -> & -> & _ & Hva & HA)|(s & -> & -> & HA)];
      [lia|cbn [obind]; rewrite Hva; by split|]. cbn [obind]. rewrite (with_buddy_same w b Hb). by split.
  - assert (unsigned 8 o) as Hu by (unfold unsigned; lia).
    pose proof (alloc_pages_sim (mw_mem x) va n _ _ o Hr Hu) as Hsim. rewrite alloc_pages_too_large in Hsim |- * by done.
    destruct (mem_alloc_pages _ o) as [[r s]|]; [|done]. destruct Hsim as [Hv Hr']. cbn [fst snd obind lockstep] in *. subst r.
    split; [done|]. by eapply buddy_after.
Qed.

(** Allocation, with what it hands out: an object, or the same heap and null. *)
Lemma heap_alloc_ok fl live x w size align :
  H fl live x w -> layout_ok size align ->
  exists p x', mem_heap_alloc size align x = Ok (p, x') /\ spares live x x' /\
    ((p = 0 /\ H fl live x' w) \/ (0 < p /\ exists fl' w', H fl' ((p, usable size align) :: live) x' w')).
Proof.
  intros HO HL.
  enough (lockstep (fun r t => r.1 = t.1 /\ after live x r.2 t.2) (mem_heap_alloc size align x) (LockedSlab_alloc size align w)) as Hsim.
  { destruct (alloc_ok fl live w size align (hk_slab _ _ _ _ _ _ HO) HL) as [(p & w' & fl' & E & Hp & I')|[E _]]; rewrite E in Hsim;
      destruct (mem_heap_alloc size align x) as [[q x']|]; try done; destruct Hsim as [Hq (H1 & H2 & H3)]; cbn [fst snd] in *; subst q.
    - exists p, x'. split_and!; [done..|right]. split; [done|]. exists fl', w'. by split.
    - exists 0, x'. split_and!; [done..|left]. split; [done|]. split; [apply HO|done..]. }
  unfold mem_heap_alloc, LockedSlab_alloc.
  destruct (layout_cases size align HL) as [(i & -> & Hi & _)|(o & -> & Eo & Ho & _)]; cbn [obind].
  2: { by apply large_alloc_sim with fl o. }
  rewrite (hr_lists _ _ _ _ (hk_rel _ _ _ _ _ _ HO)).
  destruct (list_present _ _ _ _ (hk_slab _ _ _ _ _ _ HO) Hi) as (h & Eh & _). rewrite (idx_ok _ _ _ Eh). cbn [obind].
  destruct h as [hd|]; cbn [obind negb].
  - eapply pop_after; apply HO.
  - pose proof (refill_sim fl live x w i HO Hi) as Hr.
    destruct (refill_ok fl live w i Hi (hk_slab _ _ _ _ _ _ HO)) as [(fl' & w' & b & b' & q & l & E & I' & _)|[E _]];
      rewrite E in Hr |- *; destruct (mem_refill i x) as [[r x']|]; try done; destruct Hr as [Hv (H1 & H2 & H3)]; cbn [fst snd obind] in *; subst r.
    + rewrite bool_decide_true by eauto. cbn [negb].
      eapply lockstep_weaken; [by eapply (pop_after fl' live x' w')|]. intros a t (? & ? & ? & ?).
      split_and!; [done..|]. by eapply spares_trans.
    + rewrite bool_decide_false by (by intros [? [=]]). by split_and!.
Qed.

(** A held object's pointer is a 64-bit one. *)
Lemma live_unsigned fl live w o : slab_inv fl live w -> o ∈ live -> unsigned 64 o.1.
Proof.
  intros I Ho. destruct (live_object _ _ _ o I Ho) as (H8 & b & q & k & Hb & Ha & Hlo & Hhi & _).
  pose proof (si_buddy _ _ _ I b Hb) as Hpl. destruct (wf_block_facts b q k (pl_wf _ Hpl) Ha) as (Hk & Hq & _ & Hn).
  pose proof (frame_va_pos b q Hpl Hq). destruct Hpl as [_ ? _ Hs]. pose proof (pow2_pos k ltac:(lia)).
  unfold unsigned, frame_va, block_bytes in *. unfold_layout. nia.
Qed.

(** A block of pages goes back, the same in both. *)
Lemma free_pages_sim_ok fl live x w h o p :
  H fl ((p, block_bytes o) :: live) x w -> 0 <= o < MAX_ORDER -> mw_buddy x = Some h ->
  exists b s w', buddy w = Some b /\
    (let! pa := linear_va_to_pa p in mem_free_pages (mw_mem x, h) pa o) = Ok s /\
    (let! pa := linear_va_to_pa p in let! b := BuddyAllocator_free_pages b pa o in Ok (with_buddy w b)) = Ok w' /\
    H fl live (mw_with_buddy x s) w' /\ spares live x (mw_with_buddy x s).
Proof.
  intros HO Ho Hh. pose proof (block_bytes_pos o ltac:(lia)) as Hpos. unfold PAGE_SIZE in Hpos.
  destruct (block_back fl live w o p) as (b & q & b' & Hb & _ & Ha & Hva & E & T & I'); [lia..|apply HO|].
  destruct (buddy_cases _ _ _ _ HO) as [[? _]|(h' & b1 & Hh' & Hb' & Hr & Hpl & Hc)]; [congruence|].
  rewrite Hh in Hh'. rewrite Hb in Hb'. simplify_eq.
  assert (unsigned 8 o) as Hu by (unfold unsigned, MAX_ORDER in *; lia).
  pose proof (free_pages_sim (mw_mem x) va n _ _ (dram_base b1 + q * PAGE_SIZE) o Hr Hu) as Hsim. rewrite E in Hsim.
  destruct (mem_free_pages _ _ o) as [s|] eqn:Em; [|done]. cbn [lockstep] in Hsim.
  assert (map_clear va n b') as Hc'.
  { intros f Hf. rewrite (frame_va_base b1 b') by apply T. apply Hc. by eapply owned_taken_back. }
  destruct (buddy_after fl _ x w h' b' s HO Hh Hsim Hc') as (H1 & H2 & H3).
  exists b1, s, (with_buddy w b'). rewrite Hva. cbn [obind]. rewrite Em, E. split_and!; [done..|by split|].
  intros o' y Ho' Hy. apply (H3 o' y); [by right|done].
Qed.

(** A small object has room for a link, where a link may be stored. *)
Lemma held_link fl live x w i p :
  H fl ((p, class_size i) :: live) x w -> 0 <= i < NR_CLASSES ->
  0 < p /\ (8 | p) /\ off_map va n p (p + 8) /\ unsigned 64 p.
Proof.
  intros HO Hi. pose proof (hk_slab _ _ _ _ _ _ HO) as I. pose proof (class_size_range i Hi) as Hcs.
  pose proof (live_object _ _ _ (p, class_size i) I ltac:(by left)) as Hok.
  pose proof Hok as (_ & b & q & k & Hb & Ha & Hlo & _ & Hal & _). cbn [fst snd] in *.
  pose proof (si_buddy _ _ _ I b Hb) as Hpl. destruct (wf_block_facts b q k (pl_wf _ Hpl) Ha) as (_ & Hq & _).
  pose proof (frame_va_pos b q Hpl Hq).
  assert (8 | p) as H8. { etrans; [|apply Hal; lia]. exists (2 ^ i). rewrite Z.pow_add_r by lia. lia. }
  split_and!; [lia|done| |exact (live_unsigned fl _ w (p, class_size i) I ltac:(by left))].
  eapply (object_off va n fl _ w b (p, class_size i)); cbn [fst snd]; try done; [|by exists 512|lia..].
  by apply (hk_clear _ _ _ _ _ _ HO).
Qed.

(** Release of a held object. *)
Lemma heap_dealloc_ok fl live x w size align p :
  H fl ((p, usable size align) :: live) x w -> layout_ok size align ->
  exists x' fl' w', mem_heap_dealloc p size align x = Ok x' /\ spares live x x' /\ H fl' live x' w'.
Proof.
  intros HO HL. unfold mem_heap_dealloc.
  destruct (layout_cases size align HL) as [(i & E & Hi & Hu & _)|(o & E & Eo & Ho & Hu & _ & _ & Hbig)];
    rewrite Hu in HO; rewrite E; cbn [obind].
  - destruct (held_link fl live x w i p HO Hi) as (Hp & H8 & Hoff & Hp64).
    destruct (Z.eqb_spec p 0); [lia|]. cbn [unwrap obind].
    pose proof (push_sim va n x w i p (hk_rel _ _ _ _ _ _ HO) H8 Hoff Hp64) as Hsim.
    destruct (push_ok fl live w i p Hi (hk_slab _ _ _ _ _ _ HO)) as (hd & w' & _ & Ep & _ & I'). rewrite Ep in Hsim.
    destruct (mem_push i p x) as [x'|]; [|done]. destruct Hsim as (H1 & Hbd & Hf).
    exists x', (<[i := p :: fl i]> fl), w'. split_and!; [done| |split; [done|done|rewrite Hbd; apply HO]].
    intros o y Ho Hy. apply Hf; [|eapply live_off; [exact HO|by right|done]].
    pose proof (class_size_range i Hi). pose proof (live_apart _ _ _ _ (hk_slab _ _ _ _ _ _ HO) o Ho) as Hap. unfold obj_apart in Hap. cbn [fst snd] in Hap. lia.
  - unfold mem_large_dealloc. rewrite Eo.
    destruct (buddy_cases _ _ _ _ HO) as [[_ Hn]|(h & b & Hh & Hb & _)].
    { destruct (live_object _ _ _ (p, block_bytes o) (hk_slab _ _ _ _ _ _ HO)) as (_ & b & _ & _ & Hb & _); [by left|congruence]. }
    destruct (block_back fl live w o p) as (b1 & q & _ & Hb1 & _ & Ha & _); [lia..|apply HO|].
    pose proof (si_buddy _ _ _ (hk_slab _ _ _ _ _ _ HO) b1 Hb1) as Hpl. destruct (wf_block_facts b1 q o (pl_wf _ Hpl) Ha) as (Ho' & _).
    destruct (free_pages_sim_ok fl live x w h o p HO Ho' Hh) as (b2 & s & w' & _ & E1 & _ & HO' & Hsp).
    rewrite Hh. destruct (linear_va_to_pa p) as [pa|]; [|done]. cbn [obind] in *. rewrite E1. cbn [obind]. eauto 10.
Qed.
End operations.

(* ------------------------------------------------------------------------- *)
(** ** The heap on bytes as a state machine *)

(** A state is memory and the ranges that clients hold: objects of the heap, and
    blocks of pages taken from the allocator directly. *)
Inductive mem_heap_step {P : Profile} : MemWorld * list object -> MemWorld * list object -> Prop :=
  | mstep_alloc size align x live p x' :
      layout_ok size align -> mem_heap_alloc size align x = Ok (p, x') -> p <> 0 ->
      mem_heap_step (x, live) (x', (p, usable size align) :: live)
  | mstep_refused size align x live x' :
      layout_ok size align -> mem_heap_alloc size align x = Ok (0, x') ->
      mem_heap_step (x, live) (x', live)
  | mstep_dealloc size align x l1 p l2 x' :
      layout_ok size align -> mem_heap_dealloc p size align x = Ok x' ->
      mem_heap_step (x, l1 ++ (p, usable size align) :: l2) (x', l1 ++ l2)
  | mstep_pages x live h o pa va s :
      mw_buddy x = Some h -> 0 <= o < MAX_ORDER -> mem_alloc_pages (mw_mem x, h) o = Ok (Some pa, s) ->
      pa_to_linear_va pa = Ok va -> mem_heap_step (x, live) (mw_with_buddy x s, (va, block_bytes o) :: live)
  | mstep_free_pages x h o l1 p l2 pa s :
      mw_buddy x = Some h -> 0 <= o < MAX_ORDER -> linear_va_to_pa p = Ok pa ->
      mem_free_pages (mw_mem x, h) pa o = Ok s ->
      mem_heap_step (x, l1 ++ (p, block_bytes o) :: l2) (mw_with_buddy x s, l1 ++ l2)
  | mstep_write x live p k y v :
      (p, k) ∈ live -> p <= y < p + k -> unsigned 8 v ->
      mem_heap_step (x, live) (mw_with_mem x (<[y := v]> (mw_mem x)), live).

Section machine.
Context {P : Profile} (va n : Z).
Implicit Types (x : MemWorld) (w : World) (b : BuddyAllocator).

Local Abbreviation H := (heap_ok va n).
(** Every range is a whole number of words. *)
Local Abbreviation words := (Forall (fun o : object => (8 | o.2))).

Lemma heap_ok_perm fl live live' x w : live ≡ₚ live' -> H fl live x w -> H fl live' x w.
Proof. intros Hp [I R C]. split; [by eapply slab_inv_perm|done..]. Qed.

Lemma block_bytes_words o : 0 <= o -> (8 | block_bytes o).
Proof. intros. unfold block_bytes. apply Z.divide_mul_r. by exists 512. Qed.

Lemma usable_words size align : layout_ok size align -> (8 | usable size align).
Proof.
  intros HL. destruct (layout_cases size align HL) as [(i & _ & Hi & -> & _)|(o & _ & _ & Ho & -> & _)].
  - exists (2 ^ i). rewrite Z.pow_add_r by lia. lia.
  - apply block_bytes_words. lia.
Qed.

Lemma live_aligned fl live w p k : slab_inv fl live w -> (p, k) ∈ live -> (8 | k) -> (8 | p).
Proof.
  intros I Hin Hk. destruct (live_object _ _ _ _ I Hin) as (_ & b & q & o & Hb & _ & _ & _ & Hs & Hl). cbn [fst snd] in *.
  destruct (Z.le_gt_cases k 2048) as [Hle|Hgt]; [by etrans; [|apply Hs]|].
  injection (Hl ltac:(lia)) as -> _. etrans; [|by apply frame_va_page, (si_buddy _ _ _ I)]. by exists 512.
Qed.

(** A client's store: the word it falls in changes, and nothing the heap looks at. *)
Lemma client_store_ok fl live x w p k y v :
  H fl live x w -> (p, k) ∈ live -> (8 | k) -> p <= y < p + k -> unsigned 8 v ->
  exists w', H fl live (mw_with_mem x (<[y := v]> (mw_mem x))) w'.
Proof.
  intros HO Hin Hk Hy Hv. pose proof (live_off va n _ _ _ _ _ y HO Hin Hy) as Ho. destruct HO as [I R C].
  set (m := <[y := v]> (mw_mem x)). set (a := y / 8 * 8).
  pose proof (Z.mod_pos_bound y 8 ltac:(lia)) as Hmod. pose proof (Z.div_mod y 8 ltac:(lia)) as Hdiv.
  assert (8 | a) as Ha by (by exists (y / 8)). assert (a <= y < a + 8) as Hay by (unfold a; lia). clearbody a.
  exists (with_heap w (<[a := load_le 8 m a]> (heap w))). split; [|apply hrel_mem; [done| | |]|done].
  - eapply client_write_ok; [done..|]. destruct (live_aligned _ _ _ _ _ I Hin Hk) as [z ->], Ha as [e ->]. lia.
  - intros z. unfold m. destruct (decide (y = z)) as [->|Hne]; [by rewrite fn_lookup_insert|].
    rewrite fn_lookup_insert_ne by done. apply R.
  - intros z Hz. unfold m. apply fn_lookup_insert_ne. unfold off_map in Ho. lia.
  - intros z Hz Hoz. destruct (decide (a = z)) as [<-|Hne]; [by rewrite fn_lookup_insert|].
    rewrite fn_lookup_insert_ne by done. rewrite <- (hr_heap _ _ _ _ R z Hz Hoz). apply load_ext. intros c Hc.
    apply fn_lookup_insert_ne. destruct (aligned_apart 8 a z ltac:(lia) Ha Hz Hne); lia.
Qed.

(** Pages taken directly. *)
Lemma take_pages_ok fl live x w h o pa v s :
  H fl live x w -> mw_buddy x = Some h -> 0 <= o < MAX_ORDER -> mem_alloc_pages (mw_mem x, h) o = Ok (Some pa, s) ->
  pa_to_linear_va pa = Ok v ->
  exists w', H fl ((v, block_bytes o) :: live) (mw_with_buddy x s) w' /\ spares live x (mw_with_buddy x s).
Proof.
  intros HO Hh Ho E Hv. destruct (buddy_cases va n _ _ _ _ HO) as [[? _]|(h' & b & Hh' & Hb & _)]; [congruence|].
  destruct (pages_sim va n fl live x w h b o HO Hh Hb Ho) as [(p & b' & s' & E' & _ & Hho & Hva & H1 & H2 & H3)|(s' & E' & _)];
    rewrite E in E'; simplify_eq. rewrite Hv in Hva. simplify_eq.
  exists (with_buddy w b'). split; [|done]. split; [|done..]. by apply fresh_apart; [apply HO|..].
Qed.

(** The bytes of a range held before and after are as they were, or a client has just
    stored there. *)
Definition only_stores (s s' : MemWorld * list object) : Prop :=
  forall o y, o ∈ s.2 -> o ∈ s'.2 -> o.1 <= y < o.1 + o.2 ->
    mw_mem s'.1 y = mw_mem s.1 y \/ exists v, s'.1 = mw_with_mem s.1 (<[y := v]> (mw_mem s.1)).

Lemma spares_only_stores live live' x x' : spares live x x' \/ spares live' x x' -> only_stores (x, live) (x', live').
Proof. intros [Hs|Hs] o y H1 H2 Hy; left; by apply (Hs o). Qed.

Lemma mem_heap_step_ok fl live x w s' :
  H fl live x w -> words live -> mem_heap_step (x, live) s' ->
  (exists fl' w', H fl' s'.2 s'.1 w') /\ words s'.2 /\ only_stores (x, live) s'.
Proof.
  intros HO Hw Hs. inversion Hs as [size align x0 l0 p x1 HL E Hp|size align x0 l0 x1 HL E|size align x0 l1 p l2 x1 HL E
    |x0 l0 h o pa v s Hh Ho E Hv|x0 h o l1 p l2 pa s Hh Ho Hpa E|x0 l0 p k y v Hin Hy Hv]; subst; cbn [fst snd] in *.
  - destruct (heap_alloc_ok va n _ _ _ _ _ _ HO HL) as (q & x2 & E' & Hsp & [[-> _]|(_ & fl' & w' & HO')]); rewrite E in E'; simplify_eq.
    split_and!; [by exists fl', w'|by constructor; [apply usable_words|]|by apply spares_only_stores; left].
  - destruct (heap_alloc_ok va n _ _ _ _ _ _ HO HL) as (q & x2 & E' & Hsp & [[-> HO']|[? _]]); rewrite E in E'; simplify_eq; [|lia].
    split_and!; [by exists fl, w|done|by apply spares_only_stores; left].
  - apply (heap_ok_perm _ _ ((p, usable size align) :: l1 ++ l2)) in HO; [|by rewrite Permutation_middle].
    destruct (heap_dealloc_ok va n _ _ _ _ _ _ _ HO HL) as (x2 & fl' & w' & E' & Hsp & HO'). rewrite E in E'. simplify_eq.
    rewrite list.Forall_app, list.Forall_cons in Hw. split_and!; [by exists fl', w'|apply list.Forall_app; tauto|by apply spares_only_stores; right].
  - destruct (take_pages_ok _ _ _ _ _ _ _ _ _ HO Hh Ho E Hv) as (w' & HO' & Hsp).
    split_and!; [by exists fl, w'|constructor; [apply block_bytes_words; lia|done]|by apply spares_only_stores; left].
  - apply (heap_ok_perm _ _ ((p, block_bytes o) :: l1 ++ l2)) in HO; [|by rewrite Permutation_middle].
    destruct (free_pages_sim_ok va n _ _ _ _ h o p HO Ho Hh) as (b & s2 & w' & _ & E' & _ & HO' & Hsp).
    rewrite Hpa in E'. cbn [obind] in E'. rewrite E in E'. simplify_eq.
    rewrite list.Forall_app, list.Forall_cons in Hw. split_and!; [by exists fl, w'|apply list.Forall_app; tauto|by apply spares_only_stores; right].
  - assert (8 | k) as Hk by (rewrite list.Forall_forall in Hw; apply (Hw _ Hin)).
    destruct (client_store_ok _ _ _ _ _ _ _ v HO Hin Hk Hy Hv) as (w' & HO'). split_and!; [by exists fl, w'|done|].
    intros o z _ _ _. cbn [fst mw_with_mem mw_mem]. destruct (decide (y = z)) as [->|Hne]; [right; by exists v|left].
    by apply fn_lookup_insert_ne.
Qed.

Lemma mem_heap_reachable_ok fl x w s :
  H fl [] x w -> rtc mem_heap_step (x, []) s -> (exists fl' w', H fl' s.2 s.1 w') /\ words s.2.
Proof.
  intros HO Hr. revert s Hr. apply (rtc_ind_r (fun s => (exists fl' w', H fl' s.2 s.1 w') /\ words s.2)).
  - split; [by exists fl, w|constructor].
  - intros [y live] s' _ Hs [(fl' & w' & HO') Hw]. destruct (mem_heap_step_ok _ _ _ _ _ HO' Hw Hs) as (H1 & H2 & _). done.
Qed.
End machine.

(* ------------------------------------------------------------------------- *)
(** ** The hand-off *)

Section hand_off.
Context {P : Profile}.

Lemma hand_over_sim m0 va n s a r :
  rel m0 va n s a -> lockstep (rel m0 va n) (mem_hand_over s r) (hand_over a r).
Proof.
  intros H. unfold mem_hand_over, hand_over. apply lockstep_any. intros pa.
  rewrite (re_view _ _ _ _ _ H). change (pfn_of (with_pages a []) pa) with (pfn_of a pa).
  eapply (lockstep_same (unsigned 32)).
  { unfold pfn_of. do 4 (apply ensures_any; intros ?). apply as_u32_typed. }
  intros pfn Hp. by apply free_range_sim.
Qed.

Lemma hand_over_all_sim m0 va n hs : forall s a,
  rel m0 va n s a -> lockstep (rel m0 va n) (foldM mem_hand_over hs s) (foldM hand_over hs a).
Proof.
  induction hs as [|h hs IH]; intros s a H; [done|]. cbn [foldM].
  eapply lockstep_bind; [by apply hand_over_sim|exact IH].
Qed.

(** The mem-map's bytes, wherever it is placed, as the descriptors they happen to be. *)
Definition raw_memory (m : memory) (pa nr : Z) : list PageInfo := raw_at m (pa + KERNEL_LINEAR_BASE) nr.

Lemma init_buddy_sim m boot x b' :
  bytes_ok m -> bm_ok boot -> 0 < n_memory boot ->
  forall lo n, ram_span boot = Ok (lo, n) -> BootMem_alloc boot (div_ceil (n * SIZEOF_PageInfo) PAGE_SIZE) 1 = Ok (Some x, b') ->
  bm_ok b' -> 0 <= x < 2 ^ 32 ->
  lockstep (rel m (x * PAGE_SIZE + KERNEL_LINEAR_BASE) n) (mem_init_buddy m boot) (init_buddy (raw_memory m) boot).
Proof.
  intros Hm B Hn lo n E Ea B' Hx. destruct (ram_span_ok boot B Hn) as (lo' & n' & E' & Hlo & Hn1 & Hsum & _).
  rewrite E in E'. simplify_eq. unfold mem_init_buddy, init_buddy. rewrite E. cbn [obind].
  rewrite !umul_ok by (unfold PAGE_SIZE; lia). cbn [obind]. unfold memmap_frames.
  rewrite umul_ok by (unfold SIZEOF_PageInfo; lia). cbn [obind]. rewrite Ea. cbn [obind unwrap].
  rewrite umul_ok by (unfold PAGE_SIZE; lia). cbn [obind].
  eapply (lockstep_bind (rel m (x * PAGE_SIZE + KERNEL_LINEAR_BASE) n')).
  - apply new_at_sim; [apply pa_to_linear_va_ok; unfold_layout; lia|done|unfold unsigned, PAGE_SIZE; lia|unfold unsigned; lia].
  - intros s a H. rewrite !for_each_free_holes by done. by apply hand_over_all_sim.
Qed.

(** Without room for the mem-map, [init_buddy] does not return. *)
Lemma mem_init_buddy_room m boot lo n s :
  bm_ok boot -> 0 < n_memory boot -> n_reserved boot < NR_REGIONS -> ram_span boot = Ok (lo, n) ->
  (forall x, ~ avail boot (div_ceil (n * SIZEOF_PageInfo) PAGE_SIZE) 1 x) -> mem_init_buddy m boot <> Ok s.
Proof.
  intros B Hn Hlt E Hno. destruct (ram_span_ok boot B Hn) as (lo' & n' & E' & Hlo & Hn1 & Hsum & _).
  rewrite E in E'. simplify_eq. unfold mem_init_buddy. rewrite E. cbn [obind].
  rewrite umul_ok by (unfold PAGE_SIZE; lia). cbn [obind]. unfold memmap_frames.
  rewrite umul_ok by (unfold SIZEOF_PageInfo; lia). cbn [obind].
  pose proof (div_ceil_spec (n' * SIZEOF_PageInfo) PAGE_SIZE ltac:(done)) as Hce.
  set (k := div_ceil (n' * SIZEOF_PageInfo) PAGE_SIZE) in *.
  assert (1 <= k) as Hk by (unfold SIZEOF_PageInfo, PAGE_SIZE in Hce; lia).
  destruct (BootMem_alloc_cases boot k 1 B Hk ltac:(lia) Hlt) as [(x & b' & _ & Hx & _)|[-> _]]; [by destruct (Hno x)|done].
Qed.

(** What [init_buddy] leaves in RAM that held anything: a heap in order. *)
Lemma mem_init_buddy_ok m boot s :
  bytes_ok m -> bm_ok boot -> all_apart (mem_regions boot) -> 0 < n_memory boot -> n_reserved boot < NR_REGIONS ->
  mem_init_buddy m boot = Ok s ->
  exists va n w, heap_ok va n (fun _ => []) [] (fresh_heap s) w /\ same_outside va (SIZEOF_PageInfo * n) m s.1.
Proof.
  intros Hm B Hap Hn Hlt Hs.
  assert (forall pa nr, 0 <= nr -> lenz (raw_memory m pa nr) = nr) as Hraw by (intros; by apply lenz_fmap_seqZ).
  destruct (init_buddy_map_ok (raw_memory m) boot Hraw B Hap Hn Hlt) as (lo & n & E & [H|[Ei Hno]]).
  - destruct H as (x & b' & a & Ea & B' & Ei & Hx & W & Hna & Hdb & Hnr & Hf).
    destruct (ram_span_ok boot B Hn) as (lo' & n' & E' & Hlo & Hn1 & Hsum & Hmem & _). rewrite E in E'. simplify_eq.
    pose proof Hx as (_ & r & Hr & Hxl & Hxr & _). destruct (Hmem r Hr).
    pose proof (div_ceil_spec (nr_frames a * SIZEOF_PageInfo) PAGE_SIZE ltac:(done)) as Hce.
    set (k := div_ceil (nr_frames a * SIZEOF_PageInfo) PAGE_SIZE) in *.
    assert (0 <= k) as Hk by (apply div_ceil_nonneg; unfold SIZEOF_PageInfo; lia).
    pose proof (init_buddy_sim m boot x b' Hm B Hn lo' _ E Ea B' ltac:(lia)) as Hsim. rewrite Ei, Hs in Hsim. cbn [lockstep] in Hsim.
    exists (x * PAGE_SIZE + KERNEL_LINEAR_BASE), (nr_frames a), (mkWorld Slab_new (fun y => load_le 8 s.1 y) (Some a)).
    split; [|apply Hsim]. split.
    + apply slab_inv_new. intros c [= <-]. split; [done|rewrite Hdb; unfold PAGE_SIZE; lia|by rewrite Hdb; apply Z.divide_factor_r|].
      rewrite Hdb. unfold_layout. lia.
    + split; cbn [fresh_heap mw_lists mw_mem mw_buddy free_lists heap buddy buddy_rel]; try done.
      * by apply Forall_replicate.
      * apply Hsim.
      * destruct s as [m' h]. by eapply rel_move; [exact Hsim|apply Hsim|].
    + intros c [= <-] f [Hfr|(p & o & Hp & _)]; [|by rewrite Hna in Hp]. apply Hf in Hfr as [_ Hfr].
      unfold off_map, frame_va. rewrite Hdb. unfold PAGE_SIZE, SIZEOF_PageInfo in *. lia.
  - exfalso. by eapply mem_init_buddy_room.
Qed.
End hand_off.

(* ------------------------------------------------------------------------- *)
(** ** Properties *)

(** C14: the heap on one byte memory, from the hand-off on.  RAM may hold anything when
    [init_buddy] runs; then, after any history of calls to the heap and to the page
    allocator and of clients' stores: ranges held at once share no byte, every
    further [alloc] returns, every held object can be released, and in every step the bytes of a
    range held before and after it change only by a store of its client. *)
Theorem heap_on_bytes {P : Profile} m boot s x live :
  bytes_ok m -> bm_ok boot -> all_apart (mem_regions boot) -> 0 < n_memory boot -> n_reserved boot < NR_REGIONS ->
  mem_init_buddy m boot = Ok s -> rtc mem_heap_step (fresh_heap s, []) (x, live) ->
  pairwise_apart live /\
  (forall size align, layout_ok size align -> exists r, mem_heap_alloc size align x = Ok r) /\
  (forall size align p, layout_ok size align -> (p, usable size align) ∈ live ->
     exists x', mem_heap_dealloc p size align x = Ok x') /\
  (forall t, mem_heap_step (x, live) t -> only_stores (x, live) t).
Proof.
  intros Hm B Hap Hn Hlt Hs Hr. destruct (mem_init_buddy_ok m boot s Hm B Hap Hn Hlt Hs) as (va & n & w0 & H0 & _).
  destruct (mem_heap_reachable_ok va n _ _ _ _ H0 Hr) as [(fl & w & HO) Hw]. cbn [fst snd] in *. split_and!.
  - pose proof (si_apart _ _ _ (hk_slab _ _ _ _ _ _ HO)) as Hd. by apply pairwise_apart_app in Hd as (_ & Hd & _).
  - intros size align HL. destruct (heap_alloc_ok va n _ _ _ _ _ _ HO HL) as (p & x' & E & _). eauto.
  - intros size align p HL (l1 & l2 & ->)%list_elem_of_split.
    apply (heap_ok_perm va n _ _ ((p, usable size align) :: l1 ++ l2)) in HO; [|by rewrite Permutation_middle].
    destruct (heap_dealloc_ok va n _ _ _ _ _ _ _ HO HL) as (x' & _ & _ & E & _). eauto.
  - intros t Ht. by destruct (mem_heap_step_ok va n _ _ _ _ _ HO Hw Ht) as (_ & _ & ?).
Qed.

(** On the four-frame machine of [Boot], with RAM full of garbage, an object is lent out
    and can be given back. *)
Lemma heap_on_bytes_witness :
  exists s x p, mem_init_buddy (P := release_dev) garbage tiny_boot = Ok s /\
    rtc (mem_heap_step (P := release_dev)) (fresh_heap s, []) (x, [(p, 32)]) /\
    exists x', mem_heap_dealloc (P := release_dev) p 24 8 x = Ok x'.
Proof.
  destruct (mem_init_buddy (P := release_dev) garbage tiny_boot) as [s|] eqn:E; [|vm_compute in E; discriminate].
  assert (match (let! s := mem_init_buddy (P := release_dev) garbage tiny_boot in
                 mem_heap_alloc (P := release_dev) 24 8 (fresh_heap s)) with
          | Ok (p, _) => negb (p =? 0) | Panic _ => false end = true) as Ha by (vm_compute; reflexivity).
  rewrite E in Ha. cbn [obind] in Ha.
  destruct (mem_heap_alloc (P := release_dev) 24 8 (fresh_heap s)) as [[p x]|] eqn:Ea; [|discriminate].
  apply negb_true_iff, Z.eqb_neq in Ha.
  assert (rtc (mem_heap_step (P := release_dev)) (fresh_heap s, []) (x, [(p, 32)])) as Hr.
  { apply rtc_once. change 32 with (usable (P := release_dev) 24 8). by apply mstep_alloc; [apply layout_24_8|..]. }
  exists s, x, p. split_and!; [done..|].
  destruct (heap_on_bytes (P := release_dev) garbage tiny_boot s x [(p, 32)] garbage_bytes tiny_boot_ok) as (_ & _ & Hd & _);
    [repeat constructor|reflexivity|reflexivity|done|done|].
  apply Hd; [apply layout_24_8|]. by left.
Defined.
