(* ===== verification/Percpu.v ===== *)
(** * kernel/arch/percpu.rs: per-CPU areas

    The offsets [init] publishes, and the addresses the two pointer macros form
    from them.  The linker symbols and the address of [AREAS] are a [PercpuLayout];
    [TPIDR_EL1] is the value [init] installs, and in [SysReg] the register. *)

From S2P Require Import Prelude.

(** [arch/lib.rs]: the number of CPUs the kernel is built for. *)
Definition MAX_CPUS : Z := 128.
Definition PERCPU_MAX : Z := 4096.

Record PercpuLayout := mkPercpuLayout {
  percpu_start : Z;
  percpu_end : Z;
  AREAS : Z;
}.

(** The static [OFFSETS] before [init]. *)
Definition OFFSETS_zero : list Z := replicate (Z.to_nat MAX_CPUS) 0.

Section percpu.
Context {P : Profile} (L : PercpuLayout).

(** [AREAS[cpu].0.get() as usize] *)
Definition area (cpu : Z) : Z := AREAS L + cpu * PERCPU_MAX.

Definition percpu_init_step (offs : list Z) (cpu : Z) : outcome (list Z) :=
  let! off := usub 64 (area cpu) (percpu_start L) in
  set_idx offs cpu off.

(** The offsets, and what goes into [TPIDR_EL1]. *)
Definition percpu_init (offs : list Z) : outcome (list Z * Z) :=
  let! size := usub 64 (percpu_end L) (percpu_start L) in
  let! _ := assert_ (size <=? PERCPU_MAX) in
  let! offs := foldM percpu_init_step (seqZ 0 MAX_CPUS) offs in
  let! primary := idx offs 0 in
  Ok (offs, primary).

Definition offset_of_cpu (offs : list Z) (cpu : Z) : outcome Z := idx offs cpu.

(** The macros, as addresses; [var] is the static's address in the template. *)
Definition per_cpu_ptr (offs : list Z) (cpu var : Z) : outcome Z :=
  let! off := offset_of_cpu offs cpu in
  uadd 64 off var.
Definition this_cpu_ptr (tpidr var : Z) : outcome Z := uadd 64 tpidr var.

(** The template lies below the areas (as [linker.ld] places them), all within the
    address space. *)
Record percpu_layout_ok : Prop := {
  po_start : 0 <= percpu_start L;
  po_end : percpu_start L <= percpu_end L < 2 ^ 64;
  po_areas : percpu_start L <= AREAS L;
  po_top : AREAS L + MAX_CPUS * PERCPU_MAX < 2 ^ 64;
}.

(** [init] has run. *)
Record percpu_ready (offs : list Z) : Prop := {
  pr_layout : percpu_layout_ok;
  pr_fits : percpu_end L - percpu_start L <= PERCPU_MAX;
  pr_len : lenz offs = MAX_CPUS;
  pr_off : forall cpu, 0 <= cpu < MAX_CPUS -> getz offs cpu = Some (area cpu - percpu_start L);
}.

Lemma percpu_init_loop (n : nat) : forall s offs,
  percpu_layout_ok -> 0 <= s -> s + Z.of_nat n = MAX_CPUS -> lenz offs = MAX_CPUS ->
  (forall c, 0 <= c < s -> getz offs c = Some (area c - percpu_start L)) ->
  exists offs', foldM percpu_init_step (seqZ s (Z.of_nat n)) offs = Ok offs' /\ lenz offs' = MAX_CPUS /\
    forall c, 0 <= c < MAX_CPUS -> getz offs' c = Some (area c - percpu_start L).
Proof.
  induction n as [|n IH]; intros s offs HL Hs Hn Hlen Hoff.
  - exists offs. split_and!; [done..|]. intros c Hc. apply Hoff. lia.
  - rewrite seqZ_cons by lia. simpl. unfold percpu_init_step at 1.
    pose proof HL as [H0 H1 H2 H3]. unfold MAX_CPUS, PERCPU_MAX in *.
    rewrite usub_ok by (unfold area, PERCPU_MAX; lia). cbn [obind]. rewrite set_idx_ok by lia. cbn [obind].
    replace (Z.pred (Z.of_nat (S n))) with (Z.of_nat n) by lia. apply IH; [done|lia|lia|by rewrite lenz_setz|].
    intros c Hc. destruct (decide (c = s)) as [->|]; [by rewrite getz_setz_eq by lia|].
    rewrite getz_setz_ne by done. apply Hoff. lia.
Qed.

(** A template of at most a page is published for every CPU. *)
Lemma percpu_init_ok offs :
  percpu_layout_ok -> lenz offs = MAX_CPUS -> percpu_end L - percpu_start L <= PERCPU_MAX ->
  exists offs', percpu_init offs = Ok (offs', area 0 - percpu_start L) /\ percpu_ready offs'.
Proof.
  intros HL Hlen Hfit. unfold percpu_init. pose proof HL as [H0 H1 H2 H3].
  unfold MAX_CPUS, PERCPU_MAX in *. rewrite usub_ok by lia. cbn [obind]. unfold assert_.
  destruct (Z.leb_spec (percpu_end L - percpu_start L) 4096); [|lia]. cbn [obind].
  destruct (percpu_init_loop 128 0 offs) as (offs' & E & Hlen' & Hoff);
    [done|unfold MAX_CPUS in *; lia..|].
  change (Z.of_nat 128) with 128 in E. rewrite E. cbn [obind]. rewrite (idx_ok _ _ _ (Hoff 0 ltac:(done))). cbn [obind].
  exists offs'. by split.
Qed.

(** The two macros agree and stay in the CPU's own area. *)
Lemma per_cpu_ptr_ok offs cpu var n :
  percpu_ready offs -> 0 <= cpu < MAX_CPUS -> 0 <= n ->
  percpu_start L <= var -> var + n <= percpu_end L ->
  per_cpu_ptr offs cpu var = Ok (area cpu + (var - percpu_start L)) /\
  (exists off, offset_of_cpu offs cpu = Ok off /\
     this_cpu_ptr off var = Ok (area cpu + (var - percpu_start L))) /\
  area cpu <= area cpu + (var - percpu_start L) /\
  area cpu + (var - percpu_start L) + n <= area (cpu + 1).
Proof.
  intros [HL Hfit Hlen Hoff] Hc Hn Hv Hvn. pose proof HL as [H0 H1 H2 H3].
  assert (uadd 64 (area cpu - percpu_start L) var = Ok (area cpu + (var - percpu_start L))) as E.
  { unfold area, MAX_CPUS, PERCPU_MAX in *. rewrite uadd_ok by lia. f_equal. lia. }
  unfold per_cpu_ptr, this_cpu_ptr, offset_of_cpu. rewrite (idx_ok _ _ _ (Hoff cpu Hc)). cbn [obind].
  split_and!; [done|by eexists|lia|]. unfold area, PERCPU_MAX in *. lia.
Qed.
End percpu.

(** Symbols as [linker.ld] lays them out. *)
Definition virt_percpu : PercpuLayout :=
  mkPercpuLayout 0x4008D000 0x4008E000 0xFFFFFFFF80140000.

Lemma virt_percpu_ok : percpu_layout_ok virt_percpu.
Proof. split; vm_compute; intuition congruence. Qed.

(** C28: [init] gives every CPU a private copy of every per-CPU static: the pointers
    the macros form for different CPUs name disjoint ranges, each inside its CPU's
    area, and a CPU that has installed its own offset reaches the same copy; a
    template larger than an area is refused in every profile. *)
Theorem percpu_copies_private {P : Profile} L offs :
  percpu_layout_ok L -> lenz offs = MAX_CPUS ->
  if decide (percpu_end L - percpu_start L <= PERCPU_MAX) then
    exists offs', percpu_init L offs = Ok (offs', area L 0 - percpu_start L) /\
      forall var n, 0 <= n -> percpu_start L <= var -> var + n <= percpu_end L ->
      exists ptr, (forall cpu, 0 <= cpu < MAX_CPUS ->
          per_cpu_ptr offs' cpu var = Ok (ptr cpu) /\
          (exists off, offset_of_cpu offs' cpu = Ok off /\ this_cpu_ptr off var = Ok (ptr cpu))) /\
        (forall c d, 0 <= c -> c < d -> d < MAX_CPUS -> ptr c + n <= ptr d)
  else percpu_init L offs = Panic AssertFailed.
Proof.
  intros HL Hlen. destruct (decide _) as [Hfit|Hfit].
  - destruct (percpu_init_ok L offs HL Hlen Hfit) as (offs' & E & R). exists offs'. split; [done|].
    intros var n Hn Hv Hvn. exists (fun cpu => area L cpu + (var - percpu_start L)). split.
    + intros cpu Hc. destruct (per_cpu_ptr_ok L offs' cpu var n) as (? & ? & _); done.
    + intros c d Hc Hcd Hd.
      destruct (per_cpu_ptr_ok L offs' c var n) as (_ & _ & _ & Hend); [done|lia|done..|].
      unfold area, PERCPU_MAX in *. nia.
  - unfold percpu_init. destruct HL as [H0 H1 H2 H3]. unfold MAX_CPUS, PERCPU_MAX in *.
    rewrite usub_ok by lia. cbn [obind]. unfold assert_. by destruct (Z.leb_spec (percpu_end L - percpu_start L) 4096); [lia|].
Qed.

Lemma percpu_copies_private_witness :
  exists offs', percpu_init (P := release_dev) virt_percpu OFFSETS_zero
                = Ok (offs', area virt_percpu 0 - percpu_start virt_percpu).
Proof.
  pose proof (percpu_copies_private (P := release_dev) virt_percpu OFFSETS_zero virt_percpu_ok eq_refl) as H.
  rewrite decide_True in H by (vm_compute; congruence). destruct H as (offs' & E & _). by exists offs'.
Defined.

(** Nothing aligns the areas: [Area] is a byte array, so the areas may start
    anywhere, and then [init] succeeds and the copies of a 128-byte-aligned static
    (such as [CPU_DATA]) are misaligned. *)
Theorem percpu_copies_may_be_misaligned {P : Profile} :
  exists L offs tpidr, percpu_layout_ok L /\ percpu_init L OFFSETS_zero = Ok (offs, tpidr) /\
    (128 | percpu_start L) /\
    exists p, this_cpu_ptr tpidr (percpu_start L) = Ok p /\ ~ (128 | p).
Proof.
  set (L := mkPercpuLayout 0x4008D000 0x4008E000 0xFFFFFFFF80140008).
  assert (percpu_layout_ok L) as HL by (split; vm_compute; intuition congruence).
  destruct (percpu_init_ok L OFFSETS_zero HL eq_refl) as (offs & E & R); [vm_compute; congruence|].
  exists L, offs, (area L 0 - percpu_start L). split; [exact HL|]. split; [exact E|].
  split; [exists 0x8011A0; reflexivity|].
  exists 0xFFFFFFFF80140008. split; [|intros [z Hz]; lia].
  unfold this_cpu_ptr, area, PERCPU_MAX. cbn [percpu_start AREAS L]. rewrite uadd_ok by lia. reflexivity.
Qed.
