(* ===== verification/Smp.v ===== *)
(** * kernel/cpu: CPU identities, the PSCI client, and SMP bring-up

    [cpu/types.rs], [cpu/psci.rs] and [cpu/smp.rs].  The module's statics are a
    [SmpState].  Outside the code, and so arguments: the firmware ([smccc], the
    call's return code and the firmware's next state), the device tree's nodes as
    the [fdt] crate reports them, and the linker's symbols.  A CPU the firmware
    accepts to start runs [secondary.s] and [secondary_cpu_main] after some number
    of the primary's polls ([delay]); that is PSCI's promise for [CPU_ON]. *)

From stdpp Require Import strings.
From S2P Require Import Prelude Fmt FrameTypes Layout Buddy Percpu.
Open Scope list_scope.
Open Scope Z_scope.

(* ------------------------------------------------------------------------- *)
(** ** CPU identities *)

(** [CpuId(u32)] is held as [Z]. *)
Definition CpuId_ok (c : Z) : Prop := 0 <= c < 2 ^ 32.
Definition CpuId_PRIMARY : Z := 0.

Definition Mpidr_MASK : Z := 0x00FF00FFFFFF.
Definition Mpidr_new (raw : Z) : Z := Z.land raw Mpidr_MASK.

(* ------------------------------------------------------------------------- *)
(** ** PSCI *)

Inductive Method := Hvc | Smc.

Inductive PsciError :=
  | NotSupported | InvalidParameters | Denied | AlreadyOn | OnPending | InternalFailure
  | NotPresent | Disabled | InvalidAddress | UnknownCode (code : Z).

Definition PsciError_from_code (code : Z) : PsciError :=
  if code =? -1 then NotSupported
  else if code =? -2 then InvalidParameters
  else if code =? -3 then Denied
  else if code =? -4 then AlreadyOn
  else if code =? -5 then OnPending
  else if code =? -6 then InternalFailure
  else if code =? -7 then NotPresent
  else if code =? -8 then Disabled
  else if code =? -9 then InvalidAddress
  else UnknownCode code.

Record Psci := mkPsci { method : Method; cpu_on_id : Z }.

(** The node [find_node] returns: for each property, whether it is there, and
    whether it converts. *)
Record PsciNode := mkPsciNode {
  method_prop : option (option string);
  cpu_on_prop : option (option Z);
}.

Definition Psci_from_fdt (node : option PsciNode) : option Psci :=
  match node with
  | None => None
  | Some n =>
      match method_prop n with
      | Some (Some s) =>
          match (if decide (s = "hvc"%string) then Some Hvc
                 else if decide (s = "smc"%string) then Some Smc else None) with
          | Some m =>
              match cpu_on_prop n with
              | Some (Some v) => Some (mkPsci m (as_u32 v))
              | _ => None
              end
          | None => None
          end
      | _ => None
      end
  end.

(** [CpuData], and [SecondaryBootData]. *)
Record CpuData := mkCpuData { cpu_id : Z; cd_mpidr : Z }.
Record SecondaryBootData := mkBootData { percpu_offset : Z; boot_stack_top : Z; ttbr1_root : Z }.

Inductive BringUpError :=
  | TooManyCpus
  | BringUpPsci (mpidr : Z) (e : PsciError)
  | OutOfMemory.

Definition STACK_SIZE : Z := 64 * 1024.
Definition STACK_ORDER : Z := 4.
Definition CACHE_LINE : Z := 64.

(** [size_of::<BootDataCell>()] (24 bytes at alignment 16), and of the data in it. *)
Definition SIZEOF_BootDataCell : Z := 32.
Definition SIZEOF_SecondaryBootData : Z := 24.
(** [size_of::<CpuData>()] *)
Definition SIZEOF_CpuData : Z := 128.

(** Addresses the linker chose. *)
Record SmpSymbols := mkSmpSymbols {
  CPU_DATA : Z;
  BOOT_DATA : Z;
  secondary_entry : Z;
  idmap_root : Z;
}.

(** The registers [secondary.s] sets: from the boot data, from [__idmap_l0], and the
    constant it writes to [TCR_EL1]. *)
Record CpuRegs := mkCpuRegs { tpidr_el1 : Z; sp_el1 : Z; ttbr1_el1 : Z; ttbr0_el1 : Z; tcr_el1 : Z }.
Definition SECONDARY_TCR : Z := 0x25B5503510.

(** The statics [CPU_ONLINE], [CPU_DATA]'s copies by address, [BOOT_DATA] and [BUDDY];
    the CPUs' registers by [Mpidr]; the firmware's state; the CPU the firmware is
    starting: the polls left, its [Mpidr] and its [x0]; and the lines on the console. *)
Record SmpState (FW : Type) := mkSmpState {
  CPU_ONLINE : Z;
  cpu_data : Z -> CpuData;
  boot_data : list SecondaryBootData;
  smp_buddy : option BuddyAllocator;
  regs : Z -> CpuRegs;
  fw : FW;
  waking : option (nat * (Z * Z));
  smp_console : list string;
}.
Arguments mkSmpState {FW}.
Arguments CPU_ONLINE {FW} s.
Arguments cpu_data {FW} s.
Arguments boot_data {FW} s.
Arguments smp_buddy {FW} s.
Arguments regs {FW} s.
Arguments fw {FW} s.
Arguments waking {FW} s.
Arguments smp_console {FW} s.

Section smp.
Context {P : Profile} {FW : Type}.
Context (smccc : Method -> Z -> Z -> Z -> Z -> FW -> Z * FW) (delay : FW -> Z -> nat).
Context (L : PercpuLayout) (offs : list Z) (Y : SmpSymbols).
Implicit Types st : SmpState FW.

Definition set_online st v : SmpState FW :=
  mkSmpState v (cpu_data st) (boot_data st) (smp_buddy st) (regs st) (fw st) (waking st) (smp_console st).
Definition set_cpu_data st v : SmpState FW :=
  mkSmpState (CPU_ONLINE st) v (boot_data st) (smp_buddy st) (regs st) (fw st) (waking st) (smp_console st).
Definition set_boot_data st v : SmpState FW :=
  mkSmpState (CPU_ONLINE st) (cpu_data st) v (smp_buddy st) (regs st) (fw st) (waking st) (smp_console st).
Definition set_buddy st v : SmpState FW :=
  mkSmpState (CPU_ONLINE st) (cpu_data st) (boot_data st) (Some v) (regs st) (fw st) (waking st) (smp_console st).
Definition set_regs st v : SmpState FW :=
  mkSmpState (CPU_ONLINE st) (cpu_data st) (boot_data st) (smp_buddy st) v (fw st) (waking st) (smp_console st).
Definition set_fw st f w : SmpState FW :=
  mkSmpState (CPU_ONLINE st) (cpu_data st) (boot_data st) (smp_buddy st) (regs st) f w (smp_console st).

Definition set_console st v : SmpState FW :=
  mkSmpState (CPU_ONLINE st) (cpu_data st) (boot_data st) (smp_buddy st) (regs st) (fw st) (waking st) v.

(* ----------------------------------------------------------------------- *)
(** ** The firmware call *)

Definition Psci_raw_call (psci : Psci) (fn_id a1 a2 a3 : Z) (f : FW) : Z * FW :=
  match method psci with
  | Hvc => smccc Hvc fn_id a1 a2 a3 f
  | Smc => smccc Smc fn_id a1 a2 a3 f
  end.

(** [inr] is the error. *)
Definition Psci_cpu_on (psci : Psci) (mpidr entry ctx : Z) (f : FW) : (unit + PsciError) * FW :=
  let '(code, f) := Psci_raw_call psci (cpu_on_id psci) mpidr entry ctx f in
  if code =? 0 then (inl tt, f) else (inr (PsciError_from_code code), f).

(** The call in the system: an accepted CPU starts waking. *)
Definition smp_cpu_on (psci : Psci) (mpidr entry ctx : Z) st : (unit + PsciError) * SmpState FW :=
  let '(r, f) := Psci_cpu_on psci mpidr entry ctx (fw st) in
  match r with
  | inl _ => (r, set_fw st f (Some (delay (fw st) mpidr, (mpidr, ctx))))
  | inr _ => (r, set_fw st f (waking st))
  end.

(* ----------------------------------------------------------------------- *)
(** ** Module statics *)

Definition mark_online (cpu : Z) st : outcome (SmpState FW) :=
  let! bit := ushl 64 1 cpu in
  Ok (set_online st (Z.lor (CPU_ONLINE st) bit)).

Definition is_online (cpu : Z) st : outcome bool :=
  let! bit := ushl 64 1 cpu in
  Ok (negb (Z.land (CPU_ONLINE st) bit =? 0)).

Definition init_cpu (cpu mpidr : Z) st : outcome (SmpState FW) :=
  let! p := per_cpu_ptr offs cpu (CPU_DATA Y) in
  Ok (set_cpu_data st (<[p := mkCpuData cpu mpidr]> (cpu_data st))).

(** [install_current], run by the CPU with [Mpidr] [self]. *)
Definition install_current (self cpu : Z) st : outcome (SmpState FW) :=
  let! off := offset_of_cpu offs cpu in
  let r := regs st self in
  Ok (set_regs st (<[self := mkCpuRegs off (sp_el1 r) (ttbr1_el1 r) (ttbr0_el1 r) (tcr_el1 r)]> (regs st))).

(** [current], run by the CPU with [Mpidr] [self]. *)
Definition smp_current (self : Z) st : outcome CpuData :=
  let! p := this_cpu_ptr (tpidr_el1 (regs st self)) (CPU_DATA Y) in
  Ok (cpu_data st p).

Definition prepare_boot_data (cpu root stack_top : Z) st : outcome (Z * SmpState FW) :=
  let! _ := idx (boot_data st) cpu in
  let! off := offset_of_cpu offs cpu in
  let! bd := set_idx (boot_data st) cpu (mkBootData off stack_top root) in
  Ok (BOOT_DATA Y + cpu * SIZEOF_BootDataCell, set_boot_data st bd).

Definition entry_addr : outcome Z := image_va_to_pa (secondary_entry Y).

Definition alloc_stack st : outcome (option Z * SmpState FW) :=
  match smp_buddy st with
  | None => Ok (None, st)
  | Some b =>
      let! '(r, b) := BuddyAllocator_alloc_pages b STACK_ORDER in
      let st := set_buddy st b in
      match r with
      | None => Ok (None, st)
      | Some pa =>
          let! va := pa_to_linear_va pa in
          let! top := uadd 64 va STACK_SIZE in
          Ok (Some top, st)
      end
  end.

(** One turn of [clean_dcache]'s loop: the next line, and the lines cleaned. *)
Definition clean_step (s : Z * list Z) : outcome (Z * list Z) :=
  let '(p, lines) := s in
  let! p' := uadd 64 p CACHE_LINE in
  Ok (p', lines ++ [p]).

(** The lines [clean_dcache] cleans. *)
Definition clean_dcache (va len : Z) : outcome (list Z) :=
  let p := Z.land va (Z.lnot (CACHE_LINE - 1)) in
  let! lim := uadd 64 va len in
  let! '(_, lines) :=
    while (Z.to_nat (div_ceil (lim - p) CACHE_LINE)) (fun s => s.1 <? lim) clean_step (p, []) in
  Ok lines.

(* ----------------------------------------------------------------------- *)
(** ** The secondary CPU *)

(** The boot data at physical address [ctx]. *)
Definition boot_data_at (ctx : Z) st : outcome SecondaryBootData :=
  let off := ctx - IMAGE_PA_BASE + KERNEL_IMAGE_BASE - BOOT_DATA Y in
  if off mod SIZEOF_BootDataCell =? 0 then idx (boot_data st) (off / SIZEOF_BootDataCell)
  else Panic Undefined.

(** The line a secondary logs. *)
Definition online_text (cpu : CpuData) : string :=
  ("CPU " +:+ decimal (cpu_id cpu) +:+ " online (mpidr=" +:+ hex_alt (cd_mpidr cpu) +:+ ")")%string.

(** [secondary_entry] (the registers it loads) and [secondary_cpu_main]; the primary,
    which alone could log too, is waiting. *)
Definition secondary_run (self ctx : Z) st : outcome (SmpState FW) :=
  let! bd := boot_data_at ctx st in
  let st := set_regs st
    (<[self := mkCpuRegs (percpu_offset bd) (boot_stack_top bd) (ttbr1_root bd) (idmap_root Y) SECONDARY_TCR]> (regs st)) in
  let! cpu := smp_current self st in
  let st := set_console st (smp_console st ++ [online_text cpu]) in
  mark_online (cpu_id cpu) st.

(** What happens elsewhere between two polls. *)
Definition env_step st : outcome (SmpState FW) :=
  match waking st with
  | None => Ok st
  | Some (S n, x) => Ok (set_fw st (fw st) (Some (n, x)))
  | Some (O, (self, ctx)) => secondary_run self ctx (set_fw st (fw st) None)
  end.

(** One poll of [wait_for]. *)
Definition wait_step (cpu : Z) st : outcome (SmpState FW + SmpState FW) :=
  let! b := is_online cpu st in
  if b then Ok (inr st)
  else let! st := env_step st in Ok (inl st).

Definition wait_for (fuel : nat) (cpu : Z) st : outcome (SmpState FW) :=
  loop fuel (wait_step cpu) st.

(* ----------------------------------------------------------------------- *)
(** ** Bring-up *)

(** The loop's body once the CPU has an index; [None] is success. *)
Definition bring_up_one (fuel : nat) (root : Z) (psci : Psci) (cpu mpidr : Z) st
  : outcome (SmpState FW * option BringUpError) :=
  let! st := init_cpu cpu mpidr st in
  let! '(stack, st) := alloc_stack st in
  match stack with
  | None => Ok (st, Some OutOfMemory)
  | Some stack_top =>
      let! '(bd_va, st) := prepare_boot_data cpu root stack_top st in
      let! _lines := clean_dcache bd_va SIZEOF_SecondaryBootData in
      let! ctx := image_va_to_pa bd_va in
      let! entry := entry_addr in
      let '(r, st) := smp_cpu_on psci mpidr entry ctx st in
      match r with
      | inr e => Ok (st, Some (BringUpPsci mpidr e))
      | inl _ =>
          let! st := wait_for fuel cpu st in
          Ok (st, None)
      end
  end.

(** The loop over the device tree's CPUs; [None] is [Ok(())]. *)
Fixpoint bring_up_loop (fuel : nat) (primary root : Z) (psci : Psci) (ids : list Z) (next_idx : Z) st
  : outcome (SmpState FW * option BringUpError) :=
  match ids with
  | [] => Ok (st, None)
  | id :: ids =>
      let mpidr := Mpidr_new id in
      if mpidr =? primary then bring_up_loop fuel primary root psci ids next_idx st
      else if MAX_CPUS <=? next_idx then Ok (st, Some TooManyCpus)
      else
        let! '(st, e) := bring_up_one fuel root psci next_idx mpidr st in
        match e with
        | Some e => Ok (st, Some e)
        | None =>
            let! next_idx := uadd 32 next_idx 1 in
            bring_up_loop fuel primary root psci ids next_idx st
        end
  end.

(** [current] is the primary's [MPIDR_EL1]. *)
Definition bring_up_all (fuel : nat) (current root : Z) (psci : Psci) (ids : list Z) st
  : outcome (SmpState FW * option BringUpError) :=
  let primary := Mpidr_new current in
  let! st := init_cpu CpuId_PRIMARY primary st in
  let! st := install_current primary CpuId_PRIMARY st in
  let! st := mark_online CpuId_PRIMARY st in
  bring_up_loop fuel primary root psci ids 1 st.
End smp.
