(* ===== verification/SmpProps.v ===== *)
(** * SMP bring-up: what holds when it returns

    Every CPU brought up has an index, a per-CPU area, a control block and a stack
    of its own, and its online bit is set; the loop stops with an error exactly when
    the allocator or the firmware refuses.  The last theorems are about the limits of
    the online bitmap, the firmware's codes, and the cache clean. *)

From stdpp Require Import strings.
From S2P Require Import Prelude FrameTypes Layout Buddy BuddyInv BuddyGeom BuddyWf BuddySteps BuddyCore BuddyFree BuddyRange BuddyCanon BuddyProps BuddyAddr Percpu Smp.
Open Scope list_scope.
Open Scope Z_scope.

(* ------------------------------------------------------------------------- *)
(** ** The online bitmap *)

Lemma land_bit x c : 0 <= c -> (Z.land x (2 ^ c) =? 0) = negb (Z.testbit x c).
Proof.
  intros Hc. assert (Z.land x (2 ^ c) = if Z.testbit x c then 2 ^ c else 0) as ->.
  { apply Z.bits_inj'. intros i Hi. rewrite Z.land_spec, Z.pow2_bits_eqb by done.
    destruct (Z.eqb_spec c i) as [->|Hne]; [rewrite andb_true_r|rewrite andb_false_r].
    - destruct (Z.testbit x i); [by rewrite Z.pow2_bits_eqb, Z.eqb_refl|by rewrite Z.bits_0].
    - destruct (Z.testbit x c); [rewrite Z.pow2_bits_eqb by done; by destruct (Z.eqb_spec c i)|by rewrite Z.bits_0]. }
  pose proof (Z.pow_pos_nonneg 2 c ltac:(lia) Hc). destruct (Z.testbit x c); [|done].
  destruct (Z.eqb_spec (2 ^ c) 0); [lia|done].
Qed.

(* ------------------------------------------------------------------------- *)
(** ** The cache clean *)

Lemma line_base va : Z.land va (Z.lnot (CACHE_LINE - 1)) = va / 64 * 64.
Proof.
  change (CACHE_LINE - 1) with (Z.ones 6). rewrite <- Z.ldiff_land, Z.ldiff_ones_r by done.
  rewrite Z.shiftl_mul_pow2, Z.shiftr_div_pow2 by done. reflexivity.
Qed.

(** [x] lies in one of the lines. *)
Definition in_lines (lines : list Z) (x : Z) : Prop := exists l, l ∈ lines /\ l <= x < l + CACHE_LINE.

Lemma clean_dcache_ok {P : Profile} va len :
  0 <= va -> 0 <= len -> va + len + CACHE_LINE <= 2 ^ 64 ->
  exists lines, clean_dcache va len = Ok lines /\
    (forall x, va <= x < va + len -> in_lines lines x) /\
    (forall l, l ∈ lines -> (CACHE_LINE | l) /\ va - CACHE_LINE < l < va + len).
Proof.
  unfold CACHE_LINE. intros Hva Hlen Htop. unfold clean_dcache. rewrite line_base. set (p := va / 64 * 64).
  assert (p <= va < p + 64) as Hp by (unfold p; divmod).
  rewrite uadd_ok by lia. cbn [obind]. unfold CACHE_LINE.
  destruct (while_rule (fun s : Z * list Z => (64 | s.1) /\ p <= s.1 /\ (s.1 < va + len \/ s.1 < va + len + 64) /\
      (forall x, p <= x < s.1 -> in_lines s.2 x) /\
      (forall l, l ∈ s.2 -> (64 | l) /\ va - 64 < l < va + len))
    (fun s => div_ceil (va + len - s.1) 64) (fun s => s.1 <? va + len) clean_step)
    with (fuel := Z.to_nat (div_ceil (va + len - p) 64)) (s := (p, @nil Z)) as ([q lines] & -> & HI & Hq).
  - intros [q lines] (Hd & Hlo & Hhi & Hin & Hall) Hc. cbn [fst snd] in *. apply Z.ltb_lt in Hc.
    unfold clean_step. rewrite uadd_ok by (unfold CACHE_LINE; lia). cbn [obind]. unfold CACHE_LINE.
    eexists. split; [done|]. cbn [fst snd]. split_and!.
    + by apply Z.divide_add_r, Z.divide_refl.
    + lia.
    + lia.
    + intros x Hx. destruct (Z.lt_ge_cases x q) as [Hxq|Hxq].
      * destruct (Hin x) as (l & Hl & ?); [lia|]. exists l. by rewrite elem_of_app; auto.
      * exists q. rewrite elem_of_app, list_elem_of_singleton. unfold CACHE_LINE. split; [by right|lia].
    + intros l. rewrite elem_of_app, list_elem_of_singleton. intros [?| ->]; [by apply Hall|]. split; [done|lia].
    + replace (va + len - (q + 64)) with (va + len - q - 64) by lia. rewrite div_ceil_sub by lia.
      pose proof (div_ceil_spec (va + len - q) 64). lia.
    + replace (va + len - (q + 64)) with (va + len - q - 64) by lia. rewrite div_ceil_sub by lia. lia.
  - cbn [fst snd]. split_and!; [apply Z.divide_factor_r|lia|lia|intros; lia|intros ? []%elem_of_nil].
  - cbn [fst]. pose proof (div_ceil_spec (va + len - p) 64). lia.
  - cbn [fst snd] in *. apply Z.ltb_ge in Hq. destruct HI as (_ & _ & _ & Hin & Hall).
    cbn [obind]. exists lines. split_and!; [done| |done]. intros x Hx. apply Hin. lia.
Qed.

Section smp_props.
Context {P : Profile} {FW : Type}.
Context (smccc : Method -> Z -> Z -> Z -> Z -> FW -> Z * FW) (delay : FW -> Z -> nat).
Context (L : PercpuLayout) (offs : list Z) (Y : SmpSymbols) (con : list string).
Implicit Types st : SmpState FW.

Lemma is_online_ok c st : 0 <= c < 64 -> is_online c st = Ok (Z.testbit (CPU_ONLINE st) c).
Proof.
  intros Hc. unfold is_online. rewrite ushl_one_ok by done. cbn [obind].
  by rewrite land_bit, negb_involutive by lia.
Qed.

Lemma mark_online_ok c st :
  0 <= c < 64 ->
  exists v, mark_online c st = Ok (set_online st v) /\
    forall d, 0 <= d -> Z.testbit v d = (d =? c) || Z.testbit (CPU_ONLINE st) d.
Proof.
  intros Hc. unfold mark_online. rewrite ushl_one_ok by done. cbn [obind]. eexists. split; [done|].
  intros d Hd. rewrite Z.lor_spec, Z.pow2_bits_eqb by lia. rewrite (Z.eqb_sym c d). apply orb_comm.
Qed.

(* ------------------------------------------------------------------------- *)
(** ** The invariant of bring-up *)

(** What the linker and [percpu::init] provide. *)
Record smp_env_ok : Prop := {
  en_percpu : percpu_ready L offs;
  en_data : percpu_start L <= CPU_DATA Y /\ CPU_DATA Y + SIZEOF_CpuData <= percpu_end L;
  en_boot : KERNEL_IMAGE_BASE <= BOOT_DATA Y /\
            BOOT_DATA Y + MAX_CPUS * SIZEOF_BootDataCell + CACHE_LINE <= 2 ^ 64;
  en_entry : KERNEL_IMAGE_BASE <= secondary_entry Y < 2 ^ 64;
}.

(** CPU [c]'s offset, and the address of its control block. *)
Definition cpu_offset (c : Z) : Z := area L c - percpu_start L.
Definition cpu_block (c : Z) : Z := area L c + (CPU_DATA Y - percpu_start L).

(** CPU [c], whose [Mpidr] is [m], runs on the stack at block [p]. *)
Record cpu_up (st : SmpState FW) (b : BuddyAllocator) (root c m p : Z) : Prop := {
  cu_stack : allocated b p = Some STACK_ORDER;
  cu_regs : regs st m = mkCpuRegs (cpu_offset c) (frame_va b p + STACK_SIZE) root (idmap_root Y) SECONDARY_TCR;
  cu_data : cpu_data st (cpu_block c) = mkCpuData c m;
}.

(** The lines of the secondaries [up], in the order in which they were started. *)
Definition online_lines (up : list (Z * Z)) : list string :=
  imap (fun i u => online_text (mkCpuData (Z.of_nat i + 1) u.1)) up.

(** The secondaries [up], by index: each one's [Mpidr] and stack block; [con] is what
    the console showed before. *)
Record brought_up (primary root : Z) (up : list (Z * Z)) (st : SmpState FW) : Prop := {
  bu_len : lenz up < 64;
  bu_online : forall c, 0 <= c < 64 -> Z.testbit (CPU_ONLINE st) c = (c <=? lenz up);
  bu_slots : lenz (boot_data st) = MAX_CPUS;
  bu_idle : waking st = None;
  bu_console : smp_console st = con ++ online_lines up;
  bu_primary : tpidr_el1 (regs st primary) = cpu_offset 0 /\
               cpu_data st (cpu_block 0) = mkCpuData 0 primary;
  bu_ids : NoDup (primary :: up.*1);
  bu_stacks : NoDup (up.*2);
  bu_cpus : exists b, smp_buddy st = Some b /\ placed b /\
    forall i m p, getz up i = Some (m, p) -> cpu_up st b root (i + 1) m p;
}.

Hypothesis E : smp_env_ok.

Lemma cpu_block_inj c d : cpu_block c = cpu_block d -> c = d.
Proof. unfold cpu_block, area, PERCPU_MAX. lia. Qed.

Lemma cpu_pointers c :
  0 <= c < MAX_CPUS ->
  offset_of_cpu offs c = Ok (cpu_offset c) /\ per_cpu_ptr offs c (CPU_DATA Y) = Ok (cpu_block c) /\
  this_cpu_ptr (cpu_offset c) (CPU_DATA Y) = Ok (cpu_block c).
Proof.
  intros Hc. destruct E as [R [H1 H2] _ _]. unfold SIZEOF_CpuData in *.
  assert (offset_of_cpu offs c = Ok (cpu_offset c)) as Eo.
  { unfold offset_of_cpu. by rewrite (idx_ok _ _ _ (pr_off _ _ R c Hc)). }
  destruct (per_cpu_ptr_ok L offs c (CPU_DATA Y) 128 R Hc) as (-> & (off & Eoff & Et) & _); [lia..|].
  rewrite Eo in Eoff. by simplify_eq.
Qed.

Lemma getz_snoc {A} (l : list A) (x y : A) i :
  getz (l ++ [x]) i = Some y -> getz l i = Some y \/ (i = lenz l /\ y = x).
Proof.
  unfold getz, lenz. destruct (Z.leb_spec 0 i); [|done]. rewrite lookup_snoc_Some.
  intros [[_ ?]|[? ->]]; [by left|right]. split; [lia|done].
Qed.

Lemma lenz_snoc {A} (l : list A) (x : A) : lenz (l ++ [x]) = lenz l + 1.
Proof. unfold lenz. rewrite length_app. simpl. lia. Qed.

(** The window in which a woken CPU finds its boot data. *)
Lemma boot_slot_ok cpu :
  0 <= cpu < MAX_CPUS ->
  exists ctx, image_va_to_pa (BOOT_DATA Y + cpu * SIZEOF_BootDataCell) = Ok ctx /\
    forall st, boot_data_at Y ctx st = idx (boot_data st) cpu.
Proof.
  intros Hc. destruct E as [_ _ [H1 H2] _]. unfold MAX_CPUS, SIZEOF_BootDataCell, CACHE_LINE in *.
  rewrite image_va_to_pa_ok by lia. eexists. split; [done|]. intros st. unfold boot_data_at, SIZEOF_BootDataCell.
  replace (_ - IMAGE_PA_BASE + KERNEL_IMAGE_BASE - BOOT_DATA Y) with (cpu * 32) by lia.
  by rewrite Z.mod_mul, Z.eqb_refl, Z.div_mul by lia.
Qed.

(** The polls end once the woken CPU has run. *)
Lemma wait_for_ok n : forall fuel cpu st self ctx st',
  (n + 2 <= fuel)%nat -> 0 <= cpu < 64 -> Z.testbit (CPU_ONLINE st) cpu = false ->
  waking st = Some (n, (self, ctx)) ->
  secondary_run Y self ctx (set_fw st (fw st) None) = Ok st' -> Z.testbit (CPU_ONLINE st') cpu = true ->
  wait_for Y fuel cpu st = Ok st'.
Proof.
  unfold wait_for. induction n as [|n IH]; intros fuel cpu st self ctx st' Hf Hc Hoff Hw Hrun Hon;
    (destruct fuel as [|fuel]; [lia|]); cbn [loop]; unfold wait_step at 1;
    rewrite is_online_ok, Hoff by done; cbn [obind]; unfold env_step; rewrite Hw; cbn [obind].
  - rewrite Hrun. cbn [obind]. destruct fuel as [|fuel]; [lia|]. cbn [loop]. unfold wait_step.
    by rewrite is_online_ok, Hon by done.
  - apply (IH fuel cpu _ self ctx); [lia|done..].
Qed.

(** A stack is a block of its own. *)
Lemma alloc_stack_ok st b :
  smp_buddy st = Some b -> placed b ->
  (exists p b', alloc_stack st = Ok (Some (frame_va b p + STACK_SIZE), set_buddy st b') /\
     handed_out b b' p STACK_ORDER) \/
  (alloc_stack st = Ok (None, set_buddy st b) /\
   forall p k, meta b p = Some (Free, k) -> k < STACK_ORDER).
Proof.
  intros Hb Hpl. unfold alloc_stack. rewrite Hb.
  destruct (alloc_pages_cases b STACK_ORDER Hpl) as [(p & b' & -> & H & Hva)|[-> Hn]];
    [unfold STACK_ORDER, MAX_ORDER; lia|left|right]; cbn [obind]; [|done].
  rewrite Hva. cbn [obind]. pose proof (ho_block _ _ _ _ H) as (_ & Hp & _ & Hpn).
  destruct Hpl as [_ Hbase _ Hspan]. unfold STACK_ORDER in Hpn. change (2 ^ 4) with 16 in Hpn.
  rewrite uadd_ok by (unfold frame_va, STACK_SIZE; unfold_layout; lia). eauto.
Qed.

(** Another block handed out disturbs no CPU that is up. *)
Lemma cpu_up_handed_out st st' b b' root c m p q o :
  handed_out b b' q o -> regs st' m = regs st m -> cpu_data st' (cpu_block c) = cpu_data st (cpu_block c) ->
  cpu_up st b root c m p -> cpu_up st' b' root c m p /\ p <> q.
Proof.
  intros H Hr Hd [Ha Hregs Hdata]. assert (p <> q) as Hne.
  { intros ->. by rewrite (ho_fresh _ _ _ _ H) in Ha. }
  split; [|done]. split.
  - by rewrite (ho_alloc _ _ _ _ H), fn_lookup_insert_ne.
  - by rewrite Hr, (frame_va_base b b') by apply H.
  - by rewrite Hd.
Qed.

Lemma getz_fst_elem (up : list (Z * Z)) i m p : getz up i = Some (m, p) -> m ∈ up.*1 /\ p ∈ up.*2.
Proof.
  unfold getz. destruct (0 <=? i); [|done]. intros Hi. split; apply list_elem_of_fmap;
    exists (m, p); (split; [done|by eapply list_elem_of_lookup_2]).
Qed.

Lemma elem_snd_getz (up : list (Z * Z)) p : p ∈ up.*2 -> exists i m, getz up i = Some (m, p).
Proof.
  rewrite list_elem_of_fmap. intros ([m q] & -> & [i Hi]%list_elem_of_lookup).
  exists (Z.of_nat i), m. unfold getz. destruct (Z.leb_spec 0 (Z.of_nat i)); [|lia]. by rewrite Nat2Z.id.
Qed.

Lemma getz_snd_inj (up : list (Z * Z)) i j m n p :
  NoDup up.*2 -> getz up i = Some (m, p) -> getz up j = Some (n, p) -> i = j.
Proof.
  intros Hnd Hi Hj. pose proof (getz_Some_range _ _ _ Hi). pose proof (getz_Some_range _ _ _ Hj).
  unfold getz in Hi, Hj. destruct (Z.leb_spec 0 i); [|lia]. destruct (Z.leb_spec 0 j); [|lia].
  enough (Z.to_nat i = Z.to_nat j) by lia. eapply NoDup_lookup; [exact Hnd|rewrite list_lookup_fmap..].
  - by rewrite Hi.
  - by rewrite Hj.
Qed.

(** The state outside the CPUs that are up may change. *)
Record untouched (primary : Z) (up : list (Z * Z)) (st st' : SmpState FW) : Prop := {
  ut_online : CPU_ONLINE st' = CPU_ONLINE st;
  ut_slots : lenz (boot_data st') = lenz (boot_data st);
  ut_idle : waking st' = None;
  ut_console : smp_console st' = smp_console st;
  ut_regs : forall m, m ∈ primary :: up.*1 -> regs st' m = regs st m;
  ut_data : forall c, 0 <= c <= lenz up -> cpu_data st' (cpu_block c) = cpu_data st (cpu_block c);
}.

Lemma keep_up primary root up st st' b b' :
  brought_up primary root up st -> untouched primary up st st' ->
  smp_buddy st = Some b -> smp_buddy st' = Some b' ->
  (b' = b \/ exists q, handed_out b b' q STACK_ORDER) -> brought_up primary root up st'.
Proof.
  intros [Hlen Hon Hsl Hid Hcon Hpr Hids Hst (c0 & Hb0 & Hpl & Hup)] [U1 U2 U3 U6 U4 U5] Hb Hb' Hor.
  assert (c0 = b) as -> by congruence. split; [done|by rewrite U1|by rewrite U2|done|by rewrite U6| |done..|].
  - rewrite U4 by (by left). rewrite U5; [done|]. unfold lenz. lia.
  - exists b'. split; [done|]. split.
    + destruct Hor as [->|[q H]]; [done|by eapply handed_out_placed].
    + intros i m p Hi. pose proof (getz_Some_range _ _ _ Hi). destruct (getz_fst_elem _ _ _ _ Hi) as [Hm _].
      pose proof (Hup i m p Hi) as Hcu.
      assert (regs st' m = regs st m) as Hr by (apply U4; by right).
      assert (cpu_data st' (cpu_block (i + 1)) = cpu_data st (cpu_block (i + 1))) as Hd by (apply U5; lia).
      destruct Hor as [->|[q H']]; [|by eapply cpu_up_handed_out].
      destruct Hcu as [? ? ?]. split; [done|by rewrite Hr|by rewrite Hd].
Qed.

(** A CPU that has run with its own block joins. *)
Lemma add_up primary root up st st' b b' m q :
  brought_up primary root up st -> lenz up + 1 < 64 -> m ∉ primary :: up.*1 ->
  smp_buddy st = Some b -> handed_out b b' q STACK_ORDER -> smp_buddy st' = Some b' ->
  lenz (boot_data st') = lenz (boot_data st) -> waking st' = None ->
  smp_console st' = smp_console st ++ [online_text (mkCpuData (lenz up + 1) m)] ->
  (forall d, 0 <= d -> Z.testbit (CPU_ONLINE st') d = (d =? lenz up + 1) || Z.testbit (CPU_ONLINE st) d) ->
  (forall x, regs st' x = (<[m := mkCpuRegs (cpu_offset (lenz up + 1)) (frame_va b q + STACK_SIZE) root (idmap_root Y) SECONDARY_TCR]> (regs st)) x) ->
  (forall x, cpu_data st' x = (<[cpu_block (lenz up + 1) := mkCpuData (lenz up + 1) m]> (cpu_data st)) x) ->
  brought_up primary root (up ++ [(m, q)]) st'.
Proof.
  intros [Hlen Hon Hsl Hid Hcon [Hp1 Hp2] Hids Hst (c0 & Hb0 & Hpl & Hup)] Hl Hm Hb H Hb' Hs' Hw Hcon' Hon' Hr Hd.
  assert (c0 = b) as -> by congruence.
  assert (forall c, c <> lenz up + 1 -> cpu_data st' (cpu_block c) = cpu_data st (cpu_block c)) as Hd'.
  { intros c Hc. rewrite Hd, fn_lookup_insert_ne; [done|]. intros Heq%cpu_block_inj. lia. }
  assert (forall i x p, getz up i = Some (x, p) -> cpu_up st' b' root (i + 1) x p /\ p <> q) as Hold.
  { intros i x p Hi. pose proof (getz_Some_range _ _ _ Hi). eapply cpu_up_handed_out; [exact H| | |by apply Hup].
    - rewrite Hr, fn_lookup_insert_ne; [done|]. intros ->. apply Hm. right. by apply (getz_fst_elem _ _ _ _ Hi).
    - apply Hd'. lia. }
  split.
  - by rewrite lenz_snoc.
  - intros c Hc. rewrite Hon' by lia. rewrite Hon by done. rewrite lenz_snoc.
    destruct (Z.eqb_spec c (lenz up + 1)), (Z.leb_spec c (lenz up)), (Z.leb_spec c (lenz up + 1)); done || lia.
  - by rewrite Hs'.
  - done.
  - rewrite Hcon', Hcon, <- (assoc (++)). unfold online_lines. rewrite imap_app. cbn [imap]. by rewrite Nat.add_0_r.
  - rewrite Hr, fn_lookup_insert_ne by (intros ->; apply Hm; by left).
    rewrite Hd' by (unfold lenz; lia). done.
  - rewrite fmap_app. simpl. rewrite app_comm_cons. apply list.NoDup_app. split_and!; [done| |].
    + intros x Hx ->%list_elem_of_singleton. done.
    + apply NoDup_singleton.
  - rewrite fmap_app. apply list.NoDup_app. split_and!; [done| |apply NoDup_singleton].
    intros p (i & x & Hi)%elem_snd_getz ->%list_elem_of_singleton. by destruct (Hold _ _ _ Hi).
  - exists b'. split_and!; [done|by eapply handed_out_placed|]. intros i x p [Hi|[-> [= -> ->]]]%getz_snoc.
    + by apply Hold.
    + split.
      * by rewrite (ho_alloc _ _ _ _ H), fn_lookup_insert.
      * by rewrite Hr, fn_lookup_insert, (frame_va_base b b') by apply H.
      * by rewrite Hd, fn_lookup_insert.
Qed.

(** What one turn of the loop ends with. *)
Definition one_result (primary root : Z) (up : list (Z * Z)) (m : Z) st' (r : option BringUpError) : Prop :=
  match r with
  | None => exists q, brought_up primary root (up ++ [(m, q)]) st'
  | Some OutOfMemory =>
      brought_up primary root up st' /\
      exists b, smp_buddy st' = Some b /\ forall p k, meta b p = Some (Free, k) -> k < STACK_ORDER
  | Some (BringUpPsci m' e) =>
      brought_up primary root up st' /\ m' = m /\
      exists code, code <> 0 /\ e = PsciError_from_code code
  | Some TooManyCpus => False
  end.

(** The woken CPU loads what the primary prepared and marks itself. *)
Lemma secondary_run_ok st cpu m ctx off top root :
  0 <= cpu < 64 -> boot_data_at Y ctx st = Ok (mkBootData off top root) -> off = cpu_offset cpu ->
  cpu_data st (cpu_block cpu) = mkCpuData cpu m ->
  exists v, secondary_run Y m ctx st
            = Ok (set_online (set_console (set_regs st (<[m := mkCpuRegs off top root (idmap_root Y) SECONDARY_TCR]> (regs st)))
                    (smp_console st ++ [online_text (mkCpuData cpu m)])) v) /\
    forall d, 0 <= d -> Z.testbit v d = (d =? cpu) || Z.testbit (CPU_ONLINE st) d.
Proof.
  intros Hc Hbd -> Hd. unfold secondary_run. rewrite Hbd. cbn [obind percpu_offset boot_stack_top ttbr1_root].
  unfold smp_current. cbn [regs set_regs]. rewrite fn_lookup_insert. cbn [tpidr_el1].
  destruct (cpu_pointers cpu) as (_ & _ & ->); [unfold MAX_CPUS; lia|]. cbn [obind cpu_data set_regs].
  rewrite Hd. cbn [cpu_id smp_console set_regs].
  match goal with |- context [mark_online cpu ?s] => destruct (mark_online_ok cpu s Hc) as (v & -> & Hv) end. eauto.
Qed.

(** Before the firmware is asked, nothing a running CPU depends on has changed. *)
Lemma prepared_untouched primary root up st st' c x :
  brought_up primary root up st -> c = lenz up + 1 ->
  CPU_ONLINE st' = CPU_ONLINE st -> lenz (boot_data st') = lenz (boot_data st) -> waking st' = waking st ->
  smp_console st' = smp_console st -> regs st' = regs st -> cpu_data st' = <[cpu_block c := x]> (cpu_data st) ->
  untouched primary up st st'.
Proof.
  intros B -> H1 H2 H3 H6 H4 H5. split; [done|done|by rewrite H3, (bu_idle _ _ _ _ B)|done|by rewrite H4|].
  intros d Hd. rewrite H5, fn_lookup_insert_ne; [done|]. intros Heq%cpu_block_inj. lia.
Qed.

Lemma bring_up_one_ok fuel primary root psci up st m :
  (forall f x, (delay f x + 2 <= fuel)%nat) -> brought_up primary root up st -> lenz up + 1 < 64 ->
  m ∉ primary :: up.*1 ->
  exists st' r, bring_up_one smccc delay offs Y fuel root psci (lenz up + 1) m st = Ok (st', r) /\
                one_result primary root up m st' r.
Proof.
  intros Hdelay B Hlen Hm. set (cpu := lenz up + 1). assert (0 <= cpu < 64) as Hc by (unfold cpu, lenz in *; lia).
  assert (0 <= cpu < MAX_CPUS) as Hc' by (unfold MAX_CPUS; lia).
  destruct (cpu_pointers cpu Hc') as (Eo & Ep & _). destruct (boot_slot_ok cpu Hc') as (ctx & Ectx & Hslot).
  destruct (bu_cpus _ _ _ _ B) as (b & Hb & Hpl & _).
  unfold bring_up_one, init_cpu. rewrite Ep. cbn [obind]. set (st1 := set_cpu_data st _).
  destruct (alloc_stack_ok st1 b Hb Hpl) as [(q & b' & -> & H)|[-> Hn]]; cbn [obind].
  2: { exists (set_buddy st1 b), (Some OutOfMemory). split; [done|]. split; [|by exists b].
       eapply (keep_up primary root up st); [done| |done|done|by left].
       by eapply prepared_untouched. }
  unfold prepare_boot_data. destruct (getz_is_Some (boot_data st) cpu) as [slot Eslot];
    [by rewrite (bu_slots _ _ _ _ B)|]. cbn [boot_data set_buddy st1 set_cpu_data].
  rewrite (idx_ok _ _ _ Eslot). cbn [obind]. rewrite Eo. cbn [obind].
  rewrite set_idx_ok by (by rewrite (bu_slots _ _ _ _ B)). cbn [obind].
  set (st3 := set_boot_data (set_buddy st1 b') _).
  assert (lenz (boot_data st3) = lenz (boot_data st)) as Hl3 by apply lenz_setz.
  destruct E as [_ _ [Hb1 Hb2] He]. unfold MAX_CPUS, SIZEOF_BootDataCell, CACHE_LINE in Hb2.
  destruct (clean_dcache_ok (BOOT_DATA Y + cpu * SIZEOF_BootDataCell) SIZEOF_SecondaryBootData) as (lines & -> & _);
    [unfold SIZEOF_BootDataCell; unfold_layout; lia|done|unfold SIZEOF_BootDataCell, SIZEOF_SecondaryBootData, CACHE_LINE; lia|].
  cbn [obind]. rewrite Ectx. cbn [obind]. unfold entry_addr. rewrite image_va_to_pa_ok by done. cbn [obind].
  unfold smp_cpu_on, Psci_cpu_on. destruct (Psci_raw_call _ _ _ _ _ _ _) as [code f'].
  destruct (Z.eqb_spec code 0) as [->|Hcode].
  - destruct (secondary_run_ok (set_fw (set_fw st3 f' (Some (delay (fw st3) m, (m, ctx)))) f' None) cpu m ctx
      (cpu_offset cpu) (frame_va b q + STACK_SIZE) root Hc) as (v & Erun & Hv); [|done| |].
    + rewrite Hslot. cbn [set_fw boot_data st3 set_boot_data]. apply idx_ok.
      apply getz_setz_eq. by rewrite (bu_slots _ _ _ _ B).
    + apply fn_lookup_insert.
    + erewrite (wait_for_ok (delay (fw st3) m) fuel cpu _ m ctx);
        [|apply Hdelay|done| |reflexivity|exact Erun|].
      * cbn [obind]. eexists _, None. split; [done|]. exists q.
        eapply (add_up primary root up st _ b b' m q B Hlen Hm Hb H); [reflexivity|exact Hl3|reflexivity|reflexivity|exact Hv|done|done].
      * cbn. rewrite (bu_online _ _ _ _ B) by done. apply Z.leb_gt. unfold cpu. lia.
      * cbn. rewrite Hv by lia. by rewrite Z.eqb_refl.
  - eexists _, _. split; [done|]. split; [|split; [done|by exists code]].
    eapply (keep_up primary root up st); [done| |done|reflexivity|right; by exists q].
    by eapply prepared_untouched.
Qed.

(** The mpidrs the loop starts CPUs for. *)
Definition secondaries (primary : Z) (ids : list Z) : list Z :=
  filter (fun m => m <> primary) (Mpidr_new <$> ids).

(** What bring-up ends with: a prefix [up] of the wanted CPUs runs, all of them if
    it succeeded, and otherwise the reason is the allocator's or the firmware's. *)
Definition loop_result (primary root : Z) (up : list (Z * Z)) (todo : list Z) st' (r : option BringUpError) : Prop :=
  exists more rest, brought_up primary root (up ++ more) st' /\ todo = more.*1 ++ rest /\
  match r with
  | None => rest = []
  | Some OutOfMemory =>
      rest <> [] /\ exists b, smp_buddy st' = Some b /\ forall p k, meta b p = Some (Free, k) -> k < STACK_ORDER
  | Some (BringUpPsci m e) =>
      head rest = Some m /\ exists code, code <> 0 /\ e = PsciError_from_code code
  | Some TooManyCpus => False
  end.

Lemma bring_up_loop_ok fuel primary root psci ids : forall up st,
  (forall f x, (delay f x + 2 <= fuel)%nat) -> brought_up primary root up st ->
  NoDup (primary :: up.*1 ++ secondaries primary ids) -> lenz up + lenz (secondaries primary ids) < 64 ->
  exists st' r, bring_up_loop smccc delay offs Y fuel primary root psci ids (lenz up + 1) st = Ok (st', r) /\
                loop_result primary root up (secondaries primary ids) st' r.
Proof.
  induction ids as [|id ids IH]; intros up st Hdelay B Hnd Hlen; cbn [bring_up_loop].
  - exists st, None. split; [done|]. exists [], []. by rewrite app_nil_r.
  - unfold secondaries in *. rewrite fmap_cons, filter_cons in *.
    destruct (Z.eqb_spec (Mpidr_new id) primary) as [Heq|Hne].
    + rewrite decide_False in * by (intros Hn; by apply Hn). by apply IH.
    + rewrite decide_True in * by done. set (m := Mpidr_new id) in *. set (todo := filter _ _) in *.
      assert (lenz (m :: todo) = lenz todo + 1) as Hl by (unfold lenz; simpl; lia).
      assert (0 <= lenz todo /\ 0 <= lenz up) by (unfold lenz; lia).
      destruct (Z.leb_spec MAX_CPUS (lenz up + 1)); [unfold MAX_CPUS in *; lia|].
      destruct (bring_up_one_ok fuel primary root psci up st m Hdelay B) as (st1 & r & -> & Hr); [lia|..].
      { intros Hin. apply list.NoDup_cons in Hnd as [Hp Hnd]. apply elem_of_cons in Hin as [|Hin]; [done|].
        apply list.NoDup_app in Hnd as (_ & Hd & _). apply (Hd m Hin). by left. }
      cbn [obind]. destruct r as [[|m' e|]|]; [done| | |].
      * destruct Hr as (B1 & -> & Hcode). exists st1, (Some (BringUpPsci m e)). split; [done|].
        exists [], (m :: todo). rewrite app_nil_r. done.
      * destruct Hr as (B1 & Hn). exists st1, (Some OutOfMemory). split; [done|].
        exists [], (m :: todo). rewrite app_nil_r. done.
      * destruct Hr as (q & B1). rewrite uadd_ok by lia. cbn [obind].
        replace (lenz up + 1) with (lenz (up ++ [(m, q)])) by apply lenz_snoc.
        destruct (IH _ _ Hdelay B1) as (st' & r & -> & more & rest & B' & Ht & Hrest).
        { rewrite fmap_app. simpl. by rewrite <- app_assoc. }
        { rewrite lenz_snoc. lia. }
        exists st', r. split; [done|]. exists ((m, q) :: more), rest. rewrite <- app_assoc in B'.
        split; [done|]. split; [|done]. simpl. by rewrite Ht.
Qed.

(** The primary's own entry. *)
Lemma bring_up_start st primary root b :
  smp_buddy st = Some b -> placed b -> waking st = None -> lenz (boot_data st) = MAX_CPUS ->
  CPU_ONLINE st = 0 -> smp_console st = con ->
  exists st', (let! st := init_cpu offs Y CpuId_PRIMARY primary st in
               let! st := install_current offs primary CpuId_PRIMARY st in
               mark_online CpuId_PRIMARY st) = Ok st' /\
              brought_up primary root [] st'.
Proof.
  intros Hb Hpl Hw Hlen Hon Hcon. destruct (cpu_pointers 0) as (Eo & Ep & _); [done|].
  unfold init_cpu, install_current, CpuId_PRIMARY. rewrite Ep. cbn [obind]. rewrite Eo. cbn [obind].
  set (st2 := set_regs _ _). destruct (mark_online_ok 0 st2) as (v & -> & Hv); [done|].
  eexists. split; [done|]. split; cbn [CPU_ONLINE set_online]; [done| |done|done|by rewrite app_nil_r| | | |].
  - intros c Hc. rewrite Hv by lia. cbn [CPU_ONLINE st2 set_regs set_cpu_data]. rewrite Hon, Z.bits_0, orb_false_r.
    change (lenz []) with 0. destruct (Z.eqb_spec c 0), (Z.leb_spec c 0); done || lia.
  - cbn. by rewrite !fn_lookup_insert.
  - repeat constructor. by intros ?%elem_of_nil.
  - constructor.
  - exists b. split_and!; [done..|]. intros i m p. unfold getz. by destruct (0 <=? i).
Qed.
Lemma bring_up_all_ok fuel current root psci ids b st :
  (forall f x, (delay f x + 2 <= fuel)%nat) ->
  smp_buddy st = Some b -> placed b -> waking st = None -> lenz (boot_data st) = MAX_CPUS -> CPU_ONLINE st = 0 ->
  smp_console st = con -> NoDup (secondaries (Mpidr_new current) ids) -> lenz (secondaries (Mpidr_new current) ids) < 64 ->
  exists st' r, bring_up_all smccc delay offs Y fuel current root psci ids st = Ok (st', r) /\
    loop_result (Mpidr_new current) root [] (secondaries (Mpidr_new current) ids) st' r.
Proof.
  intros Hdelay Hb Hpl Hw Hslots Hon Hcon Hnd Hlen. set (primary := Mpidr_new current) in *.
  destruct (bring_up_start st primary root b Hb Hpl Hw Hslots Hon Hcon) as (st1 & E1 & B1).
  destruct (bring_up_loop_ok fuel primary root psci ids [] st1 Hdelay B1) as (st' & r & E2 & Hr).
  { simpl. apply list.NoDup_cons. split; [|done]. unfold secondaries. rewrite list_elem_of_filter. tauto. }
  { unfold lenz in *. simpl. lia. }
  exists st', r. split; [|done]. unfold bring_up_all. fold primary. change (lenz [] + 1) with 1 in E2. rewrite <- E2.
  apply obind_Ok_inv in E1 as (s1 & -> & E1). apply obind_Ok_inv in E1 as (s2 & E1 & E3).
  cbn [obind]. rewrite E1. cbn [obind]. by rewrite E3.
Qed.

(* ------------------------------------------------------------------------- *)
(** ** What bring-up takes from the allocator *)

(** Every block that [BUDDY] gave up was handed out. *)
Definition smp_drawn st st' : Prop :=
  forall b, smp_buddy st = Some b -> placed b -> exists b', smp_buddy st' = Some b' /\ placed b' /\ drawn b b'.

#[export] Instance smp_drawn_preorder : PreOrder smp_drawn.
Proof.
  split.
  - intros st b Hb Hpl. exists b. by split_and!.
  - intros x y z Hxy Hyz b Hb Hpl. destruct (Hxy b Hb Hpl) as (b1 & Hb1 & Hpl1 & D1).
    destruct (Hyz b1 Hb1 Hpl1) as (b2 & Hb2 & Hpl2 & D2). exists b2. split_and!; [done..|by etrans].
Qed.

Lemma smp_drawn_same st st' : smp_buddy st' = smp_buddy st -> smp_drawn st st'.
Proof. intros E' b Hb Hpl. exists b. split_and!; [congruence|done|done]. Qed.

(** Take an equation [... = Ok st'] apart. *)
Ltac invert_ok H :=
  repeat match type of H with
  | obind _ _ = Ok _ => let x := fresh "x" in let Hx := fresh "Hx" in apply obind_Ok_inv in H as (x & Hx & H)
  | (let '(_, _) := ?p in _) = Ok _ => destruct p as [? ?]
  | Ok _ = Ok _ => injection H as H
  end.

Lemma env_step_buddy st st' : env_step Y st = Ok st' -> smp_buddy st' = smp_buddy st.
Proof.
  unfold env_step, secondary_run, mark_online. destruct (waking st) as [[[|n] [self ctx]]|]; intros H.
  - invert_ok H. by subst.
  - injection H as <-. done.
  - by injection H as <-.
Qed.

Lemma wait_for_buddy fuel cpu : forall st st', wait_for Y fuel cpu st = Ok st' -> smp_buddy st' = smp_buddy st.
Proof.
  unfold wait_for. induction fuel as [|fuel IH]; intros st st'; cbn [loop]; [done|].
  intros H. apply obind_Ok_inv in H as (r & Hr & H). unfold wait_step in Hr.
  apply obind_Ok_inv in Hr as (on & _ & Hr). destruct on.
  - injection Hr as <-. by injection H as <-.
  - apply obind_Ok_inv in Hr as (st1 & H1 & Hr). injection Hr as <-.
    rewrite (IH _ _ H). by apply env_step_buddy.
Qed.

Lemma alloc_stack_drawn st r st' : alloc_stack st = Ok (r, st') -> smp_drawn st st'.
Proof.
  intros H b Hb Hpl. destruct (alloc_stack_ok st b Hb Hpl) as [(p & b' & E' & Hd)|[E' _]];
    rewrite E' in H; injection H as <- <-; eexists; (split_and!; [done|..]); try done.
  - by eapply handed_out_placed.
  - by eapply handed_out_drawn.
Qed.

Lemma bring_up_one_drawn fuel root psci cpu mpidr st st' r :
  bring_up_one smccc delay offs Y fuel root psci cpu mpidr st = Ok (st', r) -> smp_drawn st st'.
Proof.
  unfold bring_up_one, init_cpu. intros H. apply obind_Ok_inv in H as (st1 & H1 & H). invert_ok H1. subst st1.
  apply obind_Ok_inv in H as ([stack st2] & H2 & H).
  etrans; [|etrans; [by eapply alloc_stack_drawn|]]; [by apply smp_drawn_same|]. apply smp_drawn_same.
  destruct stack as [top|]; [|by injection H as <- _].
  apply obind_Ok_inv in H as ([bd st3] & H3 & H). unfold prepare_boot_data in H3. invert_ok H3.
  assert (smp_buddy st3 = smp_buddy st2) as Eb by (by subst). clear H3.
  do 3 (apply obind_Ok_inv in H as (? & _ & H)). unfold smp_cpu_on in H.
  destruct (Psci_cpu_on _ _ _ _ _ _) as [[u|e] f].
  - apply obind_Ok_inv in H as (st4 & H4 & H). injection H as <- _.
    by rewrite (wait_for_buddy _ _ _ _ H4).
  - by injection H as <- _.
Qed.

Lemma bring_up_loop_drawn fuel primary root psci ids : forall next st st' r,
  bring_up_loop smccc delay offs Y fuel primary root psci ids next st = Ok (st', r) -> smp_drawn st st'.
Proof.
  induction ids as [|id ids IH]; intros next st st' r; cbn [bring_up_loop]; [by intros [= <- _]|].
  destruct (_ =? _); [apply IH|]. destruct (_ <=? _); [by intros [= <- _]|]. intros H.
  apply obind_Ok_inv in H as ([st1 e] & H1%bring_up_one_drawn & H). destruct e; [by injection H as <- _|].
  apply obind_Ok_inv in H as (next' & _ & H). etrans; [exact H1|by eapply IH].
Qed.

Lemma bring_up_all_drawn fuel current root psci ids st st' r :
  bring_up_all smccc delay offs Y fuel current root psci ids st = Ok (st', r) -> smp_drawn st st'.
Proof.
  unfold bring_up_all, init_cpu, install_current, mark_online. intros H.
  apply obind_Ok_inv in H as (s1 & H1 & H). apply obind_Ok_inv in H as (s2 & H2 & H).
  apply obind_Ok_inv in H as (s3 & H3 & H). etrans; [|by eapply bring_up_loop_drawn].
  apply smp_drawn_same. invert_ok H1. invert_ok H2. invert_ok H3. by subst.
Qed.
End smp_props.

(* ------------------------------------------------------------------------- *)
(** ** A two-CPU machine *)

(** Thirty-two free frames at [0x4000_0000]. *)
Definition stacks_fresh : BuddyAllocator :=
  Eval vm_compute in
    match BuddyAllocator_new (P := release_dev) (replicate 32 (mkPageInfo 0 0 0 0 Reserved 0)) 0x40000000 32 with
    | Ok a => a | Panic _ => mkBuddy [] 0 0 [] 0 end.
Definition stacks_demo : BuddyAllocator :=
  Eval vm_compute in
    match BuddyAllocator_free_range (P := release_dev) stacks_fresh 0 32 with
    | Ok a => a | Panic _ => mkBuddy [] 0 0 [] 0 end.

Lemma stacks_demo_placed : placed stacks_demo.
Proof.
  split; [|by vm_compute| |by vm_compute].
  - destruct (new_ok (P := release_dev) (replicate 32 (mkPageInfo 0 0 0 0 Reserved 0)) 0x40000000 32)
      as (a & E & W & H & _); [by vm_compute|by vm_compute|].
    assert (a = stacks_fresh) as -> by (vm_compute in E; by injection E).
    destruct (free_range_ok (P := release_dev) stacks_fresh 0 32 W) as (a' & E' & R);
      [by vm_compute..|by apply no_heads_clear|].
    assert (a' = stacks_demo) as -> by (vm_compute in E'; by injection E'). apply R.
  - exists (0x40000000 / 4096). reflexivity.
Qed.

Definition virt_offsets : list Z :=
  (fun c => area virt_percpu c - percpu_start virt_percpu) <$> seqZ 0 MAX_CPUS.

Lemma virt_percpu_ready : percpu_ready virt_percpu virt_offsets.
Proof.
  split; [apply virt_percpu_ok|vm_compute; congruence|reflexivity|].
  intros c Hc. unfold virt_offsets, getz. destruct (Z.leb_spec 0 c); [|lia].
  rewrite list_lookup_fmap, lookup_seqZ_lt by (unfold MAX_CPUS in *; lia).
  by replace (0 + Z.of_nat (Z.to_nat c)) with c by lia.
Qed.

Definition virt_symbols : SmpSymbols := mkSmpSymbols 0x4008D000 0xFFFFFFFF80130000 0xFFFFFFFF80101000 0x40081000.

Lemma virt_env_ok : smp_env_ok virt_percpu virt_offsets virt_symbols.
Proof. split; [apply virt_percpu_ready|vm_compute; intuition congruence..]. Qed.

(** Firmware that accepts every call, and starts CPUs after three polls. *)
Definition agreeable : Method -> Z -> Z -> Z -> Z -> unit -> Z * unit := fun _ _ _ _ _ f => (0, f).
Definition virt_smp : SmpState unit :=
  mkSmpState 0 (fun _ => mkCpuData 0 0) (replicate 128 (mkBootData 0 0 0)) (Some stacks_demo)
    (fun _ => mkCpuRegs 0 0 0 0 0) tt None [].

(* ------------------------------------------------------------------------- *)
(** ** Properties *)

(** C21: [bring_up_all].  With fewer than 64 secondaries it never panics and always
    returns, whatever the firmware answers.  The CPUs it started are a prefix of the
    device tree's; it reports success exactly when that is all of them, and
    otherwise that no stack could be allocated or the firmware's code for the next
    CPU.  Each CPU started is online, finds its own index and [Mpidr] through its own
    per-CPU area, runs on the primary's tables, and no two share stack bytes; and the
    console shows one line for each, in the order in which they were started. *)
Theorem bring_up_all_correct {P : Profile} {FW} smccc delay L offs Y fuel current root psci ids b (st : SmpState FW) :
  smp_env_ok L offs Y -> (forall f x, (delay f x + 2 <= fuel)%nat) ->
  smp_buddy st = Some b -> placed b -> waking st = None -> lenz (boot_data st) = MAX_CPUS -> CPU_ONLINE st = 0 ->
  NoDup (secondaries (Mpidr_new current) ids) -> lenz (secondaries (Mpidr_new current) ids) < 64 ->
  exists st' r (up : list (Z * Z)) rest,
    bring_up_all smccc delay offs Y fuel current root psci ids st = Ok (st', r) /\
    secondaries (Mpidr_new current) ids = up.*1 ++ rest /\
    match r with
    | None => rest = []
    | Some OutOfMemory => rest <> [] /\ exists b', smp_buddy st' = Some b' /\
        forall p k, meta b' p = Some (Free, k) -> k < STACK_ORDER
    | Some (BringUpPsci m e) => head rest = Some m /\ exists code, code <> 0 /\ e = PsciError_from_code code
    | Some TooManyCpus => False
    end /\
    smp_console st' = smp_console st ++ online_lines up /\
    (forall c, 0 <= c < 64 -> is_online c st' = Ok (c <=? lenz up)) /\
    smp_current Y (Mpidr_new current) st' = Ok (mkCpuData 0 (Mpidr_new current)) /\
    (forall i m p, getz up i = Some (m, p) ->
       smp_current Y m st' = Ok (mkCpuData (i + 1) m) /\ ttbr1_el1 (regs st' m) = root) /\
    (forall i j m p n q, getz up i = Some (m, p) -> getz up j = Some (n, q) -> i <> j ->
       sp_el1 (regs st' m) <= sp_el1 (regs st' n) - STACK_SIZE \/
       sp_el1 (regs st' n) <= sp_el1 (regs st' m) - STACK_SIZE).
Proof.
  intros E Hdelay Hb Hpl Hw Hslots Hon Hnd Hlen. set (primary := Mpidr_new current) in *.
  destruct (bring_up_all_ok smccc delay L offs Y (smp_console st) E fuel current root psci ids b st Hdelay Hb Hpl Hw Hslots Hon eq_refl Hnd Hlen)
    as (st' & r & E1 & up & rest & B & Hsec & Hr). fold primary in B, Hsec.
  cbn [app] in B. exists st', r, up, rest. split_and!; [exact E1|done|done|apply B|..].
  - intros c Hc. rewrite is_online_ok by done. by rewrite (bu_online _ _ _ _ _ _ _ B).
  - destruct (bu_primary _ _ _ _ _ _ _ B) as [Ht Hd]. unfold smp_current. rewrite Ht.
    destruct (cpu_pointers L offs Y E 0) as (_ & _ & ->); [done|]. cbn [obind]. by rewrite Hd.
  - intros i m p Hi. destruct (bu_cpus _ _ _ _ _ _ _ B) as (b' & _ & _ & Hup).
    destruct (Hup i m p Hi) as [_ Hregs Hd]. pose proof (getz_Some_range _ _ _ Hi).
    pose proof (bu_len _ _ _ _ _ _ _ B). unfold smp_current. rewrite Hregs. cbn [tpidr_el1 ttbr1_el1].
    destruct (cpu_pointers L offs Y E (i + 1)) as (_ & _ & ->); [unfold MAX_CPUS; lia|]. cbn [obind]. by rewrite Hd.
  - intros i j m p n q Hi Hj Hij. destruct (bu_cpus _ _ _ _ _ _ _ B) as (b' & _ & Hpl' & Hup).
    destruct (Hup i m p Hi) as [Ha -> _]. destruct (Hup j n q Hj) as [Ha' -> _]. cbn [sp_el1].
    destruct (decide (p = q)) as [<-|Hne].
    + destruct Hij. eapply getz_snd_inj; [apply (bu_stacks _ _ _ _ _ _ _ B)|done..].
    + destruct (allocated_bytes_apart b' p _ q _ (pl_wf _ Hpl') Ha Ha' Hne) as [H|H];
        change (block_bytes STACK_ORDER) with STACK_SIZE in H; lia.
Qed.

Lemma bring_up_all_correct_witness :
  exists st', bring_up_all (P := release_dev) agreeable (fun _ _ => 3%nat) virt_offsets virt_symbols 5
      0x80000000 0x40200000 (mkPsci Hvc 0xC4000003) [0; 1] virt_smp = Ok (st', None) /\
    is_online (P := release_dev) 1 st' = Ok true.
Proof.
  destruct (bring_up_all_correct (P := release_dev) agreeable (fun _ _ => 3%nat) virt_percpu virt_offsets
    virt_symbols 5 0x80000000 0x40200000 (mkPsci Hvc 0xC4000003) [0; 1] stacks_demo virt_smp)
    as (st' & r & up & rest & E & Hsec & Hr & _ & Hon & _).
  - apply virt_env_ok.
  - intros _ _. lia.
  - reflexivity.
  - apply stacks_demo_placed.
  - reflexivity.
  - reflexivity.
  - reflexivity.
  - vm_compute. apply NoDup_singleton.
  - vm_compute. reflexivity.
  - assert (r = None) as ->.
    { apply (f_equal (fun o => match o with Ok (_, r) => r | Panic _ => Some TooManyCpus end)) in E.
      vm_compute in E. by rewrite E. }
    exists st'. split; [exact E|]. rewrite Hon by lia. subst rest. rewrite app_nil_r in Hsec.
    destruct up as [|x [|y up]]; vm_compute in Hsec; [discriminate Hsec|reflexivity|discriminate Hsec].
Defined.

(** The online bitmap is narrower than [MAX_CPUS]: index 64 passes the
    [TooManyCpus] guard, and then the checked profile panics on the shift, while the
    release profile tests bit 0, which the primary has set, so that [wait_for]
    returns at once for a CPU that never ran. *)
Theorem online_bitmap_too_small {FW} Y (st : SmpState FW) v :
  (MAX_CPUS <=? 64) = false /\
  is_online (P := release_dev) 64 st = Panic ArithOverflow /\
  mark_online (P := release_dev) 64 st = Panic ArithOverflow /\
  wait_for (P := release) Y 1 64 (set_online st (Z.lor v 1)) = Ok (set_online st (Z.lor v 1)).
Proof.
  split_and!; [done..|]. unfold wait_for. cbn [loop]. unfold wait_step, is_online.
  change (ushl (P := release) 64 1 64) with (Ok (A := Z) (2 ^ 0)). cbn [obind CPU_ONLINE set_online].
  rewrite land_bit by done. by rewrite Z.lor_spec, orb_true_r.
Qed.

(** The code an error stands for. *)
Definition PsciError_code (e : PsciError) : Z :=
  match e with
  | NotSupported => -1 | InvalidParameters => -2 | Denied => -3 | AlreadyOn => -4 | OnPending => -5
  | InternalFailure => -6 | NotPresent => -7 | Disabled => -8 | InvalidAddress => -9
  | UnknownCode c => c
  end.

Lemma PsciError_code_from code : PsciError_code (PsciError_from_code code) = code.
Proof.
  unfold PsciError_from_code.
  repeat match goal with |- context [code =? ?c] => destruct (Z.eqb_spec code c) as [->|]; [reflexivity|] end.
  reflexivity.
Qed.

(** [cpu_on] reports the firmware's answer without loss: success exactly for
    code 0, and otherwise an error from which the code can be read back. *)
Theorem cpu_on_lossless {FW} smccc psci mpidr entry ctx (f : FW) :
  match Psci_cpu_on smccc psci mpidr entry ctx f with
  | (inl _, f') => Psci_raw_call smccc psci (cpu_on_id psci) mpidr entry ctx f = (0, f')
  | (inr e, f') => Psci_raw_call smccc psci (cpu_on_id psci) mpidr entry ctx f = (PsciError_code e, f') /\
                   PsciError_code e <> 0
  end.
Proof.
  unfold Psci_cpu_on. destruct (Psci_raw_call _ _ _ _ _ _ _) as [code f'].
  destruct (Z.eqb_spec code 0) as [->|]; [done|]. by rewrite PsciError_code_from.
Qed.

(** [clean_dcache] cleans every byte of the range it is given, in whole lines,
    and no line outside it. *)
Theorem clean_dcache_covers {P : Profile} va len :
  0 <= va -> 0 <= len -> va + len + CACHE_LINE <= 2 ^ 64 ->
  exists lines, clean_dcache va len = Ok lines /\
    (forall x, va <= x < va + len -> exists l, l ∈ lines /\ l <= x < l + CACHE_LINE) /\
    (forall l, l ∈ lines -> (CACHE_LINE | l) /\ exists x, l <= x < l + CACHE_LINE /\ va <= x < va + Z.max 1 len).
Proof.
  intros H0 H1 H2. destruct (clean_dcache_ok va len H0 H1 H2) as (lines & E & Hin & Hall).
  exists lines. split_and!; [done|done|]. intros l Hl. destruct (Hall l Hl) as [Hd Hr]. split; [done|].
  exists (Z.max l va). unfold CACHE_LINE in *. lia.
Qed.

Lemma clean_dcache_covers_witness :
  clean_dcache (P := release_dev) 0x1070 24 = Ok [0x1040; 0x1080].
Proof.
  destruct (clean_dcache_covers (P := release_dev) 0x1070 24) as (lines & E & _); [lia|lia|unfold CACHE_LINE; lia|].
  rewrite E. vm_compute in E. by injection E as <-.
Defined.
