(* ===== verification/Locks.v ===== *)
(** * Locks that operations hold together: interleaving, order, completion

    The kernel's statics are each behind a [SpinLock], and its operations take one or
    two of them.  An operation is a [prog]: the locks it takes and drops, in order, and
    what it does to the data behind a guard it holds.  CPUs run sequences of operations
    interleaved in any order, one access at a time ([turn]); in the specification each
    operation is one step ([call_turn]).  An operation is [well_locked] when it drops
    no guard before it has taken all it needs and takes locks in the order of their
    ranks.  Then every interleaving refines the specification, no set of CPUs is ever
    stuck, and the calls all end. *)

From stdpp Require Import relations.
From Stdlib Require Import FunctionalExtensionality Eqdep_dec.
From S2P Require Import Prelude Sync.

(** The entry of a family updated at one index. *)
Section family.
Context {L : Type} `{EqDecision L} {F : L -> Type}.
Implicit Types g : forall l, F l.

Definition put g (l : L) (x : F l) : forall l, F l :=
  fun l' => match decide (l = l') with left e => eq_rect l F x l' e | right _ => g l' end.

Lemma put_eq g l x : put g l x l = x.
Proof.
  unfold put. destruct (decide (l = l)) as [e|]; [|done]. by rewrite <- eq_rect_eq_dec by solve_decision.
Qed.

Lemma put_ne g l x l' : l <> l' -> put g l x l' = g l'.
Proof. intros Hne. unfold put. by destruct (decide (l = l')). Qed.

Lemma put_id g l : put g l (g l) = g.
Proof.
  apply functional_extensionality_dep. intros l'. destruct (decide (l = l')) as [<-|]; [by rewrite put_eq|by rewrite put_ne].
Qed.

Lemma put_put g l x y : put (put g l x) l y = put g l y.
Proof.
  apply functional_extensionality_dep. intros l'. destruct (decide (l = l')) as [<-|]; [by rewrite !put_eq|by rewrite !put_ne].
Qed.
End family.

Section locks.
Context {L : Type} `{EqDecision L} (rank : L -> nat) {D : L -> Type}.

(** What the locks protect. *)
Local Abbreviation contents := (forall l, D l).

(* ------------------------------------------------------------------------- *)
(** ** Operations *)

(** [Fail] is a panic of code that uses no guard, [Acquire l] is [l.lock()], [Release l] the end of the guard's scope, and [Act l f] what
    the code does through the guard; [f] may panic. *)
Inductive prog (R : Type) : Type :=
  | Ret (r : R)
  | Fail (x : panic_reason)
  | Acquire (l : L) (k : prog R)
  | Release (l : L) (k : prog R)
  | Act (l : L) {B : Type} (f : D l -> outcome (B * D l)) (k : B -> prog R).
Arguments Ret {R} r.
Arguments Fail {R} x.
Arguments Acquire {R} l k.
Arguments Release {R} l k.
Arguments Act {R} l {B} f k.

(** The operation alone, from data that nobody else touches: how it ends, and what
    it leaves, also when it panics half way. *)
Fixpoint run {R} (p : prog R) (s : contents) : outcome R * contents :=
  match p with
  | Ret r => (Ok r, s)
  | Fail x => (Panic x, s)
  | Acquire _ p | Release _ p => run p s
  | Act l f k =>
      match f (s l) with
      | Ok (b, d) => run (k b) (put s l d)
      | Panic r => (Panic r, s)
      end
  end.

(** With the guards [held], in the growing phase or after the first drop. *)
Fixpoint well_locked {R} (held : list L) (growing : bool) (p : prog R) : Prop :=
  match p with
  | Ret _ => held = []
  | Fail _ => True
  | Acquire l p => growing = true /\ Forall (fun h => (rank h < rank l)%nat) held /\ well_locked (l :: held) true p
  | Release l p => l ∈ held /\ well_locked (filter (.≠ l) held) false p
  | Act l _ k => l ∈ held /\ forall b, well_locked held growing (k b)
  end.

(* ------------------------------------------------------------------------- *)
(** ** The machine *)

Context {Op : Type} {res : Op -> Type} (prog_of : forall o, prog (res o)).

(** What a CPU will call, each time knowing what it was given before. *)
Inductive client :=
  | Stop
  | Call (o : Op) (k : res o -> client).

(** A CPU between calls, inside one with its guards, or parked by a panic. *)
Inductive thread :=
  | Idle (k : client)
  | Inside (o : Op) (guards : list L) (p : prog (res o)) (k : res o -> client)
  | Dead (guards : list L) (r : panic_reason).

Definition guards (t : thread) : list L :=
  match t with Idle _ => [] | Inside _ g _ _ | Dead g _ => g end.

Record machine := mkMachine { locks : forall l, SpinLock (D l); threads : cpu -> thread }.

Definition initial (s : contents) (k : cpu -> client) : machine :=
  mkMachine (fun l => SpinLock_new (s l)) (fun c => Idle (k c)).

(** One access of CPU [c]; a failed turn of [lock]'s loop changes nothing. *)
Definition turn (c : cpu) (m : machine) : machine :=
  let go ls t := mkMachine ls (<[c := t]> (threads m)) in
  match threads m c with
  | Idle Stop | Dead _ _ => m
  | Idle (Call o k) => go (locks m) (Inside o [] (prog_of o) k)
  | Inside o g (Ret r) k => go (locks m) (Idle (k r))
  | Inside o g (Fail x) k => go (locks m) (Dead g x)
  | Inside o g (Acquire l p) k =>
      let '(old, s) := SpinLock_swap (locks m l) in
      go (put (locks m) l s) (if old then Inside o g (Acquire l p) k else Inside o (l :: g) p k)
  | Inside o g (Release l p) k => go (put (locks m) l (SpinLockGuard_drop (locks m l))) (Inside o (filter (.≠ l) g) p k)
  | Inside o g (Act l f q) k =>
      match f (data (locks m l)) with
      | Ok (b, d) => go (put (locks m) l (SpinLockGuard_deref_mut (locks m l) (fun _ => d))) (Inside o g (q b) k)
      | Panic r => go (locks m) (Dead g r)
      end
  end.

Definition step (m m' : machine) : Prop := exists c, m' = turn c m.

(** The specification: a whole call at once. *)
Record calls := mkCalls { state_of : contents; clients : cpu -> client + panic_reason }.

Definition next_client {R} (k : R -> client) (r : outcome R) : client + panic_reason :=
  match r with Ok r => inl (k r) | Panic x => inr x end.

Definition call_turn (c : cpu) (a : calls) : calls :=
  match clients a c with
  | inl (Call o k) =>
      let '(r, s) := run (prog_of o) (state_of a) in
      mkCalls s (<[c := next_client k r]> (clients a))
  | _ => a
  end.

Definition call_step (a a' : calls) : Prop := exists c, a' = call_turn c a.
Definition calls_initial (s : contents) (k : cpu -> client) : calls := mkCalls s (fun c => inl (k c)).

(* ------------------------------------------------------------------------- *)
(** ** Operations touch what they hold *)

(** [g]'s part of [s], the rest of [t]. *)
Definition overlay (g : list L) (s t : contents) : contents :=
  fun l => if decide (l ∈ g) then s l else t l.

Definition agree (g : list L) (s t : contents) : Prop := forall l, l ∈ g -> s l = t l.

Lemma overlay_in g s t l : l ∈ g -> overlay g s t l = s l.
Proof. intros H. unfold overlay. by rewrite decide_True. Qed.
Lemma overlay_out g s t l : l ∉ g -> overlay g s t l = t l.
Proof. intros H. unfold overlay. by rewrite decide_False. Qed.

Lemma overlay_agree g s s' t : agree g s s' -> overlay g s t = overlay g s' t.
Proof.
  intros H. apply functional_extensionality_dep. intros l. unfold overlay. destruct (decide _); [by apply H|done].
Qed.

Lemma overlay_nil s t : overlay [] s t = t.
Proof. apply functional_extensionality_dep. intros l. apply overlay_out. by intros ?%elem_of_nil. Qed.

(** A lock just taken holds what it held before. *)
Lemma overlay_take g l s t : s l = t l -> overlay (l :: g) s t = overlay g s t.
Proof.
  intros H. apply functional_extensionality_dep. intros l'. unfold overlay.
  destruct (decide (l' ∈ l :: g)) as [Hin|Hn]; destruct (decide (l' ∈ g)) as [Hg|Hg]; try done; [|set_solver].
  apply elem_of_cons in Hin as [->|]; done.
Qed.

Lemma overlay_put g l s t x : l ∈ g -> put (overlay g s t) l x = overlay g (put s l x) t.
Proof.
  intros H. apply functional_extensionality_dep. intros l'. destruct (decide (l = l')) as [<-|Hne].
  - by rewrite overlay_in, !put_eq.
  - rewrite put_ne by done. unfold overlay. by rewrite put_ne.
Qed.

Lemma elem_of_dropped (g : list L) l l' : l' ∈ filter (.≠ l) g <-> l' <> l /\ l' ∈ g.
Proof. by rewrite list_elem_of_filter. Qed.

Lemma agree_put g s s' l x : agree g s s' -> agree g (put s l x) (put s' l x).
Proof.
  intros Ha l' Hl. destruct (decide (l = l')) as [<-|]; [by rewrite !put_eq|]. rewrite !put_ne by done. by apply Ha.
Qed.

(** In the shrinking phase the rest of an operation changes what it holds only ... *)
Lemma run_frame {R} (p : prog R) g s r t l :
  well_locked g false p -> run p s = (r, t) -> l ∉ g -> t l = s l.
Proof.
  revert g s. induction p as [r'|x|l' p IH|l' p IH|l' B f k IH]; intros g s; simpl.
  - by intros _ [= _ <-].
  - by intros _ [= _ <-].
  - by intros [? _].
  - intros [_ Hw] E Hl. eapply IH; [exact Hw|exact E|]. rewrite elem_of_dropped. tauto.
  - intros [Hg Hw] E Hl. destruct (f (s l')) as [[b d]|]; [|by injection E as _ <-].
    rewrite (IH b _ _ (Hw b) E Hl). apply put_ne. by intros ->.
Qed.

(** ... and depends on it only. *)
Lemma run_local {R} (p : prog R) g s s' r t :
  well_locked g false p -> run p s = (r, t) -> agree g s s' ->
  exists t', run p s' = (r, t') /\ agree g t t'.
Proof.
  revert g s s'. induction p as [r'|x|l p IH|l p IH|l B f k IH]; intros g s s'; simpl.
  - intros _ [= <- <-] Ha. eauto.
  - intros _ [= <- <-] Ha. eauto.
  - by intros [? _].
  - intros [Hl Hw] E Ha. destruct (IH (filter (.≠ l) g) s s' Hw E) as (t' & E' & Ht).
    { intros l' [_ ?]%elem_of_dropped. by apply Ha. }
    exists t'. split; [done|]. intros l' Hl'. destruct (decide (l' = l)) as [->|Hne].
    + assert (l ∉ filter (.≠ l) g) by (rewrite elem_of_dropped; tauto).
      rewrite (run_frame _ _ _ _ _ l Hw E), (run_frame _ _ _ _ _ l Hw E') by done. by apply Ha.
    + by apply Ht, elem_of_dropped.
  - intros [Hl Hw] E Ha. rewrite <- (Ha l Hl). destruct (f (s l)) as [[b d]|].
    + eapply IH; [apply Hw|exact E|by apply agree_put].
    + injection E as <- <-. eauto.
Qed.

(** The operation never uses [l]'s guard, and so leaves what [l] protects. *)
Fixpoint avoids {R} (l : L) (p : prog R) : Prop :=
  match p with
  | Ret _ | Fail _ => True
  | Acquire _ p | Release _ p => avoids l p
  | Act l' _ k => l' <> l /\ forall b, avoids l (k b)
  end.

Lemma run_avoids {R} (p : prog R) l s : avoids l p -> (run p s).2 l = s l.
Proof.
  revert s. induction p as [r|x|l' p IH|l' p IH|l' B f k IH]; intros s; simpl; auto. intros [Hne Hk].
  destruct (f (s l')) as [[b d]|]; [|done]. rewrite IH by done. by apply put_ne.
Qed.

(* ------------------------------------------------------------------------- *)
(** ** The simulation *)

Definition shared (m : machine) : contents := fun l => data (locks m l).

(** Each lock is up while somebody holds its guard, and one CPU holds it. *)
Record guarded (m : machine) : Prop := {
  gd_up l : locked (locks m l) = true <-> exists c, l ∈ guards (threads m c);
  gd_one l c c' : l ∈ guards (threads m c) -> l ∈ guards (threads m c') -> c = c';
}.

(** CPU's place against the specification's: an operation that still takes locks has
    not happened there, and what it did to what it holds is a prefix of the whole; one
    that has dropped a lock has happened, and what it holds will be what it left. *)
Definition place_ok (s t : contents) (x : thread) (y : client + panic_reason) : Prop :=
  match x with
  | Idle k => y = inl k
  | Inside o g p k =>
      (well_locked g true p /\ y = inl (Call o k) /\
       forall t', agree g t' t -> run (prog_of o) t' = run p (overlay g s t')) \/
      (well_locked g false p /\ exists r t', y = next_client k r /\ run p s = (r, t') /\ agree g t' t)
  | Dead _ r => y = inr r
  end.

Record simulates (m : machine) (a : calls) : Prop := {
  sm_guarded : guarded m;
  sm_free l : locked (locks m l) = false -> shared m l = state_of a l;
  sm_places c : place_ok (shared m) (state_of a) (threads m c) (clients a c);
}.

(** What others do leaves a CPU's place as it was. *)
Lemma place_frame s s' t t' x y :
  agree (guards x) s s' -> agree (guards x) t t' -> place_ok s t x y -> place_ok s' t' x y.
Proof.
  destruct x as [k|o g p k|g r]; simpl; [done| |done]. intros Hs Ht [(Hw & -> & Hr)|(Hw & r & t1 & -> & E & Ha)].
  - left. split_and!; [done..|]. intros t1 Ha. rewrite (Hr t1), (overlay_agree g s s' t1 Hs); [done|].
    intros l Hl. rewrite Ht by done. by apply Ha.
  - right. split; [done|]. destruct (run_local p g s s' r t1 Hw E Hs) as (t2 & E2 & Ha2).
    exists r, t2. split_and!; [done..|]. intros l Hl. rewrite <- Ha2, <- Ht by done. by apply Ha.
Qed.

Lemma simulates_initial s k : simulates (initial s k) (calls_initial s k).
Proof.
  split; [split| |]; cbn.
  - intros l. split; [done|]. by intros [c ?%elem_of_nil].
  - by intros l c c' ?%elem_of_nil.
  - done.
  - done.
Qed.

(** CPU [c] goes from [threads m c] to [t], leaving the locks at [ls]. *)
Record moves (m : machine) (a : calls) (c : cpu) (ls : forall l, SpinLock (D l)) (t : thread) (s : contents)
    (y : client + panic_reason) : Prop := {
  mv_others l : l ∉ guards (threads m c) -> l ∉ guards t -> ls l = locks m l;
  mv_taken l : l ∈ guards t -> l ∉ guards (threads m c) -> locked (locks m l) = false;
  mv_held l : l ∈ guards t -> locked (ls l) = true;
  mv_dropped l : l ∈ guards (threads m c) -> l ∉ guards t -> locked (ls l) = false /\ data (ls l) = s l;
  mv_state l : l ∉ guards (threads m c) -> s l = state_of a l;
  mv_place : place_ok (fun l => data (ls l)) s t y;
}.

Lemma simulates_move m a c ls t s y :
  simulates m a -> moves m a c ls t s y ->
  simulates (mkMachine ls (<[c := t]> (threads m))) (mkCalls s (<[c := y]> (clients a))).
Proof.
  intros [[Hup Hone] Hfree Hpl] [Ho Ht Hh Hd Hs Hp].
  assert (forall l c', c' <> c -> l ∈ guards (threads m c') -> (l ∉ guards (threads m c)) /\ (l ∉ guards t)) as Hex.
  { intros l c' Hne Hl. split; [intros H; by apply Hne, (Hone l)|]. intros H.
    destruct (decide (l ∈ guards (threads m c))) as [H'|H']; [by apply Hne, (Hone l)|].
    pose proof (Ht l H H') as E. assert (locked (locks m l) = true) by (apply Hup; by exists c'). congruence. }
  split; [split| |]; cbn [locks threads state_of clients].
  - intros l. split.
    + intros Hl. destruct (decide (l ∈ guards t)) as [H|H]; [exists c; by rewrite fn_lookup_insert|].
      destruct (decide (l ∈ guards (threads m c))) as [H'|H']; [destruct (Hd l H' H); congruence|].
      rewrite (Ho l H' H) in Hl. apply Hup in Hl as [c' Hc']. exists c'.
      rewrite fn_lookup_insert_ne; [done|]. by intros <-.
    + intros [c' Hc']. destruct (decide (c = c')) as [<-|Hne].
      * rewrite fn_lookup_insert in Hc'. by apply Hh.
      * rewrite fn_lookup_insert_ne in Hc' by done. destruct (Hex l c') as [H H']; [done..|].
        rewrite (Ho l H H'). apply Hup. by exists c'.
  - intros l c1 c2. destruct (decide (c = c1)) as [<-|H1], (decide (c = c2)) as [<-|H2];
      rewrite ?fn_lookup_insert, ?fn_lookup_insert_ne by done; [done| | |apply Hone].
    + intros Hl Hl'. by destruct (Hex l c2) as [_ ?].
    + intros Hl Hl'. by destruct (Hex l c1) as [_ ?].
  - intros l Hl. unfold shared. cbn [locks]. destruct (decide (l ∈ guards t)) as [H|H]; [rewrite Hh in Hl by done; done|].
    destruct (decide (l ∈ guards (threads m c))) as [H'|H']; [by apply Hd|].
    rewrite (Ho l H' H) in *. rewrite Hs by done. by apply Hfree.
  - intros c'. destruct (decide (c = c')) as [<-|Hne]; [by rewrite !fn_lookup_insert|].
    rewrite !fn_lookup_insert_ne by done. eapply place_frame; [| |apply Hpl].
    + intros l Hl. destruct (Hex l c') as [H H']; [done..|]. unfold shared. cbn [locks]. by rewrite Ho.
    + intros l Hl. destruct (Hex l c') as [H H']; [done..|]. by rewrite Hs.
Qed.

Lemma calls_same (a : calls) c : mkCalls (state_of a) (<[c := clients a c]> (clients a)) = a.
Proof.
  destruct a as [s k]. cbn. f_equal. apply functional_extensionality_dep. intros c'.
  destruct (decide (c = c')) as [<-|]; [by rewrite fn_lookup_insert|by rewrite fn_lookup_insert_ne].
Qed.

(** A move that the specification does not see. *)
Lemma simulates_quiet m a c ls t :
  simulates m a -> moves m a c ls t (state_of a) (clients a c) ->
  exists a', rtc call_step a a' /\ simulates (mkMachine ls (<[c := t]> (threads m))) a'.
Proof.
  intros S M. exists a. split; [done|]. rewrite <- (calls_same a c). by apply simulates_move.
Qed.

(** A move in which the call happens. *)
Lemma simulates_commit m a c ls t s y :
  simulates m a -> moves m a c ls t s y -> call_turn c a = mkCalls s (<[c := y]> (clients a)) ->
  exists a', rtc call_step a a' /\ simulates (mkMachine ls (<[c := t]> (threads m))) a'.
Proof.
  intros S M E. eexists. split; [apply rtc_once; exists c; symmetry; exact E|]. by apply simulates_move.
Qed.

Hypothesis progs_ok : forall o, well_locked [] true (prog_of o).

(** The moves that leave the set of guards as it is. *)
Lemma moves_inside m a c ls t s y :
  guarded m -> guards t = guards (threads m c) ->
  (forall l, locked (ls l) = locked (locks m l)) -> (forall l, l ∉ guards t -> ls l = locks m l) ->
  (forall l, l ∉ guards t -> s l = state_of a l) -> place_ok (fun l => data (ls l)) s t y ->
  moves m a c ls t s y.
Proof.
  intros [Hup _] Eg Hl Ho Hs Hp. split; rewrite <- ?Eg; intros *; try done; [by intros; apply Ho| |by intros; apply Hs].
  intros Hin. rewrite Hl. apply Hup. exists c. by rewrite <- Eg.
Qed.

Lemma turn_acquire m a c o g l p k :
  simulates m a -> threads m c = Inside o g (Acquire l p) k ->
  exists a', rtc call_step a a' /\ simulates (turn c m) a'.
Proof.
  intros S Et. pose proof (sm_places _ _ S c) as Hp. rewrite Et in Hp. destruct Hp as [(Hw & Ey & Hr)|([? _] & _)]; [|done].
  destruct Hw as (_ & _ & Hw). unfold turn. rewrite Et. unfold SpinLock_swap.
  destruct (locked (locks m l)) eqn:El.
  - replace (mkSpinLock true (data (locks m l))) with (locks m l) by (destruct (locks m l); cbn in *; congruence).
    rewrite put_id. apply simulates_quiet; [done|]. apply moves_inside; rewrite ?Et; try done; [apply S|].
    rewrite <- Et. apply (sm_places _ _ S).
  - assert (l ∉ g) as Hn.
    { intros Hin. assert (locked (locks m l) = true); [|congruence]. apply (gd_up _ (sm_guarded _ _ S)). exists c. by rewrite Et. }
    apply simulates_quiet; [done|].
    assert (forall l', data (put (locks m) l (mkSpinLock true (data (locks m l))) l') = shared m l') as Hd.
    { intros l'. destruct (decide (l = l')) as [<-|]; [by rewrite put_eq|by rewrite put_ne]. }
    split; rewrite ?Et; cbn [guards].
    + intros l' _ H. rewrite put_ne; [done|]. intros ->. by apply H, list_elem_of_here.
    + intros l' [->|]%elem_of_cons; [done|done].
    + intros l' [->|Hin]%elem_of_cons; [by rewrite put_eq|]. rewrite put_ne by (by intros ->).
      apply (gd_up _ (sm_guarded _ _ S)). exists c. by rewrite Et.
    + intros l' H H'. destruct H'. by apply list_elem_of_further.
    + done.
    + cbn [place_ok]. left. split_and!; [done..|]. intros t' Ha. rewrite Hr by (intros l' Hl'; apply Ha; by right).
      simpl. f_equal. rewrite overlay_take.
      * apply overlay_agree. intros l' _. by rewrite Hd.
      * rewrite Hd, (sm_free _ _ S) by done. symmetry. apply Ha. by left.
Qed.

(** Where the call happens: the operation from the specification's state leaves the
    held data as the machine has it. *)
Lemma call_happens m a c o g p k r s :
  simulates m a -> threads m c = Inside o g p k -> clients a c = inl (Call o k) ->
  (forall t, agree g t (state_of a) -> run (prog_of o) t = run p (overlay g (shared m) t)) ->
  run p (overlay g (shared m) (state_of a)) = (r, s) ->
  call_turn c a = mkCalls s (<[c := next_client k r]> (clients a)).
Proof. intros S Et Ey Hr E. unfold call_turn. by rewrite Ey, Hr, E. Qed.

Lemma release_moves m c o g l p k a s y :
  guarded m -> threads m c = Inside o g (Release l p) k -> l ∈ g ->
  (forall l', l' ∉ g -> s l' = state_of a l') -> s l = shared m l ->
  place_ok (shared m) s (Inside o (filter (.≠ l) g) p k) y ->
  moves m a c (put (locks m) l (SpinLockGuard_drop (locks m l))) (Inside o (filter (.≠ l) g) p k) s y.
Proof.
  intros [Hup _] Et Hl Hs Hsl Hp. split; rewrite ?Et; cbn [guards].
  - intros l' Hn _. rewrite put_ne; [done|]. by intros <-.
  - intros l' [_ ?]%elem_of_dropped. done.
  - intros l' [Hne Hin]%elem_of_dropped. rewrite put_ne by done. apply Hup. exists c. by rewrite Et.
  - intros l' Hin Hn. rewrite elem_of_dropped in Hn. assert (l' = l) as -> by (apply dec_stable; tauto). by rewrite put_eq.
  - done.
  - eapply place_frame; [|intros ? _; reflexivity|exact Hp]. intros l' [Hne _]%elem_of_dropped. by rewrite put_ne.
Qed.

Lemma turn_release m a c o g l p k :
  simulates m a -> threads m c = Inside o g (Release l p) k ->
  exists a', rtc call_step a a' /\ simulates (turn c m) a'.
Proof.
  intros S Et. pose proof (sm_places _ _ S c) as Hp. rewrite Et in Hp. unfold turn. rewrite Et.
  assert (l ∉ filter (.≠ l) g) as Hout by (rewrite elem_of_dropped; tauto).
  destruct Hp as [((Hl & Hw) & Ey & Hr)|((Hl & Hw) & r & t & Ey & E & Ha)].
  - destruct (run p (overlay g (shared m) (state_of a))) as [r s] eqn:E.
    destruct (run_local p _ _ (shared m) r s Hw E) as (s' & E' & Hs').
    { intros l' [_ ?]%elem_of_dropped. by apply overlay_in. }
    eapply simulates_commit; [done| |by eapply call_happens].
    apply release_moves; [apply S|done..| | |].
    + intros l' Hn. rewrite (run_frame _ _ _ _ _ l' Hw E); [by apply overlay_out|]. rewrite elem_of_dropped. tauto.
    + rewrite (run_frame _ _ _ _ _ l Hw E); [by apply overlay_in|done].
    + right. split; [done|]. exists r, s'. split_and!; [done..|]. intros l' Hl'. symmetry. by apply Hs'.
  - apply simulates_quiet; [done|]. apply release_moves; [apply S|done..| |].
    + rewrite <- Ha by done. by apply (run_frame p (filter (.≠ l) g) (shared m) r).
    + right. split; [done|]. exists r, t. split_and!; [done..|]. intros l' [_ ?]%elem_of_dropped. by apply Ha.
Qed.

(** The held datum of [l] becomes [d]. *)
Lemma act_moves m c o g l {B} (f : D l -> outcome (B * D l)) p q k a d y :
  guarded m -> threads m c = Inside o g q k -> l ∈ g ->
  place_ok (put (shared m) l d) (state_of a) (Inside o g p k) y ->
  moves m a c (put (locks m) l (SpinLockGuard_deref_mut (locks m l) (fun _ => d))) (Inside o g p k) (state_of a) y.
Proof.
  intros G Et Hl Hp. apply moves_inside; rewrite ?Et; try done.
  - intros l'. destruct (decide (l = l')) as [<-|]; [by rewrite put_eq|by rewrite put_ne].
  - intros l' Hn. rewrite put_ne; [done|]. by intros <-.
  - eapply place_frame; [|intros ? _; reflexivity|exact Hp]. intros l' _.
    destruct (decide (l = l')) as [<-|]; [by rewrite !put_eq|by rewrite !put_ne].
Qed.

Lemma turn_act m a c o g l {B} (f : D l -> outcome (B * D l)) q k :
  simulates m a -> threads m c = Inside o g (Act l f q) k ->
  exists a', rtc call_step a a' /\ simulates (turn c m) a'.
Proof.
  intros S Et. pose proof (sm_places _ _ S c) as Hp. rewrite Et in Hp. unfold turn. rewrite Et.
  destruct Hp as [((Hl & Hw) & Ey & Hr)|((Hl & Hw) & r & t & Ey & E & Ha)].
  - simpl in Hr. setoid_rewrite overlay_in in Hr; [|done]. fold (shared m l).
    destruct (f (shared m l)) as [[b d]|x] eqn:Ef.
    + apply simulates_quiet; [done|]. eapply act_moves; [done|apply S|done..|]. left. split_and!; [done..|].
      intros t' Ha. rewrite Hr by done. by rewrite overlay_put.
    + eapply simulates_commit; [done| |eapply (call_happens m a c o g (Act l f q)); [done..| |]].
      2: { simpl. setoid_rewrite overlay_in; [|done]. by rewrite Ef. }
      2: { simpl. by rewrite overlay_in, Ef. }
      apply moves_inside; rewrite ?Et; try done; [apply S|]. intros l' Hn. by apply overlay_out.
  - simpl in E. fold (shared m l). destruct (f (shared m l)) as [[b d]|x] eqn:Ef.
    + apply simulates_quiet; [done|]. eapply act_moves; [done|apply S|done..|]. right. split; [done|]. by exists r, t.
    + injection E as <- <-. apply simulates_quiet; [done|]. apply moves_inside; rewrite ?Et; try done. apply S.
Qed.

Lemma turn_simulated m a c : simulates m a -> exists a', rtc call_step a a' /\ simulates (turn c m) a'.
Proof.
  intros S. destruct (threads m c) as [[|o k]|o g [r|x|l p|l p|l B f q] k|g r] eqn:Et.
  - exists a. unfold turn. by rewrite Et.
  - pose proof (sm_places _ _ S c) as Hp. rewrite Et in Hp. unfold turn. rewrite Et.
    apply simulates_quiet; [done|]. apply moves_inside; rewrite ?Et; try done; [apply S|].
    left. split_and!; [apply progs_ok|done|]. intros t _. by rewrite overlay_nil.
  - pose proof (sm_places _ _ S c) as Hp. rewrite Et in Hp. unfold turn. rewrite Et.
    destruct Hp as [(Hw & Ey & Hr)|(Hw & r' & t & Ey & E & Ha)]; simpl in Hw; subst g.
    + assert (call_turn c a = mkCalls (state_of a) (<[c := inl (k r)]> (clients a))) as Hc.
      { apply (call_happens m a c o [] (Ret r) k (Ok r)); done. }
      eapply simulates_commit; [done| |exact Hc].
      apply moves_inside; rewrite ?Et; try done. apply S.
    + injection E as <- <-. apply simulates_quiet; [done|]. apply moves_inside; rewrite ?Et; try done. apply S.
  - pose proof (sm_places _ _ S c) as Hp. rewrite Et in Hp. unfold turn. rewrite Et.
    destruct Hp as [(_ & Ey & Hr)|(_ & r' & t & Ey & E & Ha)].
    + eapply simulates_commit; [done| |by eapply (call_happens m a c o g (Fail x) k (Panic x))].
      apply moves_inside; rewrite ?Et; try done; [apply S|]. intros l Hn. by apply overlay_out.
    + injection E as <- <-. apply simulates_quiet; [done|]. apply moves_inside; rewrite ?Et; try done. apply S.
  - by eapply turn_acquire.
  - by eapply turn_release.
  - by eapply turn_act.
  - exists a. unfold turn. by rewrite Et.
Qed.

Lemma steps_simulated m a m' :
  simulates m a -> rtc step m m' -> exists a', rtc call_step a a' /\ simulates m' a'.
Proof.
  intros S Hr. revert a S. induction Hr as [m|m m1 m2 [c ->] _ IH]; intros a S; [by exists a|].
  destruct (turn_simulated m a c S) as (a1 & R1 & S1). destruct (IH a1 S1) as (a2 & R2 & S2).
  exists a2. split; [by etrans|done].
Qed.

(* ------------------------------------------------------------------------- *)
(** ** Progress *)

(** CPU [c]'s next access gets it further: it has not finished, nor panicked, nor is
    it at a lock that is taken. *)
Definition can_move (m : machine) (c : cpu) : Prop :=
  match threads m c with
  | Idle Stop | Dead _ _ => False
  | Inside _ _ (Acquire l _) _ => locked (locks m l) = false
  | _ => True
  end.

Definition finished (m : machine) : Prop := forall c, threads m c = Idle Stop.

Definition progress (m m' : machine) : Prop := exists c, can_move m c /\ m' = turn c m.

(** No history of whole calls panics. *)
Definition never_panics (a : calls) : Prop :=
  forall a' c r, rtc call_step a a' -> clients a' c <> inr r.

Definition alive (m : machine) : Prop := forall c g r, threads m c <> Dead g r.

Lemma simulated_alive m a : simulates m a -> never_panics a -> alive m.
Proof. intros S Hn c g r E. pose proof (sm_places _ _ S c) as Hp. rewrite E in Hp. by apply (Hn a c r). Qed.

(** Who waits for a lock is below who holds it, and so on up to somebody who moves. *)
Lemma holder_moves N m a :
  (forall l, rank l < N)%nat -> simulates m a -> alive m ->
  forall n c l, (N - rank l < n)%nat -> l ∈ guards (threads m c) -> exists c', can_move m c'.
Proof.
  intros HN S Hn. induction n as [|n IH]; intros c l Hr Hl; [lia|].
  destruct (threads m c) as [k|o g p k|g r] eqn:Et; cbn [guards] in Hl.
  - by apply elem_of_nil in Hl.
  - pose proof (sm_places _ _ S c) as Hp. rewrite Et in Hp.
    destruct p as [|x|l' p|l' p|l' B f q]; try (exists c; unfold can_move; by rewrite Et).
    destruct (locked (locks m l')) eqn:El; [|exists c; unfold can_move; by rewrite Et].
    apply (gd_up _ (sm_guarded _ _ S)) in El as [c' Hc']. apply (IH c' l'); [|done].
    destruct Hp as [((_ & Hlt & _) & _)|((? & _) & _)]; [|done].
    rewrite list.Forall_forall in Hlt. specialize (Hlt l Hl). specialize (HN l'). lia.
  - by destruct (Hn c g r).
Qed.

Lemma unfinished_moves N m a c :
  (forall l, rank l < N)%nat -> simulates m a -> alive m ->
  threads m c <> Idle Stop -> exists c', can_move m c'.
Proof.
  intros HN S Hn Hc. destruct (threads m c) as [[|o k]|o g p k|g r] eqn:Et; [done|..].
  - exists c. unfold can_move. by rewrite Et.
  - destruct p as [|x|l p|l p|l B f q]; try (exists c; unfold can_move; by rewrite Et).
    destruct (locked (locks m l)) eqn:El; [|exists c; unfold can_move; by rewrite Et].
    apply (gd_up _ (sm_guarded _ _ S)) in El as [c' Hc']. apply (holder_moves N m a HN S Hn (Datatypes.S N) c' l); [lia|done].
  - by destruct (Hn c g r).
Qed.

(** What a thread may be after it moved. *)
Definition below (t' t : thread) : Prop :=
  match t with
  | Idle Stop | Dead _ _ => False
  | Idle (Call o k) => t' = Inside o [] (prog_of o) k
  | Inside o g (Ret r) k => t' = Idle (k r)
  | Inside o g (Fail x) k => t' = Dead g x
  | Inside o g (Acquire l p) k => t' = Inside o (l :: g) p k
  | Inside o g (Release l p) k => t' = Inside o (filter (.≠ l) g) p k
  | Inside o g (Act l f q) k => (exists b, t' = Inside o g (q b) k) \/ exists r, t' = Dead g r
  end.

Lemma below_dead g r : Acc below (Dead g r).
Proof. constructor. by intros t ?. Qed.

Lemma below_inside o g (p : prog (res o)) k :
  (forall r, Acc below (Idle (k r))) -> Acc below (Inside o g p k).
Proof.
  intros Hk. revert g. induction p as [r|x|l p IH|l p IH|l B f q IH]; intros g; constructor; cbn [below].
  - intros t ->. apply Hk.
  - intros t ->. apply below_dead.
  - intros t ->. by apply IH.
  - intros t ->. by apply IH.
  - intros t [[b ->]|[r ->]]; [by apply IH|apply below_dead].
Qed.

Lemma below_idle k : Acc below (Idle k).
Proof.
  induction k as [|o k IH]; constructor; cbn [below]; [by intros t ?|]. intros t ->. by apply below_inside.
Qed.

Lemma below_wf : well_founded below.
Proof. intros [k|o g p k|g r]; [apply below_idle|apply below_inside; intros; apply below_idle|apply below_dead]. Qed.

Lemma below_irrefl t : ~ below t t.
Proof. induction (below_wf t) as [t _ IH]. intros H. by apply (IH t). Qed.

Lemma turn_below m c :
  can_move m c -> below (threads (turn c m) c) (threads m c) /\ forall c', c' <> c -> threads (turn c m) c' = threads m c'.
Proof.
  unfold can_move, turn. destruct (threads m c) as [[|o k]|o g [r|x|l p|l p|l B f q] k|g r] eqn:Et; try done; intros Hm.
  6: destruct (f (data (locks m l))) as [[b d]|r].
  all: unfold SpinLock_swap; rewrite ?Hm; cbn [threads].
  all: rewrite fn_lookup_insert; (split; [cbn [below]; eauto|]); intros c' Hne; by rewrite fn_lookup_insert_ne.
Qed.

(** One of [cs] moves down and the others stay. *)
Definition one_below {A} (lt : A -> A -> Prop) (cs : list cpu) (f g : cpu -> A) : Prop :=
  exists c, c ∈ cs /\ lt (f c) (g c) /\ forall c', c' <> c -> f c' = g c'.

Lemma one_below_wf {A} (lt : A -> A -> Prop) cs : well_founded lt -> well_founded (one_below lt cs).
Proof.
  intros Hlt. induction cs as [|c0 cs IH]; intros f0.
  - constructor. intros f (c & ?%elem_of_nil & _). done.
  - remember (f0 c0) as x eqn:Ex. revert f0 Ex. induction (Hlt x) as [x _ IHx]. intros f0.
    induction (IH f0) as [f0 _ IHf]. intros ->. constructor. intros f (c & Hc & Hl & Ho).
    destruct (decide (c = c0)) as [->|Hne].
    + by eapply IHx.
    + apply IHf; [|symmetry; by apply Ho]. exists c. split; [|done]. by apply elem_of_cons in Hc as [?|?].
Qed.

(** CPUs outside [cs] have nothing to do. *)
Definition only (cs : list cpu) (m : machine) : Prop := forall c, c ∉ cs -> threads m c = Idle Stop.

Lemma only_turn cs m c : only cs m -> can_move m c -> c ∈ cs /\ only cs (turn c m).
Proof.
  intros Ho Hm. assert (c ∈ cs) as Hc.
  { apply dec_stable. intros Hn. unfold can_move in Hm. by rewrite (Ho c Hn) in Hm. }
  split; [done|]. intros c' Hc'. destruct (turn_below m c Hm) as [_ ->]; [by apply Ho|]. by intros ->.
Qed.

(** A turn that gets a CPU no further changes nothing. *)
Lemma turn_stuck m c : ~ can_move m c -> turn c m = m.
Proof.
  unfold can_move, turn. intros Hm. destruct (threads m c) as [[|o k]|o g [r|x|l p|l p|l B f q] k|g r] eqn:Et; try done.
  unfold SpinLock_swap. destruct (locked (locks m l)) eqn:El; [|done].
  replace (mkSpinLock true (data (locks m l))) with (locks m l) by (destruct (locks m l); cbn in *; congruence).
  rewrite put_id, <- Et. destruct m as [ls ts]. cbn. f_equal. apply functional_extensionality_dep. intros c'.
  destruct (decide (c = c')) as [<-|]; [by rewrite fn_lookup_insert|by rewrite fn_lookup_insert_ne].
Qed.

Lemma can_move_dec m c : can_move m c \/ ~ can_move m c.
Proof.
  unfold can_move. destruct (threads m c) as [[|o k]|o g [r|x|l p|l p|l B f q] k|g r]; try tauto.
  destruct (locked (locks m l)); [by right|by left].
Qed.

Lemma only_steps cs m m' : only cs m -> rtc step m m' -> only cs m'.
Proof.
  intros Ho Hr. revert Ho. induction Hr as [m|m m1 m2 [c ->] _ IH]; intros Ho; [done|]. apply IH.
  destruct (can_move_dec m c) as [Hm|Hm]; [by apply only_turn|by rewrite turn_stuck].
Qed.

(** Turns that get a CPU further run out. *)
Lemma progress_acc cs m : only cs m -> Acc (flip progress) m.
Proof.
  remember (threads m) as f eqn:Ef. revert m Ef.
  induction (one_below_wf below cs below_wf f) as [f _ IH]. intros m -> Ho. constructor. intros m' (c & Hm & ->).
  destruct (only_turn cs m c Ho Hm) as [Hc Ho']. destruct (turn_below m c Hm) as [Hb Hs].
  apply (IH (threads (turn c m))); [|done..]. by exists c.
Qed.

Lemma idle_stop_dec t : t = Idle Stop \/ t <> Idle Stop.
Proof. destruct t as [[|]| |]; auto. Qed.

Lemma finished_or cs m : only cs m -> finished m \/ exists c, threads m c <> Idle Stop.
Proof.
  intros Ho. assert (forall l, Forall (fun c => threads m c = Idle Stop) l \/ exists c, threads m c <> Idle Stop) as H.
  { induction l as [|c l IH]; [by left|]. destruct (idle_stop_dec (threads m c)) as [E|E]; [|by eauto].
    destruct IH as [IH|IH]; [left; by constructor|by right]. }
  destruct (H cs) as [Hall|Hex]; [left|by right]. intros c. rewrite list.Forall_forall in Hall.
  destruct (decide (c ∈ cs)); [by apply Hall|by apply Ho].
Qed.

(** So every state goes on to one in which every call has returned. *)
Lemma progress_finishes N cs m a :
  (forall l, rank l < N)%nat -> only cs m -> simulates m a -> never_panics a ->
  exists m' a', rtc progress m m' /\ finished m' /\ rtc call_step a a' /\ simulates m' a'.
Proof.
  intros HN Ho. pose proof (progress_acc cs m Ho) as Hacc. revert a Ho.
  induction Hacc as [m _ IH]. intros a Ho' S Hn.
  destruct (finished_or cs m Ho') as [Hf|[c Hc]]; [by exists m, a|].
  destruct (unfinished_moves N m a c HN S (simulated_alive m a S Hn) Hc) as [c' Hm].
  destruct (turn_simulated m a c' S) as (a1 & R1 & S1).
  destruct (IH (turn c' m)) with (a := a1) as (m2 & a2 & R2 & Hf & R2' & S2); [by exists c'|..].
  - by apply (only_turn cs).
  - done.
  - intros a' c1 r R. apply Hn. by etrans.
  - exists m2, a2. split_and!; [|done| |done]; [|by etrans]. eapply rtc_l; [|exact R2]. by exists c'.
Qed.

(** A finished machine holds what the specification holds. *)
Lemma finished_agrees m a : finished m -> simulates m a ->
  (forall c, clients a c = inl Stop) /\ forall l, locked (locks m l) = false /\ data (locks m l) = state_of a l.
Proof.
  intros Hf S. split.
  - intros c. pose proof (sm_places _ _ S c) as Hp. by rewrite (Hf c) in Hp.
  - intros l. assert (locked (locks m l) = false) as E.
    { apply not_true_is_false. intros [c Hc]%(gd_up _ (sm_guarded _ _ S)). rewrite (Hf c) in Hc. by apply elem_of_nil in Hc. }
    split; [done|]. by apply (sm_free _ _ S).
Qed.

(** The calls of a history of the specification with what they return, in the order
    in which they happen. *)
Inductive event := Event (c : cpu) (o : Op) (r : outcome (res o)).

Definition called (c : cpu) (a : calls) : list event :=
  match clients a c with inl (Call o _) => [Event c o (run (prog_of o) (state_of a)).1] | _ => [] end.

Inductive history (a : calls) : list event -> calls -> Prop :=
  | history_start : history a [] a
  | history_more tr a' c : history a tr a' -> history a (tr ++ called c a') (call_turn c a').

Lemma calls_history a a' : rtc call_step a a' -> exists tr, history a tr a'.
Proof.
  revert a'. apply rtc_ind_r.
  - exists []. constructor.
  - intros a1 a2 _ [c ->] [tr H]. eexists. by constructor.
Qed.

Lemma history_calls a tr a' : history a tr a' -> rtc call_step a a'.
Proof. induction 1 as [|tr a' c _ IH]; [done|]. eapply rtc_r; [exact IH|by exists c]. Qed.

(** Both, from the start. *)
Lemma interleaving_refines s k m :
  rtc step (initial s k) m -> exists a, rtc call_step (calls_initial s k) a /\ simulates m a.
Proof. apply steps_simulated, simulates_initial. Qed.

Lemma interleaving_completes N (cs : list cpu) s k m :
  (forall l, rank l < N)%nat -> (forall c, c ∉ cs -> k c = Stop) -> never_panics (calls_initial s k) ->
  rtc step (initial s k) m ->
  Acc (flip progress) m /\
  exists m' a, rtc progress m m' /\ finished m' /\ rtc call_step (calls_initial s k) a /\ simulates m' a.
Proof.
  intros HN Hk Hn Hr. destruct (interleaving_refines s k m Hr) as (a & Ra & S).
  assert (only cs m) as Ho.
  { eapply only_steps; [|exact Hr]. intros c Hc. cbn. by rewrite Hk. }
  split; [by eapply progress_acc|].
  destruct (progress_finishes N cs m a HN Ho S) as (m' & a' & R & Hf & R' & S').
  - intros a' c r R. apply Hn. by etrans.
  - exists m', a'. split_and!; [done|done|by etrans|done].
Qed.
End locks.
Arguments Ret {L D R} r.
Arguments Fail {L D R} x.
Arguments Acquire {L D R} l k.
Arguments Release {L D R} l k.
Arguments Act {L D R} l {B} f k.
Arguments Event {Op res} c o r.
Arguments Stop {Op res}.
Arguments Call {Op res} o k.
