(* ===== verification/WeakLocks.v ===== *)
(** * The locks under the orderings the code asks for

    The machine of [Locks] again, with each lock's flag an atomic cell of [WeakMem] and
    what a lock protects ordinary memory: [lock()] swaps with [Ordering::Acquire], the
    guard's drop stores with [Ordering::Release] ([builtin/sync.rs]), and nothing else
    orders the accesses of different CPUs.  No interleaving races, and each is one of
    the machine of [Locks], where accesses simply come one after the other: so what is
    proved about that machine holds of this one. *)

From stdpp Require Import relations.
From Stdlib Require Import FunctionalExtensionality.
From S2P Require Import Prelude Sync WeakMem Locks.

(** The orderings in [SpinLock::lock] and [SpinLockGuard::drop]. *)
Definition swap_ordering : Ordering := WeakMem.Acquire.
Definition drop_ordering : Ordering := WeakMem.Release.

Section weak.
Context {L : Type} `{EqDecision L} (rank : L -> nat) {D : L -> Type}.
Context {Op : Type} {res : Op -> Type} (prog_of : forall o, @prog L D (res o)).

Local Abbreviation thread := (@thread L D Op res).
Local Abbreviation machine := (@machine L D Op res).
Local Abbreviation client := (@client Op res).

(* ------------------------------------------------------------------------- *)
(** ** The machine *)

(** The flags, the data and the accesses made to it so far; each CPU's code, what it
    knows to have happened and how far it has seen each flag; the next access's number. *)
Record weak := mkWeak {
  flags : L -> list (message bool);
  contents : forall l, D l;
  accesses : L -> events;
  cpus : cpu -> thread;
  knows : cpu -> events;
  front : cpu -> L -> Z;
  clock : nat;
}.

Definition weak_initial (s : forall l, D l) (k : cpu -> client) : weak :=
  mkWeak (fun _ => [first_message false]) s (fun _ => ∅) (fun c => Idle (k c)) (fun _ => ∅) (fun _ _ => 0) 0.

Definition goes (w : weak) (c : cpu) (t : thread) : weak :=
  mkWeak (flags w) (contents w) (accesses w) (<[c := t]> (cpus w)) (knows w) (front w) (clock w).

(** CPU [c] has accessed flag [l]. *)
Definition at_flag (w : weak) (c : cpu) (l : L) (h : list (message bool)) (k : events) (f : Z) (t : thread) : weak :=
  mkWeak (<[l := h]> (flags w)) (contents w) (accesses w) (<[c := t]> (cpus w)) (<[c := k]> (knows w))
    (<[c := <[l := f]> (front w c)]> (front w)) (clock w).

(** CPU [c] has accessed what [l] protects. *)
Definition at_data (w : weak) (c : cpu) (l : L) (d : D l) (t : thread) : weak :=
  mkWeak (flags w) (put (contents w) l d) (<[l := {[clock w]} ∪ accesses w l]> (accesses w))
    (<[c := t]> (cpus w)) (<[c := {[clock w]} ∪ knows w c]> (knows w)) (front w) (S (clock w)).

(** An access that does not follow all the accesses before it. *)
Definition racy (w : weak) : Prop :=
  exists c o g l B (f : D l -> outcome (B * D l)) q k,
    cpus w c = Inside o g (Act l f q) k /\ ~ accesses w l ⊆ knows w c.

Inductive weak_step (w : weak) : weak -> Prop :=
  | weak_call c o k :
      cpus w c = Idle (Call o k) -> weak_step w (goes w c (Inside o [] (prog_of o) k))
  | weak_return c o g r k :
      cpus w c = Inside o g (Ret r) k -> weak_step w (goes w c (Idle (k r)))
  | weak_fail c o g x k :
      cpus w c = Inside o g (Fail x) k -> weak_step w (goes w c (Dead g x))
  | weak_swap c o g l p k old h ev f :
      cpus w c = Inside o g (Locks.Acquire l p) k ->
      updates swap_ordering (flags w l) (knows w c) (front w c l) old true h ev f ->
      weak_step w (at_flag w c l h ev f (if old then Inside o g (Locks.Acquire l p) k else Inside o (l :: g) p k))
  | weak_drop c o g l p k h f :
      cpus w c = Inside o g (Locks.Release l p) k ->
      stores drop_ordering (flags w l) (knows w c) (front w c l) false h f ->
      weak_step w (at_flag w c l h (knows w c) f (Inside o (filter (.≠ l) g) p k))
  | weak_act c o g l B (f : D l -> outcome (B * D l)) q k :
      cpus w c = Inside o g (Act l f q) k -> accesses w l ⊆ knows w c ->
      weak_step w
        match f (contents w l) with
        | Ok (b, d) => at_data w c l d (Inside o g (q b) k)
        | Panic r => at_data w c l (contents w l) (Dead g r)
        end.

(* ------------------------------------------------------------------------- *)
(** ** As a machine of [Locks] *)

(** The message by which the lock can be taken. *)
Definition open (h : list (message bool)) (m : message bool) : Prop := m_val m = false /\ last_behind h m.

#[local] Instance open_dec h m : Decision (open h m).
Proof. unfold open, last_behind. apply _. Defined.

Definition takeable (h : list (message bool)) : bool := bool_decide (Exists (open h) h).

Definition strong (w : weak) : machine :=
  mkMachine (fun l => mkSpinLock (negb (takeable (flags w l))) (contents w l)) (cpus w).

(** A lock that is free, by message [m]; and one that is held since [T]. *)
Record free_by (h : list (message bool)) (m : message bool) : Prop := {
  fb_open : m ∈ h /\ open h m;
  fb_only m' : m' ∈ h -> open h m' -> m' = m;
  fb_last m' : m' ∈ h -> m_to m' <= m_to m;
}.

Record held_since (h : list (message bool)) (T : Z) : Prop := {
  hs_none m : m ∈ h -> ~ open h m;
  hs_contiguous : contiguous h T;
}.

(** A free lock has published all accesses to what it protects; of a held one, the
    holder knows them. *)
Inductive lock_ok (w : weak) (l : L) : Prop :=
  | lock_free m :
      free_by (flags w l) m -> accesses w l ⊆ m_released m ->
      (forall c, l ∉ guards (cpus w c)) -> lock_ok w l
  | lock_held c T :
      held_since (flags w l) T -> accesses w l ⊆ knows w c -> T <= front w c l ->
      l ∈ guards (cpus w c) -> (forall c', l ∈ guards (cpus w c') -> c' = c) -> lock_ok w l.

Definition thread_ok (t : thread) : Prop :=
  match t with Inside o g p k => exists b, well_locked rank g b p | _ => True end.

Record weak_ok (w : weak) : Prop := {
  wo_cells l : cell_wf (flags w l);
  wo_locks l : lock_ok w l;
  wo_threads c : thread_ok (cpus w c);
}.

(* ------------------------------------------------------------------------- *)
(** ** What an access does to a flag *)

Implicit Types h : list (message bool).

Lemma free_takeable h m : free_by h m -> takeable h = true.
Proof. intros [[Hin Ho] _ _]. apply bool_decide_eq_true, list.Exists_exists. by exists m. Qed.

Lemma held_takeable h T : held_since h T -> takeable h = false.
Proof. intros [Hn _]. apply bool_decide_eq_false. intros (m & Hm & Ho)%list.Exists_exists. by apply (Hn m). Qed.

Lemma open_cons h m m' : open (m' :: h) m <-> open h m /\ m_from m' <> m_to m.
Proof. unfold open, last_behind. rewrite list.Forall_cons. tauto. Qed.

Lemma update_wf o h k a old v h' k' f : cell_wf h -> updates o h k a old v h' k' f -> cell_wf h'.
Proof. intros W []. by apply cell_wf_cons. Qed.

Lemma store_wf o h k a v h' f : cell_wf h -> stores o h k a v h' f -> cell_wf h'.
Proof. intros W []. by apply cell_wf_cons. Qed.

Lemma take_ok o h m k a h' k' f :
  cell_wf h -> free_by h m -> updates o h k a false true h' k' f ->
  held_since h' f /\ k' = k ∪ (if acquires o then m_released m else ∅).
Proof.
  intros W [[Hin Ho] Hone Hlast] []. assert (m0 = m) as ->.
  { apply Hone; [done|]. split; [done|]. by eapply fits_last_behind. }
  split; [|done]. split.
  - intros m' [->|Hm']%elem_of_cons; [by intros [? _]|]. intros [Ho' Hne]%open_cons. apply Hne. cbn.
    by rewrite (Hone m').
  - apply contiguous_from. intros m' Hm'. pose proof (Hlast m' Hm'). match goal with H : fits _ _ _ |- _ => destruct H end. lia.
Qed.

Lemma miss_free o h m k a h' k' f :
  cell_wf h -> free_by h m -> updates o h k a true true h' k' f -> free_by h' m.
Proof.
  intros W [[Hin Ho] Hone Hlast] [m0 t Hm0 _ Hv Hf]. assert (m_to m0 < m_to m) as Hlt.
  { pose proof (Hlast m0 Hm0). destruct (decide (m_to m0 = m_to m)) as [E|]; [|lia].
    apply (cw_same _ W) in E as ->; [|done..]. destruct Ho. congruence. }
  split.
  - split; [by right|]. apply open_cons. split; [done|]. cbn. lia.
  - intros m' [->|Hm']%elem_of_cons; [by intros [? _]|]. intros [? _]%open_cons. by apply Hone.
  - intros m' [->|Hm']%elem_of_cons; [|by apply Hlast]. cbn.
    pose proof (cw_some _ W m Hin). destruct (fits_elem _ _ _ _ Hf Hin); lia.
Qed.

Lemma miss_held o h T k a h' k' f :
  cell_wf h -> held_since h T -> updates o h k a true true h' k' f -> held_since h' T.
Proof.
  intros W [Hn Hc] [m0 t Hm0 _ Hv Hf]. split; [|by apply contiguous_update].
  intros m' [->|Hm']%elem_of_cons; [by intros [? _]|]. intros [? _]%open_cons. by apply (Hn m').
Qed.

Lemma held_not_taken o h T k a h' k' f :
  cell_wf h -> held_since h T -> updates o h k a false true h' k' f -> False.
Proof.
  intros W [Hn _] [m t Hm _ Hv Hf]. apply (Hn m Hm). split; [done|]. by eapply fits_last_behind.
Qed.

Lemma drop_ok o h T k a h' f :
  cell_wf h -> held_since h T -> T <= a -> stores o h k a false h' f ->
  exists m, free_by h' m /\ m_released m = (if releases o then k else ∅).
Proof.
  intros W [Hn Hc] HT [f0 t Ht Hf].
  exists (mkMessage false f0 t (if releases o then k else ∅)). split; [|reflexivity].
  assert (forall m, m ∈ h -> m_to m < t) as Hlast.
  { intros m Hm. by apply (contiguous_last h T f0 t); [| |lia| |]. }
  split; cbn.
  - split; [by left|]. apply open_cons. split; [split; [done|]|cbn; destruct Hf; lia].
    apply list.Forall_forall. intros m Hm. cbn. pose proof (Hlast m Hm). pose proof (cw_some _ W m Hm). lia.
  - intros m [->|Hm]%elem_of_cons; [done|]. intros [Ho _]%open_cons. by destruct (Hn m).
  - intros m [->|Hm]%elem_of_cons; [done|]. pose proof (Hlast m Hm). lia.
Qed.

(* ------------------------------------------------------------------------- *)
(** ** Every step is one of the strong machine *)

(** What a step at flag or data [l] leaves of another lock. *)
Lemma lock_ok_frame w w' c t l :
  lock_ok w l -> cpus w' = <[c := t]> (cpus w) ->
  flags w' l = flags w l -> accesses w' l = accesses w l ->
  (l ∈ guards t <-> l ∈ guards (cpus w c)) ->
  (forall c', knows w c' ⊆ knows w' c') -> (forall c', front w c' l <= front w' c' l) -> lock_ok w' l.
Proof.
  intros Hl Ec Ef Ea Hg Hk Hf.
  assert (forall c', l ∈ guards (cpus w' c') <-> l ∈ guards (cpus w c')) as Hg'.
  { intros c'. rewrite Ec. destruct (decide (c = c')) as [<-|]; [by rewrite fn_lookup_insert|by rewrite fn_lookup_insert_ne]. }
  destruct Hl as [m Hm Hr Hn|c0 T Ht Hr HT Hin Hone].
  - apply (lock_free _ _ m); rewrite ?Ef, ?Ea; [done..|]. intros c'. by rewrite Hg'.
  - apply (lock_held _ _ c0 T); rewrite ?Ef, ?Ea; [done|set_solver| |by rewrite Hg'|].
    + specialize (Hf c0). lia.
    + intros c'. rewrite Hg'. apply Hone.
Qed.

Lemma threads_ok_insert (f : cpu -> thread) c t : (forall c, thread_ok (f c)) -> thread_ok t -> forall c', thread_ok ((<[c := t]> f) c').
Proof. intros Hf Ht c'. destruct (decide (c = c')) as [<-|]; [by rewrite fn_lookup_insert|by rewrite fn_lookup_insert_ne]. Qed.

(** A step that touches no lock. *)
Lemma goes_ok w c t : weak_ok w -> thread_ok t -> guards t = guards (cpus w c) -> weak_ok (goes w c t).
Proof.
  intros [Wc Wl Wt] Ht Hg. split; cbn; [done| |by apply threads_ok_insert].
  intros l. eapply lock_ok_frame; [apply Wl|done..|by rewrite Hg|done|done].
Qed.

Lemma at_flag_others w c l h k f t l' :
  l' <> l -> knows w c ⊆ k -> (l' ∈ guards t <-> l' ∈ guards (cpus w c)) -> lock_ok w l' ->
  lock_ok (at_flag w c l h k f t) l'.
Proof.
  intros Hne Hk Hg Hl. eapply (lock_ok_frame w _ c t); cbn; [done|done|by rewrite fn_lookup_insert_ne|done|done| |].
  - intros c'. destruct (decide (c = c')) as [<-|]; [by rewrite fn_lookup_insert|by rewrite fn_lookup_insert_ne].
  - intros c'. destruct (decide (c = c')) as [<-|]; [|by rewrite fn_lookup_insert_ne].
    by rewrite fn_lookup_insert, fn_lookup_insert_ne.
Qed.

Lemma strong_at_flag w c l h k f t :
  strong (at_flag w c l h k f t)
  = mkMachine (put (locks (strong w)) l (mkSpinLock (negb (takeable h)) (contents w l))) (<[c := t]> (cpus w)).
Proof.
  unfold strong. cbn. f_equal. apply functional_extensionality_dep. intros l'. destruct (decide (l = l')) as [<-|].
  - by rewrite put_eq, fn_lookup_insert.
  - by rewrite put_ne, fn_lookup_insert_ne.
Qed.

Lemma strong_goes w c t : strong (goes w c t) = mkMachine (locks (strong w)) (<[c := t]> (cpus w)).
Proof. done. Qed.

Lemma insert_same (f : cpu -> thread) c t : f c = t -> <[c := t]> f = f.
Proof.
  intros <-. apply functional_extensionality. intros c'.
  destruct (decide (c = c')) as [<-|]; [by rewrite fn_lookup_insert|by rewrite fn_lookup_insert_ne].
Qed.

Lemma update_knows o h k a old v h' k' f : updates o h k a old v h' k' f -> k ⊆ k'.
Proof. intros []. set_solver. Qed.

(** A swap that finds the flag up changes nothing that matters. *)
Lemma miss_ok w c o g l p k h ev f :
  weak_ok w -> cpus w c = Inside o g (Locks.Acquire l p) k ->
  updates swap_ordering (flags w l) (knows w c) (front w c l) true true h ev f ->
  weak_ok (at_flag w c l h ev f (cpus w c)) /\ strong (at_flag w c l h ev f (cpus w c)) = strong w.
Proof.
  intros [Wc Wl Wt] Et U. pose proof (update_knows _ _ _ _ _ _ _ _ _ U) as Hk.
  assert (lock_ok (at_flag w c l h ev f (cpus w c)) l /\ takeable h = takeable (flags w l)) as [Hl Htk].
  { assert (forall c', guards (<[c := cpus w c]> (cpus w) c') = guards (cpus w c')) as Hg by (intros c'; by rewrite insert_same).
    destruct (Wl l) as [m Hm Hr Hn|c0 T Ht Hr HT Hin Hone].
    - pose proof (miss_free _ _ _ _ _ _ _ _ (Wc l) Hm U) as Hm'. split; [|by rewrite (free_takeable _ _ Hm), (free_takeable _ _ Hm')].
      apply (lock_free _ _ m); cbn; [by rewrite fn_lookup_insert|done|]. intros c'. by rewrite Hg.
    - pose proof (miss_held _ _ _ _ _ _ _ _ (Wc l) Ht U) as Ht'. split; [|by rewrite (held_takeable _ _ Ht), (held_takeable _ _ Ht')].
      assert (c0 <> c) as Hne.
      { intros ->. pose proof (Wt c) as Hw. rewrite Et in Hin, Hw. destruct Hw as (b & _ & Hf & _).
        apply (proj1 (list.Forall_forall _ _) Hf) in Hin. lia. }
      apply (lock_held _ _ c0 T); cbn; [by rewrite fn_lookup_insert|by rewrite fn_lookup_insert_ne..|by rewrite Hg|].
      intros c'. rewrite Hg. apply Hone. }
  split.
  - split; cbn; [|intros l'|apply threads_ok_insert; [done|apply Wt]].
    + intros l'. destruct (decide (l = l')) as [<-|]; [rewrite fn_lookup_insert; by eapply update_wf|by rewrite fn_lookup_insert_ne].
    + destruct (decide (l' = l)) as [->|]; [done|]. by apply at_flag_others.
  - rewrite strong_at_flag, Htk, insert_same by done. unfold strong. f_equal. apply functional_extensionality_dep. intros l'.
    destruct (decide (l = l')) as [<-|]; [by rewrite put_eq|by rewrite put_ne].
Qed.

(** The cells after an access to one flag. *)
Lemma cells_at_flag w c l h k f t l' :
  weak_ok w -> cell_wf h -> cell_wf (flags (at_flag w c l h k f t) l').
Proof.
  intros [Wc _ _] Wh. cbn. destruct (decide (l = l')) as [<-|]; [by rewrite fn_lookup_insert|by rewrite fn_lookup_insert_ne].
Qed.

(** A swap that finds the flag down takes the lock, and learns all that was done under it. *)
Lemma take_step_ok w c o g l p k h ev f :
  let t := Inside o (l :: g) p k in
  weak_ok w -> cpus w c = Inside o g (Locks.Acquire l p) k ->
  updates swap_ordering (flags w l) (knows w c) (front w c l) false true h ev f ->
  weak_ok (at_flag w c l h ev f t) /\ strong (at_flag w c l h ev f t) = turn prog_of c (strong w).
Proof.
  intros t W Et U. pose proof W as [Wc Wl Wt]. pose proof (update_knows _ _ _ _ _ _ _ _ _ U) as Hk.
  destruct (Wl l) as [m Hm Hr Hn|c0 T Ht _ _ _ _]; [|by destruct (held_not_taken _ _ _ _ _ _ _ _ (Wc l) Ht U)].
  destruct (take_ok _ _ _ _ _ _ _ _ (Wc l) Hm U) as [Hh Hev]. split.
  - split; [intros l'; apply cells_at_flag; [done|by eapply update_wf]|intros l'|apply threads_ok_insert; [done|]].
    + destruct (decide (l' = l)) as [->|Hne].
      * apply (lock_held _ _ c f); cbn; rewrite ?fn_lookup_insert; [done| |done|by left|].
        { rewrite Hev. cbn. set_solver. }
        intros c' Hin. apply dec_stable. intros Hc. rewrite fn_lookup_insert_ne in Hin by done. by apply (Hn c').
      * apply at_flag_others; [done..| |done]. rewrite Et. cbn. rewrite elem_of_cons. naive_solver.
    + pose proof (Wt c) as Hw. rewrite Et in Hw. destruct Hw as (b & _ & _ & Hw). by eexists.
  - rewrite strong_at_flag, (held_takeable _ _ Hh). unfold turn. cbn [strong threads locks]. rewrite Et.
    unfold SpinLock_swap. by rewrite (free_takeable _ _ Hm).
Qed.

(** The drop publishes all that was done under the lock. *)
Lemma drop_step_ok w c o g l p k h f :
  let t := Inside o (filter (.≠ l) g) p k in
  weak_ok w -> cpus w c = Inside o g (Locks.Release l p) k ->
  stores drop_ordering (flags w l) (knows w c) (front w c l) false h f ->
  weak_ok (at_flag w c l h (knows w c) f t) /\ strong (at_flag w c l h (knows w c) f t) = turn prog_of c (strong w).
Proof.
  intros t W Et U. pose proof W as [Wc Wl Wt].
  pose proof (Wt c) as Hw. rewrite Et in Hw. destruct Hw as (b & Hlg & Hw).
  destruct (Wl l) as [m Hm Hr Hn|c0 T Ht Hr HT Hin Hone]; [destruct (Hn c); by rewrite Et|].
  assert (c0 = c) as -> by (symmetry; apply Hone; by rewrite Et).
  destruct (drop_ok _ _ _ _ _ _ _ (Wc l) Ht HT U) as (m & Hm & Hrel). split.
  - split; [intros l'; apply cells_at_flag; [done|by eapply store_wf]|intros l'|apply threads_ok_insert; [done|by eexists]].
    destruct (decide (l' = l)) as [->|Hne].
    + apply (lock_free _ _ m); cbn; rewrite ?fn_lookup_insert; [done|by rewrite Hrel|].
      intros c'. destruct (decide (c = c')) as [<-|Hc]; [rewrite fn_lookup_insert|rewrite fn_lookup_insert_ne by done].
      * cbn. rewrite elem_of_dropped. tauto.
      * intros Hin'. by apply Hc, eq_sym, Hone.
    + apply at_flag_others; [done..| |done]. rewrite Et. cbn. rewrite elem_of_dropped. tauto.
  - rewrite strong_at_flag, (free_takeable _ _ Hm). unfold turn. cbn [strong threads locks]. by rewrite Et.
Qed.

(** Whoever has the guard knows every access to what it protects ... *)
Lemma guard_knows w c l : weak_ok w -> l ∈ guards (cpus w c) -> accesses w l ⊆ knows w c.
Proof.
  intros W Hin. destruct (wo_locks _ W l) as [m _ _ Hn|c0 T _ Hr _ _ Hone]; [by destruct (Hn c)|]. by rewrite (Hone c Hin).
Qed.

(** ... and keeps doing so after one of its own. *)
Lemma at_data_ok w c l d t :
  weak_ok w -> l ∈ guards (cpus w c) -> guards t = guards (cpus w c) -> thread_ok t -> weak_ok (at_data w c l d t).
Proof.
  intros [Wc Wl Wt] Hin Hg Ht. split; cbn; [done| |by apply threads_ok_insert].
  assert (forall c', knows w c' ⊆ (<[c := {[clock w]} ∪ knows w c]> (knows w)) c') as Hk.
  { intros c'. destruct (decide (c = c')) as [<-|]; [rewrite fn_lookup_insert; set_solver|by rewrite fn_lookup_insert_ne]. }
  intros l'. destruct (decide (l = l')) as [<-|Hne].
  - destruct (Wl l) as [m _ _ Hn|c0 T Ht' Hr HT _ Hone]; [by destruct (Hn c)|].
    assert (c0 = c) as -> by (symmetry; by apply Hone).
    apply (lock_held _ _ c T); cbn; rewrite ?fn_lookup_insert; [done|set_solver|done|by rewrite Hg|].
    intros c' Hc'. apply dec_stable. intros Hne. rewrite fn_lookup_insert_ne in Hc' by done. by apply Hne, Hone.
  - eapply (lock_ok_frame w _ c t); cbn; [done|done|done|by rewrite fn_lookup_insert_ne|by rewrite Hg|done|done].
Qed.

Lemma strong_at_data w c l d t :
  strong (at_data w c l d t)
  = mkMachine (put (locks (strong w)) l (SpinLockGuard_deref_mut (locks (strong w) l) (fun _ => d))) (<[c := t]> (cpus w)).
Proof.
  unfold strong. cbn. f_equal. apply functional_extensionality_dep. intros l'. destruct (decide (l = l')) as [<-|].
  - by rewrite !put_eq.
  - by rewrite !put_ne.
Qed.

Hypothesis progs_ok : forall o, well_locked rank [] true (prog_of o).

Lemma act_step_ok w c o g l B (f : D l -> outcome (B * D l)) q k :
  weak_ok w -> cpus w c = Inside o g (Act l f q) k ->
  let w' := match f (contents w l) with
            | Ok (b, d) => at_data w c l d (Inside o g (q b) k)
            | Panic r => at_data w c l (contents w l) (Dead g r)
            end in
  weak_ok w' /\ strong w' = turn prog_of c (strong w).
Proof.
  intros W Et. pose proof (wo_threads _ W c) as Hw. rewrite Et in Hw. destruct Hw as (b & Hl & Hw).
  unfold turn. cbn [strong threads locks data]. rewrite Et.
  destruct (f (contents w l)) as [[x d]|r]; cbn; (split; [apply at_data_ok; rewrite ?Et; [done..|]|]).
  - by exists b.
  - apply strong_at_data.
  - done.
  - rewrite strong_at_data. f_equal. apply functional_extensionality_dep. intros l'.
    destruct (decide (l = l')) as [<-|]; [by rewrite put_eq|by rewrite put_ne].
Qed.

Lemma weak_step_ok w w' :
  weak_ok w -> weak_step w w' -> weak_ok w' /\ (strong w' = strong w \/ step prog_of (strong w) (strong w')).
Proof.
  intros W Hs. pose proof (wo_threads _ W) as Wt.
  assert (forall c w1, weak_ok w1 /\ strong w1 = turn prog_of c (strong w) ->
    weak_ok w1 /\ (strong w1 = strong w \/ step prog_of (strong w) (strong w1))) as Hturn.
  { intros c w1 [? E]. split; [done|]. right. by exists c. }
  destruct Hs as [c o k E|c o g r k E|c o g x k E|c o g l p k old h ev f E U|c o g l p k h f E U|c o g l B f q k E _].
  - apply (Hturn c). unfold turn. cbn [strong threads]. rewrite E. split; [|done].
    apply goes_ok; [done|by exists true|by rewrite E].
  - apply (Hturn c). unfold turn. cbn [strong threads]. rewrite E. split; [|done].
    specialize (Wt c). rewrite E in Wt. destruct Wt as (b & Hg). apply goes_ok; [done..|]. rewrite E. cbn. by rewrite Hg.
  - apply (Hturn c). unfold turn. cbn [strong threads]. rewrite E. split; [|done]. apply goes_ok; [done..|by rewrite E].
  - destruct old; [|by apply (Hturn c), take_step_ok]. rewrite <- E.
    destruct (miss_ok _ _ _ _ _ _ _ _ _ _ W E U). split; [done|by left].
  - by apply (Hturn c), drop_step_ok.
  - by apply (Hturn c), act_step_ok.
Qed.

Lemma weak_initial_ok s k : weak_ok (weak_initial s k).
Proof.
  split; cbn; [intros; apply cell_wf_first| |done]. intros l. apply (lock_free _ _ (first_message false)); cbn; [|done|].
  - split.
    + split; [by left|]. split; [done|]. by repeat constructor.
    + by intros m ->%list_elem_of_singleton.
    + by intros m ->%list_elem_of_singleton.
  - by intros c ?%elem_of_nil.
Qed.

(** No interleaving races, and each is one of the strong machine. *)
Lemma weak_refines s k w :
  rtc weak_step (weak_initial s k) w ->
  ~ racy w /\ rtc (step prog_of) (initial s k) (strong w) /\ weak_ok w.
Proof.
  intros Hr. assert (weak_ok w /\ rtc (step prog_of) (initial s k) (strong w)) as [W R].
  { refine (rtc_ind_r (fun w => weak_ok w /\ rtc (step prog_of) (initial s k) (strong w)) (weak_initial s k) _ _ w Hr).
    - split; [apply weak_initial_ok|]. done.
    - intros w1 w2 _ Hs [W R]. destruct (weak_step_ok _ _ W Hs) as [W2 [->|Hst]]; [done|].
      split; [done|]. by eapply rtc_r. }
  split_and!; [|done..]. intros (c & o & g & l & B & f & q & k' & E & Hn). apply Hn, guard_knows; [done|].
  pose proof (wo_threads _ W c) as Hw. rewrite E in Hw |- *. destruct Hw as (b & Hl & _). done.
Qed.

(* ------------------------------------------------------------------------- *)
(** ** Running it *)

#[local] Instance fits_dec {V} (h : list (message V)) f t : Decision (fits h f t).
Proof. unfold fits. apply _. Defined.

(** CPU [c]'s next access, which at a flag reads message [i], the newest being the first,
    and writes at [t]. *)
Definition weak_turn (w : weak) (x : cpu * (nat * Z)) : option weak :=
  let '(c, (i, t)) := x in
  match cpus w c with
  | Idle Stop | Dead _ _ => None
  | Idle (Call o k) => Some (goes w c (Inside o [] (prog_of o) k))
  | Inside o g (Ret r) k => Some (goes w c (Idle (k r)))
  | Inside o g (Fail x) k => Some (goes w c (Dead g x))
  | Inside o g (Locks.Acquire l p) k =>
      match (flags w l !! i : option (message bool)) with
      | None => None
      | Some m =>
      if decide (front w c l <= m_to m /\ fits (flags w l) (m_to m) t) then
        Some (at_flag w c l (mkMessage true (m_to m) t (m_released m ∪ (if releases swap_ordering then knows w c else ∅)) :: flags w l)
          (knows w c ∪ (if acquires swap_ordering then m_released m else ∅)) t
          (if m_val m then Inside o g (Locks.Acquire l p) k else Inside o (l :: g) p k))
      else None
      end
  | Inside o g (Locks.Release l p) k =>
      if decide (front w c l < t /\ fits (flags w l) (t - 1) t) then
        Some (at_flag w c l (mkMessage false (t - 1) t (if releases drop_ordering then knows w c else ∅) :: flags w l)
          (knows w c) t (Inside o (filter (.≠ l) g) p k))
      else None
  | Inside o g (Act l f q) k =>
      if decide (accesses w l ⊆ knows w c) then
        Some match f (contents w l) with
             | Ok (b, d) => at_data w c l d (Inside o g (q b) k)
             | Panic r => at_data w c l (contents w l) (Dead g r)
             end
      else None
  end.

Lemma weak_turn_step w x w' : weak_turn w x = Some w' -> weak_step w w'.
Proof.
  destruct x as [c [i t]]. unfold weak_turn.
  destruct (cpus w c) as [[|o k]|o g [r|x|l p|l p|l B f q] k|g r] eqn:E; try done; try (intros [= <-]; by econstructor).
  - destruct (flags w l !! i) as [m|] eqn:Em; [|done]. cbn. destruct (decide _) as [[Ha Hf]|]; [|done]. intros [= <-].
    apply (weak_swap w c o g l p k (m_val m)); [done|]. constructor; try done. by eapply list_elem_of_lookup_2.
  - destruct (decide _) as [[Ha Hf]|]; [|done]. intros [= <-]. apply weak_drop; [done|]. by constructor.
  - destruct (decide _) as [Ha|]; [|done]. intros [= <-]. by eapply weak_act.
Qed.

Definition weak_turns (w : weak) (xs : list (cpu * (nat * Z))) : option weak :=
  foldl (fun w x => w ≫= fun w => weak_turn w x) (Some w) xs.

Lemma weak_turns_reach w xs w' : weak_turns w xs = Some w' -> rtc weak_step w w'.
Proof.
  revert w. induction xs as [|x xs IH]; intros w; unfold weak_turns; cbn [foldl]; [by intros [= <-]|].
  change (Some w ≫= fun w => weak_turn w x) with (weak_turn w x).
  destruct (weak_turn w x) as [w1|] eqn:E.
  - intros H. eapply rtc_l; [by eapply weak_turn_step|]. by apply IH.
  - intros H. exfalso. assert (foldl (fun (w : option weak) x => w ≫= fun w => weak_turn w x) None xs = None) as E'; [|congruence].
    clear. by induction xs.
Qed.
End weak.
