(* ===== verification/WeakProgress.v ===== *)
(** * Progress under the orderings the code asks for

    A CPU on the machine of [WeakLocks] can always read a flag as it is now: the message
    by which a lock can be taken is not older than what any CPU has seen.  So whenever a
    CPU of [Locks] gets further, so does the CPU on weak memory, and what [Locks] proves
    of deadlocks and of ends reached carries over. *)

From stdpp Require Import relations.
From S2P Require Import Prelude Sync WeakMem Locks WeakLocks.

Section weak.
Context {L : Type} `{EqDecision L} (rank : L -> nat) {D : L -> Type}.
Context {Op : Type} {res : Op -> Type} (prog_of : forall o, @prog L D (res o)).

Local Abbreviation weak := (@weak L D Op res).
Local Abbreviation weak_step := (weak_step prog_of).
Local Abbreviation turn := (turn prog_of).
Local Abbreviation progress := (progress prog_of).

Implicit Types w : weak.

(** Some CPU's next step gets it further: not only a swap that finds the flag up. *)
Definition weak_progress w w' : Prop := weak_step w w' /\ progress (strong w) (strong w').

(** A step of an execution that gets further, with as many failed swaps before it as it likes. *)
Definition gets_further w w' : Prop := exists w1, rtc weak_step w w1 /\ strong w1 = strong w /\ weak_progress w1 w'.

(** No CPU has seen more of a flag than was written to it. *)
Definition seen w : Prop := forall c l, exists m, m ∈ flags w l /\ front w c l <= m_to m.

Lemma seen_initial s k : seen (weak_initial s k).
Proof. intros c l. exists (first_message false). cbn. split; [by left|lia]. Qed.

Lemma seen_at_flag w c l m k t : seen w -> seen (at_flag w c l (m :: flags w l) k (m_to m) t).
Proof.
  intros Hs c' l'. cbn. destruct (decide (l = l')) as [<-|Hl].
  - rewrite fn_lookup_insert. destruct (decide (c = c')) as [<-|Hc].
    + rewrite !fn_lookup_insert. exists m. split; [by left|lia].
    + rewrite fn_lookup_insert_ne by done. destruct (Hs c' l) as (m' & Hm & Hle). exists m'. split; [by right|done].
  - rewrite fn_lookup_insert_ne by done. destruct (decide (c = c')) as [<-|Hc].
    + rewrite fn_lookup_insert, fn_lookup_insert_ne by done. apply Hs.
    + rewrite fn_lookup_insert_ne by done. apply Hs.
Qed.

Lemma seen_step w w' : seen w -> weak_step w w' -> seen w'.
Proof.
  intros Hs Hw.
  destruct Hw as [c o k E|c o g r k E|c o g x k E|c o g l p k old h ev f E U|c o g l p k h f E U|c o g l B f q k E _]; try done.
  - destruct U as [m t]. by apply (seen_at_flag w c l (mkMessage true (m_to m) t _)).
  - destruct U as [f t]. by apply (seen_at_flag w c l (mkMessage false f t _)).
  - by destruct (f (contents w l)) as [[b d]|r].
Qed.

Lemma seen_reached w w' : seen w -> rtc weak_step w w' -> seen w'.
Proof. intros Hs Hr. induction Hr as [|w w1 w2 Hw _ IH]; [done|]. by apply IH, (seen_step w). Qed.

(* ------------------------------------------------------------------------- *)
(** ** What a CPU can do *)

(** There is room behind all messages. *)
Lemma fits_end (h : list (message bool)) f : (forall m, m ∈ h -> m_to m <= f) -> fits h f (f + 1).
Proof. intros Hh. split; [lia|]. apply list.Forall_forall. intros m Hm. left. by apply Hh. Qed.

Lemma end_of (h : list (message bool)) : exists f, forall m, m ∈ h -> m_to m <= f.
Proof.
  induction h as [|m h [f Hf]]; [exists 0; by intros m ?%elem_of_nil|]. exists (Z.max (m_to m) f).
  intros m' [->|Hm]%elem_of_cons; [lia|]. specialize (Hf m' Hm). lia.
Qed.

(** A swap that takes a free lock, by its newest message. *)
Lemma swap_enabled w c l m :
  seen w -> free_by (flags w l) m ->
  exists h ev f, updates swap_ordering (flags w l) (knows w c) (front w c l) false true h ev f.
Proof.
  intros Hs [[Hm [Hv _]] _ Hlast]. do 3 eexists. apply (update_behind _ _ _ _ _ _ m (m_to m + 1)); [done| |done|by apply fits_end].
  destruct (Hs c l) as (m' & Hm' & Hle). specialize (Hlast m' Hm'). lia.
Qed.

(** A store behind everything. *)
Lemma store_enabled w c l :
  seen w -> exists h f, stores drop_ordering (flags w l) (knows w c) (front w c l) false h f.
Proof.
  intros Hs. destruct (end_of (flags w l)) as [f Hf]. do 2 eexists. apply (store_at _ _ _ _ _ f (f + 1)); [|by apply fits_end].
  destruct (Hs c l) as (m' & Hm' & Hle). specialize (Hf m' Hm'). lia.
Qed.

Hypothesis progs_ok : forall o, well_locked rank [] true (prog_of o).

(** Whatever gets a CPU further in [Locks], it can do here. *)
Lemma weak_moves w c :
  weak_ok rank w -> seen w -> can_move (strong w) c -> exists w', weak_step w w' /\ strong w' = turn c (strong w).
Proof.
  intros W Hs. unfold can_move. cbn [strong threads].
  destruct (cpus w c) as [[|o k]|o g [r|x|l p|l p|l B f q] k|g r] eqn:Et; try done; intros Hm.
  - exists (goes w c (Inside o [] (prog_of o) k)). split; [by apply weak_call|]. unfold Locks.turn. cbn. by rewrite Et.
  - exists (goes w c (Idle (k r))). split; [by eapply weak_return|]. unfold Locks.turn. cbn. by rewrite Et.
  - exists (goes w c (Dead g x)). split; [by eapply weak_fail|]. unfold Locks.turn. cbn. by rewrite Et.
  - destruct (wo_locks _ _ W l) as [m Hf _ _|c0 T Ht _ _ _ _]; [|cbn in Hm; by rewrite (held_takeable _ _ Ht) in Hm].
    destruct (swap_enabled w c l m Hs Hf) as (h & ev & f & U).
    eexists. split; [by eapply weak_swap|]. by apply (take_step_ok rank prog_of).
  - destruct (store_enabled w c l Hs) as (h & f & U).
    eexists. split; [by eapply weak_drop|]. by apply (drop_step_ok rank prog_of).
  - eexists. split; [|by apply (act_step_ok rank prog_of)]. apply (weak_act _ _ _ _ _ _ _ _ _ _ Et), (guard_knows rank); [done|].
    pose proof (wo_threads _ _ W c) as Hw. rewrite Et in Hw |- *. destruct Hw as (b & Hl & _). done.
Qed.

Lemma weak_moves_progress w c :
  weak_ok rank w -> seen w -> can_move (strong w) c -> exists w', weak_progress w w' /\ strong w' = turn c (strong w).
Proof.
  intros W Hs Hm. destruct (weak_moves w c W Hs Hm) as (w' & Hw & E). exists w'. split; [|done]. split; [done|]. by exists c.
Qed.

(** The whole way. *)
Lemma weak_follows m m' :
  rtc progress m m' -> forall w, weak_ok rank w -> seen w -> strong w = m ->
  exists w', rtc weak_progress w w' /\ strong w' = m' /\ weak_ok rank w'.
Proof.
  induction 1 as [m|m m1 m2 (c & Hm & ->) _ IH]; intros w W Hs E; [by exists w|]. subst m.
  destruct (weak_moves_progress w c W Hs Hm) as (w1 & [Hw Hp] & E1).
  destruct (weak_step_ok rank prog_of progs_ok w w1 W Hw) as [W1 _].
  destruct (IH w1 W1 (seen_step _ _ Hs Hw) E1) as (w2 & R & E2 & W2).
  exists w2. split_and!; [|done..]. by eapply rtc_l.
Qed.

(** A step is a failed swap, or gets its CPU further ... *)
Lemma weak_step_or w w' : weak_ok rank w -> weak_step w w' -> strong w' = strong w \/ weak_progress w w'.
Proof.
  intros W Hw. destruct (weak_step_ok rank prog_of progs_ok w w' W Hw) as [_ [E|[c E]]]; [by left|].
  destruct (can_move_dec (strong w) c) as [Hm|Hm]; [right; split; [done|by exists c]|left].
  by rewrite E, turn_stuck.
Qed.

(** ... and of the latter there are only so many. *)
Lemma gets_further_acc w : Acc (flip progress) (strong w) -> Acc (flip gets_further) w.
Proof.
  intros Ha. remember (strong w) as m eqn:E. revert w E. induction Ha as [m _ IH]. intros w ->. constructor.
  intros w' (w1 & _ & E1 & _ & Hp). rewrite E1 in Hp. by apply (IH (strong w')).
Qed.

Lemma weak_interleaving_completes N (cs : list cpu) s k w :
  (forall l, rank l < N)%nat -> (forall c, c ∉ cs -> k c = Stop) -> never_panics prog_of (calls_initial s k) ->
  rtc weak_step (weak_initial s k) w ->
  Acc (flip gets_further) w /\
  exists w' a, rtc weak_progress w w' /\ (forall c, cpus w' c = Idle Stop) /\ weak_ok rank w' /\
    rtc (call_step prog_of) (calls_initial s k) a /\
    forall l, takeable (flags w' l) = true /\ contents w' l = state_of a l.
Proof.
  intros HN Hk Hn Hr. destruct (weak_refines rank prog_of progs_ok s k w Hr) as (_ & R & W).
  destruct (interleaving_completes rank prog_of progs_ok N cs s k _ HN Hk Hn R) as [Hacc (m' & a & Rm & Hf & Ra & S)].
  split; [by apply gets_further_acc|].
  destruct (weak_follows _ _ Rm w W (seen_reached _ _ (seen_initial s k) Hr) eq_refl) as (w' & Rw & <- & W').
  exists w', a. split_and!; [done|exact Hf|done|done|].
  intros l. destruct (finished_agrees rank prog_of _ _ Hf S) as [_ Hl]. destruct (Hl l) as [Hu Hd].
  split; [by apply negb_false_iff|exact Hd].
Qed.
End weak.
