(* ===== verification/KernelOps.v ===== *)
(** * The kernel's operations and the locks they take

    The statics [ALLOCATOR] ([mm/slab.rs]), [BUDDY] ([mm/buddy.rs]) and [UART]
    ([builtin/uart.rs]) are each behind a lock once [BUDDY] is up.  Every operation that
    takes one is a [prog] of [Locks], with its [lock()] calls where the source has them
    and its guards dropped where their scopes end.  Run alone, each is the function of
    [Slab], [Boot] or [Uart] that the other files reason about.  What a CPU does with the
    bytes of objects and pages it owns touches nothing behind a lock and is left out, as
    is the zeroing of a page just granted. *)

From stdpp Require Import strings relations.
From S2P Require Import Prelude FrameTypes Layout Fmt Uart Sync Buddy BuddyInv BuddyGeom BuddyWf BuddySteps BuddyCore BuddyFree BuddyRange BuddyCanon BuddyProps BuddyAddr Boot Slab SlabInv SlabProps Smp Locks.
Open Scope list_scope.
Open Scope Z_scope.

(** The statics, in the order in which they may be taken. *)
Inductive static := ALLOCATOR | BUDDY | UART.

#[export] Instance static_eq_dec : EqDecision static.
Proof. solve_decision. Defined.

Definition rank_of (l : static) : nat := match l with ALLOCATOR => 0 | BUDDY => 1 | UART => 2 end.

(** What [ALLOCATOR]'s lock protects: the lists' heads, and the links in free objects. *)
Record SlabData := mkSlabData { lists : list (option Z); words : Z -> Z }.

Section ops.
Context {P : Profile} {Dev : Type} (bus_read : Z -> Dev -> Z * Dev) (bus_write : Z -> Z -> Dev -> Dev).
Context `{PL011 Dev bus_read bus_write} (fuel : nat).

Definition protected (l : static) : Type :=
  match l with ALLOCATOR => SlabData | BUDDY => BuddyAllocator | UART => Dev end.

Local Abbreviation statics := (forall l, protected l).
Local Abbreviation prog := (@prog static protected).
Local Abbreviation Acquire l k := (@Acquire static protected _ l k).
Local Abbreviation Release l k := (@Release static protected _ l k).
Local Abbreviation Act l f k := (@Act static protected _ l _ f k).

(** Code that uses no guard. *)
Definition lift {A R} (x : outcome A) (k : A -> prog R) : prog R :=
  match x with Ok a => k a | Panic r => Fail r end.

(** What a method of [Slab] does through the guard; it does not see [BUDDY]. *)
Definition on_slab {A} (f : World -> outcome (A * World)) (d : SlabData) : outcome (A * SlabData) :=
  let! '(a, w) := f (mkWorld (lists d) (words d) None) in
  Ok (a, mkSlabData (free_lists w) (heap w)).

Definition no_result {S} (f : S -> outcome S) (s : S) : outcome (unit * S) :=
  let! s := f s in Ok (tt, s).

(* ------------------------------------------------------------------------- *)
(** ** The operations *)

(** [kernel_log!]: [writeln!] writes the pieces of its text through one guard. *)
Fixpoint write_pieces {R} (pieces : list (list Z)) (k : prog R) : prog R :=
  match pieces with
  | [] => k
  | s :: pieces =>
      Act UART (no_result (UartDriver_write_str bus_read bus_write fuel s)) (fun _ => write_pieces pieces k)
  end.

Definition kernel_log_prog {R} (pieces : list (list Z)) (k : prog R) : prog R :=
  Acquire UART (write_pieces pieces (Release UART k)).

(** [Slab::refill], inside [ALLOCATOR]'s guard: [BUDDY]'s is a temporary of the [let]. *)
Definition refill_prog {R} (i : Z) (k : option unit -> prog R) : prog R :=
  Acquire BUDDY (Act BUDDY BuddyAllocator_alloc_page (fun r => Release BUDDY
    match r with
    | None => k None
    | Some pa => Act ALLOCATOR (on_slab (no_result (Slab_carve i pa))) (fun _ => k (Some tt))
    end)).

Definition large_alloc_prog (size : Z) : prog Z :=
  lift (pages_order size) (fun order =>
  Acquire BUDDY (Act BUDDY (fun b => BuddyAllocator_alloc_pages b order) (fun r => Release BUDDY
    match r with
    | Some pa => lift (pa_to_linear_va pa) Ret
    | None => Ret 0
    end))).

Definition large_dealloc_prog (ptr size : Z) : prog unit :=
  lift (linear_va_to_pa ptr) (fun pa =>
  Acquire BUDDY (Act BUDDY (no_result (fun b => let! order := pages_order size in BuddyAllocator_free_pages b pa order))
    (fun _ => Release BUDDY (Ret tt)))).

(** [LockedSlab::alloc]: the guard lives to the end of the arm. *)
Definition pop_prog (i : Z) : prog Z :=
  Act ALLOCATOR (on_slab (Slab_pop i)) (fun p => Release ALLOCATOR (Ret (default 0 p))).

Definition alloc_prog (size align : Z) : prog Z :=
  lift (size_class_index size align) (fun class =>
  match class with
  | Some i =>
      Acquire ALLOCATOR (Act ALLOCATOR (on_slab (fun w => let! head := idx (free_lists w) i in Ok (head, w))) (fun head =>
        match head with
        | None => refill_prog i (fun r => match r with None => Release ALLOCATOR (Ret 0) | Some _ => pop_prog i end)
        | Some _ => pop_prog i
        end))
  | None => large_alloc_prog size
  end).

Definition dealloc_prog (ptr size align : Z) : prog unit :=
  lift (size_class_index size align) (fun class =>
  match class with
  | Some i =>
      lift (unwrap (if ptr =? 0 then None else Some ptr)) (fun p =>
      Acquire ALLOCATOR (Act ALLOCATOR (on_slab (no_result (Slab_push i p))) (fun _ => Release ALLOCATOR (Ret tt))))
  | None => large_dealloc_prog ptr size
  end).

(** [frame::alloc_page], up to the zeroing: [expect] runs before the guard drops. *)
Definition alloc_page_prog : prog Z :=
  Acquire BUDDY (Act BUDDY
    (fun b => let! '(r, b) := BuddyAllocator_alloc_page b in let! pa := unwrap r in Ok (pa, b))
    (fun pa => Release BUDDY (Ret pa))).

(** [smp::alloc_stack]. *)
Definition alloc_stack_prog : prog (option Z) :=
  Acquire BUDDY (Act BUDDY (fun b => BuddyAllocator_alloc_pages b STACK_ORDER) (fun r => Release BUDDY
    match r with
    | None => Ret None
    | Some pa => lift (pa_to_linear_va pa) (fun va => lift (uadd 64 va STACK_SIZE) (fun top => Ret (Some top)))
    end)).

(** [reclaim_trampoline]: it logs while it holds [BUDDY]. *)
Definition reclaim_line (bb_start bb_end : Z) : list (list Z) :=
  [bytes_of "reclaimed "; bytes_of (decimal ((bb_end - bb_start) / PAGE_SIZE)); bytes_of " trampoline pages" ++ [10]].

Definition reclaim_prog (bb_start bb_end : Z) : prog unit :=
  Acquire BUDDY (Act BUDDY (no_result (fun b => reclaim_trampoline b bb_start bb_end)) (fun _ =>
    kernel_log_prog (reclaim_line bb_start bb_end) (Release BUDDY (Ret tt)))).

(** The line of [secondary_cpu_main]. *)
Definition online_line (cpu mpidr : Z) : list (list Z) :=
  [bytes_of "CPU "; bytes_of (decimal cpu); bytes_of " online (mpidr="; bytes_of (hex_alt mpidr); bytes_of ")" ++ [10]].

Inductive kernel_op :=
  | op_alloc (size align : Z)
  | op_dealloc (ptr size align : Z)
  | op_alloc_page
  | op_alloc_stack
  | op_reclaim (bb_start bb_end : Z)
  | op_log (pieces : list (list Z)).

Definition result (o : kernel_op) : Type :=
  match o with
  | op_alloc _ _ | op_alloc_page => Z
  | op_alloc_stack => option Z
  | op_dealloc _ _ _ | op_reclaim _ _ | op_log _ => unit
  end.

Definition kernel_prog (o : kernel_op) : prog (result o) :=
  match o with
  | op_alloc size align => alloc_prog size align
  | op_dealloc ptr size align => dealloc_prog ptr size align
  | op_alloc_page => alloc_page_prog
  | op_alloc_stack => alloc_stack_prog
  | op_reclaim s e => reclaim_prog s e
  | op_log pieces => kernel_log_prog pieces (Ret tt)
  end.

(* ------------------------------------------------------------------------- *)
(** ** They take their locks in order *)

Lemma well_lift {A R} (x : outcome A) (k : A -> prog R) g b :
  (forall a, well_locked rank_of g b (k a)) -> well_locked rank_of g b (lift x k).
Proof. destruct x; simpl; auto. Qed.

Lemma well_write {R} pieces (k : prog R) g b :
  UART ∈ g -> well_locked rank_of g b k -> well_locked rank_of g b (write_pieces pieces k).
Proof. intros Hg Hk. induction pieces as [|s pieces IH]; simpl; auto. Qed.

(** One access under the guard just taken, and the guard's end. *)
Ltac well_locked :=
  repeat first
    [ progress intros
    | apply well_lift
    | match goal with
      | |- well_locked _ _ _ (match ?x with _ => _ end) => destruct x
      | |- well_locked _ _ _ _ => cbn [well_locked]
      | |- _ /\ _ => split
      | |- _ ∈ _ => set_solver
      | |- Forall _ _ => repeat constructor; cbn; lia
      | |- _ = _ => reflexivity
      end ].

Lemma kernel_prog_locks o : well_locked rank_of [] true (kernel_prog o).
Proof.
  destruct o as [size align|ptr size align| | |s e|pieces]; cbn [kernel_prog];
    unfold alloc_prog, pop_prog, large_alloc_prog, refill_prog, dealloc_prog, large_dealloc_prog, alloc_page_prog,
      alloc_stack_prog, reclaim_prog, kernel_log_prog.
  all: well_locked.
  all: try (apply well_write; [set_solver|]); well_locked.
Qed.

Lemma avoids_lift {A R} (x : outcome A) (k : A -> prog R) l : (forall a, avoids l (k a)) -> avoids l (lift x k).
Proof. destruct x; simpl; auto. Qed.

(** Only what logs uses the console. *)
Lemma kernel_prog_console o :
  match o with op_log _ | op_reclaim _ _ => True | _ => avoids UART (kernel_prog o) end.
Proof.
  destruct o as [size align|ptr size align| | |s e|pieces]; cbn [kernel_prog]; try done;
    unfold alloc_prog, pop_prog, large_alloc_prog, refill_prog, dealloc_prog, large_dealloc_prog, alloc_page_prog,
      alloc_stack_prog.
  all: repeat first
    [ progress intros
    | apply avoids_lift
    | match goal with
      | |- avoids _ (match ?x with _ => _ end) => destruct x
      | |- avoids _ _ => cbn [avoids]
      | |- _ /\ _ => split
      | |- _ => done
      end ].
Qed.

(* ------------------------------------------------------------------------- *)
(** ** Alone, they are the functions of the other files *)

(** [Slab]'s world, once [BUDDY] is up. *)
Definition world (s : statics) : World := mkWorld (lists (s ALLOCATOR)) (words (s ALLOCATOR)) (Some (s BUDDY)).

(** [x] is how a [prog] ran from [s], [y] what the function of [Slab] gives. *)
Definition runs_as {A} (s : statics) (x : outcome A * statics) (y : outcome (A * World)) : Prop :=
  match y with
  | Ok (a, w) => x.1 = Ok a /\ world x.2 = w /\ x.2 UART = s UART
  | Panic r => x.1 = Panic r
  end.

(** What does not look at [BUDDY]. *)
Definition slab_only {A} (f : World -> outcome (A * World)) : Prop :=
  forall ls h bd, f (mkWorld ls h bd) =
    let! '(a, w) := f (mkWorld ls h None) in Ok (a, mkWorld (free_lists w) (heap w) bd).

Lemma slab_only_ok {A} (f : World -> outcome (A * World)) ls h bd a w :
  slab_only f -> f (mkWorld ls h None) = Ok (a, w) -> f (mkWorld ls h bd) = Ok (a, mkWorld (free_lists w) (heap w) bd).
Proof. intros Hf E. by rewrite Hf, E. Qed.

Lemma slab_only_pop i : slab_only (Slab_pop i).
Proof.
  intros ls h bd. unfold Slab_pop. cbn [free_lists heap]. destruct (idx ls i) as [[p|]|]; [|done..]. cbn [obind].
  by destruct (set_idx ls i _).
Qed.

Lemma slab_only_head i : slab_only (fun w => let! head := idx (free_lists w) i in Ok (head, w)).
Proof. intros ls h bd. cbn [free_lists]. by destruct (idx ls i). Qed.

Lemma push_buddy i p ls h bd :
  Slab_push i p (mkWorld ls h bd) =
  let! w := Slab_push i p (mkWorld ls h None) in Ok (mkWorld (free_lists w) (heap w) bd).
Proof.
  unfold Slab_push. cbn [free_lists heap with_heap]. destruct (idx ls i); [|done]. cbn [obind].
  by destruct (set_idx ls i _).
Qed.

Lemma slab_only_push i p : slab_only (no_result (Slab_push i p)).
Proof. intros ls h bd. unfold no_result. rewrite push_buddy. by destruct (Slab_push i p _). Qed.

Lemma carve_loop_buddy base size i ks ls h bd :
  foldM (refill_step base size i) ks (mkWorld ls h bd) =
  let! w := foldM (refill_step base size i) ks (mkWorld ls h None) in Ok (mkWorld (free_lists w) (heap w) bd).
Proof.
  revert ls h. induction ks as [|k ks IH]; intros ls h; simpl; [done|]. unfold refill_step.
  destruct (umul 64 k size); [|done]. cbn [obind]. destruct (uadd 64 base _) as [p|]; [|done]. cbn [obind].
  rewrite push_buddy. destruct (Slab_push i p _) as [[ls' h' bd']|] eqn:E; [|done]. cbn [obind free_lists heap].
  rewrite IH. replace bd' with (@None BuddyAllocator); [done|].
  unfold Slab_push in E. cbn [free_lists with_heap] in E. destruct (idx ls i); [|done]. cbn [obind] in E.
  destruct (set_idx ls i _); [|done]. by injection E.
Qed.

Lemma slab_only_carve i pa : slab_only (no_result (Slab_carve i pa)).
Proof.
  intros ls h bd. unfold no_result, Slab_carve. destruct (pa_to_linear_va pa); [|done]. cbn [obind].
  destruct (idx CLASSES i); [|done]. cbn [obind]. destruct (objects_per_page i); [|done]. cbn [obind].
  rewrite carve_loop_buddy. by destruct (foldM _ _ _).
Qed.

Lemma run_acquire {R} l (p : prog R) (s : statics) : run (Acquire l p) s = run p s.
Proof. done. Qed.

(** The slab's part of [w]. *)
Definition set_slab (s : statics) (w : World) : statics :=
  put (F := protected) s ALLOCATOR (mkSlabData (free_lists w) (heap w)).

Lemma world_set_slab (s : statics) w : buddy w = Some (s BUDDY) -> world (set_slab s w) = w.
Proof. intros Hb. destruct w as [ls h bd]. cbn in Hb. by rewrite Hb. Qed.

(** An access to the slab's data is the method on the whole world. *)
Lemma run_slab {A R} (f : World -> outcome (A * World)) (k : A -> prog R) (s : statics) :
  slab_only f ->
  run (Act ALLOCATOR (on_slab f) k) s =
    match f (world s) with Ok (a, w) => run (k a) (set_slab s w) | Panic r => (Panic r, s) end /\
  forall a w, f (world s) = Ok (a, w) -> world (set_slab s w) = w.
Proof.
  intros Hf. pose proof (Hf (lists (s ALLOCATOR)) (words (s ALLOCATOR)) (Some (s BUDDY))) as E. fold (world s) in E.
  cbn [run]. unfold on_slab at 1. destruct (f (mkWorld _ _ None)) as [[a w]|r]; cbn [obind] in *; rewrite E; (split; [done|]).
  - by intros ? ? [= <- <-].
  - done.
Qed.

Lemma run_slab_unit {R} (f : World -> outcome World) (k : unit -> prog R) (s : statics) :
  slab_only (no_result f) ->
  run (Act ALLOCATOR (on_slab (no_result f)) k) s =
    match f (world s) with Ok w => run (k tt) (set_slab s w) | Panic r => (Panic r, s) end /\
  forall w, f (world s) = Ok w -> world (set_slab s w) = w.
Proof.
  intros Hf. destruct (run_slab _ k s Hf) as [-> Hw]. unfold no_result in *. split; [by destruct (f (world s))|].
  intros w E. apply (Hw tt). by rewrite E.
Qed.

Lemma run_release {R} l (p : prog R) (s : statics) : run (Release l p) s = run p s.
Proof. done. Qed.

Lemma run_buddy {A R} (f : BuddyAllocator -> outcome (A * BuddyAllocator)) (k : A -> prog R) (s : statics) :
  run (Act BUDDY f k) s =
  match f (s BUDDY) with Ok (a, b) => run (k a) (put (F := protected) s BUDDY b) | Panic r => (Panic r, s) end.
Proof. done. Qed.

(** [BUDDY]'s part of [b]. *)
Lemma world_put_buddy (s : statics) b : world (put (F := protected) s BUDDY b) = with_buddy (world s) b.
Proof. done. Qed.

Lemma run_pop i (s s0 : statics) :
  s UART = s0 UART ->
  runs_as s0 (run (pop_prog i) s)
    (let! '(p, w) := Slab_pop i (world s) in Ok (default 0 p, w)).
Proof.
  intros Hu. unfold pop_prog. destruct (run_slab _ (fun p : option Z => Release ALLOCATOR (Ret (default 0 p))) s (slab_only_pop i)) as [-> Hw].
  destruct (Slab_pop i (world s)) as [[p w]|]; [|done]. cbn. split_and!; [done|by eapply Hw|done].
Qed.

Lemma large_alloc_runs size (s : statics) : runs_as s (run (large_alloc_prog size) s) (large_alloc size (world s)).
Proof.
  unfold large_alloc_prog, large_alloc. destruct (pages_order size) as [o|]; [|done]. cbn [lift obind run world buddy].
  destruct (BuddyAllocator_alloc_pages (s BUDDY) o) as [[[pa|] b]|]; cbn [obind run]; [|done..].
  by destruct (pa_to_linear_va pa).
Qed.

Lemma alloc_runs size align (s : statics) :
  runs_as s (run (alloc_prog size align) s) (LockedSlab_alloc size align (world s)).
Proof.
  unfold alloc_prog, LockedSlab_alloc. destruct (size_class_index size align) as [[i|]|]; [| |done]; cbn [lift obind].
  2: apply large_alloc_runs.
  rewrite run_acquire.
  match goal with |- runs_as _ (run (Act ALLOCATOR _ ?k) s) _ => destruct (run_slab _ k s (slab_only_head i)) as [-> Hw] end.
  destruct (idx (free_lists (world s)) i) as [head|] eqn:Eh; cbn [obind] in *; [|done].
  specialize (Hw head (world s) eq_refl). set (s1 := set_slab s (world s)) in *.
  assert (s1 UART = s UART) as Hu by done. assert (s1 BUDDY = s BUDDY) as Hb by done.
  destruct head as [p|]; cbn [obind negb]; [rewrite <- Hw; by apply run_pop|].
  unfold refill_prog, Slab_refill. rewrite run_acquire. cbn [world buddy].
  rewrite (run_buddy BuddyAllocator_alloc_page), Hb.
  destruct (BuddyAllocator_alloc_page (s BUDDY)) as [[[pa|] b]|]; cbn [obind]; [| |done]; rewrite run_release.
  - destruct (run_slab_unit _ (fun _ => pop_prog i) (put (F := protected) s1 BUDDY b) (slab_only_carve i pa)) as [-> Hc].
    rewrite world_put_buddy, Hw in *. fold (world s).
    destruct (Slab_carve i pa (with_buddy (world s) b)) as [w|]; cbn [obind]; [|done].
    rewrite bool_decide_true by eauto. cbn [negb]. rewrite <- (Hc w eq_refl) at 2. by apply run_pop.
  - rewrite bool_decide_false by (by intros []). cbn [negb]. split_and!; [done| |done].
    rewrite run_release. cbn [run snd]. by rewrite world_put_buddy, Hw.
Qed.

Lemma dealloc_runs ptr size align (s : statics) :
  runs_as s (run (dealloc_prog ptr size align) s)
    (let! w := LockedSlab_dealloc ptr size align (world s) in Ok (tt, w)).
Proof.
  unfold dealloc_prog, LockedSlab_dealloc. destruct (size_class_index size align) as [[i|]|]; [| |done]; cbn [lift obind].
  - destruct (unwrap _) as [p|]; [|done]. cbn [lift obind]. rewrite run_acquire.
    destruct (run_slab_unit _ (fun _ => Release ALLOCATOR (Ret tt)) s (slab_only_push i p)) as [-> Hw].
    destruct (Slab_push i p (world s)) as [w|]; [|done]. cbn. split_and!; [done|by apply Hw|done].
  - unfold large_dealloc_prog, large_dealloc. destruct (linear_va_to_pa ptr) as [pa|]; [|done].
    cbn [lift obind run world buddy]. unfold no_result. destruct (pages_order size) as [o|]; [|done]. cbn [obind].
    by destruct (BuddyAllocator_free_pages (s BUDDY) pa o).
Qed.
(** The console gets the pieces one after the other, and nothing else changes. *)
Lemma write_pieces_runs {R} pieces (k : prog R) (s : statics) :
  (patience bus_read bus_write < fuel)%nat ->
  exists d, run (write_pieces pieces k) s = run k (put (F := protected) s UART d) /\
            sent d = sent (s UART) ++ concat pieces.
Proof.
  intros Hf. revert s. induction pieces as [|x pieces IH]; intros s.
  - exists (s UART). rewrite put_id, app_nil_r. done.
  - destruct (write_str_ok bus_read bus_write fuel x (s UART) Hf) as (d1 & E & Hd1).
    destruct (IH (put (F := protected) s UART d1)) as (d & Hr & Hd). exists d. cbn [write_pieces run].
    unfold no_result, UartDriver_write_str at 1. rewrite E. cbn [obind]. rewrite Hr, put_put. split; [done|].
    etrans; [exact Hd|]. etrans; [exact (f_equal (.++ concat pieces) Hd1)|]. by rewrite <- (assoc (++)).
Qed.

(** A whole line on the console; the rest as it was. *)
Definition console (s : statics) : list Z := sent (s UART).

Definition logged (s s' : statics) (pieces : list (list Z)) : Prop :=
  world s' = world s /\ console s' = console s ++ concat pieces.

Lemma kernel_log_runs pieces (s : statics) :
  (patience bus_read bus_write < fuel)%nat ->
  exists s', run (kernel_log_prog pieces (Ret tt)) s = (Ok tt, s') /\ logged s s' pieces.
Proof.
  intros Hf. unfold kernel_log_prog. rewrite run_acquire.
  destruct (write_pieces_runs pieces (Release UART (Ret tt)) s Hf) as (d & -> & Hd). eexists. split; [done|]. by split.
Qed.

Lemma reclaim_runs lo hi (s : statics) b :
  (patience bus_read bus_write < fuel)%nat -> reclaim_trampoline (s BUDDY) lo hi = Ok b ->
  exists s', run (reclaim_prog lo hi) s = (Ok tt, s') /\
    logged (put (F := protected) s BUDDY b) s' (reclaim_line lo hi).
Proof.
  intros Hf E. unfold reclaim_prog. rewrite run_acquire, run_buddy. unfold no_result. rewrite E. cbn [obind].
  unfold kernel_log_prog. rewrite run_acquire.
  destruct (write_pieces_runs (reclaim_line lo hi) (Release UART (Release BUDDY (Ret tt))) (put (F := protected) s BUDDY b) Hf)
    as (d & -> & Hd). eexists. split; [done|]. by split.
Qed.
End ops.
