(* ===== verification/KernelCalls.v ===== *)
(** * What CPUs can rely on when they call the kernel's operations at once

    CPUs call the operations of [KernelOps] in any number and order, interleaved access
    by access.  [grant] keeps who holds which objects, pages and stacks, from what the
    calls return; a CPU is [tidy] when it frees only what it holds.  Then what is held
    never overlaps, no call panics but an [expect] on an empty allocator, every line
    reaches the console whole, and the calls all return. *)

From stdpp Require Import strings relations.
From S2P Require Import Prelude FrameTypes Layout Fmt Uart Sync Buddy BuddyInv BuddyGeom BuddyWf BuddySteps BuddyCore BuddyFree BuddyRange BuddyCanon BuddyProps BuddyAddr Boot Slab SlabInv SlabProps Smp Locks KernelOps.
Open Scope list_scope.
Open Scope Z_scope.

(* ------------------------------------------------------------------------- *)
(** ** What CPUs hold *)

Inductive item :=
  | Obj (p size align : Z)
  | Page (pa : Z)
  | Stack (top : Z).

#[export] Instance item_eq_dec : EqDecision item.
Proof. solve_decision. Defined.

(** The first [x] of [l] removed. *)
Fixpoint remove_one {A} `{EqDecision A} (x : A) (l : list A) : list A :=
  match l with
  | [] => []
  | y :: l => if decide (x = y) then l else y :: remove_one x l
  end.

Lemma remove_one_perm {A} `{EqDecision A} (x : A) l : x ∈ l -> l ≡ₚ x :: remove_one x l.
Proof.
  induction l as [|y l IH]; [by intros ?%elem_of_nil|]. simpl. destruct (decide (x = y)) as [<-|Hne]; [done|].
  intros [->|Hin]%elem_of_cons; [done|]. rewrite (IH Hin) at 1. by rewrite Permutation_swap.
Qed.

Section calls.
Context {P : Profile} {Dev : Type} (bus_read : Z -> Dev -> Z * Dev) (bus_write : Z -> Z -> Dev -> Dev).
Context `{PL011 Dev bus_read bus_write} (fuel : nat).

Local Abbreviation ops := (kernel_prog bus_read bus_write fuel).
Local Abbreviation client := (@client kernel_op result).
Local Abbreviation event := (@event kernel_op result).
Local Abbreviation statics := (forall l, protected (Dev := Dev) l).

(** The linear-map addresses of an item. *)
Definition region (x : item) : object :=
  match x with
  | Obj p size align => (p, usable size align)
  | Page pa => (pa + KERNEL_LINEAR_BASE, PAGE_SIZE)
  | Stack top => (top - STACK_SIZE, STACK_SIZE)
  end.

(** What a CPU holds once [o] has returned [v] to it. *)
Definition held_after (o : kernel_op) : result o -> list item -> list item :=
  match o return result o -> list item -> list item with
  | op_alloc size align => fun p own => if p =? 0 then own else Obj p size align :: own
  | op_dealloc p size align => fun _ own => remove_one (Obj p size align) own
  | op_alloc_page => fun pa own => Page pa :: own
  | op_alloc_stack => fun r own => match r with Some top => Stack top :: own | None => own end
  | op_reclaim _ _ | op_log _ => fun _ own => own
  end.

Definition grant (own : cpu -> list item) (e : event) : cpu -> list item :=
  match e with
  | Event c o (Ok v) => <[c := held_after o v (own c)]> own
  | Event _ _ (Panic _) => own
  end.

(** [Layout] makes sound requests, and a CPU frees what it holds, with the layout it
    asked for; [pages] says whether it may ask for pages, whose refusal panics. *)
Fixpoint tidy (pages : bool) (own : list item) (k : client) : Prop :=
  match k with
  | Stop => True
  | Call o k =>
      match o with
      | op_alloc size align => layout_ok size align
      | op_dealloc p size align => layout_ok size align /\ Obj p size align ∈ own
      | op_alloc_page => pages = true
      | op_alloc_stack | op_log _ => True
      | op_reclaim _ _ => False
      end /\
      forall v, tidy pages (held_after o v own) (k v)
  end.

Definition regions (cs : list cpu) (own : cpu -> list item) : list object := cs ≫= fun c => region <$> own c.

Lemma regions_others cs own c l :
  c ∉ cs -> regions cs (<[c := l]> own) = regions cs own.
Proof.
  unfold regions. induction cs as [|c' cs IH]; intros Hc; [done|]. csimpl.
  rewrite fn_lookup_insert_ne by set_solver. by rewrite IH by set_solver.
Qed.

(** One CPU's part of what is held. *)
Lemma regions_split cs own c :
  NoDup cs -> c ∈ cs ->
  exists rest, regions cs own ≡ₚ (region <$> own c) ++ rest /\
               forall l, regions cs (<[c := l]> own) ≡ₚ (region <$> l) ++ rest.
Proof.
  intros Hnd (l1 & l2 & ->)%list_elem_of_split. apply list.NoDup_app in Hnd as (_ & H1 & H2).
  apply list.NoDup_cons in H2 as [H2 _]. exists (regions l1 own ++ regions l2 own).
  unfold regions. split; [|intros l]; rewrite bind_app; csimpl.
  - by rewrite !(assoc (++)), (comm (++) (l1 ≫= _)).
  - rewrite fn_lookup_insert. fold (regions l1 (<[c:=l]> own)). fold (regions l2 (<[c:=l]> own)).
    rewrite !regions_others by set_solver. by rewrite !(assoc (++)), (comm (++) (regions l1 _)).
Qed.

(* ------------------------------------------------------------------------- *)
(** ** One call *)

(** What a call must leave, when the caller held [own] and the others [rest]. *)
Definition call_keeps (pages : bool) (own : list item) (rest : list object) (o : kernel_op)
    (r : outcome (result o)) (s : statics) : Prop :=
  match r with
  | Ok v => exists fl, slab_inv fl ((region <$> held_after o v own) ++ rest) (world s)
  | Panic x => pages = true /\ x = UnwrapNone /\ exists fl, slab_inv fl ((region <$> own) ++ rest) (world s)
  end.

Definition heap_ok (own : list item) (rest : list object) (s : statics) : Prop :=
  exists fl, slab_inv fl ((region <$> own) ++ rest) (world s).

Lemma runs_as_inv {A} (s : statics) x (a : A) w : runs_as s x (Ok (a, w)) -> exists s', x = (Ok a, s') /\ world s' = w.
Proof. intros (E & Hw & _). destruct x as [y s']. cbn in *. subst. eauto. Qed.

Lemma call_alloc pages own rest size align s :
  heap_ok own rest s -> layout_ok size align ->
  call_keeps pages own rest (op_alloc size align) (run (alloc_prog size align) s).1 (run (alloc_prog size align) s).2.
Proof.
  intros [fl I] HL. pose proof (alloc_runs size align s) as R.
  destruct (alloc_ok _ _ _ _ _ I HL) as [(p & w & fl' & E & Hp & I')|[E _]]; rewrite E in R;
    apply runs_as_inv in R as (s' & -> & Hw); cbn [fst snd call_keeps held_after]; rewrite Hw.
  - exists fl'. destruct (Z.eqb_spec p 0); [lia|]. exact I'.
  - by exists fl.
Qed.

Lemma call_dealloc pages own rest p size align s :
  heap_ok own rest s -> layout_ok size align -> Obj p size align ∈ own ->
  call_keeps pages own rest (op_dealloc p size align) (run (dealloc_prog p size align) s).1 (run (dealloc_prog p size align) s).2.
Proof.
  intros [fl I] HL Hin. pose proof (dealloc_runs p size align s) as R.
  destruct (dealloc_ok fl ((region <$> remove_one (Obj p size align) own) ++ rest) (world s) size align p) as (fl' & w & E & I').
  - eapply slab_inv_perm; [|exact I]. by rewrite (remove_one_perm _ _ Hin) at 1.
  - done.
  - rewrite E in R. cbn [obind] in R. apply runs_as_inv in R as (s' & -> & Hw). cbn [fst snd call_keeps held_after].
    rewrite Hw. by exists fl'.
Qed.

(** A block of pages that a caller gets from [BUDDY]. *)
Lemma block_lent own rest fl (s : statics) b p o :
  slab_inv fl ((region <$> own) ++ rest) (world s) -> handed_out (s BUDDY) b p o -> 0 <= o ->
  slab_inv fl ((frame_va (s BUDDY) p, block_bytes o) :: (region <$> own) ++ rest) (with_buddy (world s) b).
Proof.
  intros I Hh Ho. pose proof (block_bytes_pos o Ho) as Hpos. unfold PAGE_SIZE in Hpos.
  apply (grow_ok fl _ (world s) (s BUDDY) b p o [_] I eq_refl Hh).
  - cbn. split; [constructor|done].
  - intros x ->%list_elem_of_singleton. split; cbn [fst snd]; [lia|]. exists b, p, o.
    rewrite (frame_va_base (s BUDDY) b) by apply Hh. split_and!; try done; [|lia..].
    by rewrite (ho_alloc _ _ _ _ Hh), fn_lookup_insert.
  - intros x ->%list_elem_of_singleton. cbn [fst snd]. lia.
Qed.

Lemma call_alloc_page pages own rest s :
  heap_ok own rest s -> pages = true ->
  call_keeps pages own rest op_alloc_page (run alloc_page_prog s).1 (run alloc_page_prog s).2.
Proof.
  intros [fl I] Hp. unfold alloc_page_prog. rewrite run_acquire, run_buddy.
  pose proof (si_buddy _ _ _ I (s BUDDY) eq_refl) as Hpl. unfold BuddyAllocator_alloc_page.
  destruct (alloc_pages_cases (s BUDDY) 0 Hpl) as [(p & b & -> & Hh & _)|[-> _]]; [unfold MAX_ORDER; lia|..]; cbn [obind unwrap].
  - exists fl. cbn [fst snd run held_after]. rewrite world_put_buddy. by apply (block_lent own rest fl s b p 0).
  - cbn [fst snd call_keeps]. split_and!; [done..|]. by exists fl.
Qed.

Lemma call_alloc_stack pages own rest s :
  heap_ok own rest s ->
  call_keeps pages own rest op_alloc_stack (run alloc_stack_prog s).1 (run alloc_stack_prog s).2.
Proof.
  intros [fl I]. unfold alloc_stack_prog. rewrite run_acquire, run_buddy.
  pose proof (si_buddy _ _ _ I (s BUDDY) eq_refl) as Hpl.
  destruct (alloc_pages_cases (s BUDDY) STACK_ORDER Hpl) as [(p & b & -> & Hh & Hva)|[-> _]];
    [unfold MAX_ORDER, STACK_ORDER; lia|..]; rewrite run_release.
  - rewrite Hva. cbn [lift].
    assert (0 <= frame_va (s BUDDY) p + STACK_SIZE < 2 ^ 64) as Hr.
    { pose proof (ho_block _ _ _ _ Hh) as (_ & ? & _ & ?). destruct Hpl as [_ ? _ ?].
      unfold frame_va, STACK_SIZE, STACK_ORDER in *. unfold_layout. lia. }
    rewrite uadd_ok by done. cbn [lift run fst snd call_keeps held_after]. exists fl. rewrite world_put_buddy. csimpl.
    rewrite Z.add_simpl_r. change STACK_SIZE with (block_bytes STACK_ORDER).
    apply (block_lent own rest fl s b p STACK_ORDER); [done..|unfold STACK_ORDER; lia].
  - cbn [run fst snd call_keeps held_after]. exists fl. exact I.
Qed.

Lemma call_log pages own rest pieces s :
  (patience bus_read bus_write < fuel)%nat -> heap_ok own rest s ->
  call_keeps pages own rest (op_log pieces) (run (ops (op_log pieces)) s).1 (run (ops (op_log pieces)) s).2.
Proof.
  intros Hf [fl I]. destruct (kernel_log_runs bus_read bus_write fuel pieces s Hf) as (s' & E & Hw & _).
  assert (run (ops (op_log pieces)) s = (Ok tt, s')) as -> by exact E. cbn [fst snd call_keeps held_after]. rewrite Hw. by exists fl.
Qed.

Lemma call_ok pages own rest o k s :
  (patience bus_read bus_write < fuel)%nat -> heap_ok own rest s -> tidy pages own (Call o k) ->
  call_keeps pages own rest o (run (ops o) s).1 (run (ops o) s).2.
Proof.
  intros Hf Hs [Ho _]. destruct o; cbn [kernel_prog].
  - by apply call_alloc.
  - destruct Ho. by apply call_dealloc.
  - by apply call_alloc_page.
  - by apply call_alloc_stack.
  - done.
  - by apply call_log.
Qed.

(* ------------------------------------------------------------------------- *)
(** ** Any number of calls *)

Local Abbreviation calls := (@calls static (protected (Dev := Dev)) kernel_op result).
Local Abbreviation history := (@history static _ (protected (Dev := Dev)) kernel_op result ops).

(** What the CPUs hold after a history of calls. *)
Definition held (own : cpu -> list item) (tr : list event) : cpu -> list item := foldl grant own tr.

(** The lines that a history's calls log, in order. *)
Definition logged_by (e : event) : list (list Z) :=
  match e with
  | Event _ (op_log pieces) (Ok _) => pieces
  | Event _ (op_reclaim lo hi) (Ok _) => reclaim_line lo hi
  | _ => []
  end.

(** The CPUs [cs], what they hold, and what they may do next. *)
Record sound (pages : bool) (cs : list cpu) (own : cpu -> list item) (a : calls) : Prop := {
  so_heap : exists fl, slab_inv fl (regions cs own) (world (state_of a));
  so_tidy c k : clients a c = inl k -> tidy pages (own c) k;
  so_panics c x : clients a c = inr x -> pages = true /\ x = UnwrapNone;
  so_others c : c ∉ cs -> clients a c = inl Stop;
}.

Lemma sound_turn pages cs own a c :
  (patience bus_read bus_write < fuel)%nat -> NoDup cs -> sound pages cs own a ->
  sound pages cs (foldl grant own (called ops c a)) (call_turn ops c a).
Proof.
  intros Hf Hnd [[fl I] Ht Hp Ho]. unfold called, call_turn. destruct (clients a c) as [[|o k]|x] eqn:Ec; try by split; [exists fl|..].
  assert (c ∈ cs) as Hc by (apply dec_stable; intros Hn; rewrite (Ho c Hn) in Ec; done).
  destruct (regions_split cs own c Hnd Hc) as (rest & Hr & Hr').
  pose proof (call_ok pages (own c) rest o k (state_of a) Hf) as K.
  destruct (run (ops o) (state_of a)) as [r s]. cbn [fst snd] in *.
  assert (call_keeps pages (own c) rest o r s) as K'.
  { apply K; [exists fl; by eapply slab_inv_perm|by eapply Ht]. }
  clear K. cbn [foldl]. destruct r as [v|x]; cbn [call_keeps grant next_client] in *.
  - destruct K' as [fl' I']. destruct (Ht c _ Ec) as [_ Hk]. split; cbn [clients state_of].
    + exists fl'. eapply slab_inv_perm; [|exact I']. by rewrite Hr'.
    + intros c' k'. destruct (decide (c = c')) as [<-|Hne]; [|rewrite !fn_lookup_insert_ne by done; apply Ht].
      rewrite !fn_lookup_insert. intros [= <-]. apply Hk.
    + intros c' x. destruct (decide (c = c')) as [<-|Hne]; [by rewrite fn_lookup_insert|].
      rewrite fn_lookup_insert_ne by done. apply Hp.
    + intros c' Hn. rewrite fn_lookup_insert_ne by (by intros <-). by apply Ho.
  - destruct K' as (Hpg & -> & fl' & I'). split; cbn [clients state_of].
    + exists fl'. eapply slab_inv_perm; [|exact I']. by rewrite Hr.
    + intros c' k'. destruct (decide (c = c')) as [<-|Hne]; [by rewrite fn_lookup_insert|].
      rewrite fn_lookup_insert_ne by done. apply Ht.
    + intros c' x. destruct (decide (c = c')) as [<-|Hne]; [by rewrite fn_lookup_insert; intros [= <-]|].
      rewrite fn_lookup_insert_ne by done. apply Hp.
    + intros c' Hn. rewrite fn_lookup_insert_ne by (by intros <-). by apply Ho.
Qed.

Lemma sound_history pages cs own a tr a' :
  (patience bus_read bus_write < fuel)%nat -> NoDup cs -> sound pages cs own a -> history a tr a' ->
  sound pages cs (held own tr) a'.
Proof.
  intros Hf Hnd S. induction 1 as [|tr a' c _ IH]; [done|]. unfold held. rewrite foldl_app. by apply sound_turn.
Qed.

(** A call's line is what it adds to the console. *)
Lemma call_line c o (s : statics) :
  (patience bus_read bus_write < fuel)%nat ->
  console bus_read bus_write (run (ops o) s).2 = console bus_read bus_write s ++ concat (logged_by (Event c o (run (ops o) s).1)).
Proof.
  intros Hf. pose proof (kernel_prog_console bus_read bus_write fuel o) as Ho.
  destruct o as [size align|ptr size align| | |lo hi|pieces]; cbn [logged_by concat].
  1-4: rewrite app_nil_r; unfold console; f_equal; by apply (run_avoids _ UART).
  - destruct (reclaim_trampoline (s BUDDY) lo hi) as [b|x] eqn:E.
    + destruct (reclaim_runs bus_read bus_write fuel lo hi s b Hf E) as (s' & Er & _ & Hs).
      assert (run (ops (op_reclaim lo hi)) s = (Ok tt, s')) as -> by exact Er. exact Hs.
    + assert (run (ops (op_reclaim lo hi)) s = (Panic x, s)) as ->; [|by rewrite app_nil_r].
      cbn [kernel_prog]. unfold reclaim_prog. rewrite run_acquire, run_buddy. unfold no_result. by rewrite E.
  - destruct (kernel_log_runs bus_read bus_write fuel pieces s Hf) as (s' & Er & _ & Hs).
    assert (run (ops (op_log pieces)) s = (Ok tt, s')) as -> by exact Er. exact Hs.
Qed.

Lemma history_console a tr a' :
  (patience bus_read bus_write < fuel)%nat -> history a tr a' ->
  console bus_read bus_write (state_of a') = console bus_read bus_write (state_of a) ++ concat (tr ≫= logged_by).
Proof.
  intros Hf. induction 1 as [|tr a' c _ IH]; [by rewrite app_nil_r|].
  unfold called, call_turn. destruct (clients a' c) as [[|o k]|x]; try by rewrite app_nil_r.
  pose proof (call_line c o (state_of a') Hf) as Hc. destruct (run (ops o) (state_of a')) as [r s]. cbn [fst snd state_of] in *.
  rewrite bind_app, concat_app, (assoc (++)). csimpl. rewrite app_nil_r. by rewrite Hc, IH.
Qed.

Local Abbreviation machine := (@machine static (protected (Dev := Dev)) kernel_op result).

(** The machine's history of whole calls. *)
Lemma reached (s : statics) (k : cpu -> client) (m : machine) :
  rtc (step ops) (initial s k) m ->
  exists tr a, history (calls_initial s k) tr a /\ simulates rank_of ops m a.
Proof.
  intros Hr. destruct (interleaving_refines rank_of ops (kernel_prog_locks bus_read bus_write fuel) s k m Hr) as (a & Ha & S).
  destruct (calls_history ops _ _ Ha) as [tr Ht]. by exists tr, a.
Qed.

Local Abbreviation console := (console bus_read bus_write).

Lemma calls_atomic_ok (s : statics) (k : cpu -> client) (m : machine) :
  (patience bus_read bus_write < fuel)%nat -> rtc (step ops) (initial s k) m ->
  (forall l c c', l ∈ guards (threads m c) -> l ∈ guards (threads m c') -> c = c') /\
  exists tr a, history (calls_initial s k) tr a /\
    (forall c k', threads m c = Idle k' -> clients a c = inl k') /\
    (forall c g x, threads m c = Dead g x -> clients a c = inr x) /\
    (forall l, locked (locks m l) = false -> data (locks m l) = state_of a l) /\
    console (state_of a) = console s ++ concat (tr ≫= logged_by).
Proof.
  intros Hf (tr & a & Ht & S)%reached. split; [apply (gd_one _ (sm_guarded _ _ _ _ S))|]. exists tr, a.
  split_and!; [done| | |by apply (sm_free _ _ _ _ S)|by apply (history_console (calls_initial s k))].
  - intros c k' E. pose proof (sm_places _ _ _ _ S c) as Hp. by rewrite E in Hp.
  - intros c g x E. pose proof (sm_places _ _ _ _ S c) as Hp. by rewrite E in Hp.
Qed.

(** Calls are atomic.  However the CPUs' accesses interleave, there is an order of
    whole calls, each made when its CPU makes it, with the results the CPUs were given:
    a CPU between calls is where that order has brought it, a CPU that panicked did so
    there, whatever is behind a lock that nobody holds is as that order leaves it, and
    the console has been sent the lines of those calls, each whole, in their order.  No
    lock ever has two holders. *)
Theorem kernel_calls_atomic (s : statics) (k : cpu -> client) (m : machine) :
  (patience bus_read bus_write < fuel)%nat -> rtc (step ops) (initial s k) m ->
  (forall l c c', l ∈ guards (threads m c) -> l ∈ guards (threads m c') -> c = c') /\
  exists tr a, history (calls_initial s k) tr a /\
    (forall c k', threads m c = Idle k' -> clients a c = inl k') /\
    (forall c g x, threads m c = Dead g x -> clients a c = inr x) /\
    (forall l, locked (locks m l) = false -> data (locks m l) = state_of a l) /\
    console (state_of a) = console s ++ concat (tr ≫= logged_by).
Proof. apply calls_atomic_ok. Qed.

Lemma heap_sound_ok pages cs own (s : statics) (k : cpu -> client) (m : machine) :
  (patience bus_read bus_write < fuel)%nat -> NoDup cs -> sound pages cs own (calls_initial s k) ->
  rtc (step ops) (initial s k) m ->
  exists tr a, history (calls_initial s k) tr a /\ simulates rank_of ops m a /\
    pairwise_apart (regions cs (held own tr)) /\
    (exists fl, slab_inv fl (regions cs (held own tr)) (world (state_of a))) /\
    forall c g x, threads m c = Dead g x -> pages = true /\ x = UnwrapNone.
Proof.
  intros Hf Hnd S0 (tr & a & Ht & S)%reached. exists tr, a.
  destruct (sound_history pages cs own _ tr a Hf Hnd S0 Ht) as [[fl I] _ Hp _]. split_and!; [done|done| |by exists fl|].
  - destruct I as [_ _ Hap _ _]. by apply pairwise_apart_app in Hap as (_ & Hap & _).
  - intros c g x E. pose proof (sm_places _ _ _ _ S c) as Hpl. rewrite E in Hpl. by apply (Hp c).
Qed.

(** Nothing two CPUs hold overlaps.  From a sound heap, CPUs that free only what
    they hold call the allocators at once.  In every state of every interleaving: the
    objects, pages and stacks that the calls so far have granted and not taken back lie
    apart, whoever holds them, and apart from all that the slab caches; each lies in
    memory that the buddy allocator has allocated; and no CPU has panicked but in the
    [expect] of a page request that could not be met. *)
Theorem concurrent_heap_sound pages cs own (s : statics) (k : cpu -> client) (m : machine) :
  (patience bus_read bus_write < fuel)%nat -> NoDup cs -> sound pages cs own (calls_initial s k) ->
  rtc (step ops) (initial s k) m ->
  exists tr a, history (calls_initial s k) tr a /\ simulates rank_of ops m a /\
    pairwise_apart (regions cs (held own tr)) /\
    (exists fl, slab_inv fl (regions cs (held own tr)) (world (state_of a))) /\
    forall c g x, threads m c = Dead g x -> pages = true /\ x = UnwrapNone.
Proof. apply heap_sound_ok. Qed.

(** No deadlock.  In every state that any calls of any CPUs can reach, as long as no
    CPU has panicked with its guards held: if some CPU has not finished, some CPU's next
    access gets it further. *)
Theorem kernel_never_deadlocks (s : statics) (k : cpu -> client) (m : machine) c :
  rtc (step ops) (initial s k) m -> alive m -> threads m c <> Idle Stop ->
  exists c', can_move m c' /\ turn ops c' m <> m.
Proof.
  intros (tr & a & Ht & S)%reached Ha Hc.
  destruct (unfinished_moves rank_of ops 3 m a c) as [c' Hm]; [by intros []; cbn; lia|done..|].
  exists c'. split; [done|]. intros E. destruct (turn_below ops m c' Hm) as [Hb _]. rewrite E in Hb.
  by apply (below_irrefl ops (threads m c')).
Qed.

Lemma sound_others pages cs own s k : sound pages cs own (calls_initial s k) -> forall c, c ∉ cs -> k c = Stop.
Proof. intros S0 c Hc. pose proof (so_others _ _ _ _ S0 c Hc) as E. by injection E. Qed.

Lemma sound_never_panics cs own a :
  (patience bus_read bus_write < fuel)%nat -> NoDup cs -> sound false cs own a -> never_panics ops a.
Proof.
  intros Hf Hnd S0 a' c x Ha E. destruct (calls_history ops _ _ Ha) as [tr Ht].
  by destruct (so_panics _ _ _ _ (sound_history false cs own _ tr a' Hf Hnd S0 Ht) c x E).
Qed.

(** Every call returns.  When the CPUs of [cs] call soundly and ask for no page by
    [expect], no interleaving goes on for ever without failed turns at a lock, and from
    whatever it has reached every CPU gets to its end, with every lock free and the data
    as some order of whole calls leaves them. *)
Theorem kernel_calls_complete cs own (s : statics) (k : cpu -> client) (m : machine) :
  (patience bus_read bus_write < fuel)%nat -> NoDup cs -> sound false cs own (calls_initial s k) ->
  rtc (step ops) (initial s k) m ->
  Acc (flip (progress ops)) m /\
  exists m' tr a, rtc (progress ops) m m' /\ (forall c, threads m' c = Idle Stop) /\
    history (calls_initial s k) tr a /\ forall l, locked (locks m' l) = false /\ data (locks m' l) = state_of a l.
Proof.
  intros Hf Hnd S0 Hr.
  destruct (interleaving_completes rank_of ops (kernel_prog_locks bus_read bus_write fuel) 3 cs s k m) as [Hacc (m' & a & R & Hfin & Ha & S)].
  - by intros []; cbn; lia.
  - by apply (sound_others false cs own s).
  - by apply (sound_never_panics cs own).
  - done.
  - split; [done|]. destruct (calls_history ops _ _ Ha) as [tr Ht]. exists m', tr, a.
    split_and!; [done..|]. by apply (finished_agrees rank_of ops).
Qed.
End calls.

(* ------------------------------------------------------------------------- *)
(** ** Two CPUs *)

Section two_cpus.
Local Abbreviation ops := (kernel_prog (P := release_dev) toy_read toy_write 2).

Definition demo_statics (l : static) : protected (Dev := list Z * bool) l :=
  match l with
  | ALLOCATOR => mkSlabData Slab_new (fun _ => 0)
  | BUDDY => demo
  | UART => ([], false)
  end.

(** CPU 0 allocates, logs and frees; CPU 1 takes a stack and logs. *)
Definition demo_client (c : cpu) : @client kernel_op result :=
  if c =? 0 then
    Call (op_alloc 24 8) (fun p =>
      if p =? 0 then Stop
      else Call (op_log [[72; 105]; [10]]) (fun _ => Call (op_dealloc p 24 8) (fun _ => Stop)))
  else if c =? 1 then Call op_alloc_stack (fun _ => Call (op_log [[89; 111]; [10]]) (fun _ => Stop))
  else Stop.

Lemma toy_patience : (patience toy_read toy_write < 2)%nat.
Proof. unfold patience, toy_pl011. lia. Qed.

Lemma two_nodup : NoDup [0; 1].
Proof. apply (bool_decide_unpack _). vm_compute. exact I. Qed.

(** The turns [cs] take, one after the other. *)
Definition turns (cs : list cpu) (m : machine (D := protected) (res := result)) := foldl (fun m c => turn ops c m) m cs.

Lemma turns_reach cs m : rtc (step ops) m (turns cs m).
Proof.
  revert m. induction cs as [|c cs IH]; intros m; [done|]. eapply rtc_l; [by exists c|]. apply IH.
Qed.

Definition alternate (n : nat) : list cpu := concat (replicate n [0; 1]).

Lemma demo_tidy c : tidy false [] (demo_client c).
Proof.
  unfold demo_client. destruct (c =? 0); [|by destruct (c =? 1)].
  cbn [tidy held_after]. split; [apply layout_24_8|]. intros p. destruct (p =? 0); [done|].
  cbn [tidy]. split; [done|]. intros u. split; [|done]. split; [apply layout_24_8|by left].
Qed.

Lemma demo_others c : c ∉ [0; 1] -> demo_client c = Stop.
Proof.
  intros Hc. rewrite !not_elem_of_cons in Hc. unfold demo_client.
  destruct (Z.eqb_spec c 0); [tauto|]. destruct (Z.eqb_spec c 1); tauto.
Qed.

Lemma demo_sound : sound (P := release_dev) false [0; 1] (fun _ => []) (calls_initial demo_statics demo_client).
Proof.
  split; cbn [calls_initial clients state_of].
  - exists (fun _ => []). apply demo_world_inv.
  - intros c k [= <-]. apply demo_tidy.
  - done.
  - intros c Hc. by rewrite demo_others.
Qed.

Definition is_dead (t : thread (D := protected (Dev := list Z * bool)) (res := result)) : bool :=
  match t with Dead _ _ => true | _ => false end.
Definition is_stop (t : thread (D := protected (Dev := list Z * bool)) (res := result)) : bool :=
  match t with Idle Stop => true | _ => false end.

(** The two CPUs are the only ones that can panic. *)
Lemma demo_alive cs :
  is_dead (threads (turns cs (initial demo_statics demo_client)) 0) = false ->
  is_dead (threads (turns cs (initial demo_statics demo_client)) 1) = false ->
  alive (turns cs (initial demo_statics demo_client)).
Proof.
  intros H0 H1 c g x E. destruct (decide (c ∈ [0; 1])) as [Hc|Hc].
  - apply elem_of_cons in Hc as [->|Hc%list_elem_of_singleton]; [by rewrite E in H0|]. subst c. by rewrite E in H1.
  - assert (only [0; 1] (initial demo_statics demo_client)) as Ho by (intros c' Hc'; cbn; by rewrite demo_others).
    pose proof (only_steps ops [0; 1] _ _ Ho (turns_reach cs _)) as Ho'. rewrite (Ho' c Hc) in E. done.
Qed.

(** Both CPUs run to their ends, taking turns. *)
Lemma kernel_calls_atomic_witness :
  exists m, rtc (step ops) (initial demo_statics demo_client) m /\
    threads m 0 = Idle Stop /\ threads m 1 = Idle Stop /\
    exists tr a, history ops (calls_initial demo_statics demo_client) tr a /\
      data (locks m UART) = state_of a UART /\
      console toy_read toy_write (state_of a) = concat (tr ≫= logged_by) /\
      console toy_read toy_write (fun l => data (locks m l)) = [89; 111; 10; 72; 105; 10].
Proof.
  exists (turns (alternate 30) (initial demo_statics demo_client)).
  pose proof (turns_reach (alternate 30) (initial demo_statics demo_client)) as Hr. split; [exact Hr|].
  split; [vm_compute; reflexivity|]. split; [vm_compute; reflexivity|].
  destruct (kernel_calls_atomic (P := release_dev) toy_read toy_write 2 demo_statics demo_client _ toy_patience Hr)
    as (_ & tr & a & Ht & _ & _ & Hfree & Hc).
  exists tr, a. split; [exact Ht|]. split; [apply Hfree; vm_compute; reflexivity|]. split; [exact Hc|vm_compute; reflexivity].
Defined.

Lemma concurrent_heap_sound_witness :
  exists m tr a, rtc (step ops) (initial demo_statics demo_client) m /\
    history ops (calls_initial demo_statics demo_client) tr a /\
    pairwise_apart (regions (P := release_dev) [0; 1] (held (fun _ => []) tr)).
Proof.
  pose proof (turns_reach (alternate 12) (initial demo_statics demo_client)) as Hr.
  destruct (concurrent_heap_sound (P := release_dev) toy_read toy_write 2 false [0; 1] (fun _ => []) demo_statics demo_client _
    toy_patience two_nodup demo_sound Hr) as (tr & a & Ht & _ & Hap & _).
  exists (turns (alternate 12) (initial demo_statics demo_client)), tr, a.
  split; [exact Hr|]. split; [exact Ht|exact Hap].
Defined.

(** CPU 0 holds [BUDDY], inside its [alloc], and CPU 1 waits for it. *)
Lemma kernel_never_deadlocks_witness :
  exists m, rtc (step ops) (initial demo_statics demo_client) m /\ ~ can_move m 1 /\
    exists c, can_move m c /\ turn ops c m <> m.
Proof.
  exists (turns [0; 0; 0; 0; 1; 1] (initial demo_statics demo_client)).
  pose proof (turns_reach [0; 0; 0; 0; 1; 1] (initial demo_statics demo_client)) as Hr.
  split; [exact Hr|]. split; [vm_compute; discriminate|].
  apply (kernel_never_deadlocks (P := release_dev) toy_read toy_write 2 demo_statics demo_client _ 0 Hr).
  - apply demo_alive; vm_compute; reflexivity.
  - intros E%(f_equal is_stop). vm_compute in E. discriminate E.
Defined.

Lemma kernel_calls_complete_witness :
  exists m m', rtc (step ops) (initial demo_statics demo_client) m /\ ~ can_move m 1 /\
    rtc (progress ops) m m' /\ forall c, threads m' c = Idle Stop.
Proof.
  exists (turns [0; 0; 0; 0; 1; 1] (initial demo_statics demo_client)).
  pose proof (turns_reach [0; 0; 0; 0; 1; 1] (initial demo_statics demo_client)) as Hr.
  destruct (kernel_calls_complete (P := release_dev) toy_read toy_write 2 [0; 1] (fun _ => []) demo_statics demo_client _
    toy_patience two_nodup demo_sound Hr) as (_ & m' & _ & _ & Hp & Hf & _).
  exists m'. split; [exact Hr|]. split; [vm_compute; discriminate|]. split; [exact Hp|exact Hf].
Defined.
End two_cpus.
