(* ===== verification/KernelWeak.v ===== *)
(** * The kernel's calls on weak memory

    [KernelCalls] on the machine of [WeakLocks]: what the orderings in
    [builtin/sync.rs] give the calls of [mm/slab.rs], [mm/buddy.rs], [mm/frame.rs],
    [cpu/smp.rs] and the log macro. *)

From stdpp Require Import strings relations.
From S2P Require Import Prelude Uart Sync Buddy BuddyProps BuddyAddr Slab SlabInv SlabProps Smp WeakMem Locks WeakLocks WeakProgress KernelOps KernelCalls.
Open Scope list_scope.
Open Scope Z_scope.

Section weak_calls.
Context {P : Profile} {Dev : Type} (bus_read : Z -> Dev -> Z * Dev) (bus_write : Z -> Z -> Dev -> Dev).
Context `{PL011 Dev bus_read bus_write} (fuel : nat).
Local Abbreviation ops := (kernel_prog bus_read bus_write fuel).
Local Abbreviation statics := (forall l : static, protected (Dev := Dev) l).
Local Abbreviation client := (@client kernel_op result).
Local Abbreviation weak := (@weak static (protected (Dev := Dev)) kernel_op result).
Local Abbreviation console := (console bus_read bus_write).

(** Nobody holds [l], on weak memory and in the machine of [Locks] alike. *)
Lemma not_held_free (w : weak) l :
  weak_ok rank_of w -> (forall c, l ∉ guards (cpus w c)) -> locked (locks (strong w) l) = false.
Proof.
  intros W Hn. cbn. destruct (wo_locks _ _ W l) as [m Hm _ _|c T _ _ _ Hc _]; [by rewrite (free_takeable _ _ Hm)|].
  by destruct (Hn c).
Qed.

(** C2: the orderings suffice.  With no order between the accesses of different CPUs but
    what the locks' acquiring swaps and releasing stores make, and stale values of the
    flags read at will, no access to a static ever races; no lock has two holders; and
    the execution is one of whole calls, one after the other, with the results the CPUs
    were given: what nobody holds is as those calls leave it, and the console has been
    sent their lines, each whole, in their order. *)
Theorem kernel_race_free (s : statics) (k : cpu -> client) (w : weak) :
  (patience bus_read bus_write < fuel)%nat -> rtc (weak_step ops) (weak_initial s k) w ->
  ~ racy w /\
  (forall l c c', l ∈ guards (cpus w c) -> l ∈ guards (cpus w c') -> c = c') /\
  exists tr a, history ops (calls_initial s k) tr a /\
    (forall c k', cpus w c = Idle k' -> clients a c = inl k') /\
    (forall c g x, cpus w c = Dead g x -> clients a c = inr x) /\
    (forall l, (forall c, l ∉ guards (cpus w c)) -> contents w l = state_of a l) /\
    console (state_of a) = console s ++ concat (tr ≫= logged_by).
Proof.
  intros Hf Hr. destruct (weak_refines rank_of ops (kernel_prog_locks bus_read bus_write fuel) s k w Hr) as (Hn & R & W).
  split; [done|]. destruct (calls_atomic_ok bus_read bus_write fuel s k _ Hf R) as (Hone & tr & a & Ht & Hi & Hd & Hs & Hc).
  split; [exact Hone|]. exists tr, a. split_and!; [done..| |done].
  intros l Hl. apply Hs. by apply not_held_free.
Qed.

(** C3: nothing two CPUs hold overlaps.  From a sound heap, CPUs that free only what
    they hold call the allocators at once, on weak memory.  In every state of every
    execution: the objects, pages and stacks that the calls so far have granted and not
    taken back lie apart, whoever holds them; each lies in memory that the buddy
    allocator has allocated, apart from all that the slab caches, as the whole calls
    leave both, which is as they are while nobody holds a lock; and no CPU has panicked
    but in the [expect] of a page request that could not be met. *)
Theorem weak_heap_sound pages cs own (s : statics) (k : cpu -> client) (w : weak) :
  (patience bus_read bus_write < fuel)%nat -> NoDup cs -> sound pages cs own (calls_initial s k) ->
  rtc (weak_step ops) (weak_initial s k) w ->
  exists tr a, history ops (calls_initial s k) tr a /\
    pairwise_apart (regions cs (held own tr)) /\
    (exists fl, slab_inv fl (regions cs (held own tr)) (world (state_of a))) /\
    (forall l, (forall c, l ∉ guards (cpus w c)) -> contents w l = state_of a l) /\
    (forall c k', cpus w c = Idle k' -> clients a c = inl k') /\
    forall c g x, cpus w c = Dead g x -> pages = true /\ x = UnwrapNone.
Proof.
  intros Hf Hnd S0 Hr. destruct (weak_refines rank_of ops (kernel_prog_locks bus_read bus_write fuel) s k w Hr) as (_ & R & W).
  destruct (heap_sound_ok bus_read bus_write fuel pages cs own s k _ Hf Hnd S0 R) as (tr & a & Ht & S & Hap & Hi & Hd).
  exists tr, a. split_and!; [done..| | |done].
  - intros l Hl. apply (sm_free _ _ _ _ S). by apply not_held_free.
  - intros c k' E. pose proof (sm_places _ _ _ _ S c) as Hp. cbn [strong threads] in Hp. by rewrite E in Hp.
Qed.

(** C4: no deadlock.  In every state that any calls of any CPUs can reach on weak
    memory, as long as no CPU has panicked with its guards held: if some CPU has not
    finished, some CPU has an access to make that gets it further in its code, so that
    not all of them spin. *)
Theorem weak_never_deadlocks (s : statics) (k : cpu -> client) (w : weak) c :
  rtc (weak_step ops) (weak_initial s k) w -> (forall c g x, cpus w c <> Dead g x) -> cpus w c <> Idle Stop ->
  exists c' w', weak_step ops w w' /\ cpus w' c' <> cpus w c'.
Proof.
  intros Hr Ha Hc. destruct (weak_refines rank_of ops (kernel_prog_locks bus_read bus_write fuel) s k w Hr) as (_ & R & W).
  destruct (reached bus_read bus_write fuel s k _ R) as (tr & a & Ht & S).
  destruct (unfinished_moves rank_of ops 3 (strong w) a c) as [c' Hm]; [by intros []; cbn; lia|done..|].
  destruct (weak_moves rank_of ops w c' W (seen_reached ops _ _ (seen_initial s k) Hr) Hm) as (w' & Hw & E).
  exists c', w'. split; [done|]. intros Ec. destruct (turn_below ops (strong w) c' Hm) as [Hb _].
  rewrite <- E in Hb. cbn in Hb. rewrite Ec in Hb. by apply (below_irrefl ops (cpus w c')).
Qed.

(** C5: every call returns.  When the CPUs of [cs] call [alloc], [dealloc], [alloc_stack]
    and [kernel_log] only, release only what they hold, and so ask for no page by [expect]
    and reclaim nothing, no execution on weak memory gets further for ever, whatever swaps fail
    in between; and from whatever it has reached every CPU can get to its end without
    any failed swap, with every lock free and the data as some order of whole calls
    leaves them. *)
Theorem weak_calls_complete cs own (s : statics) (k : cpu -> client) (w : weak) :
  (patience bus_read bus_write < fuel)%nat -> NoDup cs -> sound false cs own (calls_initial s k) ->
  rtc (weak_step ops) (weak_initial s k) w ->
  Acc (flip (gets_further ops)) w /\
  exists w' tr a, rtc (weak_progress ops) w w' /\ (forall c, cpus w' c = Idle Stop) /\
    history ops (calls_initial s k) tr a /\ forall l, takeable (flags w' l) = true /\ contents w' l = state_of a l.
Proof.
  intros Hf Hnd S0 Hr.
  destruct (weak_interleaving_completes rank_of ops (kernel_prog_locks bus_read bus_write fuel) 3 cs s k w)
    as [Hacc (w' & a & R & Hfin & _ & Ha & Hl)]; [by intros []; cbn; lia|..|done|].
  - by apply (sound_others false cs own s).
  - by apply (sound_never_panics bus_read bus_write fuel cs own).
  - split; [done|]. destruct (calls_history ops _ _ Ha) as [tr Ht]. by exists w', tr, a.
Qed.
End weak_calls.

(* ------------------------------------------------------------------------- *)
(** ** A stale read *)

Section two_cpus.
Local Abbreviation ops := (kernel_prog (P := release_dev) toy_read toy_write 2).

(** Both CPUs log a line. *)
Definition log_client (c : cpu) : @client kernel_op result :=
  if c =? 0 then Call (op_log [[72; 105; 10]]) (fun _ => Stop)
  else if c =? 1 then Call (op_log [[89; 111; 10]]) (fun _ => Stop)
  else Stop.

(** CPU 0 logs and drops the lock; CPU 1 still reads the flag as CPU 0 raised it and
    puts its own raising between that and the drop, then finds the drop, and logs. *)
Definition stale_schedule : list (cpu * (nat * Z)) :=
  [(0, (0%nat, 0)); (0, (0%nat, 1)); (0, (0%nat, 0)); (0, (0%nat, 10)); (0, (0%nat, 0));
   (1, (0%nat, 0)); (1, (1%nat, 5)); (1, (1%nat, 11)); (1, (0%nat, 0)); (1, (0%nat, 20)); (1, (0%nat, 0))].

Lemma kernel_race_free_witness :
  exists w, weak_turns ops (weak_initial demo_statics log_client) stale_schedule = Some w /\
    ~ racy w /\
    exists tr a, history ops (calls_initial demo_statics log_client) tr a /\
      (forall l, (forall c, l ∉ guards (cpus w c)) -> contents w l = state_of a l) /\
      console toy_read toy_write (contents w) = [72; 105; 10; 89; 111; 10].
Proof.
  destruct (weak_turns ops (weak_initial demo_statics log_client) stale_schedule) as [w|] eqn:E;
    [|exfalso; vm_compute in E; discriminate E].
  pose proof (weak_turns_reach _ _ _ _ E) as Hr.
  destruct (kernel_race_free (P := release_dev) toy_read toy_write 2 demo_statics log_client w toy_patience Hr)
    as (Hn & _ & tr & a & Ht & _ & _ & Hs & _).
  exists w. split; [reflexivity|]. split; [exact Hn|]. exists tr, a. split; [exact Ht|]. split; [exact Hs|].
  vm_compute in E. injection E as <-. vm_compute. reflexivity.
Defined.

(** The CPUs [cs] take their turns, each reading the newest state of a flag. *)
Definition newest (cs : list cpu) : list (cpu * (nat * Z)) := imap (fun n c => (c, (0%nat, 10 * Z.of_nat (S n)))) cs.

Lemma weak_heap_sound_witness :
  exists w tr a, weak_turns ops (weak_initial demo_statics demo_client) (newest (alternate 11)) = Some w /\
    history ops (calls_initial demo_statics demo_client) tr a /\
    pairwise_apart (regions (P := release_dev) [0; 1] (held (fun _ => []) tr)).
Proof.
  assert (bool_decide (is_Some (weak_turns ops (weak_initial demo_statics demo_client) (newest (alternate 11)))) = true) as Hw
    by (vm_compute; reflexivity).
  apply bool_decide_eq_true in Hw as [w E].
  pose proof (weak_turns_reach _ _ _ _ E) as Hr.
  destruct (weak_heap_sound (P := release_dev) toy_read toy_write 2 false [0; 1] (fun _ => []) demo_statics demo_client w
    toy_patience two_nodup demo_sound Hr) as (tr & a & Ht & Hap & _).
  exists w, tr, a. split; [exact E|]. split; [exact Ht|exact Hap].
Defined.

(** CPU 0 holds [BUDDY], inside its [alloc], and CPU 1 has just found it taken. *)
Definition waiting_schedule : list (cpu * (nat * Z)) := newest [0; 0; 0; 0; 1; 1].

Lemma waiting_reached :
  exists w, weak_turns ops (weak_initial demo_statics demo_client) waiting_schedule = Some w /\
    is_dead (cpus w 0) = false /\ is_dead (cpus w 1) = false /\ is_stop (cpus w 1) = false /\
    takeable (flags w BUDDY) = false.
Proof.
  assert (match weak_turns ops (weak_initial demo_statics demo_client) waiting_schedule with
          | Some w => negb (is_dead (cpus w 0) || is_dead (cpus w 1) || is_stop (cpus w 1) || takeable (flags w BUDDY))
          | None => false
          end = true) as Hw by (vm_compute; reflexivity).
  destruct (weak_turns ops _ _) as [w|]; [|discriminate Hw]. exists w. split; [done|].
  apply negb_true_iff in Hw. rewrite !orb_false_iff in Hw. tauto.
Qed.

(** The two CPUs are the only ones that can panic. *)
Lemma demo_weak_alive w :
  rtc (weak_step ops) (weak_initial demo_statics demo_client) w ->
  is_dead (cpus w 0) = false -> is_dead (cpus w 1) = false -> forall c g x, cpus w c <> Dead g x.
Proof.
  intros Hr H0 H1 c g x E. destruct (decide (c ∈ [0; 1])) as [Hc|Hc].
  - apply elem_of_cons in Hc as [->|Hc%list_elem_of_singleton]; [by rewrite E in H0|]. subst c. by rewrite E in H1.
  - destruct (weak_refines rank_of ops (kernel_prog_locks (P := release_dev) toy_read toy_write 2) _ _ w Hr) as (_ & R & _).
    assert (only [0; 1] (initial demo_statics demo_client)) as Ho by (intros c' Hc'; cbn; by rewrite demo_others).
    pose proof (only_steps ops [0; 1] _ _ Ho R) as Ho'. specialize (Ho' c Hc). cbn in Ho'. by rewrite E in Ho'.
Qed.

Lemma weak_never_deadlocks_witness :
  exists w, rtc (weak_step ops) (weak_initial demo_statics demo_client) w /\ takeable (flags w BUDDY) = false /\
    exists c w', weak_step ops w w' /\ cpus w' c <> cpus w c.
Proof.
  destruct waiting_reached as (w & E & H0 & H1 & Hs & Hb). pose proof (weak_turns_reach _ _ _ _ E) as Hr.
  exists w. split; [exact Hr|]. split; [exact Hb|].
  apply (weak_never_deadlocks (P := release_dev) toy_read toy_write 2 demo_statics demo_client w 1 Hr).
  - by apply demo_weak_alive.
  - intros Es. by rewrite Es in Hs.
Defined.

Lemma weak_calls_complete_witness :
  exists w w', rtc (weak_step ops) (weak_initial demo_statics demo_client) w /\ takeable (flags w BUDDY) = false /\
    rtc (weak_progress ops) w w' /\ forall c, cpus w' c = Idle Stop.
Proof.
  destruct waiting_reached as (w & E & _ & _ & _ & Hb). pose proof (weak_turns_reach _ _ _ _ E) as Hr.
  destruct (weak_calls_complete (P := release_dev) toy_read toy_write 2 [0; 1] (fun _ => []) demo_statics demo_client w
    toy_patience two_nodup demo_sound Hr) as (_ & w' & _ & _ & Hp & Hf & _).
  exists w, w'. split; [exact Hr|]. split; [exact Hb|]. split; [exact Hp|exact Hf].
Defined.
End two_cpus.
