(* ===== verification/KaniArch.v ===== *)
(** * kernel/arch and kernel/cpu/types.rs: the code's own proof harnesses

    The [mod verification] of [arch/mm.rs], [arch/reg.rs], [arch/exceptions.rs] and
    [cpu/types.rs], as functions of their symbolic inputs (see [KaniBuddy]).  All of
    them are bit arithmetic: no build profile changes them. *)

From S2P Require Import Prelude Arch Smp.
From Stdlib Require Import String.
Open Scope Z_scope.

(* ------------------------------------------------------------------------- *)
(** ** arch/mm.rs *)

Definition level_indices_tile_va (raw : Z) : outcome unit :=
  let l0 := Level_index_in L0 raw in
  let l1 := Level_index_in L1 raw in
  let l2 := Level_index_in L2 raw in
  let l3 := Level_index_in L3 raw in
  let! _ := assert_ ((l0 <? 512) && (l1 <? 512) && (l2 <? 512) && (l3 <? 512)) in
  let reassembled :=
    Z.lor (Z.lor (Z.lor (wrap 64 (Z.shiftl l0 27)) (wrap 64 (Z.shiftl l1 18))) (wrap 64 (Z.shiftl l2 9))) l3 in
  let expected := Z.land (Z.shiftr raw 12) 0xFFFFFFFFF in
  assert_ (reassembled =? expected).

Definition from_index_is_total (n : Z) : outcome unit :=
  let! level := Level_from_index n in
  let expected :=
    match Z.land n 3 with 0 => L0 | 1 => L1 | 2 => L2 | _ => L3 end in
  assert_ (bool_decide (level = expected)).

Definition next_level_progresses : outcome unit :=
  let! _ := assert_eq (Level_next_level L0) L1 in
  let! _ := assert_eq (Level_next_level L1) L2 in
  assert_eq (Level_next_level L2) L3.

(** [#[kani::should_panic]] *)
Definition next_level_l3_panics : outcome unit :=
  let! _ := Level_next_level L3 in Ok tt.

(* ------------------------------------------------------------------------- *)
(** ** arch/reg.rs *)

Definition esr_fields_tile_low_word (raw : Z) : outcome unit :=
  let ec := Esr_ec_raw raw in
  let il := Z.b2z (Esr_il raw) in
  let iss := Esr_iss raw in
  let! _ := assert_ ((ec <? 64) && (iss <? Z.shiftl 1 25)) in
  let reassembled := Z.lor (Z.lor (wrap 64 (Z.shiftl ec 26)) (wrap 64 (Z.shiftl il 25))) iss in
  assert_ (reassembled =? Z.land raw 0xFFFFFFFF).

Definition esr_abort_syndrome_bits (raw : Z) : outcome unit :=
  let! _ := assert_ (Esr_dfsc raw =? Z.land raw 0x3F) in
  let! _ := assert_ (bool_decide (Esr_is_write raw = (Z.land (Z.shiftr raw 6) 1 =? 1))) in
  assert_ (bool_decide (Esr_far_valid raw = (Z.land (Z.shiftr raw 10) 1 =? 0))).

(* ------------------------------------------------------------------------- *)
(** ** arch/exceptions.rs *)

(** [!s.is_empty()] *)
Definition non_empty (s : string) : bool := negb (String.eqb s EmptyString).

Definition fault_status_total (raw : Z) : outcome unit :=
  let! fs := FaultStatus_from_dfsc raw in
  let! _ :=
    match fs with
    | AddressSize _ | Translation _ | AccessFlag _ | Permission _ =>
        let! _ := assert_ (raw <=? 0x0F) in
        assert_ (bool_decide (is_Some (FaultStatus_level fs)))
    | Alignment | OtherFault _ => assert_ (bool_decide (FaultStatus_level fs = None))
    end in
  assert_ (non_empty (FaultStatus_description fs)).

Definition exception_class_total (ec : Z) : outcome unit :=
  assert_ (non_empty (ExceptionClass_description (ExceptionClass_from_ec ec))).

(* ------------------------------------------------------------------------- *)
(** ** cpu/types.rs *)

Definition mpidr_keeps_only_affinity_fields (raw : Z) : outcome unit :=
  assert_ (Mpidr_new raw =? Z.land raw Mpidr_MASK).

Definition aff3_distinguishes_cpus (low aff3_a aff3_b : Z) : outcome unit :=
  let low_affinity := Z.land low 0x00FFFFFF in
  assume! negb (aff3_a =? aff3_b) in
  let a := Z.lor low_affinity (wrap 64 (Z.shiftl aff3_a 32)) in
  let b := Z.lor low_affinity (wrap 64 (Z.shiftl aff3_b 32)) in
  assert_ (negb (Mpidr_new a =? Mpidr_new b)).

(** Every harness on one choice of symbolic inputs; [next_level_l3_panics] apart. *)
Definition arch_harnesses (raw n low aff3_a aff3_b : Z) : list (outcome unit) :=
  [ level_indices_tile_va raw; from_index_is_total n; next_level_progresses;
    esr_fields_tile_low_word raw; esr_abort_syndrome_bits raw; fault_status_total n;
    exception_class_total n; mpidr_keeps_only_affinity_fields raw;
    aff3_distinguishes_cpus low aff3_a aff3_b ].

(* ------------------------------------------------------------------------- *)
(** ** The harnesses pass *)

(** A field shifted into its place does not leave the word. *)
Lemma wrap_shl x k n : 0 <= k -> 0 <= x < 2 ^ n -> n + k <= 64 -> wrap 64 (Z.shiftl x k) = Z.shiftl x k.
Proof.
  intros Hk Hx Hn. apply wrap_small. rewrite Z.shiftl_mul_pow2 by done.
  assert (0 <= n) by (destruct (Z.le_gt_cases 0 n); [done|rewrite Z.pow_neg_r in Hx by done; lia]).
  assert (2 ^ n * 2 ^ k <= 2 ^ 64) by (rewrite <- Z.pow_add_r by done; apply Z.pow_le_mono_r; lia).
  assert (0 < 2 ^ k) by (apply Z.pow_pos_nonneg; lia). nia.
Qed.

Lemma level_indices_tile_va_ok raw : level_indices_tile_va raw = Ok tt.
Proof.
  destruct (Level_indices_tile_va raw) as [Hr E]. unfold level_indices_tile_va. cbv zeta.
  rewrite !(wrap_shl _ _ 9) by (apply Hr || done). rewrite E, Z.eqb_refl.
  rewrite assert_true; [done|]. rewrite !andb_true_iff, !Z.ltb_lt. split_and!; apply Hr.
Qed.

Lemma esr_harnesses_ok raw :
  esr_fields_tile_low_word raw = Ok tt /\ esr_abort_syndrome_bits raw = Ok tt.
Proof.
  split.
  - destruct (Esr_fields_tile_low_word raw) as (Hec & Hiss & E).
    unfold esr_fields_tile_low_word. cbv zeta.
    rewrite (wrap_shl _ _ 6), (wrap_shl _ _ 1) by (done || by destruct (Esr_il raw)).
    rewrite E, Z.eqb_refl, assert_true; [done|]. rewrite andb_true_iff, !Z.ltb_lt. split; [lia|apply Hiss].
  - unfold esr_abort_syndrome_bits.
    rewrite Esr_dfsc_eq, (land_mask_mod 6), Z.eqb_refl by done. cbn [assert_ obind].
    rewrite bool_decide_true; [|].
    + cbn [assert_ obind]. by rewrite bool_decide_true.
    + unfold Esr_is_write. rewrite (field_extract 6 1) by done. change (2 ^ 1) with 2.
      pose proof (Z.mod_pos_bound (raw / 2 ^ 6) 2 ltac:(done)).
      destruct (Z.eqb_spec ((raw / 2 ^ 6) mod 2) 0), (Z.eqb_spec ((raw / 2 ^ 6) mod 2) 1); cbn; done || lia.
Qed.

Lemma byte_harnesses_ok : forall n, 0 <= n < 256 ->
  from_index_is_total n = Ok tt /\ fault_status_total n = Ok tt /\ exception_class_total n = Ok tt.
Proof. run_decision. Qed.

Lemma affinity_bits low x :
  0 <= x < 2 ^ 8 -> Z.shiftr (Mpidr_new (Z.lor (Z.land low 0x00FFFFFF) (Z.shiftl x 32))) 32 = x.
Proof.
  intros Hx. unfold Mpidr_new, Mpidr_MASK. rewrite Z.shiftr_land, Z.shiftr_lor.
  rewrite Z.shiftr_land. change (Z.shiftr 0x00FFFFFF 32) with 0. rewrite Z.land_0_r, Z.lor_0_l.
  rewrite Z.shiftr_shiftl_l by done. change (Z.shiftr 0xFF00FFFFFF 32) with (2 ^ 8 - 1).
  rewrite (land_mask_mod 8) by done. rewrite Z.shiftl_0_r. by apply Z.mod_small.
Qed.

Lemma aff3_distinguishes_cpus_ok low a b :
  unsigned 8 a -> unsigned 8 b -> aff3_distinguishes_cpus low a b = Ok tt.
Proof.
  unfold unsigned. intros Ha Hb. unfold aff3_distinguishes_cpus. cbv zeta. assumptions.
  rewrite !(wrap_shl _ 32 8) by (done || lia).
  apply assert_true, negb_true_iff, Z.eqb_neq. intros E.
  assert (a = b) by (rewrite <- (affinity_bits low a), <- (affinity_bits low b), E by done; done). lia.
Qed.

(** The decoders' harnesses pass on every register value, fault code,
    exception class and CPU identity, and the level below the last one panics. *)
Theorem arch_harnesses_pass raw n low aff3_a aff3_b :
  unsigned 64 raw -> unsigned 8 n -> unsigned 32 low -> unsigned 8 aff3_a -> unsigned 8 aff3_b ->
  Forall (fun r => r = Ok tt) (arch_harnesses raw n low aff3_a aff3_b) /\
  next_level_l3_panics = Panic ExplicitPanic.
Proof.
  intros Hraw Hn Hlow Ha Hb. destruct (byte_harnesses_ok n Hn) as (? & ? & ?).
  destruct (esr_harnesses_ok raw) as [? ?]. split; [|done].
  unfold arch_harnesses. repeat apply list.Forall_cons_2; [..|apply list.Forall_nil_2].
  all: first [assumption | apply level_indices_tile_va_ok | by apply aff3_distinguishes_cpus_ok | idtac].
  - done.
  - unfold mpidr_keeps_only_affinity_fields, Mpidr_new. by rewrite Z.eqb_refl.
Qed.

Lemma arch_harnesses_pass_witness :
  Forall (fun r => r = Ok tt) (arch_harnesses 0x96000047 0x21 3 1 2) /\
  next_level_l3_panics = Panic ExplicitPanic.
Proof. apply arch_harnesses_pass; unfold unsigned; lia. Defined.
