(* ===== verification/Report.v ===== *)
(** * What the kernel prints when it stops

    [exceptions/panic.rs], and the text of the reports that the handlers of
    [Exceptions] print, line by line.  The reports leave the machine through
    [UartRaw] and the registers in them can be read back from the text. *)

From Stdlib Require Import Ascii.
From stdpp Require Import strings.
From S2P Require Import Prelude Arch Uart Exceptions Fmt.
Open Scope string_scope.
Open Scope Z_scope.

(* ------------------------------------------------------------------------- *)
(** ** The texts *)

(** [core::panic::PanicInfo]: the location's file, line and column, and the message. *)
Record PanicInfo := mkPanicInfo {
  location : option (string * Z * Z);
  message : string;
}.

(** The registers [panic_dump] reads. *)
Record LiveRegs := mkLiveRegs {
  live_esr : Z; live_elr : Z; live_far : Z; live_spsr : Z; live_mpidr : Z; live_sp : Z;
}.

Definition panic_dump (info : PanicInfo) (r : LiveRegs) : list string :=
  [""; "=== KERNEL PANIC ==="] ++
  match location info with
  | Some (file, line, column) =>
      ["Location : " +:+ file +:+ ":" +:+ decimal line +:+ ":" +:+ decimal column]
  | None => []
  end ++
  ["Message  : " +:+ message info;
   "MPIDR    : " +:+ hex_padded 18 (live_mpidr r);
   "SP       : " +:+ hex_padded 18 (live_sp r);
   "ESR_EL1  : " +:+ hex_padded 18 (live_esr r) +:+ " (" +:+
      ExceptionClass_debug (Esr_class (live_esr r)) +:+ " / " +:+ hex_padded 4 (Esr_ec_raw (live_esr r)) +:+ ")";
   "Reason   : " +:+ ExceptionClass_description (Esr_class (live_esr r));
   "ELR_EL1  : " +:+ hex_padded 18 (live_elr r);
   "FAR_EL1  : " +:+ hex_padded 18 (live_far r);
   "SPSR_EL1 : " +:+ hex_padded 18 (live_spsr r) +:+ " (" +:+ SpsrMode_debug (Spsr_mode (live_spsr r)) +:+ ")"].

(** [x{:<2}      : ] and the value. *)
Definition x_label (i : Z) : string := "x" +:+ left_justified 2 (decimal i) +:+ "      : ".

(** The loop over the frame's registers, from number [i]. *)
Fixpoint x_lines (i : Z) (xs : list Z) : list string :=
  match xs with
  | [] => []
  | x :: xs => (x_label i +:+ hex_padded 18 x) :: x_lines (i + 1) xs
  end.

(** The text of [TrapFrame::dump]. *)
Definition Dump_lines (d : Dump) : list string :=
  ["";
   "=== " +:+ du_label d +:+ " ===";
   "Class    : " +:+ ExceptionClass_debug (du_class d) +:+ " (" +:+ hex_padded 4 (du_ec d) +:+ ")";
   "Reason   : " +:+ du_reason d;
   "ESR_EL1  : " +:+ hex_padded 18 (du_esr d);
   "ELR_EL1  : " +:+ hex_padded 18 (du_elr d);
   "FAR_EL1  : " +:+ hex_padded 18 (du_far d);
   "SPSR_EL1 : " +:+ hex_padded 18 (du_spsr d) +:+ " (" +:+ SpsrMode_debug (du_mode d) +:+ ")";
   "SP_EL0   : " +:+ hex_padded 18 (du_sp_el0 d)] ++ x_lines 0 (du_x d).

(** The text of [handle_page_fault]: one call with embedded newlines. *)
Definition FaultReport_lines (r : FaultReport) : list string :=
  ["=== PAGE FAULT ===";
   "STATUS: " +:+ fr_status r;
   "LEVEL: " +:+ option_debug Level_debug (fr_level r);
   "ACCESS: " +:+ fr_access r;
   "FAR: " +:+ hex_padded 18 (fr_far r);
   "FAR_VALID: " +:+ fmt_bool (fr_far_valid r);
   "ELR: " +:+ hex_padded 18 (fr_elr r);
   "ESR: " +:+ hex_padded 18 (fr_esr r)].

Definition report_lines (r : report) : list string :=
  match r with Dumped d => Dump_lines d | PageFault r => FaultReport_lines r end.

(* ------------------------------------------------------------------------- *)
(** ** Reading a text back *)

Definition u64 (x : Z) : Prop := 0 <= x < 2 ^ 64.

(** Walk to the line of a constant label. *)
Ltac find_line :=
  repeat first [rewrite read_here by reflexivity | rewrite read_there by reflexivity].
Ltac read_line := find_line; first [by apply register_field_ok | by apply register_field_last].

Lemma x_label_length i : 0 <= i < 31 -> String.length (x_label i) = 11%nat.
Proof. revert i. apply (range_forallb (fun i => String.length (x_label i) = 11%nat)). by vm_compute. Qed.

Lemma x_label_inj i j : 0 <= i < 31 -> 0 <= j < 31 -> x_label i = x_label j -> i = j.
Proof.
  intros Hi. revert j. revert i Hi. apply (range_forallb (fun i => forall j, 0 <= j < 31 -> x_label i = x_label j -> i = j)).
  by vm_compute.
Qed.

Lemma read_x xs : forall i k x,
  0 <= i -> i + lenz xs <= 31 -> getz xs k = Some x -> u64 x ->
  read_register (x_label (i + k)) (x_lines i xs) = Some x.
Proof.
  induction xs as [|y xs IH]; intros i k x Hi Hl Hk Hx; [pose proof (getz_Some_range _ _ _ Hk); unfold lenz in *; cbn in *; lia|].
  pose proof (getz_Some_range _ _ _ Hk) as Hr. assert (lenz (y :: xs) = 1 + lenz xs) as El by (unfold lenz; cbn; lia).
  cbn [x_lines]. destruct (decide (k = 0)) as [->|Hne].
  - injection Hk as ->. rewrite Z.add_0_r, read_here by apply prefix_app. by apply register_field_last.
  - rewrite read_there.
    + replace (i + k) with (i + 1 + (k - 1)) by lia. apply IH; [lia|lia| |done].
      unfold getz in *. destruct (Z.leb_spec 0 k), (Z.leb_spec 0 (k - 1)); try lia.
      by replace (Z.to_nat k) with (S (Z.to_nat (k - 1))) in Hk by lia.
    + apply prefix_other; [by rewrite !x_label_length by lia|]. intros E%x_label_inj; lia.
Qed.

(** The printed registers, by label. *)
Definition reads (lines : list string) (regs : list (string * Z)) : Prop :=
  Forall (fun lr => read_register lr.1 lines = Some lr.2) regs.

Lemma panic_dump_reads info r :
  u64 (live_mpidr r) -> u64 (live_sp r) -> u64 (live_esr r) -> u64 (live_elr r) -> u64 (live_far r) ->
  u64 (live_spsr r) ->
  reads (panic_dump info r)
    [("MPIDR    : ", live_mpidr r); ("SP       : ", live_sp r); ("ESR_EL1  : ", live_esr r);
     ("ELR_EL1  : ", live_elr r); ("FAR_EL1  : ", live_far r); ("SPSR_EL1 : ", live_spsr r)].
Proof.
  intros. unfold reads, panic_dump. destruct (location info) as [[[file line] column]|];
    cbn [app]; repeat constructor; cbn [fst snd]; read_line.
Qed.

Lemma Dump_reads d :
  u64 (du_esr d) -> u64 (du_elr d) -> u64 (du_far d) -> u64 (du_spsr d) -> u64 (du_sp_el0 d) ->
  Forall u64 (du_x d) -> lenz (du_x d) = 31 ->
  reads (Dump_lines d)
    [("ESR_EL1  : ", du_esr d); ("ELR_EL1  : ", du_elr d); ("FAR_EL1  : ", du_far d);
     ("SPSR_EL1 : ", du_spsr d); ("SP_EL0   : ", du_sp_el0 d)] /\
  forall i x, getz (du_x d) i = Some x -> read_register (x_label i) (Dump_lines d) = Some x.
Proof.
  intros ? ? ? ? ? Hx Hlen. unfold reads, Dump_lines. cbn [app]. split.
  - repeat constructor; cbn [fst snd]; read_line.
  - intros i x Hi. unfold x_label.
    repeat rewrite read_there by reflexivity. fold (x_label i). apply (read_x (du_x d) 0 i x); [done|lia|done|].
    rewrite list.Forall_forall in Hx. apply Hx. unfold getz in Hi. destruct (0 <=? i); [|done].
    by eapply list_elem_of_lookup_2.
Qed.

Lemma FaultReport_reads r :
  u64 (fr_far r) -> u64 (fr_elr r) -> u64 (fr_esr r) ->
  reads (FaultReport_lines r) [("FAR: ", fr_far r); ("ELR: ", fr_elr r); ("ESR: ", fr_esr r)].
Proof. intros. unfold reads, FaultReport_lines. repeat constructor; cbn [fst snd]; read_line. Qed.

(** A handler's report quotes its frame and the two registers it read. *)
Lemma handler_report v f esr far :
  exists r, handler v f esr far = Ok r /\
    match r with
    | Dumped d => exists label, d = TrapFrame_dump f label esr far
    | PageFault r => fr_far r = far /\ fr_elr r = tf_elr_el1 f /\ fr_esr r = esr
    end.
Proof.
  destruct v; cbn [handler]; try (eexists; split; [reflexivity|by eexists]).
  unfold el1_sync_handler, handle_page_fault. destruct (esr_dfsc_ok esr) as (s & -> & _). cbn [obind].
  destruct (Esr_class esr); (eexists; split; [reflexivity|]); by try eexists.
Qed.

(* ------------------------------------------------------------------------- *)
(** ** Properties *)

(** C36: the panic dump.  Against any UART that keeps its manual's promises the dump is
    sent completely, and each of the six registers can be read back from its text,
    whatever the panic's message and location are. *)
Theorem panic_report_delivered {D} bus_read bus_write `{PL011 D bus_read bus_write} fuel d info r :
  (patience bus_read bus_write < fuel)%nat ->
  u64 (live_mpidr r) -> u64 (live_sp r) -> u64 (live_esr r) -> u64 (live_elr r) -> u64 (live_far r) ->
  u64 (live_spsr r) ->
  exists d', UartRaw_write_str bus_read bus_write fuel (log_bytes (panic_dump info r)) d = Ok d' /\
    sent d' = (sent d ++ log_bytes (panic_dump info r))%list /\
    reads (panic_dump info r)
      [("MPIDR    : ", live_mpidr r); ("SP       : ", live_sp r); ("ESR_EL1  : ", live_esr r);
       ("ELR_EL1  : ", live_elr r); ("FAR_EL1  : ", live_far r); ("SPSR_EL1 : ", live_spsr r)].
Proof.
  intros Hf H1 H2 H3 H4 H5 H6.
  destruct (write_str_ok bus_read bus_write fuel (log_bytes (panic_dump info r)) d Hf) as (d' & E & Hs).
  exists d'. split_and!; [exact E|exact Hs|by apply panic_dump_reads].
Qed.

Definition demo_panic : PanicInfo := mkPanicInfo (Some ("kernel/core/main.rs", 63, 50)) "no /psci node".
Definition demo_regs : LiveRegs := mkLiveRegs 0x96000045 0xFFFFFFFF80101234 0x1000 0x3C5 0x80000000 0xFFFFFFFF80140F00.

Lemma panic_report_delivered_witness :
  exists d', UartRaw_write_str toy_read toy_write 2 (log_bytes (panic_dump demo_panic demo_regs)) ([], true) = Ok d' /\
    sent d' = log_bytes (panic_dump demo_panic demo_regs) /\
    read_register "ESR_EL1  : " (panic_dump demo_panic demo_regs) = Some 0x96000045.
Proof.
  destruct (panic_report_delivered toy_read toy_write 2 ([], true) demo_panic demo_regs) as (d' & E & Hs & Hr);
    [unfold patience, toy_pl011; lia|unfold u64; cbn; lia..|].
  exists d'. split_and!; [exact E|exact Hs|]. by vm_compute.
Defined.

(** C37: every handler, for every vector and frame, returns a report from whose text the
    interrupted context can be read back: the link, status and stack registers and all
    thirty-one general registers from a dump, the addresses and the syndrome from a
    page-fault report. *)
Theorem trap_report_readable v f esr far :
  u64 esr -> u64 far -> u64 (tf_elr_el1 f) -> u64 (tf_spsr_el1 f) -> u64 (tf_sp_el0 f) ->
  Forall u64 (tf_x f) -> lenz (tf_x f) = 31 ->
  exists r, handler v f esr far = Ok r /\
    match r with
    | Dumped _ =>
        reads (report_lines r)
          [("ESR_EL1  : ", esr); ("ELR_EL1  : ", tf_elr_el1 f); ("FAR_EL1  : ", far);
           ("SPSR_EL1 : ", tf_spsr_el1 f); ("SP_EL0   : ", tf_sp_el0 f)] /\
        forall i x, getz (tf_x f) i = Some x -> read_register (x_label i) (report_lines r) = Some x
    | PageFault _ =>
        reads (report_lines r) [("FAR: ", far); ("ELR: ", tf_elr_el1 f); ("ESR: ", esr)]
    end.
Proof.
  intros. destruct (handler_report v f esr far) as (r & E & Hr). exists r. split; [exact E|].
  destruct r as [d|r]; cbn [report_lines].
  - destruct Hr as [label ->]. by apply Dump_reads.
  - destruct Hr as (Ef & El & Ee). pose proof (FaultReport_reads r) as HR. rewrite Ef, El, Ee in HR. by apply HR.
Qed.

Definition demo_frame : TrapFrame := mkTrapFrame (seqZ 100 31) 0x7000 0xFFFFFFFF80101234 0x3C5.

Lemma trap_report_readable_witness :
  exists r, handler el1_sync demo_frame 0x02000000 0 = Ok r /\
    read_register (x_label 7) (report_lines r) = Some 107.
Proof.
  destruct (trap_report_readable el1_sync demo_frame 0x02000000 0) as (r & E & Hr);
    [unfold u64; cbn; lia..|repeat constructor; cbn; lia|reflexivity|].
  exists r. split; [exact E|]. injection E as <-. destruct Hr as [_ Hx]. by apply Hx.
Defined.
