(* ===== verification/SysReg.v ===== *)
(** * kernel/arch/lib.rs: the register macros, and the code that runs on them

    [read_sysreg!], [write_sysreg!], [flush_cpu_pipeline!] and [wfe_loop!] as events
    of an interaction tree, and every caller of them as the tree it is: the three
    [install] routines, the per-CPU offset, the exception handlers and the panic
    handler, which the rest of the library gives as functions of the registers they
    read.  A CPU answers the register events; lines sent to the raw console and [wfe]
    stay visible, so a handler means what it prints before it parks. *)

From stdpp Require Import strings.
From ITree Require Import ITree ITreeFacts Events.State Events.StateFacts.
From Paco Require Import paco.
From S2P Require Import Prelude Arch MmuConfig Percpu Smp Exceptions Report.
Open Scope string_scope.
Open Scope Z_scope.

Declare Scope code_scope.
Delimit Scope code_scope with code.
Notation "'let*' x := t 'in' k" := (ITree.bind t (fun x => k))
  (at level 200, x name, t at level 100, k at level 200, right associativity) : code_scope.
Notation "'let*' ' p := t 'in' k" := (ITree.bind t (fun p => k))
  (at level 200, p pattern, t at level 100, k at level 200) : code_scope.
Notation "t ;; k" := (ITree.bind t (fun _ => k)) (at level 100, k at level 200, right associativity) : code_scope.
Open Scope code_scope.

(* ------------------------------------------------------------------------- *)
(** ** Registers and events *)

(** The registers the Rust code names. *)
Inductive register :=
  | esr_el1 | elr_el1 | far_el1 | spsr_el1 | mpidr_el1
  | tpidr_el1 | mair_el1 | tcr_el1 | vbar_el1.

#[export] Instance register_eq_dec : EqDecision register.
Proof. solve_decision. Defined.

(** What the inline assembly asks of the CPU. *)
Variant cpuE : Type -> Type :=
  | Mrs (r : register) : cpuE Z
  | Msr (r : register) (v : Z) : cpuE unit
  | Isb : cpuE unit
  | MovSp : cpuE Z.

(** What leaves the CPU: a line of [kernel_log_raw!], and the wait instruction. *)
Variant devE : Type -> Type :=
  | Line (s : string) : devE unit
  | Wfe : devE unit.

(** Code that may do both. *)
Definition code (R : Type) : Type := itree (cpuE +' devE) R.

(* ------------------------------------------------------------------------- *)
(** ** The macros *)

Definition read_sysreg (name : register) : code Z := trigger (Mrs name).
Definition write_sysreg (name : register) (val : Z) : code unit := trigger (Msr name val).
Definition flush_cpu_pipeline : code unit := trigger Isb.
Definition wfe_loop {R} : code R := ITree.iter (fun _ : unit => trigger Wfe ;; Ret (inl tt)) tt.

Definition kernel_log_raw (s : string) : code unit := trigger (Line s).

(* ------------------------------------------------------------------------- *)
(** ** The CPU *)

(** The registers as direct reads see them; the older values of each that an
    indirect use (a table walk, an exception entry) may still see, because no context
    synchronisation has happened since the write; and the stack pointer. *)
Record Cpu := mkCpu {
  reg : register -> Z;
  stale : register -> list Z;
  cpu_sp : Z;
}.

Definition set_reg (c : Cpu) (r : register) (v : Z) : Cpu :=
  mkCpu (<[r := v]> (reg c)) (<[r := reg c r :: stale c r]> (stale c)) (cpu_sp c).
Definition synchronised (c : Cpu) : Cpu := mkCpu (reg c) (fun _ => []) (cpu_sp c).

Definition on_cpu : cpuE ~> Monads.stateT Cpu (itree devE) :=
  fun _ e c =>
    match e with
    | Mrs r => Ret (c, reg c r)
    | Msr r v => Ret (set_reg c r v, tt)
    | Isb => Ret (synchronised c, tt)
    | MovSp => Ret (c, cpu_sp c)
    end.

Definition on_dev : devE ~> Monads.stateT Cpu (itree devE) :=
  fun _ e c => let* x := ITree.trigger e in Ret (c, x).

Definition on_event : (cpuE +' devE) ~> Monads.stateT Cpu (itree devE) :=
  fun T e => match e with inl1 e => on_cpu T e | inr1 e => on_dev T e end.

(** What code does on a CPU. *)
Definition runs {R} (t : code R) (c : Cpu) : itree devE (Cpu * R) := interp_state on_event t c.

(** The values an indirect use of [r] may see. *)
Definition visible (c : Cpu) (r : register) (v : Z) : Prop := v ∈ reg c r :: stale c r.

(* ------------------------------------------------------------------------- *)
(** ** The callers *)

Definition attrs_install : code unit :=
  write_sysreg mair_el1 MAIR_VALUE ;;
  flush_cpu_pipeline.

(** What [core] puts in the [PanicInfo] of a panic. *)
Section panics.
Context (info_of : panic_reason -> PanicInfo).

Definition Esr_current : code Z := read_sysreg esr_el1.

(** [panic_dump] of [exceptions/panic.rs] and the panic handler of [core/main.rs]. *)
Definition print (lines : list string) : code unit :=
  foldr (fun s t => kernel_log_raw s ;; t) (Ret tt) lines.

Definition panic_dump_code (info : PanicInfo) : code unit :=
  let* esr := Esr_current in
  let* elr := read_sysreg elr_el1 in
  let* far := read_sysreg far_el1 in
  let* spsr := read_sysreg spsr_el1 in
  let* mpidr := read_sysreg mpidr_el1 in
  let* sp := trigger MovSp in
  print (panic_dump info (mkLiveRegs esr elr far spsr mpidr sp)).

Definition panic {R} (info : PanicInfo) : code R :=
  panic_dump_code info ;;
  wfe_loop.

(** Pure code inside a tree: a panic goes to the panic handler. *)
Definition pure {A} (m : outcome A) : code A :=
  match m with Ok a => Ret a | Panic e => panic (info_of e) end.

Definition tcr_install : code unit :=
  let* tcr := pure tcr_install_value in
  write_sysreg tcr_el1 tcr ;;
  flush_cpu_pipeline.

(** [ExceptionVectors::install]; the address of [vector_table] is the linker's. *)
Definition vectors_install (vector_table : Z) : code unit :=
  write_sysreg vbar_el1 vector_table ;;
  flush_cpu_pipeline.

Definition this_cpu_offset : code Z := read_sysreg tpidr_el1.
Definition set_this_cpu_offset (offset : Z) : code unit := write_sysreg tpidr_el1 offset.

(** [percpu::init], and [this_cpu_ptr!] through the register. *)
Definition percpu_init_code {P : Profile} (L : PercpuLayout) (offs : list Z) : code (list Z) :=
  let* '(offs, primary) := pure (percpu_init L offs) in
  set_this_cpu_offset primary ;;
  Ret offs.
Definition this_cpu_ptr_code {P : Profile} (var : Z) : code Z :=
  let* off := this_cpu_offset in
  pure (this_cpu_ptr off var).

(** [Mpidr::current]; [install_current_cpu_local] of [cpu/smp.rs] is
    [set_this_cpu_offset] behind its C name. *)
Definition Mpidr_current : code Z := let* value := read_sysreg mpidr_el1 in Ret (Mpidr_new value).
Definition install_current_cpu_local (offset : Z) : code unit := set_this_cpu_offset offset.

Definition TrapFrame_dump_code (f : TrapFrame) (label : string) : code unit :=
  let* esr := Esr_current in
  let* far := read_sysreg far_el1 in
  print (Dump_lines (TrapFrame_dump f label esr far)).

Definition handle_page_fault_code (f : TrapFrame) : code unit :=
  let* esr := Esr_current in
  let* far := read_sysreg far_el1 in
  let* r := pure (handle_page_fault f esr far) in
  print (FaultReport_lines r) ;;
  wfe_loop.

Definition el1_sync_handler_code (f : TrapFrame) : code unit :=
  let* esr := Esr_current in
  match Esr_class esr with
  | DataAbortSameEl | InstrAbortSameEl => handle_page_fault_code f
  | _ => TrapFrame_dump_code f "EL1 SYNC EXCEPTION"
  end ;;
  wfe_loop.

(** The handlers that dump and park. *)
Definition dump_handler (label : string) (f : TrapFrame) : code unit :=
  TrapFrame_dump_code f label ;;
  wfe_loop.

Definition handler_code (v : vector) : TrapFrame -> code unit :=
  match v with
  | bad_mode => dump_handler "BAD MODE"
  | el1_sync => el1_sync_handler_code
  | el1_irq => dump_handler "EL1 IRQ (unhandled)"
  | el1_fiq => dump_handler "EL1 FIQ (unhandled)"
  | el1_serror => dump_handler "EL1 SError"
  | el0_sync => dump_handler "EL0 SYNC (unhandled)"
  | el0_irq => dump_handler "EL0 IRQ (unhandled)"
  | el0_fiq => dump_handler "EL0 FIQ (unhandled)"
  | el0_serror => dump_handler "EL0 SError"
  end.

End panics.

(* ------------------------------------------------------------------------- *)
(** ** What a stopped CPU does *)

(** Wait instructions for ever: no result is ever given. *)
Definition parked {R} : itree devE R := ITree.iter (fun _ : unit => ITree.trigger Wfe ;; Ret (inl tt)) tt.

Fixpoint emits {R} (lines : list string) (t : itree devE R) : itree devE R :=
  match lines with
  | [] => t
  | s :: lines => ITree.trigger (Line s) ;; emits lines t
  end.

Definition live_regs (c : Cpu) : LiveRegs :=
  mkLiveRegs (reg c esr_el1) (reg c elr_el1) (reg c far_el1) (reg c spsr_el1) (reg c mpidr_el1) (cpu_sp c).

(* ------------------------------------------------------------------------- *)
(** ** Running code *)

Lemma runs_ret {R} (x : R) c : runs (Ret x) c ≈ Ret (c, x).
Proof. unfold runs. rewrite interp_state_ret. reflexivity. Qed.

Lemma runs_bind {A B} (t : code A) (k : A -> code B) c :
  runs (ITree.bind t k) c ≈ ITree.bind (runs t c) (fun cx => runs (k cx.2) cx.1).
Proof. unfold runs. rewrite interp_state_bind. reflexivity. Qed.

Lemma runs_cpu {A} (e : cpuE A) c : runs (trigger e) c ≈ on_cpu A e c.
Proof. unfold runs. rewrite interp_state_trigger. reflexivity. Qed.

Lemma runs_dev {A} (e : devE A) c : runs (trigger e) c ≈ on_dev A e c.
Proof. unfold runs. rewrite interp_state_trigger. reflexivity. Qed.

(** A step that only reads or writes registers is absorbed. *)
Lemma runs_cpu_bind {A B} (e : cpuE A) (k : A -> code B) c c' a :
  on_cpu A e c = Ret (c', a) -> runs (ITree.bind (trigger e) k) c ≈ runs (k a) c'.
Proof. intros E. rewrite runs_bind, runs_cpu, E, bind_ret_l. reflexivity. Qed.

Lemma runs_mrs {B} r (k : Z -> code B) c : runs (ITree.bind (read_sysreg r) k) c ≈ runs (k (reg c r)) c.
Proof. by apply runs_cpu_bind. Qed.
Lemma runs_msr {B} r v (k : unit -> code B) c :
  runs (ITree.bind (write_sysreg r v) k) c ≈ runs (k tt) (set_reg c r v).
Proof. by apply runs_cpu_bind. Qed.
Lemma runs_isb {B} (k : unit -> code B) c :
  runs (ITree.bind flush_cpu_pipeline k) c ≈ runs (k tt) (synchronised c).
Proof. by apply runs_cpu_bind. Qed.
Lemma runs_movsp {B} (k : Z -> code B) c : runs (ITree.bind (trigger MovSp) k) c ≈ runs (k (cpu_sp c)) c.
Proof. by apply runs_cpu_bind. Qed.

Lemma runs_pure_bind {A B} (info_of : panic_reason -> PanicInfo) (m : outcome A) a (k : A -> code B) c :
  m = Ok a -> runs (ITree.bind (pure info_of m) k) c ≈ runs (k a) c.
Proof. intros ->. cbn [pure]. rewrite runs_bind, runs_ret, bind_ret_l. reflexivity. Qed.

Lemma runs_print_bind {B} lines (k : code B) c :
  runs (ITree.bind (print lines) (fun _ => k)) c ≈ emits lines (runs k c).
Proof.
  induction lines as [|s lines IH]; cbn [print foldr emits].
  - rewrite runs_bind, runs_ret, bind_ret_l. reflexivity.
  - rewrite runs_bind. unfold kernel_log_raw. setoid_rewrite runs_bind. setoid_rewrite runs_dev.
    unfold on_dev. rewrite !bind_bind. setoid_rewrite bind_ret_l. cbn.
    apply eqit_bind; [reflexivity|]. intros []. rewrite <- IH, runs_bind. reflexivity.
Qed.

Lemma parked_iter {S R} (s : S) :
  @Basics.iter (Monads.stateT S (itree devE)) _ R unit
    (fun (_ : unit) (c : S) => let* x := ITree.trigger Wfe in Ret (c, inl tt)) tt s
  ≈ (parked : itree devE (S * R)).
Proof.
  unfold parked, Basics.iter, Basics.MonadIter_stateT0, Basics.iter, MonadIter_itree.
  apply (eutt_iter' (fun _ _ => True)); [|done]. intros [? ?] [] _. cbn.
  rewrite bind_bind. apply (eqit_bind' eq); [reflexivity|]. intros [] [] _. rewrite bind_ret_l. cbn.
  apply eqit_Ret. by constructor.
Qed.

Lemma wfe_runs {R} c : runs (wfe_loop : code R) c ≈ parked.
Proof.
  unfold runs, wfe_loop. rewrite (interp_state_iter'_eutt on_event _
    (fun (_ : unit) (c : Cpu) => let* x := ITree.trigger Wfe in Ret (c, inl tt))).
  - apply parked_iter.
  - intros [] s. rewrite (runs_bind (trigger Wfe) _ s), runs_dev. unfold on_dev.
    rewrite bind_bind. setoid_rewrite bind_ret_l. setoid_rewrite runs_ret. reflexivity.
Qed.

(** Peel the reads and writes off the front of the code. *)
Ltac run_registers :=
  unfold Esr_current, this_cpu_offset, set_this_cpu_offset;
  repeat (first [rewrite bind_bind | rewrite runs_mrs | rewrite runs_msr | rewrite runs_isb | rewrite runs_movsp];
    cbn beta).

Section stops.
Context (info_of : panic_reason -> PanicInfo).

Lemma dump_runs {R} f label (k : code R) c :
  runs (TrapFrame_dump_code f label ;; k) c
  ≈ emits (Dump_lines (TrapFrame_dump f label (reg c esr_el1) (reg c far_el1))) (runs k c).
Proof.
  unfold TrapFrame_dump_code. run_registers. apply runs_print_bind.
Qed.

Lemma emits_parked {R} lines (t t' : itree devE R) : t ≈ t' -> emits lines t ≈ emits lines t'.
Proof.
  intros E. induction lines as [|s lines IH]; [done|]. cbn [emits].
  apply eqit_bind; [reflexivity|]. intros []. apply IH.
Qed.

Lemma dump_handler_runs f label c :
  runs (dump_handler label f) c
  ≈ emits (Dump_lines (TrapFrame_dump f label (reg c esr_el1) (reg c far_el1))) parked.
Proof. unfold dump_handler. rewrite dump_runs. apply emits_parked, wfe_runs. Qed.

(** Nothing that parks returns to what follows. *)
Lemma parked_bind {R S} (k : R -> itree devE S) : ITree.bind parked k ≈ parked.
Proof.
  einit. ecofix CIH. unfold parked at 1 2. rewrite !unfold_iter, !bind_bind.
  ebind; econstructor; try reflexivity. intros [] _ []. rewrite !bind_ret_l, bind_tau. etau.
Qed.

Lemma emits_bind {R S} lines (t : itree devE R) (k : R -> itree devE S) :
  ITree.bind (emits lines t) k ≈ emits lines (ITree.bind t k).
Proof.
  induction lines as [|s lines IH]; [reflexivity|]. cbn [emits]. rewrite bind_bind.
  apply eqit_bind; [reflexivity|]. intros []. apply IH.
Qed.

Lemma page_fault_runs f r c :
  handle_page_fault f (reg c esr_el1) (reg c far_el1) = Ok r ->
  runs (handle_page_fault_code info_of f) c ≈ emits (FaultReport_lines r) parked.
Proof.
  intros E. unfold handle_page_fault_code. run_registers.
  rewrite (runs_pure_bind _ _ r) by done. rewrite runs_print_bind. apply emits_parked, wfe_runs.
Qed.

Lemma el1_sync_runs f c r :
  el1_sync_handler f (reg c esr_el1) (reg c far_el1) = Ok r ->
  runs (el1_sync_handler_code info_of f) c ≈ emits (report_lines r) parked.
Proof.
  unfold el1_sync_handler, el1_sync_handler_code. intros E. run_registers.
  assert (forall r', handle_page_fault f (reg c esr_el1) (reg c far_el1) = Ok r' ->
    runs (handle_page_fault_code info_of f ;; wfe_loop : code unit) c ≈ emits (report_lines (PageFault r')) parked) as Hfault.
  { intros r' E'. rewrite runs_bind, (page_fault_runs _ r'), emits_bind by done. apply emits_parked, parked_bind. }
  assert (r = Dumped (TrapFrame_dump f "EL1 SYNC EXCEPTION" (reg c esr_el1) (reg c far_el1)) ->
    runs (TrapFrame_dump_code f "EL1 SYNC EXCEPTION" ;; wfe_loop : code unit) c ≈ emits (report_lines r) parked) as Hdump.
  { intros ->. rewrite dump_runs. apply emits_parked, wfe_runs. }
  destruct (Esr_class (reg c esr_el1)); try (apply Hdump; by injection E).
  all: apply obind_Ok_inv in E as (r' & E' & [= <-]); by apply Hfault.
Qed.

Lemma panic_runs {R} info c :
  runs (panic info : code R) c ≈ emits (panic_dump info (live_regs c)) parked.
Proof.
  unfold panic, panic_dump_code. run_registers. rewrite runs_print_bind. apply emits_parked, wfe_runs.
Qed.

End stops.

(* ------------------------------------------------------------------------- *)
(** ** Properties *)

(** C30: how the kernel stops.  Whatever the registers hold, every exception handler and
    the panic handler is observably the printing of its report followed by wait
    instructions for ever: the report is the one the decoders give for the values the
    registers hold at entry, the lines come out completely and in order, nothing else is
    done, and control never comes back to the interrupted code. *)
Theorem stops_after_report info_of c :
  (forall v f, exists r, handler v f (reg c esr_el1) (reg c far_el1) = Ok r /\
     runs (handler_code info_of v f) c ≈ emits (report_lines r) parked) /\
  (forall R info, runs (panic info : code R) c ≈ emits (panic_dump info (live_regs c)) parked).
Proof.
  split; [|intros; apply panic_runs]. intros v f.
  destruct (handler_report v f (reg c esr_el1) (reg c far_el1)) as (r & E & _). exists r. split; [done|].
  destruct v; try (injection E as <-; apply dump_handler_runs). by apply el1_sync_runs.
Qed.

(** Taking an exception: the hardware writes the syndrome, the return address and the
    saved state, and synchronises. *)
Definition take_exception (c : Cpu) (esr pc pstate : Z) : Cpu :=
  synchronised (set_reg (set_reg (set_reg c esr_el1 esr) elr_el1 pc) spsr_el1 pstate).

(** [kmain] ends in [udf #0], an exception of unknown class taken from EL1 on its own
    stack pointer: slot four of the table.  The CPU prints the dump and parks. *)
Lemma udf_stops info_of c pc pstate f :
  let c' := take_exception c 0x02000000 pc pstate in
  exists v, vector_table !! 4%nat = Some v /\
    runs (handler_code info_of v f) c'
    ≈ emits (Dump_lines (TrapFrame_dump f "EL1 SYNC EXCEPTION" 0x02000000 (reg c far_el1))) parked.
Proof. intros c'. exists el1_sync. split; [done|]. by apply (el1_sync_runs info_of f c' (Dumped _)). Qed.

(** [v] is installed in [r]: a direct read gives it, no use may see an older value of any
    register, and the other registers are as they were. *)
Definition installed (c : Cpu) (r : register) (v : Z) (c' : Cpu) : Prop :=
  reg c' r = v /\
  (forall r' x, visible c' r' x <-> x = reg c' r') /\
  (forall r', r' <> r -> reg c' r' = reg c r') /\
  cpu_sp c' = cpu_sp c.

Lemma install_ok c r v : installed c r v (synchronised (set_reg c r v)).
Proof.
  split_and!; cbn; [apply fn_lookup_insert| |intros; by apply fn_lookup_insert_ne|done].
  intros r' x. unfold visible. cbn. rewrite list_elem_of_singleton. done.
Qed.

Lemma install_runs c r v : runs (write_sysreg r v ;; flush_cpu_pipeline) c ≈ Ret (synchronised (set_reg c r v), tt).
Proof. run_registers. unfold flush_cpu_pipeline. rewrite runs_cpu. reflexivity. Qed.

(** Programming the system registers.  [attrs::install], [tcr::install] and
    [ExceptionVectors::install] return, and from then on no table walk and no exception
    entry can use an older value; [tcr::install] does not panic and its word is the boot
    stub's.  The per-CPU offset is read back at once: after [percpu::init] the pointer
    [this_cpu_ptr!] forms lies in the primary's own area, at the variable's place. *)
Theorem registers_programmed {P : Profile} info_of L offs c vector_table var :
  percpu_layout_ok L -> lenz offs = MAX_CPUS -> percpu_end L - percpu_start L <= PERCPU_MAX ->
  percpu_start L <= var < percpu_end L ->
  (exists c', runs attrs_install c ≈ Ret (c', tt) /\ installed c mair_el1 0x040044FF c') /\
  (exists c', runs (tcr_install info_of) c ≈ Ret (c', tt) /\ installed c tcr_el1 0x25B5503510 c') /\
  (exists c', runs (vectors_install vector_table) c ≈ Ret (c', tt) /\ installed c vbar_el1 vector_table c') /\
  (exists c', runs (percpu_init_code info_of L offs ;; this_cpu_ptr_code info_of var) c
     ≈ Ret (c', area L 0 + (var - percpu_start L)) /\
     (forall r, r <> tpidr_el1 -> reg c' r = reg c r) /\
     area L 0 <= area L 0 + (var - percpu_start L) < area L 1) /\
  runs Mpidr_current c ≈ Ret (c, Mpidr_new (reg c mpidr_el1)).
Proof.
  intros HL Hlen Hfit Hvar. split_and!.
  - eexists. split; [apply install_runs|]. apply install_ok.
  - eexists. split; [|apply install_ok]. unfold tcr_install.
    rewrite (runs_pure_bind _ _ 0x25B5503510) by reflexivity. apply install_runs.
  - eexists. split; [apply install_runs|]. apply install_ok.
  - destruct (percpu_init_ok L offs) as (offs' & E & Hready); [done..|].
    destruct (per_cpu_ptr_ok L offs' 0 var 1 Hready) as (_ & (off & Eo & Et) & Hlo & Hhi); [unfold MAX_CPUS; lia|lia..|].
    assert (off = area L 0 - percpu_start L) as ->.
    { destruct Hready as [_ _ _ Hoff]. unfold offset_of_cpu in Eo.
      rewrite (idx_ok _ _ _ (Hoff 0 ltac:(unfold MAX_CPUS; lia))) in Eo. by injection Eo. }
    exists (set_reg c tpidr_el1 (area L 0 - percpu_start L)). split_and!.
    + unfold percpu_init_code, this_cpu_ptr_code. rewrite bind_bind, (runs_pure_bind _ _ _ _ _ E). cbn beta iota.
      run_registers. rewrite bind_ret_l. run_registers. cbn [reg set_reg]. rewrite fn_lookup_insert, Et. apply runs_ret.
    + intros r Hr. by apply fn_lookup_insert_ne.
    + lia.
    + change 1 with (0 + 1). lia.
  - unfold Mpidr_current. run_registers. apply runs_ret.
Qed.

Definition demo_cpu : Cpu :=
  mkCpu (fun r => match r with esr_el1 => 0x96000045 | mpidr_el1 => 0x80000001 | _ => 0 end) (fun _ => [7]) 0x4000.

Lemma registers_programmed_witness :
  exists c', runs (percpu_init_code (P := release_dev) (fun _ => mkPanicInfo None "") virt_percpu OFFSETS_zero ;;
      this_cpu_ptr_code (P := release_dev) (fun _ => mkPanicInfo None "") 0x4008D040) demo_cpu
    ≈ Ret (c', 0xFFFFFFFF80140040) /\ reg c' esr_el1 = 0x96000045.
Proof.
  destruct (registers_programmed (P := release_dev) (fun _ => mkPanicInfo None "") virt_percpu OFFSETS_zero demo_cpu 0x4008A000 0x4008D040)
    as (_ & _ & _ & (c' & E & Hsame & _) & _);
    [apply virt_percpu_ok|reflexivity|cbn; unfold PERCPU_MAX; lia|cbn; lia|].
  exists c'. split; [exact E|]. by rewrite Hsame.
Defined.
