(* ===== verification/Kmain.v ===== *)
(** * kernel/core/main.rs: [kmain], from the boot stub to the last log line

    The boot sequence as one function: the stub, then [kmain] calling each component
    in the order of the source, with the panics of its [expect]s.  What the kernel
    finds is an argument: the linker's symbols, the device tree as the [fdt] crate
    reports it (its blob is read through the tables in force, and a read they do not
    translate is a data abort), the firmware, and the words that lie where the mem-map goes.  The
    state is the primary CPU's; [k_console] holds the lines on the console, those of the
    secondaries included, and like the buddy allocator behind [BUDDY] it is handed from
    one component's statics to the next. *)

From stdpp Require Import strings.
From S2P Require Import Prelude Arch MmuConfig FrameTypes Layout Buddy Bootmem Boot PageTable PageTableProps Frame KernelMap Mmu BootStub Slab Percpu Smp Fmt.
Open Scope string_scope.
Open Scope list_scope.
Open Scope Z_scope.

(** The device tree: memory nodes, the blob's size, the PSCI node, the CPUs. *)
Record Fdt := mkFdt {
  fdt_memory : list FdtRegion;
  total_size : Z;
  fdt_psci : option PsciNode;
  fdt_cpus : list Z;
}.

(** [size_of::<fdt_header>()], what a device tree begins with. *)
Definition FDT_HEADER : Z := 40.

(** Addresses the linker chose. *)
Record Linker := mkLinker {
  ld_percpu : PercpuLayout;
  ld_map : KernelSymbols;
  ld_smp : SmpSymbols;
  vectors : Z;
  bss_start_pa : Z;
  bss_end_pa : Z;
  stack_top_pa : Z;
  boot_bss_start : Z;
  boot_bss_end : Z;
}.

(** The statics, memory and the primary's registers.  [BUDDY] is the one of
    [k_frames]. *)
Record Kernel (FW : Type) := mkKernel {
  k_mem : mem;
  k_frames : FrameState;
  k_vbar : Z;
  k_offsets : list Z;
  k_mmu : Mmu;
  k_smp : SmpState FW;
  k_slab : list (option Z);
  k_console : list string;
}.
Arguments mkKernel {FW}.
Arguments k_mem {FW} k.
Arguments k_frames {FW} k.
Arguments k_vbar {FW} k.
Arguments k_offsets {FW} k.
Arguments k_mmu {FW} k.
Arguments k_smp {FW} k.
Arguments k_slab {FW} k.
Arguments k_console {FW} k.

(** What [kmain]'s locals are when it has logged its last line. *)
Record Booted (FW : Type) := mkBooted {
  kernel : Kernel FW;
  root : Z;
  page1 : Z;
  page2 : Z;
  vec : Z;
  boxed : Z;
}.
Arguments mkBooted {FW}.
Arguments kernel {FW} b.
Arguments root {FW} b.
Arguments page1 {FW} b.
Arguments page2 {FW} b.
Arguments vec {FW} b.
Arguments boxed {FW} b.

(** [ram::for_each_region], as the list [kernel_map::build] walks. *)
Definition ram_nodes (fdt : Fdt) : list (Z * Z) :=
  omap (fun r => (fun size => (starting_address r, size)) <$> fdt_size r) (fdt_memory fdt).

(** Memory as seen through the linear window, and back. *)
Definition linear_view (m : mem) : Z -> Z := fun va => m (va - KERNEL_LINEAR_BASE).
Definition linear_back (h : Z -> Z) : mem := fun pa => h (pa + KERNEL_LINEAR_BASE).

(** [BUDDY.call_once(|| SpinLock::new(buddy))] *)
Definition BUDDY_call_once (buddy : BuddyAllocator) (fr : FrameState) : FrameState :=
  match BUDDY fr with
  | Some _ => fr
  | None => mkFrameState (POOL fr) (NEXT fr) (Some buddy)
  end.
Definition with_BUDDY (fr : FrameState) (b : option BuddyAllocator) : FrameState :=
  mkFrameState (POOL fr) (NEXT fr) b.

(** [expect] on [bring_up_all]'s result. *)
Definition expect_ok (r : option BringUpError) : outcome unit :=
  match r with None => Ok tt | Some _ => Panic ExplicitPanic end.

(** [alloc::alloc] as [vec!] and [Box::new] call it: null ends in
    [handle_alloc_error]. *)
Definition heap_alloc {P : Profile} (size align : Z) (w : World) : outcome (Z * World) :=
  let! '(p, w) := LockedSlab_alloc size align w in
  if p =? 0 then Panic ExplicitPanic else Ok (p, w).

Section kmain.
Context {P : Profile} {FW : Type}.
Context (smccc : Method -> Z -> Z -> Z -> Z -> FW -> Z * FW) (delay : FW -> Z -> nat) (fuel : nat).
Context (from_ptr : Z -> option Fdt) (raw : mem -> Z -> Z -> list PageInfo).
Context (Y : Linker) (current : Z).

(** A read of [len] bytes at [va] through the tables in force, which must lead to where
    the linear window has them: an address that does not translate aborts. *)
Definition reads (va len : Z) (k : Kernel FW) : outcome unit :=
  if forallb (fun i => bool_decide (address (walk (k_mem k) (now (k_mmu k)) (va + i)) (va + i) = Some (va + i - KERNEL_LINEAR_BASE)))
       (seqZ 0 len)
  then Ok tt else Panic DataAbort.

(** [from_ptr] reads the header and then the blob, whose length the header has. *)
Definition parse_fdt (dtb : Z) (k : Kernel FW) : outcome Fdt :=
  let! _ := reads dtb FDT_HEADER k in
  let! fdt := unwrap (from_ptr dtb) in
  let! _ := reads dtb (total_size fdt) k in
  Ok fdt.

(** The address space: the runtime map from the memory nodes, then both switches. *)
Definition enter_upper_half (fdt : Fdt) (dtb : Z) (k : Kernel FW) : outcome (Z * Kernel FW) :=
  let! _ := reads dtb (total_size fdt) k in
  let! '(root, (fr, m)) := build (ram_nodes fdt) (ld_map Y) (k_frames k, k_mem k) in
  let con := k_console k ++ ["kernel_map built, root at 0x" +:+ lower_hex root] in
  let mmu := run_of (switch_ttbr1 root) (k_mmu k) in
  let con := con ++ ["TTBR1 switched"] in
  let mmu := run_of disable_ttbr0 mmu in
  let con := con ++ ["TTBR0 disabled"] in
  Ok (root, mkKernel m fr (k_vbar k) (k_offsets k) mmu (k_smp k) (k_slab k) con).

(** The allocators: bootmem from the device tree, the buddy allocator from bootmem. *)
Definition start_buddy (fdt : Fdt) (dtb : Z) (k : Kernel FW) : outcome (Kernel FW) :=
  let! _ := reads dtb (total_size fdt) k in
  let! boot := build_bootmem (fdt_memory fdt) (total_size fdt) dtb (stack_top_pa Y) in
  let! buddy := init_buddy (raw (k_mem k)) boot in
  let con := k_console k ++ ["buddy up: " +:+ decimal (free_frames buddy) +:+ " free frames"] in
  let fr := BUDDY_call_once buddy (k_frames k) in
  Ok (mkKernel (k_mem k) fr (k_vbar k) (k_offsets k) (k_mmu k) (k_smp k) (k_slab k) con).

(** The other CPUs, which take their stacks from [BUDDY]. *)
Definition start_cpus (fdt : Fdt) (dtb root tpidr : Z) (k : Kernel FW) : outcome (Kernel FW) :=
  let! _ := reads dtb (total_size fdt) k in
  let! psci := unwrap (Psci_from_fdt (fdt_psci fdt)) in
  let self := Mpidr_new current in
  let r := mkCpuRegs tpidr (sp_el1 (regs (k_smp k) self)) (TTBR1 (now (k_mmu k))) (TTBR0 (now (k_mmu k))) (TCR (now (k_mmu k))) in
  let smp := set_regs (k_smp k) (<[self := r]> (regs (k_smp k))) in
  let smp := mkSmpState (CPU_ONLINE smp) (cpu_data smp) (boot_data smp) (BUDDY (k_frames k)) (regs smp) (fw smp) (waking smp) (k_console k) in
  let! '(smp, r) := bring_up_all smccc delay (k_offsets k) (ld_smp Y) fuel current root psci (fdt_cpus fdt) smp in
  let! _ := expect_ok r in
  Ok (mkKernel (k_mem k) (with_BUDDY (k_frames k) (smp_buddy smp)) (k_vbar k) (k_offsets k) (k_mmu k) smp (k_slab k) (smp_console smp)).

(** [reclaim_trampoline]: [BUDDY.get().unwrap_unchecked()], free the pages, log. *)
Definition reclaim (k : Kernel FW) : outcome (Kernel FW) :=
  match BUDDY (k_frames k) with
  | None => Panic Undefined
  | Some b =>
      let! b := reclaim_trampoline b (boot_bss_start Y) (boot_bss_end Y) in
      let bb_pages := (boot_bss_end Y - boot_bss_start Y) / PAGE_SIZE in
      let con := k_console k ++ ["reclaimed " +:+ decimal bb_pages +:+ " trampoline pages"] in
      Ok (mkKernel (k_mem k) (with_BUDDY (k_frames k) (Some b)) (k_vbar k) (k_offsets k) (k_mmu k) (k_smp k) (k_slab k) con)
  end.

(** The demonstration at the end: two pages, a vector of four [u32]s and a boxed [u64]. *)
Definition demonstrate (root : Z) (k : Kernel FW) : outcome (Booted FW) :=
  let! '((p1, fr), m) := frame_alloc_page (k_frames k) (k_mem k) in
  let! '((p2, fr), m) := frame_alloc_page fr m in
  let con := k_console k ++ ["buddy alloc: " +:+ hex_alt p1 +:+ ", " +:+ hex_alt p2] in
  let w := mkWorld (k_slab k) (linear_view m) (BUDDY fr) in
  let! '(v, w) := heap_alloc 16 4 w in
  let w := with_heap w (<[v := 0x200000001]> (heap w)) in
  let w := with_heap w (<[v + 8 := 0x400000003]> (heap w)) in
  let con := con ++ ["vec len=" +:+ decimal 4 +:+ " @ " +:+ hex_alt v] in
  let! '(b, w) := heap_alloc 8 8 w in
  let w := with_heap w (<[b := 0xDEADBEEF]> (heap w)) in
  let con := con ++ ["box " +:+ hex_alt (heap w b) +:+ " @ " +:+ hex_alt b] in
  let con := con ++ ["Triggering exception..."] in
  Ok (mkBooted (mkKernel (linear_back (heap w)) (with_BUDDY fr (buddy w)) (k_vbar k) (k_offsets k) (k_mmu k)
                 (k_smp k) (free_lists w) con) root p1 p2 v b).

(** [kmain], up to the [udf]. *)
Definition kmain (dtb : Z) (k : Kernel FW) : outcome (Booted FW) :=
  let con := k_console k ++ ["Hello from Preon kernel!"] in
  let! '(offs, tpidr) := percpu_init (ld_percpu Y) (k_offsets k) in
  let k := mkKernel (k_mem k) (k_frames k) (vectors Y) offs (k_mmu k) (k_smp k) (k_slab k) con in
  let! fdt := parse_fdt dtb k in
  let! '(root, k) := enter_upper_half fdt dtb k in
  let! k := start_buddy fdt dtb k in
  let! k := start_cpus fdt dtb root tpidr k in
  let! k := reclaim k in
  demonstrate root k.

(** The statics as they are linked and cleared. *)
Definition reset_kernel (pool : Z) (m : mem) (mmu : Mmu) (data : Z -> CpuData) (bd : list SecondaryBootData)
    (rs : Z -> CpuRegs) (f : FW) : Kernel FW :=
  mkKernel m (mkFrameState pool 0 None) 0 OFFSETS_zero mmu
    (mkSmpState 0 data bd None rs f None []) Slab_new [].

(** From the first instruction of [.Lel1]: the stub, then [kmain]. *)
Definition boot (pool fdt_pa : Z) (m : mem) (mmu : Mmu) (data : Z -> CpuData) (bd : list SecondaryBootData)
    (rs : Z -> CpuRegs) (f : FW) : outcome (Booted FW) :=
  let! '((m, mmu), dtb) := boot_stub (bss_start_pa Y) (bss_end_pa Y) (boot_bss_start Y) fdt_pa m mmu in
  kmain dtb (reset_kernel pool m mmu data bd rs f).
End kmain.
