(* ===== verification/KmainProps.v ===== *)
(** * The boot sequence: what holds when [kmain] has booted

    The components' contracts composed along [kmain]: each step's precondition is
    discharged by what the earlier steps guarantee.  [board_ok] is what the linker
    script, the device tree and the firmware must provide; [booted] is the state in
    which the kernel goes on. *)

From stdpp Require Import strings sorting.
From S2P Require Import Prelude Arch MmuConfig FrameTypes Layout Uart Buddy BuddyInv BuddyGeom BuddyWf BuddySteps BuddyCore BuddyFree BuddyRange BuddyCanon BuddyProps BuddyAddr Bootmem BootmemProps Boot PageTable PageTableProps Frame KernelMap KernelMapProps Mmu BootStub Slab SlabInv Percpu Smp SmpProps Fmt Kmain.
Open Scope list_scope.
Open Scope Z_scope.

(* ------------------------------------------------------------------------- *)
(** ** Frames the buddy allocator has a hand on *)

(** Frame [f] is free or part of a block handed out. *)
Definition owned (b : BuddyAllocator) (f : Z) : Prop :=
  free_in b f \/ exists p o, allocated b p = Some o /\ in_block p o f.

Lemma drawn_owned b b' f : drawn b b' -> owned b' f -> owned b f.
Proof.
  intros D [Hf|(p & o & Hp & Hf)]; [left; by apply (dr_free _ _ D)|].
  destruct (dr_new _ _ D p o f Hp Hf); [right; by exists p, o|by left].
Qed.

Lemma owned_drawn b b' f : drawn b b' -> owned b f -> owned b' f.
Proof.
  intros D [Hf|(p & o & Hp & Hf)]; [by apply (dr_lost _ _ D)|]. right. exists p, o. split; [by apply (dr_keep _ _ D)|done].
Qed.

Lemma freed_owned b b' s e f : range_freed b b' s e -> owned b' f -> owned b f \/ s <= f < e.
Proof.
  intros R [Hf|(p & o & Hp & Hf)].
  - apply (rf_free _ _ _ _ R) in Hf as [?|?]; [by left; left|by right].
  - left. right. exists p, o. by rewrite <- (rf_alloc _ _ _ _ R).
Qed.

Lemma freed_placed b b' s e : placed b -> range_freed b b' s e -> placed b'.
Proof.
  intros [W Hb Hal Hs] R. split; rewrite ?(rf_base _ _ _ _ R), ?(rf_nr _ _ _ _ R); try done. apply R.
Qed.

Lemma handed_out_owned b b' p o f : handed_out b b' p o -> in_block p o f -> owned b f.
Proof. intros H Hf. left. by apply H. Qed.

(** A free frame means that a page can be granted. *)
Lemma free_frames_grant b : wf b -> 0 < free_frames b -> ~ cannot_grant (Some b) 0.
Proof.
  intros W Hf Hn. destruct (wf_free_list b W) as (l & _ & Hl & Hlen).
  destruct l as [|f l]; [unfold lenz in Hlen; cbn in Hlen; lia|].
  destruct (proj1 (Hl f)) as (p & k & Hm & _); [by left|].
  pose proof (Hn p k Hm). destruct (wf_free_block _ _ _ W Hm). lia.
Qed.

(** Byte [x] is in frame [f]. *)
Definition in_frame (b : BuddyAllocator) (f x : Z) : Prop :=
  dram_base b + f * PAGE_SIZE <= x < dram_base b + (f + 1) * PAGE_SIZE.

Lemma in_frame_inj b f g x : in_frame b f x -> in_frame b g x -> f = g.
Proof. unfold in_frame, PAGE_SIZE. lia. Qed.

(* ------------------------------------------------------------------------- *)
(** ** The linear window, before and after the switch *)

(** The trampoline has the first gigabyte of RAM there. *)
Lemma trampoline_linear pa :
  IMAGE_PA_BASE <= pa < IMAGE_PA_BASE + BLOCK_1GB -> planned trampoline_plan (pa + KERNEL_LINEAR_BASE) = Some pa.
Proof.
  intros Hpa. destruct (planned_cases trampoline_plan (pa + KERNEL_LINEAR_BASE)) as [(e & He & Hin & ->)|[_ Hn]].
  - unfold trampoline_plan, in_plan, UART_PA, PAGE_SIZE in *. change BLOCK_2MB with 0x200000 in *. change BLOCK_1GB with 0x40000000 in *.
    repeat (apply elem_of_cons in He as [->|He]); [..|by apply elem_of_nil in He]; cbn [pl_lo pl_hi pl_off] in *;
      first [by f_equal; lia|exfalso; revert Hin Hpa; unfold IMAGE_PA_BASE; unfold_layout; lia].
  - destruct (Hn (mkPlan (IMAGE_PA_BASE + KERNEL_LINEAR_BASE) (IMAGE_PA_BASE + BLOCK_1GB + KERNEL_LINEAR_BASE) KERNEL_LINEAR_BASE TRAMPOLINE_RAM)).
    + do 2 right. left.
    + unfold in_plan. cbn [pl_lo pl_hi]. lia.
Qed.

(** The runtime map has every memory node there. *)
Lemma linear_translated m t0 root tcr ram k r pa :
  follows_plan m root (build_plan ram k) -> page_aligned root -> Forall region_good ram -> r ∈ ram ->
  tcr = BOOT_TCR \/ tcr = Z.lor BOOT_TCR TCR_EPD0 -> r.1 <= pa < r.1 + r.2 ->
  address (walk m (mkMmuRegs t0 root tcr) (pa + KERNEL_LINEAR_BASE)) (pa + KERNEL_LINEAR_BASE) = Some pa.
Proof.
  intros [Hp _] Hal Hg Hr Ht Hpa. rewrite list.Forall_forall in Hg. destruct (Hg r Hr) as (? & ? & ? & _).
  assert (upper (pa + KERNEL_LINEAR_BASE)) as Hu by (unfold upper, UPPER; unfold_layout; lia).
  rewrite walk_root by done.
  destruct (Hp (linear_entry r) (pa + KERNEL_LINEAR_BASE)) as [Hl _]; [|done|unfold in_plan, linear_entry; cbn; lia|].
  { apply elem_of_cons. right. apply elem_of_app. right. rewrite list_elem_of_In, <- in_rev, in_map_iff.
    exists r. by rewrite <- list_elem_of_In. }
  unfold translate in Hl. unfold address. rewrite Hl. cbn [pl_off linear_entry]. f_equal. lia.
Qed.

(* ------------------------------------------------------------------------- *)
(** ** What the kernel is given *)

Section board.
Context {P : Profile} {FW : Type}.
Context (smccc : Method -> Z -> Z -> Z -> Z -> FW -> Z * FW) (delay : FW -> Z -> nat) (fuel : nat).
Context (from_ptr : Z -> option Fdt) (raw : mem -> Z -> Z -> list PageInfo).
Context (Y : Linker) (current pool fdt_pa : Z) (fdt : Fdt).

Definition pool0 : FrameState := mkFrameState pool 0 None.
Definition primary : Z := Mpidr_new current.

(** The linker script, the device tree and the firmware. *)
Record board_ok : Prop := {
  (** the per-CPU template and the statics in it; the secondaries' entry *)
  bo_percpu : percpu_layout_ok (ld_percpu Y);
  bo_template : percpu_end (ld_percpu Y) - percpu_start (ld_percpu Y) <= PERCPU_MAX;
  bo_data : percpu_start (ld_percpu Y) <= CPU_DATA (ld_smp Y) /\
            CPU_DATA (ld_smp Y) + SIZEOF_CpuData <= percpu_end (ld_percpu Y);
  bo_boot : KERNEL_IMAGE_BASE <= BOOT_DATA (ld_smp Y) /\
            BOOT_DATA (ld_smp Y) + MAX_CPUS * SIZEOF_BootDataCell + CACHE_LINE <= 2 ^ 64;
  bo_entry : KERNEL_IMAGE_BASE <= secondary_entry (ld_smp Y) < 2 ^ 64;
  bo_idmap : idmap_root (ld_smp Y) = idmap_l0 (boot_bss_start Y);
  (** the image: trampoline tables below [.bss], the frame pool inside it, all in RAM *)
  bo_sections : sections_from KERNEL_IMAGE_BASE (image_sections (ld_map Y));
  bo_tables : (S (build_budget (ram_nodes fdt) (ld_map Y)) <= 32)%nat;
  bo_trampoline : PHYS_LOAD_BASE <= boot_bss_start Y /\ (4096 | boot_bss_start Y) /\
                  boot_bss_start Y + 0xC000 <= boot_bss_end Y /\ boot_bss_end Y <= bss_start_pa Y;
  bo_pool : KERNEL_IMAGE_BASE <= pool /\ pool + POOL_PAGES * PAGE_SIZE < 2 ^ 64 /\ (4096 | pool_page pool0 0);
  bo_bss : bss_start_pa Y <= pool_page pool0 0 /\ pool_page pool0 POOL_PAGES <= bss_end_pa Y /\
           bss_end_pa Y <= stack_top_pa Y;
  bo_image : exists r, r ∈ ram_nodes fdt /\ r.1 <= PHYS_LOAD_BASE /\ stack_top_pa Y <= r.1 + r.2;
  (** the device tree *)
  bo_fdt : from_ptr (fdt_pa + KERNEL_LINEAR_BASE) = Some fdt;
  bo_fdt_pa : 0 <= fdt_pa /\ 0 < total_size fdt /\ fdt_pa + total_size fdt <= (2 ^ 32 - 1) * PAGE_SIZE;
  (** the blob is where the trampoline maps the linear window, and in RAM *)
  bo_fdt_window : FDT_HEADER <= total_size fdt /\ IMAGE_PA_BASE <= fdt_pa /\ fdt_pa + total_size fdt <= IMAGE_PA_BASE + BLOCK_1GB;
  bo_fdt_ram : exists r, r ∈ ram_nodes fdt /\ r.1 <= fdt_pa /\ fdt_pa + total_size fdt <= r.1 + r.2;
  bo_fdt_apart : fdt_pa + total_size fdt <= PHYS_LOAD_BASE \/ stack_top_pa Y <= fdt_pa;
  bo_nodes : Forall fdt_ok (fdt_memory fdt) /\ lenz (fdt_memory fdt) <= NR_REGIONS;
  bo_ram : Forall region_good (ram_nodes fdt) /\ StronglySorted regions_disjoint (ram_nodes fdt);
  bo_cpus : NoDup (secondaries primary (fdt_cpus fdt)) /\ lenz (secondaries primary (fdt_cpus fdt)) < 64;
  (** the firmware starts an accepted CPU within [fuel] polls *)
  bo_delay : forall f x, (delay f x + 2 <= fuel)%nat;
  (** the mem-map's memory *)
  bo_raw : forall m pa nr, 0 <= nr -> lenz (raw m pa nr) = nr;
}.

(** Bytes in use when the buddy allocator gets the rest: the image, the device tree, and
    the pages of the mem-map at [mm]. *)
Definition memmap_bytes (b : BuddyAllocator) : Z := div_ceil (nr_frames b * SIZEOF_PageInfo) PAGE_SIZE * PAGE_SIZE.
Definition kept (b : BuddyAllocator) (mm x : Z) : Prop :=
  fdt_pa <= x < fdt_pa + total_size fdt \/ mm <= x < mm + memmap_bytes b.
Definition in_use (b : BuddyAllocator) (mm x : Z) : Prop := PHYS_LOAD_BASE <= x < stack_top_pa Y \/ kept b mm x.

(** Frame [f] of [b] lies in RAM. *)
Definition frame_in_ram (b : BuddyAllocator) (f : Z) : Prop :=
  exists r, r ∈ ram_nodes fdt /\ r.1 <= dram_base b + f * PAGE_SIZE /\ dram_base b + (f + 1) * PAGE_SIZE <= r.1 + r.2.

(** What the console shows: [n] free frames were handed over, [up] are the secondaries. *)
Definition boot_lines (n : Z) (up : list (Z * Z)) (k : Booted FW) : list string :=
  ["Hello from Preon kernel!"; "kernel_map built, root at 0x" +:+ lower_hex (root k); "TTBR1 switched";
   "TTBR0 disabled"; "buddy up: " +:+ decimal n +:+ " free frames"]%string ++
  online_lines up ++
  ["reclaimed " +:+ decimal ((boot_bss_end Y - boot_bss_start Y) / PAGE_SIZE) +:+ " trampoline pages";
   "buddy alloc: " +:+ hex_alt (page1 k) +:+ ", " +:+ hex_alt (page2 k);
   "vec len=4 @ " +:+ hex_alt (vec k); "box 0xdeadbeef @ " +:+ hex_alt (boxed k); "Triggering exception..."]%string.

(** Every register and table word the booted kernel depends on. *)
Record booted (k : Booted FW) : Prop := {
  (** the whole 64-bit address space, and the memory it depends on *)
  bt_space : forall m', (forall x, pool_bytes pool0 x -> m' x = k_mem (kernel k) x) ->
    forall va, 0 <= va < 2 ^ 64 ->
      address (walk m' (now (k_mmu (kernel k))) va) va = planned (build_plan (ram_nodes fdt) (ld_map Y)) va;
  (** the allocators and the CPUs *)
  bt_memory : exists b fl f1 f2 up mm given,
    BUDDY (k_frames (kernel k)) = Some b /\ placed b /\
    (* what is managed is RAM, and no page table, no descriptor of a frame, no byte of the
       device tree and none of the image but the trampoline is free or granted *)
    (forall x, mm <= x < mm + memmap_bytes b -> exists r, r ∈ ram_nodes fdt /\ r.1 <= x < r.1 + r.2) /\
    (forall f x, owned b f -> in_frame b f x ->
       ~ pool_bytes pool0 x /\ ~ kept b mm x /\ (exists r, r ∈ ram_nodes fdt /\ r.1 <= x < r.1 + r.2) /\
       (PHYS_LOAD_BASE <= x < stack_top_pa Y -> boot_bss_start Y <= x < boot_bss_end Y)) /\
    (forall x, boot_bss_start Y <= x < boot_bss_start Y + 0xC000 -> exists f, owned b f /\ in_frame b f x) /\
    (* the console, with the number of frames of RAM that are not in use *)
    k_console (kernel k) = boot_lines (lenz given) up k /\ NoDup given /\
    (forall f, f ∈ given <-> frame_in_ram b f /\ forall x, in_frame b f x -> ~ in_use b mm x) /\
    (* the two pages: granted, distinct, zero *)
    page1 k = dram_base b + f1 * PAGE_SIZE /\ page2 k = dram_base b + f2 * PAGE_SIZE /\ f1 <> f2 /\
    allocated b f1 = Some 0 /\ allocated b f2 = Some 0 /\
    (forall x, page1 k <= x < page1 k + PAGE_SIZE \/ page2 k <= x < page2 k + PAGE_SIZE -> k_mem (kernel k) x = 0) /\
    (* the heap: two live objects, their contents *)
    slab_inv fl [(boxed k, 8); (vec k, 16)] (mkWorld (k_slab (kernel k)) (linear_view (k_mem (kernel k))) (Some b)) /\
    linear_view (k_mem (kernel k)) (vec k) = 0x200000001 /\
    linear_view (k_mem (kernel k)) (vec k + 8) = 0x400000003 /\
    linear_view (k_mem (kernel k)) (boxed k) = 0xDEADBEEF /\
    (* every CPU of the device tree runs on its own stack, on these tables *)
    secondaries primary (fdt_cpus fdt) = up.*1 /\ NoDup up.*2 /\
    (forall c, 0 <= c < 64 -> is_online c (k_smp (kernel k)) = Ok (c <=? lenz up)) /\
    forall i m p, getz up i = Some (m, p) -> cpu_up (ld_percpu Y) (ld_smp Y) (k_smp (kernel k)) b (root k) (i + 1) m p;
}.

Hypothesis Bd : board_ok.

(* ----------------------------------------------------------------------- *)
(** ** From reset to [kmain] *)

Lemma pool_range : PHYS_LOAD_BASE + 0xC000 <= pool_page pool0 0 /\
  pool_page pool0 POOL_PAGES = pool_page pool0 0 + 0x20000 /\ pool_page pool0 POOL_PAGES <= stack_top_pa Y /\
  (4096 | pool_page pool0 0).
Proof.
  destruct (bo_trampoline Bd) as (? & _ & ? & ?), (bo_bss Bd) as (? & ? & ?), (bo_pool Bd) as (_ & _ & ?).
  split_and!; [lia| |lia|done]. unfold pool_page, POOL_PAGES, PAGE_SIZE. lia.
Qed.

(** The image lies in one memory node; so does all it contains. *)
Lemma image_in_ram : exists r, r ∈ ram_nodes fdt /\ 0 <= r.1 <= PHYS_LOAD_BASE /\
  stack_top_pa Y <= r.1 + r.2 /\ r.1 + r.2 <= (2 ^ 32 - 1) * PAGE_SIZE.
Proof.
  destruct (bo_image Bd) as (r & Hr & H1 & H2). exists r. split_and!; try done.
  - destruct (bo_ram Bd) as [Hg _]. rewrite list.Forall_forall in Hg. by destruct (Hg r Hr).
  - destruct (bo_nodes Bd) as [Hf _]. rewrite list.Forall_forall in Hf. unfold ram_nodes in Hr.
    apply list_elem_of_omap in Hr as (n & Hn & En). destruct (fdt_size n) as [size|] eqn:Es; [|done].
    injection En as <-. by destruct (Hf n Hn) as [_ H]; destruct (H size Es).
Qed.

Lemma trampoline_place : page_aligned (boot_bss_start Y) /\ boot_bss_start Y + 0xC000 <= 2 ^ 48.
Proof.
  destruct (bo_trampoline Bd) as (? & ? & ? & ?), (bo_bss Bd) as (? & ? & ?). pose proof pool_range as (? & ? & ? & _).
  destruct image_in_ram as (r & _ & ? & ? & ?). unfold PHYS_LOAD_BASE, PAGE_SIZE in *.
  split; [split; [lia|done]|lia].
Qed.

Lemma stub_ok m mmu :
  exists m0 mmu0, boot_stub (bss_start_pa Y) (bss_end_pa Y) (boot_bss_start Y) fdt_pa m mmu
      = Ok (m0, mmu0, fdt_pa + KERNEL_LINEAR_BASE) /\
    at_rest m0 (boot_regs (boot_bss_start Y)) mmu0 /\ trampoline_at (boot_bss_start Y) m0 /\
    (forall x, pool_bytes pool0 x -> m0 x = 0).
Proof.
  destruct (bo_trampoline Bd) as (? & _ & ? & ?), (bo_bss Bd) as (? & ? & ?).
  destruct (boot_stub_ok (bss_start_pa Y) (bss_end_pa Y) (boot_bss_start Y) fdt_pa m mmu) as (m0 & -> & A & T & Hz).
  eexists m0, _. split_and!; [|done..|].
  - do 2 f_equal. change KERNEL_LINEAR_BASE with (0x1FFFF * 2 ^ 47). rewrite Z.lor_comm, lor_disjoint_add; [lia|done|].
    destruct (bo_fdt_pa Bd) as (? & ? & ?). unfold PAGE_SIZE in *. lia.
  - intros x Hx. unfold pool_bytes in Hx. apply Hz; lia.
Qed.

Lemma pool_ready m0 :
  (forall x, pool_bytes pool0 x -> m0 x = 0) -> pool_source_inv pool0 m0 32 (fun _ => False) pool0 m0.
Proof.
  intros Hz. destruct (bo_pool Bd) as (? & ? & ?). split; try done. split; [done|]. cbn [BUDDY pool0].
  split; try done. intros i Hi. split; [tauto|]. intros x Hx. apply Hz.
  eapply in_pool_bytes; [|exact Hx]. exists i. split; [cbn in Hi; lia|done].
Qed.

(* ----------------------------------------------------------------------- *)
(** ** The address space *)

(** The tables at [root], in pool pages, follow the plan. *)
Record mapped_from (m0 m : mem) (root : Z) (fr : FrameState) : Prop := {
  mf_tree : exists T, tree m root T /\ forall t l p, T t = Some (l, p) -> in_pool pool0 t;
  mf_plan : follows_plan m root (build_plan (ram_nodes fdt) (ld_map Y));
  mf_rest : forall x, ~ pool_bytes pool0 x -> m x = m0 x;
  mf_early : BUDDY fr = None;
}.

Lemma build_mapped m0 :
  (forall x, pool_bytes pool0 x -> m0 x = 0) ->
  exists root fr m, build (ram_nodes fdt) (ld_map Y) (pool0, m0) = Ok (root, (fr, m)) /\ mapped_from m0 m root fr.
Proof.
  intros Hz. destruct (bo_ram Bd) as [Hg Hs].
  destruct (build_ok (H0 := pool_source pool0 m0) 0 (fun _ => False) (ram_nodes fdt) (ld_map Y) pool0 m0)
    as (root & fr & m & E & Hp & (T & U & Tr & HU & I)); [done|done|apply Bd| |].
  { refine (fa_weaken (FrameSource := pool_source pool0 m0) _ 32 _ _ _ _ (pool_ready m0 Hz)). apply Bd. }
  exists root, fr, m. split; [exact E|]. destruct I as [_ Hb _ HUp Hm]. split; try done.
  exists T. split; [done|]. intros t l p Ht. apply HUp, HU. by rewrite Ht.
Qed.

(** The tables keep their meaning as long as the pool's pages keep their words. *)
Lemma mapped_kept m0 m root fr m' :
  mapped_from m0 m root fr -> (forall x, pool_bytes pool0 x -> m' x = m x) ->
  follows_plan m' root (build_plan (ram_nodes fdt) (ld_map Y)) /\ page_aligned root.
Proof.
  intros [(T & Tr & HT) Hp _ _] Hm. split.
  - eapply follows_plan_frame; [|exact Hp]. intros x. eapply tree_frame; [exact Tr|].
    intros t l p y Hy Hr. apply Hm. eapply in_pool_bytes; [|exact Hr]. by eapply HT.
  - apply page_ok_aligned. eapply (tr_page _ _ _ Tr), (tr_root _ _ _ Tr).
Qed.

Lemma mapped_space m0 m root fr m' r va :
  mapped_from m0 m root fr -> (forall x, pool_bytes pool0 x -> m' x = m x) ->
  TTBR1 r = root -> TCR r = BOOT_TCR -> 0 <= va < 2 ^ 64 ->
  address (walk m' (ttbr0_off r) va) va = planned (build_plan (ram_nodes fdt) (ld_map Y)) va.
Proof.
  intros M Hm H1 Ht Hva. destruct (mapped_kept _ _ _ _ _ M Hm) as [Hp Hal].
  apply (address_space_complete m' root); [done..| |done|done].
  intros e He. eapply build_plan_upper; [apply Bd|apply Bd|exact He].
Qed.

(* ----------------------------------------------------------------------- *)
(** ** Reading the device tree *)

Local Abbreviation dtb := (fdt_pa + KERNEL_LINEAR_BASE).

Lemma reads_ok len (k : Kernel FW) :
  len <= total_size fdt ->
  (forall pa, fdt_pa <= pa < fdt_pa + total_size fdt ->
     address (walk (k_mem k) (now (k_mmu k)) (pa + KERNEL_LINEAR_BASE)) (pa + KERNEL_LINEAR_BASE) = Some pa) ->
  reads dtb len k = Ok tt.
Proof.
  intros Hlen Ht. unfold reads. replace (forallb _ _) with true; [done|]. symmetry. apply forallb_forall.
  intros i Hi%list_elem_of_In%elem_of_seqZ. apply bool_decide_eq_true.
  replace (dtb + i) with (fdt_pa + i + KERNEL_LINEAR_BASE) by lia. rewrite Ht by lia. f_equal. lia.
Qed.

(** On the trampoline. *)
Lemma reads_early len (k : Kernel FW) :
  len <= total_size fdt -> trampoline_at (boot_bss_start Y) (k_mem k) -> now (k_mmu k) = boot_regs (boot_bss_start Y) ->
  reads dtb len k = Ok tt.
Proof.
  intros Hlen T Hn. destruct trampoline_place as [Hal Htop], (bo_fdt_window Bd) as (? & ? & ?).
  apply reads_ok; [done|]. intros pa Hpa. rewrite Hn. unfold boot_regs. rewrite trampoline_root; [|done..| |by left].
  - apply trampoline_linear. lia.
  - change BLOCK_1GB with 0x40000000 in *. unfold IMAGE_PA_BASE in *. unfold upper, UPPER. unfold_layout. lia.
Qed.

(** On the runtime map. *)
Lemma reads_late len m0 root fr r (k : Kernel FW) :
  len <= total_size fdt -> mapped_from m0 (k_mem k) root fr -> now (k_mmu k) = ttbr0_off (switched r root) -> TCR r = BOOT_TCR ->
  reads dtb len k = Ok tt.
Proof.
  intros Hlen M Hn Ht. destruct (mapped_kept _ _ _ _ (k_mem k) M) as [Hp Hal]; [done|].
  destruct (bo_fdt_ram Bd) as (n & Hr & ? & ?). apply reads_ok; [done|]. intros pa Hpa. rewrite Hn. unfold ttbr0_off, switched.
  cbn [TTBR1 TCR]. rewrite Ht. eapply linear_translated; [exact Hp|exact Hal|apply Bd|exact Hr|by right|lia].
Qed.

(* ----------------------------------------------------------------------- *)
(** ** The allocators *)

(** No free frames for the mem-map. *)
Definition no_room : Prop :=
  exists b lo n, build_bootmem (fdt_memory fdt) (total_size fdt) (fdt_pa + KERNEL_LINEAR_BASE) (stack_top_pa Y) = Ok b /\
    ram_span b = Ok (lo, n) /\ forall x, ~ avail b (div_ceil (n * SIZEOF_PageInfo) PAGE_SIZE) 1 x.

(** The allocator as the hand-off leaves it, with its mem-map at [mm]: the frames of RAM
    that are not in use. *)
Record handed_off (b : BuddyAllocator) (mm : Z) : Prop := {
  hf_placed : placed b;
  hf_none : nothing_allocated b;
  hf_free : forall f, free_in b f <-> frame_in_ram b f /\ forall x, in_frame b f x -> ~ in_use b mm x;
  hf_memmap : forall x, mm <= x < mm + memmap_bytes b ->
    (exists r, r ∈ ram_nodes fdt /\ r.1 <= x < r.1 + r.2) /\ ~ PHYS_LOAD_BASE <= x < stack_top_pa Y;
  hf_span : dram_base b <= PHYS_LOAD_BASE /\ stack_top_pa Y <= dram_base b + nr_frames b * PAGE_SIZE;
}.

Lemma ram_nodes_apart l :
  StronglySorted regions_disjoint (omap (fun r => (fun size => (starting_address r, size)) <$> fdt_size r) l) ->
  StronglySorted fdt_apart l.
Proof.
  induction l as [|r l IH]; [constructor|]. csimpl. destruct (fdt_size r) as [size|] eqn:Es; csimpl; intros Hs.
  - apply StronglySorted_inv in Hs as [Hs Hr]. constructor; [by apply IH|].
    rewrite list.Forall_forall in Hr. rewrite list.Forall_forall. intros o Ho f (s1 & E1 & H1 & H2) (s2 & E2 & H3 & H4).
    assert ((starting_address o, s2) ∈ omap (fun r => (fun size => (starting_address r, size)) <$> fdt_size r) l) as Hin
      by (apply list_elem_of_omap; exists o; by rewrite E2).
    specialize (Hr _ Hin). unfold regions_disjoint in Hr. cbn in Hr. unfold PAGE_SIZE in *. assert (s1 = size) by congruence. lia.
  - constructor; [by apply IH|]. rewrite list.Forall_forall. intros o Ho f (s1 & E1 & _). congruence.
Qed.

Lemma node_frame f :
  (exists r, r ∈ fdt_memory fdt /\ fdt_frame r f) <->
  exists r, r ∈ ram_nodes fdt /\ r.1 <= f * PAGE_SIZE /\ (f + 1) * PAGE_SIZE <= r.1 + r.2.
Proof.
  unfold ram_nodes. split.
  - intros (r & Hr & size & E & H). exists (starting_address r, size). split; [|done].
    apply list_elem_of_omap. exists r. by rewrite E.
  - intros (x & (r & Hr & E)%list_elem_of_omap & H). exists r. split; [done|].
    destruct (fdt_size r) as [size|] eqn:Es; [|done]. injection E as <-. exists size. by rewrite Es.
Qed.

(** Every frame of the image is in RAM, whole. *)
Lemma image_frame f :
  PHYS_LOAD_BASE < (f + 1) * PAGE_SIZE -> f * PAGE_SIZE < stack_top_pa Y ->
  exists r, r ∈ ram_nodes fdt /\ r.1 <= f * PAGE_SIZE /\ (f + 1) * PAGE_SIZE <= r.1 + r.2.
Proof.
  intros H1 H2. destruct image_in_ram as (r & Hr & [H3 H4] & H5 & _). exists r. split; [done|].
  destruct (bo_ram Bd) as [Hg _]. rewrite list.Forall_forall in Hg.
  destruct (Hg r Hr) as (_ & _ & _ & [a Ha] & [c Hc]). change BLOCK_2MB with 0x200000 in *. unfold PAGE_SIZE in *. lia.
Qed.

Lemma bootmem_ready :
  exists b, build_bootmem (fdt_memory fdt) (total_size fdt) (fdt_pa + KERNEL_LINEAR_BASE) (stack_top_pa Y) = Ok b /\
    bm_ok b /\ all_apart (mem_regions b) /\ n_reserved b = 2 /\ 0 < n_memory b /\
    (forall f, is_ram b f <-> exists r, r ∈ ram_nodes fdt /\ r.1 <= f * PAGE_SIZE /\ (f + 1) * PAGE_SIZE <= r.1 + r.2) /\
    (forall f, is_reserved b f <->
       (PHYS_LOAD_BASE < (f + 1) * PAGE_SIZE /\ f * PAGE_SIZE < stack_top_pa Y) \/
       (fdt_pa < (f + 1) * PAGE_SIZE /\ f * PAGE_SIZE < fdt_pa + total_size fdt)).
Proof.
  pose proof pool_range as (Hp1 & Hp2 & Hp3 & _). destruct image_in_ram as (r & Hr & Hr1 & Hr2 & Hr3).
  destruct (bo_fdt_pa Bd) as (? & ? & ?).
  destruct (build_bootmem_ok (fdt_memory fdt) (total_size fdt) (fdt_pa + KERNEL_LINEAR_BASE) (stack_top_pa Y))
    as (b & E & B & Hap & Hnr & Hram & Hres); [apply Bd|apply ram_nodes_apart, Bd|apply Bd|lia|lia|lia|done|lia|].
  assert (forall f, is_ram b f <-> exists r, r ∈ ram_nodes fdt /\ r.1 <= f * PAGE_SIZE /\ (f + 1) * PAGE_SIZE <= r.1 + r.2) as Hram'
    by (intros f; by rewrite Hram, node_frame).
  exists b. split_and!; try done.
  - destruct (Z.lt_ge_cases 0 (n_memory b)); [done|exfalso].
    destruct (proj2 (Hram' (PHYS_LOAD_BASE / PAGE_SIZE))) as (m & Hm & _).
    { apply image_frame; unfold PHYS_LOAD_BASE, PAGE_SIZE in *; [divmod|]. change (1074266112 / 4096 * 4096) with 1074266112. lia. }
    unfold mem_regions in Hm. replace (Z.to_nat (n_memory b)) with 0%nat in Hm by lia. by apply elem_of_nil in Hm.
  - intros f. rewrite Hres. by rewrite Z.add_simpl_r.
Qed.

(** A frame is reserved, or in the mem-map, when one of its bytes is in use. *)
Lemma frame_in_use b a lo x f :
  (forall f, is_reserved b f <->
       (PHYS_LOAD_BASE < (f + 1) * PAGE_SIZE /\ f * PAGE_SIZE < stack_top_pa Y) \/
       (fdt_pa < (f + 1) * PAGE_SIZE /\ f * PAGE_SIZE < fdt_pa + total_size fdt)) ->
  dram_base a = lo * PAGE_SIZE ->
  (~ is_reserved b (f + lo) /\ ~ x <= f + lo < x + div_ceil (nr_frames a * SIZEOF_PageInfo) PAGE_SIZE) <->
  forall y, in_frame a f y -> ~ in_use a (x * PAGE_SIZE) y.
Proof.
  intros Hres Hdb. rewrite Hres. unfold in_use, kept, memmap_bytes, in_frame. rewrite Hdb.
  set (m := div_ceil _ _). pose proof pool_range as (Hp1 & Hp2 & Hp3 & _). destruct (bo_fdt_pa Bd) as (? & ? & _).
  unfold PAGE_SIZE in *. split; [intros [H1 H2] y Hy; lia|]. intros Hn. split.
  - intros [Hi|Hi].
    + apply (Hn (Z.max ((f + lo) * 4096) PHYS_LOAD_BASE)); lia.
    + apply (Hn (Z.max ((f + lo) * 4096) fdt_pa)); lia.
  - intros Hi. apply (Hn ((f + lo) * 4096)); lia.
Qed.

Lemma handed_off_ok b a lo n x :
  bm_ok b -> 0 < n_memory b -> ram_span b = Ok (lo, n) ->
  (forall f, is_ram b f <-> exists r, r ∈ ram_nodes fdt /\ r.1 <= f * PAGE_SIZE /\ (f + 1) * PAGE_SIZE <= r.1 + r.2) ->
  (forall f, is_reserved b f <->
       (PHYS_LOAD_BASE < (f + 1) * PAGE_SIZE /\ f * PAGE_SIZE < stack_top_pa Y) \/
       (fdt_pa < (f + 1) * PAGE_SIZE /\ f * PAGE_SIZE < fdt_pa + total_size fdt)) ->
  avail b (div_ceil (n * SIZEOF_PageInfo) PAGE_SIZE) 1 x -> wf a -> nothing_allocated a ->
  dram_base a = lo * PAGE_SIZE -> nr_frames a = n ->
  (forall f, free_in a f <-> is_free b (f + lo) /\ ~ x <= f + lo < x + div_ceil (n * SIZEOF_PageInfo) PAGE_SIZE) ->
  handed_off a (x * PAGE_SIZE).
Proof.
  intros B Hnm Es Hram Hres (_ & m & Hm & Hm1 & Hm2 & Hm3) W Hna Hdb Hn Hf.
  destruct (ram_span_ok b B Hnm) as (lo' & n' & Es' & Hlo & Hn1 & Hsum & Hsp & _). rewrite Es in Es'. injection Es' as <- <-.
  assert (forall f, is_ram b f -> lo <= f < lo + n) as Hspan.
  { intros f (m' & Hmm & Hfm). destruct (Hsp m' Hmm). unfold in_region in Hfm. lia. }
  split.
  - split; [done|rewrite Hdb; unfold PAGE_SIZE; lia|rewrite Hdb; apply Z.divide_factor_r|].
    rewrite Hdb, Hn. unfold_layout. lia.
  - done.
  - intros f. rewrite Hf. unfold is_free. rewrite <- (frame_in_use b a lo x f Hres Hdb), Hn, Hram. unfold frame_in_ram. rewrite Hdb.
    replace (lo * PAGE_SIZE + f * PAGE_SIZE) with ((f + lo) * PAGE_SIZE) by lia.
    replace (lo * PAGE_SIZE + (f + 1) * PAGE_SIZE) with ((f + lo + 1) * PAGE_SIZE) by lia. tauto.
  - intros y Hy. unfold memmap_bytes in Hy. rewrite Hn in Hy. set (k := div_ceil _ _) in *.
    assert (x <= y / PAGE_SIZE < x + k) as Hq by (unfold PAGE_SIZE in *; divmod).
    assert (y / PAGE_SIZE * PAGE_SIZE <= y < (y / PAGE_SIZE + 1) * PAGE_SIZE) as Hd by (unfold PAGE_SIZE; divmod).
    split.
    + destruct (proj1 (Hram (y / PAGE_SIZE))) as (r & Hr & ? & ?); [exists m; unfold in_region; split; [done|lia]|].
      exists r. split; [done|lia].
    + intros Hy'. apply (Hm3 _ Hq), Hres. left. lia.
  - pose proof pool_range as (Hp1 & Hp2 & Hp3 & _). rewrite Hdb, Hn.
    assert (lo <= PHYS_LOAD_BASE / PAGE_SIZE < lo + n) as H1.
    { apply Hspan, Hram, image_frame; unfold PHYS_LOAD_BASE, PAGE_SIZE in *; [divmod|]. change (1074266112 / 4096 * 4096) with 1074266112. lia. }
    assert (lo <= (stack_top_pa Y - 1) / PAGE_SIZE < lo + n) as H2.
    { apply Hspan, Hram, image_frame; unfold PHYS_LOAD_BASE, PAGE_SIZE in *; divmod. }
    unfold PHYS_LOAD_BASE, PAGE_SIZE in *. change (1074266112 / 4096) with 262272 in H1. split; [lia|divmod].
Qed.

Lemma start_buddy_ok (k : Kernel FW) :
  reads dtb (total_size fdt) k = Ok tt -> BUDDY (k_frames k) = None ->
  (start_buddy raw Y fdt dtb k = Panic UnwrapNone /\ no_room) \/
  exists b mm, start_buddy raw Y fdt dtb k = Ok (mkKernel (k_mem k)
      (mkFrameState (POOL (k_frames k)) (NEXT (k_frames k)) (Some b)) (k_vbar k) (k_offsets k) (k_mmu k) (k_smp k) (k_slab k)
      (k_console k ++ ["buddy up: " +:+ decimal (free_frames b) +:+ " free frames"]%string)) /\
    handed_off b mm.
Proof.
  intros Hrd Hb. destruct bootmem_ready as (b & E & B & Hap & Hnr & Hnm & Hram & Hres). unfold start_buddy.
  rewrite Hrd. cbn [obind]. rewrite E. cbn [obind].
  destruct (init_buddy_ok (raw (k_mem k)) b (bo_raw Bd (k_mem k)) B Hap Hnm) as (lo & n & Es & Hor); [rewrite Hnr; done|].
  destruct Hor as [(x & a & -> & Hx & W & Hna & Hdb & Hn & Hf)|[-> Hno]].
  2: { left. split; [done|]. exists b, lo, n. by split_and!. }
  right. cbn [obind]. unfold BUDDY_call_once. rewrite Hb. exists a, (x * PAGE_SIZE). split; [reflexivity|].
  by eapply handed_off_ok.
Qed.

(* ----------------------------------------------------------------------- *)
(** ** The other CPUs *)

(** The statics bring-up starts from. *)
Record smp_fresh (st : SmpState FW) : Prop := {
  sf_online : CPU_ONLINE st = 0;
  sf_slots : lenz (boot_data st) = MAX_CPUS;
  sf_idle : waking st = None;
}.

(** Bring-up stopped, with firmware [f] and the allocator of the hand-off: no block was
    left for a stack, or the firmware refused a CPU. *)
Definition refused (f : FW) : Prop :=
  exists offs root psci smp smp' e, Psci_from_fdt (fdt_psci fdt) = Some psci /\
    smp_fresh smp /\ fw smp = f /\ (exists b mm, smp_buddy smp = Some b /\ handed_off b mm) /\
    bring_up_all smccc delay offs (ld_smp Y) fuel current root psci (fdt_cpus fdt) smp = Ok (smp', Some e) /\
    loop_result (ld_percpu Y) (ld_smp Y) (smp_console smp) primary root [] (secondaries primary (fdt_cpus fdt)) smp' (Some e).

Lemma board_env offs : percpu_ready (ld_percpu Y) offs -> smp_env_ok (ld_percpu Y) offs (ld_smp Y).
Proof. intros R. split; [done|apply Bd|apply Bd|apply Bd]. Qed.

Lemma start_cpus_ok root tpidr (k : Kernel FW) b mm :
  reads dtb (total_size fdt) k = Ok tt -> BUDDY (k_frames k) = Some b -> handed_off b mm -> percpu_ready (ld_percpu Y) (k_offsets k) -> smp_fresh (k_smp k) ->
  (start_cpus smccc delay fuel Y current fdt dtb root tpidr k = Panic UnwrapNone /\ Psci_from_fdt (fdt_psci fdt) = None) \/
  (start_cpus smccc delay fuel Y current fdt dtb root tpidr k = Panic ExplicitPanic /\ refused (fw (k_smp k))) \/
  exists smp b' up, start_cpus smccc delay fuel Y current fdt dtb root tpidr k = Ok (mkKernel (k_mem k)
      (with_BUDDY (k_frames k) (Some b')) (k_vbar k) (k_offsets k) (k_mmu k) smp (k_slab k)
      (k_console k ++ online_lines up)) /\
    drawn b b' /\ placed b' /\ smp_buddy smp = Some b' /\
    brought_up (ld_percpu Y) (ld_smp Y) (k_console k) primary root up smp /\ secondaries primary (fdt_cpus fdt) = up.*1.
Proof.
  intros Hrd Hb Hho R [Hon Hsl Hid]. pose proof (hf_placed _ _ Hho) as Hpl. unfold start_cpus.
  rewrite Hrd. cbn [obind].
  destruct (Psci_from_fdt (fdt_psci fdt)) as [psci|] eqn:Ep; [right|by left]. cbn [unwrap obind].
  set (smp0 := mkSmpState _ _ _ _ _ _ _ _). destruct (bo_cpus Bd) as [Hnd Hlen].
  destruct (bring_up_all_ok smccc delay (ld_percpu Y) (k_offsets k) (ld_smp Y) (k_console k) (board_env _ R) fuel current root psci
    (fdt_cpus fdt) b smp0 (bo_delay Bd)) as (smp & r & E & up & rest & B & Hsec & Hr); [done..|].
  rewrite E. cbn [obind app] in *. destruct r as [e|]; cbn [expect_ok obind].
  - left. split; [done|]. exists (k_offsets k), root, psci, smp0, smp, e. split_and!; [done..| |exact E|].
    + by exists b, mm.
    + by exists up, rest.
  - right. subst rest. rewrite app_nil_r in Hsec.
    assert (smp_drawn smp0 smp) as HD by (by eapply bring_up_all_drawn).
    destruct (HD b Hb Hpl) as (b' & Hb' & Hpl' & D).
    exists smp, b', up. rewrite Hb', (bu_console _ _ _ _ _ _ _ B). by split_and!.
Qed.

(* ----------------------------------------------------------------------- *)
(** ** The trampoline's frames *)

(** What the buddy allocator may have after the reclaim: RAM that is not in use, and the
    trampoline's own pages. *)
Definition managed (b : BuddyAllocator) (mm f : Z) : Prop :=
  frame_in_ram b f /\ forall x, in_frame b f x ->
    ~ kept b mm x /\ (PHYS_LOAD_BASE <= x < stack_top_pa Y -> boot_bss_start Y <= x < boot_bss_end Y).

Lemma handed_off_owned b mm b' f : handed_off b mm -> drawn b b' -> owned b' f ->
  frame_in_ram b f /\ forall x, in_frame b f x -> ~ in_use b mm x.
Proof.
  intros [_ Hn Hf _ _] D Ho. apply (drawn_owned _ _ _ D) in Ho as [Hfr|(p & o & Hp & _)]; [by apply Hf|].
  by rewrite Hn in Hp.
Qed.

Lemma unused_managed b mm f : frame_in_ram b f -> (forall x, in_frame b f x -> ~ in_use b mm x) -> managed b mm f.
Proof. intros Hr Hu. split; [done|]. intros x Hx. specialize (Hu x Hx). unfold in_use in Hu. tauto. Qed.

(** The frames of the trampoline. *)
Lemma trampoline_managed b mm f :
  handed_off b mm -> (PAGE_SIZE | dram_base b) ->
  boot_bss_start Y <= dram_base b + f * PAGE_SIZE -> dram_base b + (f + 1) * PAGE_SIZE <= boot_bss_end Y -> managed b mm f.
Proof.
  intros H [lo Hlo] H1 H2. destruct (bo_trampoline Bd) as (Hs1 & _ & _ & Hs3), (bo_bss Bd) as (Hp4 & _).
  pose proof pool_range as (Hp1 & Hp2 & Hp3 & _). split.
  - destruct (image_frame (f + lo)) as (r & Hr & Hr1 & Hr2); [unfold PAGE_SIZE in *; lia..|].
    exists r. split; [done|]. rewrite Hlo. unfold PAGE_SIZE in *. lia.
  - intros x Hx. unfold in_frame in Hx. split; [|lia]. intros [Hk|Hk].
    + destruct (bo_fdt_apart Bd); lia.
    + destruct (hf_memmap _ _ H x Hk) as [_ Hn]. lia.
Qed.

Lemma reclaim_ok (k : Kernel FW) b0 mm b :
  BUDDY (k_frames k) = Some b -> handed_off b0 mm -> drawn b0 b ->
  exists b', reclaim Y k = Ok (mkKernel (k_mem k) (with_BUDDY (k_frames k) (Some b')) (k_vbar k) (k_offsets k)
      (k_mmu k) (k_smp k) (k_slab k) (k_console k ++
        ["reclaimed " +:+ decimal ((boot_bss_end Y - boot_bss_start Y) / PAGE_SIZE) +:+ " trampoline pages"]%string)) /\
    placed b' /\ 12 <= free_frames b' /\ dram_base b' = dram_base b0 /\ nr_frames b' = nr_frames b0 /\
    (forall p, allocated b' p = allocated b p) /\ (forall f, owned b' f -> managed b0 mm f) /\
    (forall x, boot_bss_start Y <= x < boot_bss_start Y + 0xC000 -> exists f, owned b' f /\ in_frame b0 f x).
Proof.
  intros Hb H D. unfold reclaim. rewrite Hb. pose proof (dr_placed _ _ D (hf_placed _ _ H)) as Hpl.
  destruct (bo_trampoline Bd) as (Hs1 & [s Hs] & Hs2 & Hs3), (hf_span _ _ H) as [Hsp1 Hsp2].
  pose proof pool_range as (Hp1 & Hp2 & Hp3 & _). destruct (bo_bss Bd) as (Hp4 & _).
  pose proof (pl_align _ (hf_placed _ _ H)) as [lo Hlo]. pose proof (pl_span _ (hf_placed _ _ H)) as Hsp.
  pose proof (pl_base _ (hf_placed _ _ H)) as Hb0.
  set (e := boot_bss_end Y) in *. change 4096 with PAGE_SIZE in Hs. rewrite Hs in *.
  assert (e / PAGE_SIZE * PAGE_SIZE <= e < (e / PAGE_SIZE + 1) * PAGE_SIZE) as He by (unfold PAGE_SIZE; divmod).
  assert (forall f, s <= f < e / PAGE_SIZE -> ~ owned b (f - lo)) as Hfree.
  { intros f Hf Ho. destruct (handed_off_owned _ _ _ _ H D Ho) as [_ Hor]. apply (Hor (f * PAGE_SIZE)).
    - unfold in_frame. rewrite Hlo. unfold PAGE_SIZE. lia.
    - left. unfold PAGE_SIZE in *. lia. }
  destruct (reclaim_trampoline_ok b lo s e (pl_wf _ Hpl)) as (b' & -> & R).
  - rewrite Hlo in Hb0. unfold PAGE_SIZE in Hb0. lia.
  - by rewrite (dr_base _ _ D).
  - rewrite Hlo in Hsp1. unfold PAGE_SIZE in *. lia.
  - unfold PAGE_SIZE in *. lia.
  - rewrite (dr_nr _ _ D). rewrite Hlo in Hsp2. lia.
  - rewrite (dr_nr _ _ D). rewrite Hlo in Hsp. change LINEAR_SPAN with (2 ^ 46) in Hsp. lia.
  - intros f Hf Hfr. apply (Hfree f Hf). by left.
  - intros p o f Hp Hin Hf. apply (Hfree f Hf). right. by exists p, o.
  - cbn [obind]. exists b'. split; [reflexivity|].
    destruct (pl_wf _ Hpl) as (fl & W). pose proof (wf_with_free_frames _ _ W) as Hcount.
    split_and!.
    + by eapply freed_placed.
    + rewrite (rf_count _ _ _ _ R). unfold PAGE_SIZE in *. lia.
    + by rewrite (rf_base _ _ _ _ R), (dr_base _ _ D).
    + by rewrite (rf_nr _ _ _ _ R), (dr_nr _ _ D).
    + apply R.
    + intros f [Ho|Hf]%(freed_owned _ _ _ _ _ R).
      * destruct (handed_off_owned _ _ _ _ H D Ho). by apply unused_managed.
      * apply trampoline_managed; [done|apply (hf_placed _ _ H)|..]; rewrite ?Hs, Hlo; unfold PAGE_SIZE in *; lia.
    + intros x Hx. exists (x / PAGE_SIZE - lo). unfold in_frame. rewrite Hlo. unfold PAGE_SIZE in *. split; [|divmod].
      left. apply (rf_free _ _ _ _ R). right. divmod.
Qed.

(* ----------------------------------------------------------------------- *)
(** ** The demonstration *)

(** A page from [BUDDY]: granted, zeroed, the rest of memory as it was. *)
Lemma take_page fr m b :
  BUDDY fr = Some b -> placed b -> 0 < free_frames b ->
  exists f b' m', frame_alloc_page fr m = Ok (dram_base b + f * PAGE_SIZE, mkFrameState (POOL fr) (NEXT fr) (Some b'), m') /\
    handed_out b b' f 0 /\ (forall x, in_frame b f x -> m' x = 0) /\ (forall x, ~ in_frame b f x -> m' x = m x).
Proof.
  intros Hb Hpl Hf. pose proof Hpl as [W Hbase Hal Hspan]. unfold frame_alloc_page. rewrite Hb.
  destruct (alloc_page_ok b W Hf Hbase Hal Hspan) as (f & b' & -> & H). cbn [obind unwrap].
  pose proof (ho_block _ _ _ _ H) as (_ & Hfp & _ & Hfn). change (2 ^ 0) with 1 in Hfn.
  unfold zero_page. rewrite pa_to_linear_va_ok by (unfold PAGE_SIZE in *; lia). cbn [obind].
  eexists f, b', _. split_and!; [reflexivity|done|..]; intros x Hx; unfold in_frame, PAGE_SIZE in *; cbv beta;
    destruct (Z.leb_spec (dram_base b + f * 4096) x), (Z.ltb_spec x (dram_base b + f * 4096 + 4096)); cbn [andb]; done || lia.
Qed.

(** The first object of a class comes from a page of its own. *)
Lemma take_object fl live w b size align i :
  size_class_index size align = Ok (Some i) -> 0 <= i < 9 -> slab_inv fl live w -> fl i = [] ->
  buddy w = Some b -> 0 < free_frames b ->
  exists w' fl' b' q l, heap_alloc size align w = Ok (frame_va b q + PAGE_SIZE - 2 ^ (i + 3), w') /\
    refilled fl fl' w w' b b' q i l /\
    slab_inv (<[i := l]> fl') ((frame_va b q + PAGE_SIZE - 2 ^ (i + 3), 2 ^ (i + 3)) :: live) w'.
Proof.
  intros E Hi I Hl Hb Hf. unfold heap_alloc.
  destruct (alloc_first fl live w size align i E Hi I Hl) as [(w' & fl' & b1 & b' & q & l & -> & R & Hp & I')|[_ Hn]].
  - pose proof (rl_from _ _ _ _ _ _ _ _ _ R) as Hb1. assert (b1 = b) as -> by congruence. cbn [obind].
    destruct (Z.eqb_spec (frame_va b q + PAGE_SIZE - 2 ^ (i + 3)) 0); [lia|]. eauto 10.
  - rewrite Hb in Hn. exfalso. eapply free_frames_grant; [|exact Hf|exact Hn]. apply (si_buddy _ _ _ I b Hb).
Qed.

(** The words of a page seen through the linear window. *)
Lemma in_frame_va b f va : in_frame b f (va - KERNEL_LINEAR_BASE) <-> frame_va b f <= va < frame_va b f + PAGE_SIZE.
Proof. unfold in_frame, frame_va, PAGE_SIZE. lia. Qed.

Lemma handed_out_new b b' p o : handed_out b b' p o -> allocated b' p = Some o.
Proof. intros H. by rewrite (ho_alloc _ _ _ _ H), fn_lookup_insert. Qed.

Lemma handed_out_ne b b' p o q k : handed_out b b' p o -> allocated b q = Some k -> q <> p.
Proof. intros H Hq ->. by rewrite (ho_fresh _ _ _ _ H) in Hq. Qed.

Lemma in_frame_base b b' f x : dram_base b' = dram_base b -> in_frame b' f x <-> in_frame b f x.
Proof. unfold in_frame. by intros ->. Qed.

Lemma handed_out_frame b b' f : handed_out b b' f 0 -> owned b f.
Proof. intros H. eapply handed_out_owned; [exact H|]. unfold in_block. change (2 ^ 0) with 1. lia. Qed.

(** The first object of a class and what its owner stores in it: [h] is the heap then. *)
Lemma store_object fl live w b size align i h :
  size_class_index size align = Ok (Some i) -> 0 <= i < 9 -> slab_inv fl live w -> fl i = [] ->
  buddy w = Some b -> 0 < free_frames b ->
  (forall p x g, ~ p <= x < p + 2 ^ (i + 3) -> h p g x = g x) ->
  exists w' fl' b' q p, heap_alloc size align w = Ok (p, w') /\ handed_out b b' q 0 /\
    buddy w' = Some b' /\ (forall j, j <> i -> fl' j = fl j) /\
    slab_inv fl' ((p, 2 ^ (i + 3)) :: live) (with_heap w' (h p (heap w'))) /\
    (frame_va b q <= p /\ p + 2 ^ (i + 3) <= frame_va b q + PAGE_SIZE) /\
    (forall va, ~ in_frame b q (va - KERNEL_LINEAR_BASE) -> h p (heap w') va = heap w va).
Proof.
  intros E Hi I Hl Hb Hf Hh. pose proof (class_size_range i Hi) as Hc.
  destruct (take_object _ _ _ _ _ _ _ E Hi I Hl Hb Hf) as (w' & fl' & b' & q & l & -> & R & I').
  set (p := frame_va b q + PAGE_SIZE - 2 ^ (i + 3)) in *.
  assert (frame_va b q <= p /\ p + 2 ^ (i + 3) <= frame_va b q + PAGE_SIZE) as Hp by (unfold p, PAGE_SIZE; lia).
  exists w', (<[i := l]> fl'), b', q, p. split_and!; try done; try apply R; try lia.
  - intros j Hj. rewrite fn_lookup_insert_ne by done. by apply R.
  - eapply client_writes_ok; [exact I'|by left|]. intros x. apply Hh.
  - intros va Hva. rewrite in_frame_va in Hva. rewrite Hh by lia. by apply R.
Qed.

(** The words [demonstrate] stores in its vector. *)
Definition vec_words (v : Z) (g : Z -> Z) : Z -> Z := <[v + 8 := 0x400000003]> (<[v := 0x200000001]> g).

(** The two objects on the heap: each in a page of its own. *)
Lemma two_objects g b :
  placed b -> 2 <= free_frames b ->
  exists v w1 p w2 b' fl q1 q2, heap_alloc 16 4 (mkWorld Slab_new g (Some b)) = Ok (v, w1) /\
    heap_alloc 8 8 (with_heap w1 (vec_words v (heap w1))) = Ok (p, w2) /\ buddy w2 = Some b' /\ drawn b b' /\
    owned b q1 /\ owned b q2 /\ (forall f o, allocated b f = Some o -> f <> q1 /\ f <> q2) /\
    let h := <[p := 0xDEADBEEF]> (heap w2) in
    slab_inv fl [(p, 8); (v, 16)] (mkWorld (free_lists w2) h (Some b')) /\
    h v = 0x200000001 /\ h (v + 8) = 0x400000003 /\ h p = 0xDEADBEEF /\
    (forall va, ~ in_frame b q1 (va - KERNEL_LINEAR_BASE) -> ~ in_frame b q2 (va - KERNEL_LINEAR_BASE) -> h va = g va).
Proof.
  intros Hpl Hf.
  assert (slab_inv (fun _ => []) [] (mkWorld Slab_new g (Some b))) as I0 by (apply slab_inv_new; by intros ? [= <-]).
  destruct (store_object _ _ _ b 16 4 1 vec_words eq_refl ltac:(lia) I0 eq_refl eq_refl ltac:(lia))
    as (w1 & fl1 & b1 & q1 & v & E1 & H1 & Hb1 & Hfl & I1 & Hv & Ho1).
  { intros p x h Hx. change (2 ^ (1 + 3)) with 16 in *. unfold vec_words. by rewrite !fn_lookup_insert_ne by lia. }
  pose proof (ho_count _ _ _ _ H1) as C1. change (2 ^ 0) with 1 in C1.
  destruct (store_object _ _ _ b1 8 8 0 (fun p h => <[p := 0xDEADBEEF]> h) eq_refl ltac:(lia) I1)
    as (w2 & fl2 & b2 & q2 & p & E2 & H2 & Hb2 & _ & I2 & Hp & Ho2); [by rewrite Hfl by done|done|lia| |].
  { intros p x h Hx. change (2 ^ (0 + 3)) with 8 in *. by rewrite !fn_lookup_insert_ne by lia. }
  pose proof (handed_out_drawn _ _ _ _ H1) as D1. pose proof (handed_out_ne _ _ _ _ _ _ H2 (handed_out_new _ _ _ _ H1)) as Hq.
  cbn [heap with_heap] in Ho1, Ho2. change (2 ^ (1 + 3)) with 16 in *. change (2 ^ (0 + 3)) with 8 in *.
  assert (forall va, ~ in_frame b q2 (va - KERNEL_LINEAR_BASE) ->
    (<[p := 0xDEADBEEF]> (heap w2)) va = vec_words v (heap w1) va) as Ho2'.
  { intros va Hva. apply Ho2. by rewrite (in_frame_base b b1) by apply H1. }
  exists v, w1, p, w2, b2, fl2, q1, q2. split_and!; try done.
  - etrans; [exact D1|by eapply handed_out_drawn].
  - by eapply handed_out_frame.
  - eapply drawn_owned; [exact D1|by eapply handed_out_frame].
  - intros f o Ha. split; [by eapply handed_out_ne|]. eapply handed_out_ne; [exact H2|by apply (dr_keep _ _ D1)].
  - intros h. split_and!.
    + unfold with_heap in I2. by rewrite Hb2 in I2.
    + unfold h. rewrite Ho2'; [unfold vec_words; by rewrite fn_lookup_insert_ne, fn_lookup_insert by lia|].
      intros Hin. apply in_frame_va in Hin. unfold frame_va, PAGE_SIZE in *. lia.
    + unfold h. rewrite Ho2'; [unfold vec_words; by rewrite fn_lookup_insert by lia|].
      intros Hin. apply in_frame_va in Hin. unfold frame_va, PAGE_SIZE in *. lia.
    + unfold h. by rewrite fn_lookup_insert.
    + intros va Hv1 Hv2. unfold h. rewrite Ho2' by done. by apply Ho1.
Qed.

Lemma decimal_4 : decimal 4 = "4"%string.
Proof. vm_compute. reflexivity. Qed.
Lemma hex_deadbeef : hex_alt 0xDEADBEEF = "0xdeadbeef"%string.
Proof. vm_compute. reflexivity. Qed.

(** What [demonstrate] leaves: four granted frames, two of them zero, two objects in the
    other two, and the rest of memory as it was. *)
Record demonstrated (b b' : BuddyAllocator) (m : mem) (k : Kernel FW) (k' : Booted FW) (fl : Z -> list Z) (f1 f2 : Z) : Prop := {
  de_kernel : kernel k' = mkKernel (k_mem (kernel k')) (mkFrameState (POOL (k_frames k)) (NEXT (k_frames k)) (Some b'))
                (k_vbar k) (k_offsets k) (k_mmu k) (k_smp k) (k_slab (kernel k')) (k_console (kernel k'));
  de_placed : placed b';
  de_drawn : drawn b b';
  de_page1 : page1 k' = dram_base b + f1 * PAGE_SIZE /\ allocated b' f1 = Some 0;
  de_page2 : page2 k' = dram_base b + f2 * PAGE_SIZE /\ allocated b' f2 = Some 0;
  de_distinct : f1 <> f2;
  de_zero : forall x, in_frame b f1 x \/ in_frame b f2 x -> k_mem (kernel k') x = 0;
  de_rest : forall x, (forall f, in_frame b f x -> ~ owned b f) -> k_mem (kernel k') x = m x;
  de_heap : slab_inv fl [(boxed k', 8); (vec k', 16)] (mkWorld (k_slab (kernel k')) (linear_view (k_mem (kernel k'))) (Some b'));
  de_vec : linear_view (k_mem (kernel k')) (vec k') = 0x200000001 /\
           linear_view (k_mem (kernel k')) (vec k' + 8) = 0x400000003;
  de_box : linear_view (k_mem (kernel k')) (boxed k') = 0xDEADBEEF;
  de_console : k_console (kernel k') = k_console k ++
    ["buddy alloc: " +:+ hex_alt (page1 k') +:+ ", " +:+ hex_alt (page2 k');
     "vec len=4 @ " +:+ hex_alt (vec k'); "box 0xdeadbeef @ " +:+ hex_alt (boxed k'); "Triggering exception..."]%string;
}.

Lemma demonstrate_ok (k : Kernel FW) b root0 :
  BUDDY (k_frames k) = Some b -> placed b -> 4 <= free_frames b -> k_slab k = Slab_new ->
  exists k' b' fl f1 f2, demonstrate root0 k = Ok k' /\ root k' = root0 /\ demonstrated b b' (k_mem k) k k' fl f1 f2.
Proof.
  intros Hb Hpl Hf Hs. unfold demonstrate.
  destruct (take_page (k_frames k) (k_mem k) b Hb Hpl ltac:(lia)) as (f1 & b1 & m1 & -> & H1 & Hz1 & Ho1). cbn [obind].
  pose proof (ho_count _ _ _ _ H1) as C1. pose proof (handed_out_drawn _ _ _ _ H1) as D1. change (2 ^ 0) with 1 in C1.
  pose proof (dr_placed _ _ D1 Hpl) as Hpl1.
  destruct (take_page (mkFrameState (POOL (k_frames k)) (NEXT (k_frames k)) (Some b1)) m1 b1 eq_refl Hpl1 ltac:(lia))
    as (f2 & b2 & m2 & -> & H2 & Hz2 & Ho2). cbn [obind POOL NEXT BUDDY].
  pose proof (ho_count _ _ _ _ H2) as C2. pose proof (handed_out_drawn _ _ _ _ H2) as D2. change (2 ^ 0) with 1 in C2.
  pose proof (ho_base _ _ _ _ H1) as B1. pose proof (ho_base _ _ _ _ H2) as B2.
  setoid_rewrite (in_frame_base b b1 f2) in Hz2; [|done]. setoid_rewrite (in_frame_base b b1 f2) in Ho2; [|done].
  pose proof (handed_out_new _ _ _ _ H1) as A1. pose proof (handed_out_ne _ _ _ _ _ _ H2 A1) as Hne.
  apply (dr_keep _ _ D2) in A1. pose proof (handed_out_new _ _ _ _ H2) as A2.
  destruct (two_objects (linear_view m2) b2) as (v & w1 & p & w2 & b' & fl & q1 & q2 & E1 & E2 & Hb' & D & O1 & O2 & Hq & I & Hv & Hv8 & Hp & Ho);
    [by apply D2|lia|].
  rewrite Hs, E1. cbn [obind].
  match goal with |- context [heap_alloc 8 8 ?w] => change w with (with_heap w1 (vec_words v (heap w1))) end.
  rewrite E2. cbn [obind with_heap heap free_lists buddy].
  set (h := <[p := _]> (heap w2)) in *.
  assert (drawn b b2) as D12 by (by etrans). destruct (Hq _ _ A1), (Hq _ _ A2).
  assert (forall x, ~ in_frame b q1 x -> ~ in_frame b q2 x -> linear_back h x = m2 x) as Hrest.
  { intros x Hx1 Hx2. unfold linear_back. rewrite Ho; unfold linear_view; rewrite ?Z.add_simpl_r, ?(in_frame_base b b2); congruence. }
  assert (forall va, linear_view (linear_back h) va = h va) as Hview
    by (intros va; unfold linear_view, linear_back; f_equal; lia).
  eexists _, b', fl, f1, f2. split; [reflexivity|]. split; [reflexivity|].
  split; cbn [kernel k_mem k_frames k_slab k_console page1 page2 vec boxed]; rewrite ?Hview, ?B1; try done.
  - by rewrite Hb'.
  - by apply D, D12.
  - by etrans.
  - split; [done|by apply (dr_keep _ _ D)].
  - split; [done|by apply (dr_keep _ _ D)].
  - intros x Hx. rewrite Hrest by (intros Hx'; destruct Hx as [Hx|Hx]; pose proof (in_frame_inj _ _ _ _ Hx Hx'); congruence).
    destruct Hx as [Hx|Hx]; [|by apply Hz2]. rewrite Ho2; [by apply Hz1|].
    intros Hx'. by pose proof (in_frame_inj _ _ _ _ Hx Hx').
  - intros x Hx. assert (forall q, owned b q -> ~ in_frame b q x) as Hn by (intros q Hq1 Hq2; by destruct (Hx q)).
    rewrite Hrest by (apply Hn; by eapply drawn_owned). rewrite Ho2 by (apply Hn, (drawn_owned _ _ _ D1), (handed_out_frame _ _ _ H2)).
    by apply Ho1, Hn, (handed_out_frame _ _ _ H1).
  - eapply (client_writes_ok _ _ _ p 8 _ I); [by left|]. intros va _. apply Hview.
  - unfold h. rewrite fn_lookup_insert, decimal_4, hex_deadbeef, <- !(assoc (++)). reflexivity.
Qed.

(* ----------------------------------------------------------------------- *)
(** ** The whole sequence *)

(** No byte the allocator manages is one the address space depends on. *)
Lemma managed_bytes b mm f x : managed b mm f -> in_frame b f x ->
  ~ pool_bytes pool0 x /\ ~ kept b mm x /\ (exists r, r ∈ ram_nodes fdt /\ r.1 <= x < r.1 + r.2) /\
  (PHYS_LOAD_BASE <= x < stack_top_pa Y -> boot_bss_start Y <= x < boot_bss_end Y).
Proof.
  intros [(r & Hr & Hr1 & Hr2) Hm] Hx. destruct (bo_trampoline Bd) as (? & _ & ? & ?), (bo_bss Bd) as (? & ? & ?).
  destruct (Hm x Hx) as [Hk Hi]. unfold in_frame, pool_bytes in *. split_and!; [lia|done|exists r; split; [done|lia]|done].
Qed.

Lemma enter_upper_half_ok (k : Kernel FW) :
  reads dtb (total_size fdt) k = Ok tt -> k_frames k = pool0 -> (forall x, pool_bytes pool0 x -> k_mem k x = 0) ->
  exists root fr m, enter_upper_half Y fdt dtb k = Ok (root, mkKernel m fr (k_vbar k) (k_offsets k)
      (run_of disable_ttbr0 (run_of (switch_ttbr1 root) (k_mmu k))) (k_smp k) (k_slab k)
      (k_console k ++ ["kernel_map built, root at 0x" +:+ lower_hex root; "TTBR1 switched"; "TTBR0 disabled"]%string)) /\
    mapped_from (k_mem k) m root fr.
Proof.
  intros Hrd Hf Hz. unfold enter_upper_half. rewrite Hrd, Hf. cbn [obind].
  destruct (build_mapped (k_mem k) Hz) as (root & fr & m & -> & M). cbn [obind].
  exists root, fr, m. by rewrite <- !(assoc (++)).
Qed.

(** The switches, alone. *)
Lemma switched_off m r s root :
  at_rest m r s -> now (run_of disable_ttbr0 (run_of (switch_ttbr1 root) s)) = ttbr0_off (switched r root).
Proof. intros A. unfold run_of. cbn. by rewrite (ar_now _ _ _ A). Qed.

(** From the hand-off on: what each step leaves alone, and what it adds. *)
Lemma booted_from (k : Kernel FW) b0 mm b1 b2 m0 root fr up con :
  mapped_from m0 (k_mem k) root fr -> now (k_mmu k) = ttbr0_off (switched (boot_regs (boot_bss_start Y)) root) ->
  brought_up (ld_percpu Y) (ld_smp Y) con primary root up (k_smp k) -> secondaries primary (fdt_cpus fdt) = up.*1 ->
  smp_buddy (k_smp k) = Some b1 -> BUDDY (k_frames k) = Some b2 -> k_slab k = Slab_new -> handed_off b0 mm ->
  placed b2 -> 12 <= free_frames b2 -> dram_base b2 = dram_base b0 -> nr_frames b2 = nr_frames b0 ->
  dram_base b1 = dram_base b0 ->
  (forall p, allocated b2 p = allocated b1 p) -> (forall f, owned b2 f -> managed b0 mm f) ->
  (forall x, boot_bss_start Y <= x < boot_bss_start Y + 0xC000 -> exists f, owned b2 f /\ in_frame b0 f x) ->
  k_console k = ["Hello from Preon kernel!"; "kernel_map built, root at 0x" +:+ lower_hex root; "TTBR1 switched";
    "TTBR0 disabled"; "buddy up: " +:+ decimal (free_frames b0) +:+ " free frames"]%string ++ online_lines up ++
    ["reclaimed " +:+ decimal ((boot_bss_end Y - boot_bss_start Y) / PAGE_SIZE) +:+ " trampoline pages"]%string ->
  exists k', demonstrate root k = Ok k' /\ booted k'.
Proof.
  intros M Hmmu B Hsec Hb1 Hb2 Hsl Hho Hpl Hfree Hbase Hnr Hbase1 Hal Hown Htr Hcon.
  destruct (demonstrate_ok k b2 root Hb2 Hpl ltac:(lia) Hsl) as (k' & b & fl & f1 & f2 & E & Hroot & D).
  exists k'. split; [exact E|]. destruct D as [Hk Hpb Hdr [Hp1 Ha1] [Hp2 Ha2] Hne Hz Hrest Hheap [Hv1 Hv2] Hbx Hlog].
  pose proof (dr_base _ _ Hdr) as Hb. pose proof (dr_nr _ _ Hdr) as Hn.
  assert (memmap_bytes b = memmap_bytes b0) as Hmm by (unfold memmap_bytes; by rewrite Hn, Hnr).
  assert (forall f x, in_frame b f x <-> in_frame b0 f x) as Hfr0 by (intros; apply in_frame_base; congruence).
  assert (forall f x, in_frame b2 f x <-> in_frame b0 f x) as Hfr by (intros; by apply in_frame_base).
  assert (k_mmu (kernel k') = k_mmu k /\ k_smp (kernel k') = k_smp k /\ BUDDY (k_frames (kernel k')) = Some b) as (Em & Es & Eb)
    by (by rewrite Hk).
  split.
  - intros m' Hm va Hva. rewrite Em, Hmmu. eapply (mapped_space _ _ _ _ m' _ va M); [|done..].
    intros x Hx. rewrite Hm by done. apply Hrest. intros f Hin Ho. apply Hown in Ho.
    by destruct (managed_bytes b0 mm f x Ho) as [? _]; [by apply Hfr|].
  - destruct (wf_free_list b0 (pl_wf _ (hf_placed _ _ Hho))) as (given & Hnd & Hgiven & Hlen).
    exists b, fl, f1, f2, up, mm, given. rewrite Es, Eb. unfold in_use, kept. rewrite Hmm. setoid_rewrite Hfr0. split_and!; try done.
    + intros x Hx. by destruct (hf_memmap _ _ Hho x Hx).
    + intros f x Ho Hx. apply (managed_bytes b0 mm f x); [by eapply Hown, drawn_owned|done].
    + intros x Hx. destruct (Htr x Hx) as (f & Hf & Hin). exists f. split; [by eapply owned_drawn|done].
    + rewrite Hlog, Hcon, Hlen. unfold boot_lines. by rewrite Hroot, <- !(assoc (++)).
    + intros f. rewrite Hgiven, (hf_free _ _ Hho). unfold frame_in_ram. by rewrite Hb, Hbase.
    + by rewrite Hb.
    + by rewrite Hb.
    + intros x Hx. apply Hz. unfold in_frame, PAGE_SIZE in *. rewrite Hp1, Hp2 in Hx. lia.
    + apply B.
    + intros c Hc. rewrite is_online_ok by done. f_equal. by apply B.
    + intros i m p Hi. destruct (bu_cpus _ _ _ _ _ _ _ B) as (bb & Hbb & _ & Hup). rewrite Hb1 in Hbb. injection Hbb as <-.
      destruct (Hup i m p Hi) as [Hs Hr Hd]. rewrite Hroot. split; [|rewrite Hr|done].
      * apply (dr_keep _ _ Hdr). by rewrite Hal.
      * do 2 f_equal. symmetry. apply frame_va_base. congruence.
Qed.

Lemma kmain_ok m mmu data bd rs f :
  at_rest m (boot_regs (boot_bss_start Y)) mmu -> trampoline_at (boot_bss_start Y) m ->
  (forall x, pool_bytes pool0 x -> m x = 0) -> lenz bd = MAX_CPUS ->
  let r := kmain smccc delay fuel from_ptr raw Y current dtb (reset_kernel pool m mmu data bd rs f) in
  (r = Panic UnwrapNone /\ (no_room \/ Psci_from_fdt (fdt_psci fdt) = None)) \/
  (r = Panic ExplicitPanic /\ refused f) \/
  exists k, r = Ok k /\ booted k.
Proof.
  intros A T Hz Hbd. unfold kmain. destruct (bo_fdt_window Bd) as [Hhead _].
  destruct (percpu_init_ok (ld_percpu Y) OFFSETS_zero (bo_percpu Bd) eq_refl (bo_template Bd)) as (offs & E & R).
  cbn [k_offsets reset_kernel k_console k_mem k_frames k_mmu k_smp k_slab]. rewrite E. cbn [obind].
  set (k0 := mkKernel _ _ _ _ _ _ _ _).
  assert (forall len, len <= total_size fdt -> reads dtb len k0 = Ok tt) as Hearly.
  { intros len Hlen. by apply reads_early; [|exact T|exact (ar_now _ _ _ A)]. }
  unfold parse_fdt. rewrite (Hearly FDT_HEADER Hhead). cbn [obind]. rewrite (bo_fdt Bd). cbn [unwrap obind].
  rewrite (Hearly (total_size fdt)) by done. cbn [obind].
  destruct (enter_upper_half_ok k0 (Hearly _ (Z.le_refl _)) eq_refl Hz) as (root & fr & m1 & -> & M). cbn [obind].
  set (k1 := mkKernel _ _ _ _ _ _ _ _).
  assert (forall k : Kernel FW, k_mem k = m1 -> k_mmu k = k_mmu k1 -> reads dtb (total_size fdt) k = Ok tt) as Hlate.
  { intros k Em Es. apply (reads_late _ m root fr (boot_regs (boot_bss_start Y))); [done|by rewrite Em| |done].
    rewrite Es. by eapply switched_off. }
  destruct (start_buddy_ok k1 (Hlate k1 eq_refl eq_refl) (mf_early _ _ _ _ M)) as [[-> Hno]|(b0 & mm & -> & Hho)]; [by left; auto|]. cbn [obind].
  set (k2 := mkKernel _ _ _ _ _ _ _ _).
  destruct (start_cpus_ok root (area (ld_percpu Y) 0 - percpu_start (ld_percpu Y)) k2 b0 mm
    (Hlate k2 eq_refl eq_refl) eq_refl Hho R)
    as [[-> Hno]|[[-> Href]|(smp & b1 & up & -> & D & Hpl1 & Hb1 & B & Hsec)]]; [done|by left; auto|by right; left|].
  cbn [obind]. set (k3 := mkKernel _ _ _ _ _ _ _ _).
  destruct (reclaim_ok k3 b0 mm b1 eq_refl Hho D) as (b2 & -> & Hpl2 & Hfree & Hbase & Hnr & Hal & Hown & Htr). cbn [obind].
  do 2 right. eapply (booted_from _ b0 mm b1 b2); [exact M|by eapply switched_off|exact B|done..|by apply D|done|done|done|].
  reflexivity.
Qed.
End board.

(* ------------------------------------------------------------------------- *)
(** ** A concrete board *)

(** A small kernel on QEMU's [virt] machine: 128 MiB of RAM and one CPU. *)
Definition virt_linker : Linker := mkLinker
  (mkPercpuLayout 0x4008D000 0x4008E000 0xFFFFFFFF80130000)
  (mkSymbols 0xFFFFFFFF80100000 0xFFFFFFFF80101000 0xFFFFFFFF80101000 0xFFFFFFFF80102000
     0xFFFFFFFF80102000 0xFFFFFFFF80103000 0xFFFFFFFF80103000 0xFFFFFFFF801B0000
     0xFFFFFFFF801B0000 0xFFFFFFFF801F0000)
  (mkSmpSymbols 0x4008D000 0xFFFFFFFF80104000 0xFFFFFFFF80100800 0x40081000)
  0xFFFFFFFF80100000 0x40103000 0x401B0000 0x401F0000 0x40081000 0x4008D000.
Definition virt_tree : Fdt := mkFdt virt_fdt 0x10000 (Some (mkPsciNode (Some (Some "hvc"%string)) (Some (Some 0xC4000003)))) [0].
Definition virt_from_ptr (dtb : Z) : option Fdt :=
  if dtb =? 0xFFFF800047000000 then Some virt_tree else None.
Definition virt_pool : Z := 0xFFFFFFFF80110000.

Lemma virt_board_ok :
  board_ok (fun (_ : unit) _ => 3%nat) 5 virt_from_ptr (fun _ => blank_raw) virt_linker 0x80000000
    virt_pool 0x47000000 virt_tree.
Proof.
  split.
  - split; vm_compute; intuition congruence.
  - vm_compute. congruence.
  - vm_compute. intuition congruence.
  - vm_compute. intuition congruence.
  - vm_compute. intuition congruence.
  - reflexivity.
  - cbn [sections_from image_sections fst snd]. unfold section_end.
    split_and!; try (vm_compute; congruence); try done;
      first [by exists 0xFFFFFFFF80100|by exists 0xFFFFFFFF80101|by exists 0xFFFFFFFF80102
            |by exists 0xFFFFFFFF80103|by exists 0xFFFFFFFF801B0].
  - vm_compute. repeat constructor.
  - split_and!; [vm_compute; congruence|by exists 0x40081|vm_compute; congruence..].
  - split_and!; [vm_compute; congruence|reflexivity|by exists 0x40110].
  - vm_compute. intuition congruence.
  - exists (0x40000000, 0x8000000). split_and!; [by left|vm_compute; congruence..].
  - reflexivity.
  - vm_compute. intuition congruence.
  - vm_compute. intuition congruence.
  - exists (0x40000000, 0x8000000). split_and!; [by left|vm_compute; congruence..].
  - right. vm_compute. congruence.
  - split; [apply virt_fdt_ok|]. vm_compute. congruence.
  - change (ram_nodes virt_tree) with virt_ram. apply virt_ram_good.
  - split; [|done]. vm_compute. constructor.
  - intros. lia.
  - intros _ pa nr. apply blank_raw_length.
Qed.

(** No RAM is short on this board, and there is no CPU to refuse. *)
Lemma virt_has_room :
  ~ no_room (P := release_dev) virt_linker 0x47000000 virt_tree.
Proof.
  intros (b & lo & n & Eb & Es & Hn).
  assert (Ok b = build_bootmem (P := release_dev) virt_fdt 0x10000 0xFFFF800047000000 0x401F0000) as Eb' by done.
  vm_compute in Eb'. injection Eb' as ->. vm_compute in Es. injection Es as <- <-.
  apply (Hn 0x41000). split; [apply Z.divide_1_l|].
  exists (mkRegion 0x40000 0x8000). split_and!; [by left|vm_compute; congruence..|].
  intros f Hf (r & Hr & Hin). change (div_ceil _ _) with 128 in Hf.
  assert (r = mkRegion 0x40080 0x170 \/ r = mkRegion 0x47000 0x10) as [-> | ->].
  { match type of Hr with _ ∈ ?l => let l' := eval vm_compute in l in change (r ∈ l') in Hr end. set_solver. }
  all: unfold in_region, rend in Hin; cbn in Hin; lia.
Qed.

Lemma virt_not_refused smccc (f : unit) :
  ~ refused (P := release_dev) smccc (fun _ _ => 3%nat) 5 virt_linker 0x80000000 0x47000000 virt_tree f.
Proof.
  intros (offs & root & psci & smp & smp' & e & _ & _ & _ & _ & _ & up & rest & _ & Hsec & He).
  change (secondaries _ _) with (@nil Z) in Hsec. symmetry in Hsec. apply app_nil in Hsec as [_ ->].
  destruct e as [|m e|]; [done| |]; by destruct He.
Qed.

(** So it boots, whatever the kernel finds in memory. *)
Lemma virt_boots :
  exists k, boot (P := release_dev) agreeable (fun _ _ => 3%nat) 5 virt_from_ptr (fun _ => blank_raw) virt_linker
      0x80000000 virt_pool 0x47000000 (fun x => x) trampoline_mmu (fun _ => mkCpuData 0 0)
      (replicate 128 (mkBootData 0 0 0)) (fun _ => mkCpuRegs 0 0 0 0 0) tt = Ok k /\
    booted (P := release_dev) virt_linker 0x80000000 virt_pool 0x47000000 virt_tree k.
Proof.
  unfold boot. destruct (stub_ok _ _ _ _ _ _ _ _ _ virt_board_ok (fun x => x) trampoline_mmu) as (m0 & mmu0 & -> & A & T & Hz).
  cbn [obind].
  destruct (kmain_ok (P := release_dev) agreeable _ _ _ _ _ _ _ _ _ virt_board_ok m0 mmu0 (fun _ => mkCpuData 0 0)
    (replicate 128 (mkBootData 0 0 0)) (fun _ => mkCpuRegs 0 0 0 0 0) tt A T Hz eq_refl) as [[_ [H|H]]|[[_ H]|H]].
  - by destruct (virt_has_room H).
  - discriminate H.
  - by destruct (virt_not_refused _ _ H).
  - exact H.
Qed.

(* ------------------------------------------------------------------------- *)
(** ** The boot sequence *)

(** C1: from the first instruction of the stub to [kmain]'s last log line, whatever
    memory and the registers held.  On a board that provides what the linker script and
    the device tree promise, its blob in RAM where the trampoline maps it, no read of the
    blob faults, and the boot ends in one of three ways: an [unwrap] panics
    because no memory is left for the mem-map or there is no PSCI node; an [expect]
    panics because bring-up was refused; or the kernel has booted.  Then every one of the
    2^64 addresses translates as the plan of [kernel_map] says, and goes on doing so
    whatever is written outside the frame pool; the buddy allocator is well formed and
    manages only RAM that holds no table, no device tree, no descriptor of its own and
    nothing of the image but the reclaimed trampoline, whose twelve tables it does manage; the two pages are distinct and
    zero; the heap is consistent and holds the vector and the box; every CPU of the
    device tree is online on a stack of its own; and the console shows each step, with
    the number of frames of RAM that were free and a line for each CPU, in order. *)
Theorem kernel_boots {P : Profile} {FW} smccc delay fuel from_ptr raw Y current pool fdt_pa fdt m mmu data bd rs (f : FW) :
  board_ok delay fuel from_ptr raw Y current pool fdt_pa fdt -> lenz bd = MAX_CPUS ->
  let r := boot smccc delay fuel from_ptr raw Y current pool fdt_pa m mmu data bd rs f in
  (r = Panic UnwrapNone /\ (no_room Y fdt_pa fdt \/ Psci_from_fdt (fdt_psci fdt) = None)) \/
  (r = Panic ExplicitPanic /\ refused smccc delay fuel Y current fdt_pa fdt f) \/
  exists k, r = Ok k /\ booted Y current pool fdt_pa fdt k.
Proof.
  intros Bd Hbd. unfold boot.
  destruct (stub_ok _ _ _ _ _ _ _ _ _ Bd m mmu) as (m0 & mmu0 & -> & A & T & Hz). cbn [obind].
  by apply (kmain_ok _ _ _ _ _ _ _ _ _ _ Bd).
Qed.

Lemma kernel_boots_witness :
  exists k, boot (P := release_dev) agreeable (fun _ _ => 3%nat) 5 virt_from_ptr (fun _ => blank_raw) virt_linker
      0x80000000 virt_pool 0x47000000 (fun x => x) trampoline_mmu (fun _ => mkCpuData 0 0)
      (replicate 128 (mkBootData 0 0 0)) (fun _ => mkCpuRegs 0 0 0 0 0) tt = Ok k /\
    booted (P := release_dev) virt_linker 0x80000000 virt_pool 0x47000000 virt_tree k.
Proof.
  destruct (kernel_boots (P := release_dev) agreeable (fun _ _ => 3%nat) 5 virt_from_ptr (fun _ => blank_raw) virt_linker
    0x80000000 virt_pool 0x47000000 virt_tree (fun x => x) trampoline_mmu (fun _ => mkCpuData 0 0)
    (replicate 128 (mkBootData 0 0 0)) (fun _ => mkCpuRegs 0 0 0 0 0) tt virt_board_ok eq_refl)
    as [[_ [H|H]]|[[_ H]|H]].
  - by destruct (virt_has_room H).
  - discriminate H.
  - by destruct (virt_not_refused _ _ H).
  - exact H.
Defined.
