(* ===== verification/KmainSwitch.v ===== *)
(** * The boot sequence: changing the address space under the kernel's feet

    [kmain] runs from the image window while it replaces the root that maps it and then
    takes the low half away.  The trampoline of boot.s and the tables of [kernel_map]
    agree wherever the trampoline maps a kernel address, and neither is touched by what
    builds the other, so no access is disturbed at any moment of the two sequences. *)

From S2P Require Import Prelude Arch MmuConfig FrameTypes Layout Uart Buddy PageTable PageTableProps Frame KernelMap KernelMapProps Mmu BootStub Boot Percpu Smp SmpProps Fmt Kmain KmainProps.
Open Scope Z_scope.

(** Where both map a kernel address, they map it alike. *)
Lemma plans_agree ram k e va pa :
  Forall region_good ram -> sections_from KERNEL_IMAGE_BASE (image_sections k) ->
  e ∈ build_plan ram k -> in_plan e va -> planned trampoline_plan va = Some pa -> pa = va - pl_off e.
Proof.
  intros Hg Hk He Hin Hp.
  destruct (planned_cases trampoline_plan va) as [(e' & He' & Hin' & E)|[E _]]; [|congruence].
  rewrite E in Hp. injection Hp as <-. unfold trampoline_plan in He'.
  assert ((KERNEL_IMAGE_BASE <= va /\ pl_off e = IMAGE_OFF) \/
          (KERNEL_LINEAR_BASE <= va < KERNEL_DEVICE_BASE /\ pl_off e = KERNEL_LINEAR_BASE) \/
          (UART_PA + KERNEL_DEVICE_BASE <= va < UART_PA + KERNEL_DEVICE_BASE + PAGE_SIZE /\ pl_off e = KERNEL_DEVICE_BASE)) as Hw.
  { unfold in_plan in Hin. apply elem_of_cons in He as [->|[He|He]%elem_of_app].
    - right. right. cbn in Hin. unfold UART_PA in *. by unfold_layout.
    - left. pose proof (sections_above _ _ _ Hk He). apply in_rev_map in He as (s & -> & _). split; [lia|done].
    - right. left. apply in_rev_map in He as (r & -> & Hr). rewrite list.Forall_forall in Hg.
      destruct (Hg r Hr) as (? & ? & ? & _). cbn in *. split; [|done]. revert Hin. unfold_layout. lia. }
  f_equal. unfold in_plan, UART_PA, PAGE_SIZE in *. change BLOCK_2MB with 0x200000 in *. change BLOCK_1GB with 0x40000000 in *.
  repeat (apply elem_of_cons in He' as [->|He']); [..|by apply elem_of_nil in He']; cbn [pl_lo pl_hi pl_off] in *;
    destruct Hw as [[Hw ->]|[[Hw ->]|[Hw ->]]]; try done; exfalso; revert Hin' Hw; unfold_layout; lia.
Qed.

Section switch.
Context {P : Profile} {FW : Type}.
Context (delay : FW -> Z -> nat) (fuel : nat) (from_ptr : Z -> option Fdt) (raw : mem -> Z -> Z -> list PageInfo).
Context (Y : Linker) (current pool fdt_pa : Z) (fdt : Fdt).
Hypothesis Bd : board_ok delay fuel from_ptr raw Y current pool fdt_pa fdt.
Local Abbreviation bb := (boot_bss_start Y).

(** The trampoline's words survive what is done outside it. *)
Lemma trampoline_kept m m' : (forall x, bb <= x < bb + 0xC000 -> m' x = m x) -> trampoline_at bb m -> trampoline_at bb m'.
Proof. intros Hm T k i Hk Hi. rewrite Hm by lia. by apply T. Qed.

(** Building the runtime tables does not touch it. *)
Lemma trampoline_survives m0 m1 root fr :
  trampoline_at bb m0 -> mapped_from Y pool fdt m0 m1 root fr -> trampoline_at bb m1.
Proof.
  intros T M. pose proof (pool_range _ _ _ _ _ _ _ _ _ Bd) as (Hp1 & Hp2 & Hp3 & _).
  destruct (bo_trampoline _ _ _ _ _ _ _ _ _ Bd) as (Ht1 & _ & Ht2 & Ht3), (bo_bss _ _ _ _ _ _ _ _ _ Bd) as (Hb1 & _ & _).
  eapply trampoline_kept; [|exact T]. intros y Hy. apply (mf_rest _ _ _ _ _ _ _ M). unfold pool_bytes, pool0 in *. lia.
Qed.

Lemma switches_ok m0 m1 root fr s0 c s va x e pa :
  trampoline_at bb m0 -> mapped_from Y pool fdt m0 m1 root fr -> at_rest m1 (boot_regs bb) s0 ->
  rtc (mmu_step m1) (switch_ttbr1 root ++ disable_ttbr0, s0) (c, s) -> may_use m1 s va x -> 0 <= va < 2 ^ 64 ->
  e ∈ build_plan (ram_nodes fdt) (ld_map Y) -> in_plan e va -> planned trampoline_plan va = Some pa ->
  address x va = Some (va - pl_off e).
Proof.
  intros T M A R Hu Hva He Hin Hpa. destruct (trampoline_place _ _ _ _ _ _ _ _ _ Bd) as [Hal Htop].
  destruct (bo_ram _ _ _ _ _ _ _ _ _ Bd) as [Hg _]. pose proof (bo_sections _ _ _ _ _ _ _ _ _ Bd) as Hk.
  pose proof (trampoline_survives _ _ _ _ T M) as T1.
  destruct (mapped_kept _ _ _ _ _ _ _ m1 M) as [Hplan Hroot]; [done|].
  pose proof A as [Hn H0 H1 Ht _].
  set (V := ([TTBR0 (boot_regs bb); 0], [root; TTBR1 (boot_regs bb)], [BOOT_TCR; Z.lor BOOT_TCR TCR_EPD0])).
  destruct (run_sound m1 V (switch_ttbr1 root ++ disable_ttbr0) s0 c s) as [Hs Hus]; [| |exact R|].
  { unfold switch_ttbr1, disable_ttbr0. cbn [app]. each_prefix; unfold V; cbn; rewrite ?H0, ?H1, ?Ht, ?Hn; set_solver. }
  { eapply at_rest_sound; [exact A|unfold V; cbn; set_solver..]. }
  destruct (sound_use _ _ _ _ _ Hs Hus Hu) as (t0 & t1 & tcr & E0 & E1 & E2 & <-). unfold V in *. cbn [fst snd] in *.
  assert (tcr = BOOT_TCR \/ tcr = Z.lor BOOT_TCR TCR_EPD0) as Htcr by set_solver.
  assert (upper va) as Hup.
  { pose proof (build_plan_upper _ _ _ Hg Hk He). unfold in_plan, upper in *. lia. }
  assert (t1 = root \/ t1 = kernel_l0 bb) as [-> | ->] by set_solver.
  - rewrite walk_root by done.
    by destruct (proj1 Hplan e va He Hup Hin) as [Hl _].
  - rewrite trampoline_root, Hpa by done. f_equal. by eapply plans_agree.
Qed.
End switch.

(* ------------------------------------------------------------------------- *)
(** ** Property *)

(** C31: from the trampoline to the runtime map.  While [kmain] runs [switch_ttbr1] and
    [disable_ttbr0], with table walks and TLB fills at any moment, every kernel address
    that the trampoline maps and the runtime map keeps (the code, the stack and the
    statics, the first gigabyte of the linear window, the console) translates to the
    same physical address at every moment. *)
Theorem switches_keep_kernel {P : Profile} {FW} delay fuel from_ptr raw Y current pool fdt_pa fdt
    m mmu m0 mmu0 dtb root fr m1 s0 c s va x e pa :
  board_ok (FW := FW) delay fuel from_ptr raw Y current pool fdt_pa fdt ->
  boot_stub (bss_start_pa Y) (bss_end_pa Y) (boot_bss_start Y) fdt_pa m mmu = Ok (m0, mmu0, dtb) ->
  build (ram_nodes fdt) (ld_map Y) (mkFrameState pool 0 None, m0) = Ok (root, (fr, m1)) ->
  at_rest m1 (boot_regs (boot_bss_start Y)) s0 ->
  rtc (mmu_step m1) (switch_ttbr1 root ++ disable_ttbr0, s0) (c, s) -> may_use m1 s va x -> 0 <= va < 2 ^ 64 ->
  e ∈ build_plan (ram_nodes fdt) (ld_map Y) -> in_plan e va -> planned trampoline_plan va = Some pa ->
  address x va = Some (va - pl_off e).
Proof.
  intros Bd Es Eb A R Hu Hva He Hin Hpa.
  destruct (stub_ok _ _ _ _ _ _ _ _ _ Bd m mmu) as (m0' & mmu0' & Es' & _ & T & Hz).
  rewrite Es in Es'. injection Es' as <- <- _.
  destruct (build_mapped _ _ _ _ _ _ _ _ _ Bd m0 Hz) as (root' & fr' & m1' & Eb' & M).
  unfold pool0 in Eb'. rewrite Eb in Eb'. injection Eb' as <- <- <-. by eapply switches_ok.
Qed.

(** On QEMU's board, when the low half has just been taken away and the caches still hold
    it: the instruction that [kmain] is executing. *)
Lemma switches_keep_kernel_witness :
  exists m0 root fr m1 s,
    let r0 := install_roots 0x40081000 trampoline_mmu in
    boot_stub 0x40103000 0x401B0000 0x40081000 0x47000000 (fun x => x) trampoline_mmu
      = Ok (m0, r0, Z.lor 0x47000000 KERNEL_LINEAR_BASE) /\
    build (P := release_dev) (H := KernelMapAllocator (P := release_dev)) virt_ram (ld_map virt_linker)
      (mkFrameState virt_pool 0 None, m0) = Ok (root, (fr, m1)) /\
    rtc (mmu_step m1) (switch_ttbr1 root ++ disable_ttbr0, r0) ([DsbIsh; TlbiVmalle1is; DsbIsh; Isb], s) /\
    forall x, may_use m1 s 0xFFFFFFFF80100800 x -> address x 0xFFFFFFFF80100800 = Some 0x40100800.
Proof.
  destruct (boot_stub_ok 0x40103000 0x401B0000 0x40081000 0x47000000 (fun x => x) trampoline_mmu) as (m0 & Es & _).
  destruct (stub_ok _ _ _ _ _ _ _ _ _ virt_board_ok (fun x => x) trampoline_mmu) as (m0' & mmu0 & Es' & _ & _ & Hz).
  assert (m0' = m0) as ->. { change (boot_stub _ _ _ _ _ _) with (boot_stub 0x40103000 0x401B0000 0x40081000 0x47000000 (fun x => x) trampoline_mmu) in Es'. congruence. }
  destruct (build_mapped (P := release_dev) _ _ _ _ _ _ _ _ _ virt_board_ok m0 Hz) as (root & fr & m1 & Eb & _).
  set (r0 := install_roots 0x40081000 trampoline_mmu).
  assert (rtc (mmu_step m1) (switch_ttbr1 root ++ disable_ttbr0, r0)
    ([DsbIsh; TlbiVmalle1is; DsbIsh; Isb], run_of (switch_ttbr1 root ++ [MrsTcr; OrrTcr TCR_EPD0; MsrTcr; MsrTtbr0 0]) r0)) as R.
  { do 9 (eapply rtc_l; [apply step_instr|]). apply rtc_refl. }
  exists m0, root, fr, m1, (run_of (switch_ttbr1 root ++ [MrsTcr; OrrTcr TCR_EPD0; MsrTcr; MsrTtbr0 0]) r0).
  split_and!; [exact Es|exact Eb|exact R|]. intros x Hx.
  set (e := section_entry ((0xFFFFFFFF80100000, 0xFFFFFFFF80101000), TEXT_ATTRS)).
  change (Some 0x40100800) with (Some (0xFFFFFFFF80100800 - pl_off e)).
  eapply (switches_keep_kernel (P := release_dev) _ _ _ _ _ _ _ _ _ _ _ _ _ _ _ _ _ _ _ _ _ _ e 0x40100800 virt_board_ok Es Eb);
    [apply install_roots_at_rest|exact R|exact Hx|lia| | |].
  - change (build_plan _ _) with (build_plan virt_ram (ld_map virt_linker)). do 5 right. left.
  - vm_compute. intuition congruence.
  - reflexivity.
Defined.
