(* ===== verification/Secondary.v ===== *)
(** * cpu/asm/secondary.s: a secondary CPU from [CPU_ON] to Rust

    [Smp] models a started CPU by the registers it ends up with; here is the code that
    loads them: the MMU comes up on the boot stub's identity map and the runtime root,
    and the boot data is read through the linear window.  The last theorem is what the
    reclaim of the trampoline means for these CPUs. *)

From stdpp Require Import strings.
From S2P Require Import Prelude Arch MmuConfig FrameTypes Layout Uart Buddy BuddyInv BuddyCore BuddyAddr PageTable PageTableProps Frame KernelMap KernelMapProps Mmu BootStub Boot Percpu Smp SmpProps Fmt Kmain KmainProps KmainSwitch.
Open Scope list_scope.
Open Scope Z_scope.

(* ------------------------------------------------------------------------- *)
(** ** The code *)

(** The registers that secondary.s sets. *)
Record SecondaryCpu := mkSecondaryCpu {
  sc_mmu : Mmu;
  sc_mair : Z;
  sc_sctlr : Z;
  sc_cpacr : Z;
  sc_sp : Z;
  sc_tpidr : Z;
  sc_vbar : Z;
  sc_x0 : Z;
}.

(** A load with the MMU on. *)
Definition load (m : mem) (s : Mmu) (va : Z) : outcome Z :=
  match address (walk m (now s) va) va with Some pa => Ok (m pa) | None => Panic DataAbort end.

(** [TCR_EL1], the two roots, and the ceremony before [SCTLR_EL1.M]. *)
Definition secondary_tables (bb ttbr1 : Z) (s : Mmu) : Mmu :=
  let s := set_now s (mkMmuRegs (TTBR0 (now s)) (TTBR1 (now s)) BOOT_TCR) in
  run_of [Isb; MsrTtbr0 (idmap_l0 bb); MsrTtbr1 ttbr1; DsbIsh; TlbiVmalle1is; DsbIsh; Isb] s.

(** From [secondary_high] to the call of [secondary_cpu_main]. *)
Definition secondary_high (vector_table : Z) (m : mem) (x19 : Z) (c : SecondaryCpu) : outcome SecondaryCpu :=
  let x19 := Z.lor x19 KERNEL_LINEAR_BASE in
  let! sp := load m (sc_mmu c) (x19 + 8) in
  let! offset := load m (sc_mmu c) x19 in
  Ok (mkSecondaryCpu (sc_mmu c) (sc_mair c) (sc_sctlr c) (sc_cpacr c) sp offset vector_table x19).

(** [x0] is the physical address of the boot data; the MMU is off. *)
Definition secondary_entry_code (bb vector_table : Z) (m : mem) (x0 : Z) (c : SecondaryCpu) : outcome SecondaryCpu :=
  let mmu := secondary_tables bb (m (x0 + 16)) (sc_mmu c) in
  let c := mkSecondaryCpu mmu BOOT_MAIR (Z.lor (sc_sctlr c) 1) (Z.lor (sc_cpacr c) (Z.shiftl 3 20))
             (sc_sp c) (sc_tpidr c) (sc_vbar c) x0 in
  secondary_high vector_table m x0 c.

(** The translation registers it ends with; and those of a CPU as [Smp] has them. *)
Definition secondary_regs (bb root : Z) : MmuRegs := mkMmuRegs (idmap_l0 bb) root BOOT_TCR.
Definition cpu_mmu (r : CpuRegs) : MmuRegs := mkMmuRegs (ttbr0_el1 r) (ttbr1_el1 r) (tcr_el1 r).

(** The words of a [SecondaryBootData] at a physical address. *)
Definition boot_data_words (m : mem) (pa : Z) (bd : SecondaryBootData) : Prop :=
  m pa = percpu_offset bd /\ m (pa + 8) = boot_stack_top bd /\ m (pa + 16) = ttbr1_root bd.

(* ------------------------------------------------------------------------- *)
(** ** Lemmas *)

Lemma secondary_at_rest m bb root s : at_rest m (secondary_regs bb root) (secondary_tables bb root s).
Proof. constructor; [done..|]. intros ? ? []%elem_of_nil. Qed.

(** The identity map of the image's first 2 MiB is in force until the trampoline goes. *)
Lemma secondary_identity m bb root pa :
  page_aligned bb -> bb + 0xC000 <= 2 ^ 48 -> trampoline_at bb m -> IMAGE_PA_BASE <= pa < IMAGE_PA_BASE + BLOCK_2MB ->
  address (walk m (secondary_regs bb root) pa) pa = Some pa.
Proof.
  intros Hal Htop T Hpa. change BLOCK_2MB with 0x200000 in Hpa. unfold IMAGE_PA_BASE in Hpa.
  assert (pa / 2 ^ 48 = 0) as Hd by (apply Z.div_small; lia).
  unfold secondary_regs. rewrite (walk_lower m _ _ (kernel_l0 bb)).
  - change (mkMmuRegs _ _ _) with (boot_regs bb). rewrite trampoline_walk by (done || lia).
    unfold untagged. rewrite Hd. change (0 mod 2 ^ 8 =? 0) with true. cbv iota. rewrite Z.mod_small by lia.
    unfold trampoline_plan, IMAGE_PA_BASE. cbn [planned pl_lo pl_hi pl_off]. change UART_PA with 0x09000000.
    change PAGE_SIZE with 4096. change BLOCK_2MB with 0x200000.
    destruct (Z.leb_spec 0x09000000 pa), (Z.ltb_spec pa (0x09000000 + 4096)); try lia; cbn [andb];
      destruct (Z.leb_spec 0x40000000 pa), (Z.ltb_spec pa (0x40000000 + 0x200000)); try lia; cbn [andb]; f_equal; lia.
  - rewrite half_boot by (done || lia). unfold upper, UPPER. lia.
Qed.

(** One word at the root that names the root itself: four levels of it map address 0. *)
Lemma self_map m t r attrs :
  page_aligned t -> m t = Entry_page t attrs -> walk m (secondary_regs t r) 0 = Some (Entry_page t attrs, L3).
Proof.
  intros Hal Hm. unfold walk, secondary_regs, idmap_l0. cbn [TCR TTBR0 TTBR1].
  change (half BOOT_TCR 0) with (Some false). change (Z.testbit BOOT_TCR 7) with false. cbv iota.
  rewrite land_mask_aligned by done. unfold leaf_of, all_levels. cbn [hw_walk].
  destruct (leaf_reads t attrs TYPE_TABLE_OR_PAGE) as (Hv & Htab & Hout); [by right|]. specialize (Hout Hal).
  fold (Entry_page t attrs) in Hv, Htab, Hout. rewrite bool_decide_true in Htab by done.
  assert (forall l, PageTable_entry_at m t 0 l = Entry_page t attrs) as He.
  { intros l. rewrite <- Hm. unfold PageTable_entry_at, slot. f_equal.
    assert (Level_index_in l 0 = 0) as -> by (by destruct l). lia. }
  by repeat (rewrite He, Hv; cbn [negb]; rewrite Htab, ?Hout).
Qed.

(** The array of boot data in memory. *)
Definition boot_data_in (Y : SmpSymbols) (m : mem) (bds : list SecondaryBootData) : Prop :=
  forall i bd, getz bds i = Some bd ->
    boot_data_words m (BOOT_DATA Y - KERNEL_IMAGE_BASE + IMAGE_PA_BASE + i * SIZEOF_BootDataCell) bd.

(** What [Smp] lets a started CPU do is what it finds there: the registers, by name. *)
Lemma secondary_run_regs {P : Profile} {FW} Y m self ctx (st st' : SmpState FW) :
  boot_data_in Y m (boot_data st) -> secondary_run Y self ctx st = Ok st' ->
  boot_data_words m ctx (mkBootData (tpidr_el1 (regs st' self)) (sp_el1 (regs st' self)) (ttbr1_el1 (regs st' self))) /\
  ttbr0_el1 (regs st' self) = idmap_root Y /\ tcr_el1 (regs st' self) = BOOT_TCR.
Proof.
  intros Hm E. unfold secondary_run in E. apply obind_Ok_inv in E as (bd & Eb & E).
  apply obind_Ok_inv in E as (cpu & _ & E). unfold mark_online in E. apply obind_Ok_inv in E as (bit & _ & [= <-]).
  cbn [regs set_online set_console set_regs]. rewrite fn_lookup_insert. cbn [tpidr_el1 sp_el1 ttbr1_el1 ttbr0_el1 tcr_el1]. split; [|done].
  unfold boot_data_at in Eb. set (off := ctx - IMAGE_PA_BASE + KERNEL_IMAGE_BASE - BOOT_DATA Y) in Eb.
  destruct (Z.eqb_spec (off mod SIZEOF_BootDataCell) 0) as [Ho|]; [|done]. unfold idx in Eb.
  destruct (getz (boot_data st) (off / SIZEOF_BootDataCell)) as [bd'|] eqn:Eg; [|done]. injection Eb as ->.
  specialize (Hm _ _ Eg). destruct bd.
  replace ctx with (BOOT_DATA Y - KERNEL_IMAGE_BASE + IMAGE_PA_BASE + off / SIZEOF_BootDataCell * SIZEOF_BootDataCell); [done|].
  unfold off, SIZEOF_BootDataCell in *. Z.div_mod_to_equations. lia.
Qed.

(** A load through the linear window reads the word at the physical address. *)
Lemma load_linear m t0 root ram k r pa s :
  follows_plan m root (build_plan ram k) -> page_aligned root -> Forall region_good ram -> r ∈ ram ->
  now s = mkMmuRegs t0 root BOOT_TCR -> r.1 <= pa < r.1 + r.2 -> load m s (pa + KERNEL_LINEAR_BASE) = Ok (m pa).
Proof.
  intros Hp Hal Hg Hr Hn Hpa. unfold load. rewrite Hn. by rewrite (linear_translated _ _ _ _ _ _ _ _ Hp Hal Hg Hr) by (done || by left).
Qed.

(* ------------------------------------------------------------------------- *)
(** ** Properties *)

(** C33: what [Smp] says of a started CPU is what its code does.  From [CPU_ON]'s entry,
    while memory holds the boot data, and the trampoline and the primary's tables as the
    boot sequence left them, the code reaches [secondary_cpu_main] without a fault,
    whatever the CPU's registers held, with the per-CPU offset, the stack, both roots and
    the [TCR_EL1] of [secondary_run]; floating point and the MMU are on and the vectors set; the image's
    first 2 MiB map to themselves, so the code survives turning the MMU on, and every
    kernel address translates as on the primary. *)
Theorem secondary_lands {P : Profile} {FW} delay fuel from_ptr raw Y current pool fdt_pa fdt
    m mmu m0 mmu0 dtb root fr m1 m' r ctx self (st st' : SmpState FW) vt c :
  board_ok (FW := FW) delay fuel from_ptr raw Y current pool fdt_pa fdt ->
  boot_stub (bss_start_pa Y) (bss_end_pa Y) (boot_bss_start Y) fdt_pa m mmu = Ok (m0, mmu0, dtb) ->
  build (ram_nodes fdt) (ld_map Y) (mkFrameState pool 0 None, m0) = Ok (root, (fr, m1)) ->
  (forall x, boot_bss_start Y <= x < boot_bss_start Y + 0xC000 \/ pool_bytes (mkFrameState pool 0 None) x -> m' x = m1 x) ->
  boot_data_in (ld_smp Y) m' (boot_data st) -> secondary_run (ld_smp Y) self ctx st = Ok st' ->
  ttbr1_el1 (regs st' self) = root -> r ∈ ram_nodes fdt -> r.1 <= ctx /\ ctx + 24 <= r.1 + r.2 ->
  exists c', secondary_entry_code (boot_bss_start Y) vt m' ctx c = Ok c' /\
    mkCpuRegs (sc_tpidr c') (sc_sp c') (TTBR1 (now (sc_mmu c'))) (TTBR0 (now (sc_mmu c'))) (TCR (now (sc_mmu c'))) = regs st' self /\
    sc_vbar c' = vt /\ sc_x0 c' = ctx + KERNEL_LINEAR_BASE /\
    Z.testbit (sc_sctlr c') 0 = true /\ Z.land (Z.shiftr (sc_cpacr c') 20) 3 = 3 /\ sc_mair c' = BOOT_MAIR /\
    at_rest m' (secondary_regs (boot_bss_start Y) root) (sc_mmu c') /\
    (forall pa, IMAGE_PA_BASE <= pa < IMAGE_PA_BASE + BLOCK_2MB ->
       address (walk m' (secondary_regs (boot_bss_start Y) root) pa) pa = Some pa) /\
    (forall va, upper va -> address (walk m' (secondary_regs (boot_bss_start Y) root) va) va
                            = planned (build_plan (ram_nodes fdt) (ld_map Y)) va).
Proof.
  intros Bd Es Eb Hm Hbd Erun Hroot Hr Hctx. pose proof (secondary_run_regs _ _ _ _ _ _ Hbd Erun) as ((Hw0 & Hw1 & Hw2) & H0 & Ht).
  cbn [percpu_offset boot_stack_top ttbr1_root] in *.
  destruct (stub_ok _ _ _ _ _ _ _ _ _ Bd m mmu) as (m0' & mmu0' & Es' & _ & T & Hz).
  rewrite Es in Es'. injection Es' as <- <- _.
  destruct (build_mapped _ _ _ _ _ _ _ _ _ Bd m0 Hz) as (root' & fr' & m1' & Eb' & M).
  unfold pool0 in Eb'. rewrite Eb in Eb'. injection Eb' as <- <- <-.
  destruct (mapped_kept _ _ _ _ _ _ _ m' M) as [Hp Hal]; [intros x Hx; apply Hm; by right|].
  assert (trampoline_at (boot_bss_start Y) m') as T'.
  { eapply trampoline_kept; [|by eapply trampoline_survives]. intros x Hx. apply Hm. by left. }
  destruct (trampoline_place _ _ _ _ _ _ _ _ _ Bd) as [Hbb Htop], (bo_ram _ _ _ _ _ _ _ _ _ Bd) as [Hg _].
  pose proof Hg as Hg'. rewrite list.Forall_forall in Hg'. destruct (Hg' r Hr) as (Hr0 & _ & Hrs & _).
  unfold secondary_entry_code, secondary_high. cbn [sc_mmu]. rewrite Hw2, Hroot.
  assert (Z.lor ctx KERNEL_LINEAR_BASE = ctx + KERNEL_LINEAR_BASE) as ->.
  { change KERNEL_LINEAR_BASE with (0x1FFFF * 2 ^ 47). change LINEAR_SPAN with (2 ^ 46) in Hrs.
    rewrite Z.lor_comm, lor_disjoint_add; [lia|done|lia]. }
  replace (ctx + KERNEL_LINEAR_BASE + 8) with (ctx + 8 + KERNEL_LINEAR_BASE) by lia.
  rewrite !(load_linear m' (idmap_l0 (boot_bss_start Y)) root _ _ r _ _ Hp Hal Hg Hr) by (done || lia).
  cbn [obind]. eexists. split; [reflexivity|].
  cbn [sc_tpidr sc_sp sc_vbar sc_x0 sc_sctlr sc_cpacr sc_mair sc_mmu]. split_and!; try done.
  - rewrite Hw0, Hw1, (ar_now _ _ _ (secondary_at_rest m' _ root _)). cbn [TTBR1 TTBR0 TCR secondary_regs].
    rewrite <- Hroot, <- Ht, <- (bo_idmap _ _ _ _ _ _ _ _ _ Bd), <- H0. by destruct (regs st' self).
  - rewrite Z.lor_spec. apply orb_true_r.
  - by apply lor_field_set.
  - apply secondary_at_rest.
  - intros pa Hpa. by apply secondary_identity.
  - intros va Hva. apply upper_as_planned; auto.
Qed.

(** CPU 1 of QEMU's board, its boot data in the second slot, the others zero. *)
Definition demo_words (root : Z) (m : mem) : mem :=
  <[0x40104020 := 0x11000]> (<[0x40104028 := 0xFFFF800041010000]> (<[0x40104030 := root]>
    (fun x => if (0x40104000 <=? x) && (x <? 0x40105000) then 0 else m x))).
Definition demo_started (root : Z) : SmpState unit :=
  mkSmpState 1 (fun _ => mkCpuData 1 1) (setz (replicate 128 (mkBootData 0 0 0)) 1 (mkBootData 0x11000 0xFFFF800041010000 root))
    None (fun _ => mkCpuRegs 0 0 0 0 0) tt None [].

Lemma demo_boot_data root m : boot_data_in (ld_smp virt_linker) (demo_words root m) (boot_data (demo_started root)).
Proof.
  intros i bd Hi. cbn [boot_data demo_started] in Hi.
  change (BOOT_DATA (ld_smp virt_linker) - KERNEL_IMAGE_BASE + IMAGE_PA_BASE) with 0x40104000.
  unfold SIZEOF_BootDataCell. unfold demo_words. destruct (decide (i = 1)) as [->|Hne].
  - rewrite getz_setz_eq in Hi by (vm_compute; intuition congruence). injection Hi as <-. by split_and!.
  - rewrite getz_setz_ne, getz_replicate in Hi by done.
    destruct (Z.leb_spec 0 i), (Z.ltb_spec i (Z.of_nat 128)); try done. injection Hi as <-.
    unfold boot_data_words. rewrite !fn_lookup_insert_ne by lia.
    split_and!; (destruct (Z.leb_spec 0x40104000 (0x40104000 + i * 32)); [|lia]);
      repeat match goal with |- context [?a <=? ?b] => destruct (Z.leb_spec a b); [|lia] | |- context [?a <? ?b] => destruct (Z.ltb_spec a b); [|lia] end; done.
Qed.

Lemma secondary_lands_witness :
  exists m0 root fr m1 st' c',
    build (P := release_dev) (H := KernelMapAllocator (P := release_dev)) virt_ram (ld_map virt_linker)
      (mkFrameState virt_pool 0 None, m0) = Ok (root, (fr, m1)) /\
    secondary_run (P := release_dev) (ld_smp virt_linker) 1 0x40104020 (demo_started root) = Ok st' /\
    secondary_entry_code 0x40081000 0xFFFFFFFF80100000 (demo_words root m1) 0x40104020
      (mkSecondaryCpu trampoline_mmu 0 0x30d00800 0 0 0 0 0) = Ok c' /\
    mkCpuRegs (sc_tpidr c') (sc_sp c') (TTBR1 (now (sc_mmu c'))) (TTBR0 (now (sc_mmu c'))) (TCR (now (sc_mmu c'))) = regs st' 1.
Proof.
  destruct (stub_ok _ _ _ _ _ _ _ _ _ virt_board_ok (fun x => x) trampoline_mmu) as (m0 & mmu0 & Es & _ & _ & Hz).
  destruct (build_mapped (P := release_dev) _ _ _ _ _ _ _ _ _ virt_board_ok m0 Hz) as (root & fr & m1 & Eb & _).
  assert (exists st', secondary_run (P := release_dev) (ld_smp virt_linker) 1 0x40104020 (demo_started root) = Ok st' /\
    ttbr1_el1 (regs st' 1) = root) as (st' & Er & Hroot) by (eexists; split; reflexivity).
  destruct (secondary_lands (P := release_dev) _ _ _ _ _ _ _ _ _ _ _ _ _ _ _ _ m1 (demo_words root m1) (0x40000000, 0x8000000)
    0x40104020 1 (demo_started root) st' 0xFFFFFFFF80100000 (mkSecondaryCpu trampoline_mmu 0 0x30d00800 0 0 0 0 0)
    virt_board_ok Es Eb) as (c' & E & Hc & _); [|apply demo_boot_data|exact Er|exact Hroot|by left|cbn; lia|].
  - intros x Hx. assert (x < 0x40104000 \/ 0x40105000 <= x) as Hne.
    { destruct Hx as [Hx|Hx]; [change (boot_bss_start virt_linker) with 0x40081000 in Hx; lia|].
      change (0x40110000 <= x < 0x40130000) in Hx. lia. }
    unfold demo_words. rewrite !fn_lookup_insert_ne by lia.
    assert ((0x40104000 <=? x) && (x <? 0x40105000) = false) as -> by lia. reflexivity.
  - exists m0, root, fr, m1, st', c'. split_and!; [exact Eb|exact Er|exact E|exact Hc].
Defined.

(** QEMU's board with two CPUs and 4 MiB of RAM. *)
Definition duo_tree : Fdt :=
  mkFdt [mkFdtRegion 0x40000000 (Some 0x400000)] 0x200 (Some (mkPsciNode (Some (Some "hvc"%string)) (Some (Some 0xC4000003)))) [0; 1].
Definition duo_from_ptr (dtb : Z) : option Fdt := if dtb =? 0xFFFF800040300000 then Some duo_tree else None.
Local Abbreviation duo_boot :=
  (boot (P := release_dev) agreeable (fun _ _ => 3%nat) 5 duo_from_ptr (fun _ => blank_raw) virt_linker
    0x80000000 virt_pool 0x40300000 (fun x => x) trampoline_mmu (fun _ => mkCpuData 0 0)
    (replicate 128 (mkBootData 0 0 0)) (fun _ => mkCpuRegs 0 0 0 0 0) tt).

Lemma duo_board_ok :
  board_ok (fun (_ : unit) _ => 3%nat) 5 duo_from_ptr (fun _ => blank_raw) virt_linker 0x80000000 virt_pool 0x40300000 duo_tree.
Proof.
  destruct virt_board_ok. split; try done.
  - exists (0x40000000, 0x400000). split_and!; [by left|vm_compute; congruence..].
  - exists (0x40000000, 0x400000). split_and!; [by left|vm_compute; congruence..].
  - split; [|vm_compute; congruence]. constructor; [|constructor]. split; [cbn; lia|].
    intros size [= <-]. unfold PAGE_SIZE. cbn. lia.
  - split; [|by repeat constructor]. constructor; [|constructor]. split_and!; try done; [by exists 0x200|by exists 2].
  - split; [|done]. vm_compute. constructor; [by intros ?%elem_of_nil|constructor].
Qed.

Definition boot_log (o : outcome (Booted unit)) : list string :=
  match o with Ok k => k_console (kernel k) | Panic _ => [] end.

Lemma boot_log_ok o : boot_log o <> [] -> exists k, o = Ok k.
Proof. destruct o as [k|]; [by exists k|done]. Qed.

(** The model is executed: from the first instruction of the stub to the last log line. *)
Lemma duo_boots : boot_log duo_boot =
  ["Hello from Preon kernel!"; "kernel_map built, root at 0x40110000"; "TTBR1 switched"; "TTBR0 disabled";
   "buddy up: 651 free frames"; "CPU 1 online (mpidr=0x1)"; "reclaimed 12 trampoline pages";
   "buddy alloc: 0x4008c000, 0x40081000"; "vec len=4 @ 0xffff800040301ff0"; "box 0xdeadbeef @ 0xffff800040082ff8";
   "Triggering exception..."]%string.
Proof. vm_compute. reflexivity. Qed.

(** C34: what the reclaim takes from the secondary CPUs.  [disable_ttbr0] runs on the
    primary alone.  When the kernel has booted, the page of the trampoline's identity
    root belongs to the buddy allocator, and every secondary CPU of the device tree still
    has that page in its TTBR0, with walks enabled in its [TCR_EL1].  One word that the
    page's next owner writes at its start gives each of them a mapping of the page at
    address 0, with whatever attributes the word has; on the primary that address still
    faults. *)
Theorem secondary_root_freed {P : Profile} {FW} smccc delay fuel from_ptr raw Y current pool fdt_pa fdt m mmu data bd rs (f : FW) k attrs :
  board_ok delay fuel from_ptr raw Y current pool fdt_pa fdt -> lenz bd = MAX_CPUS ->
  boot smccc delay fuel from_ptr raw Y current pool fdt_pa m mmu data bd rs f = Ok k ->
  let page := idmap_l0 (boot_bss_start Y) in
  let m' := <[page := Entry_page page attrs]> (k_mem (kernel k)) in
  exists b p, BUDDY (k_frames (kernel k)) = Some b /\ owned b p /\ dram_base b + p * PAGE_SIZE = page /\
    address (walk m' (now (k_mmu (kernel k))) 0) 0 = None /\
    forall c, c ∈ secondaries (Mpidr_new current) (fdt_cpus fdt) ->
      let r := cpu_mmu (regs (k_smp (kernel k)) c) in
      TTBR0 r = page /\ Z.land (TCR r) TCR_EPD0 = 0 /\
      walk m' r 0 = Some (Entry_page page attrs, L3) /\ address (walk m' r 0) 0 = Some page.
Proof.
  intros Bd Hbd E page m'. unfold boot in E.
  destruct (stub_ok _ _ _ _ _ _ _ _ _ Bd m mmu) as (m0 & mmu0 & Es & A & T & Hz). rewrite Es in E. cbn [obind] in E.
  destruct (kmain_ok smccc _ _ _ _ _ _ _ _ _ Bd m0 mmu0 data bd rs f A T Hz Hbd) as [[E' _]|[[E' _]|(k' & E' & B)]];
    rewrite E in E'; [done|done|]. injection E' as <-.
  destruct (trampoline_place _ _ _ _ _ _ _ _ _ Bd) as [Hal Htop]. pose proof Hal as [H0 Hd].
  pose proof (pool_range _ _ _ _ _ _ _ _ _ Bd) as (Hp1 & _).
  destruct (bo_trampoline _ _ _ _ _ _ _ _ _ Bd) as (_ & _ & Ht2 & Ht3), (bo_bss _ _ _ _ _ _ _ _ _ Bd) as (Hb1 & _ & _).
  destruct (bt_memory _ _ _ _ _ _ B) as (b & fl & f1 & f2 & up & mm & given & Hb & Hpl & _ & _ & Htr & _ & _ & _ &
    _ & _ & _ & _ & _ & _ & _ & _ & _ & _ & Hsec & _ & _ & Hup).
  destruct (Htr (boot_bss_start Y)) as (p & Hp & Hin); [lia|]. exists b, p. split_and!; [done|done| | |].
  - destruct (pl_align _ Hpl) as [d Hdb], Hd as [z Hz']. unfold in_frame, page, idmap_l0, PAGE_SIZE in *. lia.
  - rewrite (bt_space _ _ _ _ _ _ B m') by (lia || (intros x Hx; apply fn_lookup_insert_ne; unfold pool_bytes, page, idmap_l0 in *; lia)).
    destruct (planned_cases (build_plan (ram_nodes fdt) (ld_map Y)) 0) as [(e & He & Hi & _)|[? _]]; [|done].
    destruct (bo_ram _ _ _ _ _ _ _ _ _ Bd) as [Hg _].
    pose proof (build_plan_upper _ _ _ Hg (bo_sections _ _ _ _ _ _ _ _ _ Bd) He). unfold in_plan, UPPER in *. lia.
  - intros c Hc r. change (Mpidr_new current) with (primary current) in Hc. rewrite Hsec in Hc. apply list_elem_of_fmap in Hc as ([c' q] & -> & (i & Hi)%list_elem_of_lookup_1).
    destruct (Hup (Z.of_nat i) c' q) as [_ Hr _]; [unfold getz; rewrite Nat2Z.id; by destruct (Z.leb_spec 0 (Z.of_nat i)); [|lia]|].
    assert (r = secondary_regs (boot_bss_start Y) (root k)) as ->.
    { unfold r. cbn [fst]. rewrite Hr. unfold cpu_mmu, secondary_regs. cbn. by rewrite (bo_idmap _ _ _ _ _ _ _ _ _ Bd). }
    assert (walk m' (secondary_regs (boot_bss_start Y) (root k)) 0 = Some (Entry_page page attrs, L3)) as Hw.
    { apply self_map; [done|]. unfold m', page. by rewrite fn_lookup_insert. }
    rewrite Hw. split_and!; [done..|].
    destruct (leaf_reads page attrs TYPE_TABLE_OR_PAGE) as (_ & _ & Hout); [by right|].
    cbn [address Level_index_shift]. unfold Entry_page. rewrite Hout by done. f_equal. apply Z.add_0_r.
Qed.

(** CPU 1 of that board. *)
Lemma secondary_root_freed_witness :
  exists k, duo_boot = Ok k /\
    let m' := <[0x40081000 := Entry_page 0x40081000 DATA_ATTRS]> (k_mem (kernel k)) in
    let r := cpu_mmu (regs (k_smp (kernel k)) 1) in
    (exists b p, BUDDY (k_frames (kernel k)) = Some b /\ owned b p /\ dram_base b + p * PAGE_SIZE = 0x40081000) /\
    TTBR0 r = 0x40081000 /\ address (walk m' r 0) 0 = Some 0x40081000 /\
    address (walk m' (now (k_mmu (kernel k))) 0) 0 = None.
Proof.
  destruct (boot_log_ok duo_boot) as [k E]; [rewrite duo_boots; discriminate|]. exists k. split; [exact E|].
  destruct (secondary_root_freed (P := release_dev) _ _ _ _ _ _ _ _ _ _ _ _ _ _ _ _ k DATA_ATTRS
    duo_board_ok (eq_refl : lenz (replicate 128 (mkBootData 0 0 0)) = MAX_CPUS) E) as (b & p & Hb & Hp & Hd & Hn & Hs).
  change (idmap_l0 (boot_bss_start virt_linker)) with 0x40081000 in *. clear E.
  destruct (Hs 1) as (H0 & _ & _ & Ha); [vm_compute; by left|]. cbv zeta.
  split; [exists b, p; split; [exact Hb|split; [exact Hp|exact Hd]]|]. split; [exact H0|]. split; [exact Ha|exact Hn].
Defined.
